(** * A shallow embedding of [src/python/go_board.py]

    The Go board of the repository is a flat array of 21 x 21 points with a
    ring of guard cells, a circular linked list per chain threaded through
    the array, and per-chain liberty statistics (count, sum, sum of squares).

    Python integers are modelled by [Z], Python lists by [list] with the
    interpreter's index rule (negative indices count from the end, anything
    else out of range raises [IndexError]), exceptions by the [res] monad,
    and the two [while True] loops by fuel-bounded recursion whose
    exhaustion is a result of its own ([Timeout]). *)

From Stdlib Require Import ZArith Lia Bool Ascii String DecimalString.
From stdpp Require Import base tactics option list strings gmap.

Open Scope Z_scope.

(** ** Results of running Python code *)

Inductive exn :=
  IndexError | AssertionError | ValueError | ZeroDivisionError | AttributeError.

Inductive res (A : Type) : Type :=
| Ok (a : A)
| Raise (e : exn)
| Timeout.
Arguments Ok {A} a.
Arguments Raise {A} e.
Arguments Timeout {A}.

#[global] Instance exn_eq_dec : EqDecision exn.
Proof. solve_decision. Defined.
#[global] Instance res_eq_dec {A : Type} `{EqDecision A} : EqDecision (res A).
Proof. solve_decision. Defined.

#[global] Instance res_ret : MRet res := fun A a => Ok a.
#[global] Instance res_bind : MBind res := fun A B f m =>
  match m with
  | Ok a => f a
  | Raise e => Raise e
  | Timeout => Timeout
  end.

Definition assert (c : bool) : res unit :=
  if c then Ok tt else Raise AssertionError.

(** [for x in l: s = body(s, x)] over an explicit state. *)
Fixpoint for_each {A S : Type} (l : list A) (body : S -> A -> res S) (s : S) : res S :=
  match l with
  | [] => Ok s
  | x :: l' => s' ← body s x; for_each l' body s'
  end.

(** [for x in l: if test(x): return True] followed by falling through. *)
Fixpoint any_of {A : Type} (l : list A) (test : A -> res bool) : res bool :=
  match l with
  | [] => Ok false
  | x :: l' => t ← test x; if (t : bool) then Ok true else any_of l' test
  end.

(** ** Python list indexing *)

Definition py_index (len : nat) (i : Z) : option nat :=
  if bool_decide (0 <= i < Z.of_nat len) then Some (Z.to_nat i)
  else if bool_decide (- Z.of_nat len <= i < 0) then Some (Z.to_nat (Z.of_nat len + i))
  else None.

Definition getitem {A : Type} (l : list A) (i : Z) : res A :=
  match py_index (length l) i with
  | Some k => match l !! k with Some x => Ok x | None => Raise IndexError end
  | None => Raise IndexError
  end.

Definition setitem {A : Type} (l : list A) (i : Z) (x : A) : res (list A) :=
  match py_index (length l) i with
  | Some k => Ok (<[k:=x]> l)
  | None => Raise IndexError
  end.

(** ** Colors *)

Inductive Color := BLACK | WHITE | EMPTY | GUARD.

#[global] Instance Color_eq_dec : EqDecision Color.
Proof. solve_decision. Defined.

(** The [IntEnum] value, used to index the zobrist table. *)
Definition Color_value (c : Color) : Z :=
  match c with BLACK => 0 | WHITE => 1 | EMPTY => 2 | GUARD => 3 end.

Definition opponent (c : Color) : Color :=
  match c with BLACK => WHITE | WHITE => BLACK | _ => c end.

Definition is_stone (c : Color) : bool :=
  match c with BLACK | WHITE => true | _ => false end.

(** ** Constants and coordinates *)

Abbreviation Point := Z (only parsing).

Definition VIRTUAL_BOARD_SIZE : Z := 21.
Definition VIRTUAL_BOARD_POINTS : Z := VIRTUAL_BOARD_SIZE * VIRTUAL_BOARD_SIZE.
Definition INVALID_POINT : Point := -1.
Definition PASS : Point := 20 * VIRTUAL_BOARD_SIZE.

Definition point_to_2d (p : Point) : Z * Z :=
  if bool_decide (p = INVALID_POINT \/ p = PASS) then (-1, -1)
  else (p / VIRTUAL_BOARD_SIZE - 1, p mod VIRTUAL_BOARD_SIZE - 1).

Definition point_from_2d (row col : Z) : Point :=
  (row + 1) * VIRTUAL_BOARD_SIZE + col + 1.

Definition range (n : Z) : list Z := Z.of_nat <$> seq 0 (Z.to_nat n).

Definition board_points (board_size : Z) : list Point :=
  row ← range board_size; col ← range board_size; [point_from_2d row col].

Definition neighbours (p : Point) : list Point :=
  [p + VIRTUAL_BOARD_SIZE; p - 1; p + 1; p - VIRTUAL_BOARD_SIZE].
Arguments neighbours : simpl never.

(** ** Vertices and chains *)

Module Vertex.
Record t := mk { chain_head : Point; chain_next : Point; color : Color }.
Definition with_chain_head (h : Point) (v : t) : t := mk h (chain_next v) (color v).
Definition with_chain_next (n : Point) (v : t) : t := mk (chain_head v) n (color v).
Definition with_color (c : Color) (v : t) : t := mk (chain_head v) (chain_next v) c.
End Vertex.

Module Chain.
Record t := mk {
  num_stones : Z;
  num_pseudo_liberties : Z;
  liberty_vertex_sum : Z;
  liberty_vertex_sum_squared : Z }.

(** [Chain()]: the border values of the dataclass defaults. *)
Definition new : t := mk 0 4 32768 2147483648.

Definition in_atari (c : t) : bool :=
  num_pseudo_liberties c * liberty_vertex_sum_squared c
    =? liberty_vertex_sum c * liberty_vertex_sum c.

Definition reset (c : t) : t := mk 0 0 0 0.

Definition merge (c other : t) : t :=
  mk (num_stones c + num_stones other)
     (num_pseudo_liberties c + num_pseudo_liberties other)
     (liberty_vertex_sum c + liberty_vertex_sum other)
     (liberty_vertex_sum_squared c + liberty_vertex_sum_squared other).

Definition add_liberty (p : Point) (c : t) : t :=
  mk (num_stones c) (num_pseudo_liberties c + 1)
     (liberty_vertex_sum c + p) (liberty_vertex_sum_squared c + p * p).

Definition remove_liberty (p : Point) (c : t) : t :=
  mk (num_stones c) (num_pseudo_liberties c - 1)
     (liberty_vertex_sum c - p) (liberty_vertex_sum_squared c - p * p).

Definition incr_num_stones (c : t) : t :=
  mk (num_stones c + 1) (num_pseudo_liberties c)
     (liberty_vertex_sum c) (liberty_vertex_sum_squared c).

(** Python's [%] and [//] on integers are floored, as [Z.modulo] and
    [Z.div] are; a zero divisor raises. *)
Definition single_liberty (c : t) : res Point :=
  _ ← assert (in_atari c);
  if num_pseudo_liberties c =? 0 then Raise ZeroDivisionError else
  _ ← assert (liberty_vertex_sum c mod num_pseudo_liberties c =? 0);
  Ok (liberty_vertex_sum c / num_pseudo_liberties c).

(** The statistics of a multiset of liberty coordinates. *)
Fixpoint coord_sum (l : list Point) : Z :=
  match l with [] => 0 | x :: l' => x + coord_sum l' end.
Fixpoint coord_sum_squared (l : list Point) : Z :=
  match l with [] => 0 | x :: l' => x * x + coord_sum_squared l' end.

Definition aggregates (c : t) (l : list Point) : Prop :=
  num_pseudo_liberties c = Z.of_nat (length l) /\
  liberty_vertex_sum c = coord_sum l /\
  liberty_vertex_sum_squared c = coord_sum_squared l.
End Chain.

#[global] Instance Vertex_inhabited : Inhabited Vertex.t :=
  populate (Vertex.mk INVALID_POINT INVALID_POINT GUARD).
#[global] Instance Chain_inhabited : Inhabited Chain.t := populate Chain.new.

(** ** Chain accounting: the Cauchy-Schwarz test *)

Module ChainFacts.
Import Chain.

(** Sum of squared distances of the elements of [l] to [x]. *)
Fixpoint spread (x : Z) (l : list Z) : Z :=
  match l with [] => 0 | y :: l' => (y - x) * (y - x) + spread x l' end.

Definition defect (l : list Z) : Z :=
  Z.of_nat (length l) * coord_sum_squared l - coord_sum l * coord_sum l.

Lemma spread_nonneg x l : 0 <= spread x l.
Proof.
  induction l as [|y l IH]; simpl; [lia|].
  pose proof (Z.square_nonneg (y - x)). lia.
Qed.

Lemma spread_zero x l : spread x l = 0 <-> forall y, y ∈ l -> y = x.
Proof.
  induction l as [|y l IH]; simpl.
  - split; [intros _ y Hy; inversion Hy|done].
  - pose proof (spread_nonneg x l) as Hs. split.
    + intros H y' Hy'. pose proof (Z.square_nonneg (y - x)) as Hq.
      assert ((y - x) * (y - x) = 0) as Hz by lia.
      assert (y = x) by (apply Z.mul_eq_0 in Hz; lia).
      assert (spread x l = 0) as Hl by lia.
      apply elem_of_cons in Hy' as [->|Hy']; [done|]. by apply IH.
    + intros H. rewrite (H y) by apply list_elem_of_here.
      assert (spread x l = 0) as ->; [|lia].
      apply IH. intros y' Hy'. apply H. by apply list_elem_of_further.
Qed.

Lemma spread_expand x l :
  spread x l = coord_sum_squared l - 2 * x * coord_sum l + Z.of_nat (length l) * x * x.
Proof.
  induction l as [|y l IH]; [simpl; lia|].
  cbn [spread coord_sum coord_sum_squared length]. rewrite IH. lia.
Qed.

Lemma defect_cons x l : defect (x :: l) = defect l + spread x l.
Proof.
  unfold defect. rewrite spread_expand.
  cbn [coord_sum coord_sum_squared length]. lia.
Qed.

Lemma defect_nonneg l : 0 <= defect l.
Proof.
  induction l as [|x l IH]; [done|].
  rewrite defect_cons. pose proof (spread_nonneg x l). lia.
Qed.

Definition all_equal_to (x : Z) (l : list Z) : Prop := forall y, y ∈ l -> y = x.

Lemma defect_zero x l : defect (x :: l) = 0 <-> all_equal_to x (x :: l).
Proof.
  revert x. induction l as [|y l IH]; intros x.
  - split; [|intros _; unfold defect; simpl; lia].
    intros _ z Hz. by apply list_elem_of_singleton in Hz.
  - rewrite defect_cons.
    pose proof (defect_nonneg (y :: l)). pose proof (spread_nonneg x (y :: l)).
    split.
    + intros Hd0. assert (spread x (y :: l) = 0) as Hs by lia.
      rewrite spread_zero in Hs.
      intros z Hz. apply elem_of_cons in Hz as [->|Hz]; [done|]. by apply Hs.
    + intros Hall.
      assert (spread x (y :: l) = 0) as ->.
      { apply spread_zero. intros z Hz. apply Hall. by apply list_elem_of_further. }
      assert (defect (y :: l) = 0) as ->; [|lia].
      apply IH. intros z Hz.
      rewrite (Hall z) by (by apply list_elem_of_further).
      symmetry. apply Hall. apply list_elem_of_further, list_elem_of_here.
Qed.

Lemma coord_sum_all_equal x l :
  all_equal_to x l -> coord_sum l = Z.of_nat (length l) * x.
Proof.
  induction l as [|y l IH]; intros H; [simpl; lia|].
  cbn [coord_sum length]. rewrite IH.
  - rewrite (H y) by apply list_elem_of_here. lia.
  - intros z Hz. apply H. by apply list_elem_of_further.
Qed.

Lemma in_atari_defect c l :
  aggregates c l -> in_atari c = true <-> defect l = 0.
Proof.
  intros (Hn & Hs & Hq). unfold in_atari, defect.
  rewrite Hn, Hs, Hq, Z.eqb_eq. lia.
Qed.

Lemma remove_dups_all_equal x (l : list Z) :
  all_equal_to x (x :: l) -> remove_dups (x :: l) = [x].
Proof.
  induction l as [|y l IH]; intros H; [done|].
  assert (y = x) as -> by (apply H, list_elem_of_further, list_elem_of_here).
  assert (remove_dups (x :: l) = [x]) as IH'.
  { apply IH. intros z Hz. apply H.
    apply elem_of_cons in Hz as [->|Hz]; [apply list_elem_of_here|].
    by do 2 apply list_elem_of_further. }
  change (remove_dups (x :: x :: l)) with
    (if decide_rel elem_of x (x :: l) then remove_dups (x :: l)
     else x :: remove_dups (x :: l)).
  destruct (decide_rel elem_of x (x :: l)) as [|Hn]; [done|].
  exfalso. apply Hn, list_elem_of_here.
Qed.

Lemma remove_dups_singleton x (l : list Z) z :
  remove_dups l = [x] -> z ∈ l -> z = x.
Proof.
  intros H Hz. apply elem_of_remove_dups in Hz. rewrite H in Hz.
  by apply list_elem_of_singleton in Hz.
Qed.
End ChainFacts.

(** ** The board *)

Record GoBoard := mkGoBoard {
  _board_size : Z;
  _last_ko_point : Point;
  _board : list Vertex.t;
  _chains : list Chain.t;
  _last_captures : list Point;
  _zobrist_hash : Z }.

Definition with_last_ko_point (k : Point) (b : GoBoard) : GoBoard :=
  mkGoBoard (_board_size b) k (_board b) (_chains b) (_last_captures b) (_zobrist_hash b).
Definition with_board (l : list Vertex.t) (b : GoBoard) : GoBoard :=
  mkGoBoard (_board_size b) (_last_ko_point b) l (_chains b) (_last_captures b) (_zobrist_hash b).
Definition with_chains (l : list Chain.t) (b : GoBoard) : GoBoard :=
  mkGoBoard (_board_size b) (_last_ko_point b) (_board b) l (_last_captures b) (_zobrist_hash b).
Definition with_last_captures (l : list Point) (b : GoBoard) : GoBoard :=
  mkGoBoard (_board_size b) (_last_ko_point b) (_board b) (_chains b) l (_zobrist_hash b).
Definition with_zobrist_hash (h : Z) (b : GoBoard) : GoBoard :=
  mkGoBoard (_board_size b) (_last_ko_point b) (_board b) (_chains b) (_last_captures b) h.

(** Reading [self._board[p]] and assigning one attribute of that vertex. *)
Definition vertex (b : GoBoard) (p : Point) : res Vertex.t := getitem (_board b) p.

Definition update_vertex (b : GoBoard) (p : Point) (f : Vertex.t -> Vertex.t) : res GoBoard :=
  v ← getitem (_board b) p;
  l ← setitem (_board b) p (f v);
  Ok (with_board l b).

(** Mutating the chain object [self._chains[h]] in place. *)
Definition update_chain_at (b : GoBoard) (h : Point) (f : Chain.t -> Chain.t) : res GoBoard :=
  c ← getitem (_chains b) h;
  l ← setitem (_chains b) h (f c);
  Ok (with_chains l b).

Definition point_color (b : GoBoard) (p : Point) : res Color :=
  v ← vertex b p; Ok (Vertex.color v).

Definition is_empty (b : GoBoard) (p : Point) : res bool :=
  c ← point_color b p; Ok (bool_decide (c = EMPTY)).

Definition in_board_area (b : GoBoard) (p : Point) : bool :=
  let '(row, col) := point_to_2d p in
  (0 <=? row) && (row <? _board_size b) && (0 <=? col) && (col <? _board_size b).

Definition chain_head (b : GoBoard) (p : Point) : res Point :=
  v ← vertex b p; Ok (Vertex.chain_head v).

Definition _chain (b : GoBoard) (p : Point) : res Chain.t :=
  h ← chain_head b p; getitem (_chains b) h.

(** Mutating the chain object returned by [self._chain(p)]. *)
Definition update_chain (b : GoBoard) (p : Point) (f : Chain.t -> Chain.t) : res GoBoard :=
  h ← chain_head b p; update_chain_at b h f.

Definition chain_size (b : GoBoard) (p : Point) : res Z :=
  c ← _chain b p; Ok (Chain.num_stones c).

Definition pseudo_liberty (b : GoBoard) (p : Point) : res Z :=
  chain ← _chain b p;
  if Chain.num_pseudo_liberties chain =? 0 then Ok 0
  else if Chain.in_atari chain then Ok 1
  else Ok (Chain.num_pseudo_liberties chain).

Definition in_atari (b : GoBoard) (p : Point) : res bool :=
  c ← _chain b p; Ok (Chain.in_atari c).

Definition __hash__ (b : GoBoard) : Z := _zobrist_hash b.

(** The loops of [while True: ...; if cur == start: break] get as much fuel
    as there are points: a ring cannot be longer. *)
Definition loop_fuel : nat := Z.to_nat VIRTUAL_BOARD_POINTS.

Definition is_legal_move (b : GoBoard) (p : Point) (c : Color) : res bool :=
  if p =? PASS then Ok true else
  if negb (in_board_area b p) then Ok false else
  e ← is_empty b p;
  if negb e || (p =? _last_ko_point b) then Ok false else
  ch ← _chain b p;
  if 0 <? Chain.num_pseudo_liberties ch then Ok true else
  connects ← any_of (neighbours p) (fun n =>
    nc ← point_color b n;
    if bool_decide (nc = c) then ch ← _chain b n; Ok (negb (Chain.in_atari ch))
    else Ok false);
  if (connects : bool) then Ok true else
  kills ← any_of (neighbours p) (fun n =>
    nc ← point_color b n;
    if bool_decide (nc = opponent c) then ch ← _chain b n; Ok (Chain.in_atari ch)
    else Ok false);
  if (kills : bool) then Ok true else Ok false.

Definition _init_new_chain (b : GoBoard) (p : Point) : res GoBoard :=
  b ← update_vertex b p (Vertex.with_chain_head p);
  b ← update_vertex b p (Vertex.with_chain_next p);
  h ← chain_head b p;
  b ← update_chain_at b h Chain.reset;
  b ← update_chain_at b h Chain.incr_num_stones;
  for_each (neighbours p) (fun b n =>
    e ← is_empty b n;
    if (e : bool) then update_chain_at b h (Chain.add_liberty n) else Ok b) b.

Definition _remove_liberty_from_neighbouring_chains (b : GoBoard) (p : Point) : res GoBoard :=
  for_each (neighbours p) (fun b n => update_chain b n (Chain.remove_liberty p)) b.

(** [while True: board[cur].chain_head = head; cur = board[cur].chain_next;
    if cur == n: break] *)
Fixpoint relabel_loop (fuel : nat) (b : GoBoard) (head n cur : Point) : res GoBoard :=
  match fuel with
  | O => Timeout
  | S fuel' =>
    b ← update_vertex b cur (Vertex.with_chain_head head);
    v ← vertex b cur;
    let cur := Vertex.chain_next v in
    if cur =? n then Ok b else relabel_loop fuel' b head n cur
  end.

Section Board.
(** The process-wide table [_ZOBRIST_VALUES], drawn at import time. *)
Variable ZOBRIST : list (list Z).

Definition zobrist_value (p : Point) (c : Color) : res Z :=
  row ← getitem ZOBRIST p; getitem row (Color_value c).

Definition _set_stone (b : GoBoard) (p : Point) (c : Color) : res GoBoard :=
  z ← (if bool_decide (c = EMPTY)
       then pc ← point_color b p; zobrist_value p pc
       else zobrist_value p c);
  let b := with_zobrist_hash (Z.lxor (_zobrist_hash b) z) b in
  update_vertex b p (Vertex.with_color c).

(** The first loop of [_join_chains_around]: the head and the size of the
    largest chain of color [c] next to [p]. *)
Definition largest_chain (b : GoBoard) (p : Point) (c : Color) : res (Point * Z) :=
  for_each (neighbours p) (fun '(largest_chain_head, largest_chain_size) n =>
    nc ← point_color b n;
    if bool_decide (nc = c) then
      chain ← _chain b n;
      if largest_chain_size <? Chain.num_stones chain then
        h ← chain_head b n; Ok (h, Chain.num_stones chain)
      else Ok (largest_chain_head, largest_chain_size)
    else Ok (largest_chain_head, largest_chain_size)) (INVALID_POINT, 0).

(** One pass of the body of its second loop: the chain of the neighbour [n]
    is merged into the largest one. *)
Definition join_step (largest_chain_head : Point) (c : Color) (b : GoBoard) (n : Point)
  : res GoBoard :=
  nc ← point_color b n;
  if bool_decide (nc = c) then
    h ← chain_head b n;
    if bool_decide (h <> largest_chain_head) then
      other ← _chain b n;
      b ← update_chain b largest_chain_head (fun ch => Chain.merge ch other);
      b ← relabel_loop loop_fuel b largest_chain_head n n;
      vn ← vertex b n;
      vl ← vertex b largest_chain_head;
      b ← update_vertex b largest_chain_head
            (Vertex.with_chain_next (Vertex.chain_next vn));
      update_vertex b n (Vertex.with_chain_next (Vertex.chain_next vl))
    else Ok b
  else Ok b.

(** Its tail: [p] itself enters the ring of the largest chain. *)
Definition join_insert (largest_chain_head : Point) (b : GoBoard) (p : Point) : res GoBoard :=
  vl ← vertex b largest_chain_head;
  b ← update_vertex b p (Vertex.with_chain_next (Vertex.chain_next vl));
  b ← update_vertex b largest_chain_head (Vertex.with_chain_next p);
  b ← update_vertex b p (Vertex.with_chain_head largest_chain_head);
  b ← update_chain b largest_chain_head Chain.incr_num_stones;
  for_each (neighbours p) (fun b n =>
    e ← is_empty b n;
    if (e : bool) then update_chain b largest_chain_head (Chain.add_liberty n)
    else Ok b) b.

Definition _join_chains_around (b : GoBoard) (p : Point) (c : Color) : res GoBoard :=
  '(largest_chain_head, largest_chain_size) ← largest_chain b p c;
  if largest_chain_size =? 0 then _init_new_chain b p else
  b ← for_each (neighbours p) (join_step largest_chain_head c) b;
  join_insert largest_chain_head b p.

(** One pass of the body of the loop of [_remove_chain], up to the test
    [cur == p]. *)
Definition remove_step (b : GoBoard) (this_chain_head cur : Point) : res (Point * GoBoard) :=
  v ← vertex b cur;
  let next_p := Vertex.chain_next v in
  b ← _set_stone b cur EMPTY;
  b ← _init_new_chain b cur;
  b ← for_each (neighbours cur) (fun b n =>
    h ← chain_head b n;
    grant ← (if bool_decide (h <> this_chain_head) then Ok true else is_empty b n);
    if (grant : bool) then update_chain b n (Chain.add_liberty cur) else Ok b) b;
  Ok (next_p, b).

Fixpoint remove_loop (fuel : nat) (b : GoBoard) (this_chain_head p cur : Point) : res GoBoard :=
  match fuel with
  | O => Timeout
  | S fuel' =>
    '(cur, b) ← remove_step b this_chain_head cur;
    if cur =? p then Ok b else remove_loop fuel' b this_chain_head p cur
  end.

Definition _remove_chain (b : GoBoard) (p : Point) : res GoBoard :=
  this_chain_head ← chain_head b p;
  remove_loop loop_fuel b this_chain_head p p.

Definition _capture_dead_chains (b : GoBoard) (p : Point) (c : Color) : res (Z * GoBoard) :=
  '(stones_captured, capture_index, b) ←
    for_each (neighbours p) (fun '(stones_captured, capture_index, b) n =>
      nc ← point_color b n;
      if bool_decide (nc = opponent c) then
        ch ← _chain b n;
        if Chain.num_pseudo_liberties ch =? 0 then
          h ← chain_head b n;
          caps ← setitem (_last_captures b) capture_index h;
          let b := with_last_captures caps b in
          ch ← _chain b n;
          b ← _remove_chain b n;
          Ok (stones_captured + Chain.num_stones ch, capture_index + 1, b)
        else Ok (stones_captured, capture_index, b)
      else Ok (stones_captured, capture_index, b)) (0, 0, b);
  b ← for_each
        (drop (Z.to_nat capture_index) (range (Z.of_nat (length (_last_captures b)))))
        (fun b i => caps ← setitem (_last_captures b) i INVALID_POINT;
                    Ok (with_last_captures caps b)) b;
  Ok (stones_captured, b).

Definition play (b : GoBoard) (p : Point) (c : Color) : res GoBoard :=
  if p =? PASS then Ok (with_last_ko_point INVALID_POINT b) else
  v ← vertex b p;
  _ ← assert (bool_decide (Vertex.color v = EMPTY));
  not_eye ← any_of (neighbours p) (fun n =>
    nc ← point_color b n; Ok (bool_decide (nc = c) || bool_decide (nc = EMPTY)));
  let played_in_enemy_eye := negb not_eye in
  b ← _join_chains_around b p c;
  b ← _set_stone b p c;
  b ← _remove_liberty_from_neighbouring_chains b p;
  '(stones_captured, b) ← _capture_dead_chains b p c;
  b ← (if played_in_enemy_eye && (stones_captured =? 1)
       then k ← getitem (_last_captures b) 0; Ok (with_last_ko_point k b)
       else Ok (with_last_ko_point INVALID_POINT b));
  ch ← _chain b p;
  _ ← assert (0 <? Chain.num_pseudo_liberties ch);
  Ok b.
End Board.

(** Following [chain_next] for [k] steps from [p]. *)
Fixpoint follow (b : GoBoard) (p : Point) (k : nat) : res Point :=
  match k with
  | O => Ok p
  | S k' => v ← vertex b p; follow b (Vertex.chain_next v) k'
  end.

(** The constructor [GoBoard(board_size)]. *)
Definition fresh_board (board_size : Z) : GoBoard :=
  mkGoBoard board_size INVALID_POINT
    ((fun i => Vertex.mk i i GUARD) <$> range VIRTUAL_BOARD_POINTS)
    ((fun _ => Chain.new) <$> range VIRTUAL_BOARD_POINTS)
    ((fun _ => INVALID_POINT) <$> range 4)
    0.

Definition GoBoard__init__ (board_size : Z) : res GoBoard :=
  let b := fresh_board board_size in
  b ← for_each (board_points board_size) (fun b p =>
         b ← update_vertex b p (Vertex.with_color EMPTY);
         update_chain_at b p Chain.reset) b;
  b ← for_each (board_points board_size) (fun b p =>
         for_each (neighbours p) (fun b n =>
           e ← is_empty b n;
           if (e : bool) then update_chain_at b p (Chain.add_liberty n) else Ok b) b) b;
  Ok (with_zobrist_hash 0 b).

(** ** Board diagrams ([create_board]) *)

Fixpoint split_lines (s : string) : list string :=
  match s with
  | EmptyString => [EmptyString]
  | String a s' =>
    if Ascii.eqb a "010"%char then EmptyString :: split_lines s'
    else match split_lines s' with
         | [] => [String a EmptyString]
         | l :: ls => String a l :: ls
         end
  end.

Section Diagrams.
Variable ZOBRIST : list (list Z).

(** One line of a diagram: the state is (col, stones_started, board). *)
Definition create_board_char (row : Z) (st : Z * bool * GoBoard) (c : ascii)
  : res (Z * bool * GoBoard) :=
  let '(col, stones_started, b) := st in
  if Ascii.eqb c " "%char then
    _ ← assert (negb stones_started); Ok (col, stones_started, b)
  else if Ascii.eqb c "X"%char then
    b ← play ZOBRIST b (point_from_2d row col) BLACK; Ok (col + 1, true, b)
  else if Ascii.eqb c "O"%char then
    b ← play ZOBRIST b (point_from_2d row col) WHITE; Ok (col + 1, true, b)
  else Ok (col + 1, stones_started, b).

Definition create_board (s : string) : res GoBoard :=
  b ← GoBoard__init__ 19;
  '(_, b) ← for_each (split_lines s) (fun '(row, b) line =>
    '(_, _, b) ← for_each (list_ascii_of_string line) (create_board_char row) (0, false, b);
    Ok (row + 1, b)) (0, b);
  Ok b.
End Diagrams.

(** * Reasoning about the board *)

(** ** Total views of the arrays

    On a board of the right shape every access the code makes at a point of
    the grid succeeds; the total accessors below say what it reads, and the
    total updates what a successful assignment leaves behind. *)

Definition NPOINTS : nat := 441.

Definition on_grid (p : Point) : Prop := 0 < p < 441.

Definition shaped (b : GoBoard) : Prop :=
  length (_board b) = NPOINTS /\ length (_chains b) = NPOINTS /\
  length (_last_captures b) = 4%nat.

Definition vtx (b : GoBoard) (p : Point) : Vertex.t := _board b !!! Z.to_nat p.
Definition colr (b : GoBoard) (p : Point) : Color := Vertex.color (vtx b p).
Definition hd (b : GoBoard) (p : Point) : Point := Vertex.chain_head (vtx b p).
Definition nx (b : GoBoard) (p : Point) : Point := Vertex.chain_next (vtx b p).
Definition chn (b : GoBoard) (h : Point) : Chain.t := _chains b !!! Z.to_nat h.

Definition upd_vertex (b : GoBoard) (p : Point) (f : Vertex.t -> Vertex.t) : GoBoard :=
  with_board (<[Z.to_nat p := f (vtx b p)]> (_board b)) b.
Definition upd_chain (b : GoBoard) (h : Point) (f : Chain.t -> Chain.t) : GoBoard :=
  with_chains (<[Z.to_nat h := f (chn b h)]> (_chains b)) b.

Lemma py_index_on_grid (n : nat) (i : Z) :
  0 <= i < Z.of_nat n -> py_index n i = Some (Z.to_nat i).
Proof. intros H. unfold py_index. by rewrite bool_decide_eq_true_2. Qed.

Lemma getitem_Ok {A} `{Inhabited A} (l : list A) (i : Z) :
  0 <= i < Z.of_nat (length l) -> getitem l i = Ok (l !!! Z.to_nat i).
Proof.
  intros Hi. unfold getitem. rewrite py_index_on_grid by done.
  destruct (l !! Z.to_nat i) as [x|] eqn:E.
  - by rewrite (list_lookup_total_correct _ _ _ E).
  - apply lookup_ge_None in E. lia.
Qed.

Lemma setitem_Ok {A} (l : list A) (i : Z) (x : A) :
  0 <= i < Z.of_nat (length l) -> setitem l i x = Ok (<[Z.to_nat i := x]> l).
Proof. intros Hi. unfold setitem. by rewrite py_index_on_grid. Qed.

Section Views.
Context (b : GoBoard) (Hb : shaped b).

Lemma vertex_Ok p : on_grid p -> vertex b p = Ok (vtx b p).
Proof.
  intros Hp. unfold vertex, vtx. apply getitem_Ok.
  destruct Hb as (-> & _). unfold on_grid, NPOINTS in *. lia.
Qed.

Lemma update_vertex_Ok p f : on_grid p -> update_vertex b p f = Ok (upd_vertex b p f).
Proof.
  intros Hp. unfold update_vertex, upd_vertex, vtx.
  assert (0 <= p < Z.of_nat (length (_board b))) as Hr.
  { destruct Hb as (-> & _). unfold on_grid, NPOINTS in *. lia. }
  rewrite getitem_Ok by done. simpl. by rewrite setitem_Ok.
Qed.

Lemma update_chain_at_Ok h f : on_grid h -> update_chain_at b h f = Ok (upd_chain b h f).
Proof.
  intros Hp. unfold update_chain_at, upd_chain, chn.
  assert (0 <= h < Z.of_nat (length (_chains b))) as Hr.
  { destruct Hb as (_ & -> & _). unfold on_grid, NPOINTS in *. lia. }
  rewrite getitem_Ok by done. simpl. by rewrite setitem_Ok.
Qed.

Lemma point_color_Ok p : on_grid p -> point_color b p = Ok (colr b p).
Proof. intros Hp. unfold point_color. by rewrite vertex_Ok. Qed.

Lemma is_empty_Ok p : on_grid p -> is_empty b p = Ok (bool_decide (colr b p = EMPTY)).
Proof. intros Hp. unfold is_empty. by rewrite point_color_Ok. Qed.

Lemma chain_head_Ok p : on_grid p -> chain_head b p = Ok (hd b p).
Proof. intros Hp. unfold chain_head. by rewrite vertex_Ok. Qed.

Lemma _chain_Ok p : on_grid p -> on_grid (hd b p) -> _chain b p = Ok (chn b (hd b p)).
Proof.
  intros Hp Hh. unfold _chain. rewrite chain_head_Ok by done. simpl.
  unfold chn. apply getitem_Ok.
  destruct Hb as (_ & -> & _). unfold on_grid, NPOINTS in *. lia.
Qed.

Lemma update_chain_Ok p f :
  on_grid p -> on_grid (hd b p) -> update_chain b p f = Ok (upd_chain b (hd b p) f).
Proof.
  intros Hp Hh. unfold update_chain. rewrite chain_head_Ok by done. simpl.
  by apply update_chain_at_Ok.
Qed.

Lemma shaped_upd_vertex p f : shaped (upd_vertex b p f).
Proof. destruct Hb as (? & ? & ?). unfold shaped, upd_vertex. simpl. by rewrite length_insert. Qed.

Lemma shaped_upd_chain h f : shaped (upd_chain b h f).
Proof. destruct Hb as (? & ? & ?). unfold shaped, upd_chain. simpl. by rewrite length_insert. Qed.

Lemma vtx_upd_vertex p f q :
  on_grid p -> vtx (upd_vertex b p f) q = if decide (q = p) then f (vtx b p) else vtx b q.
Proof.
  intros Hp. unfold vtx, upd_vertex. simpl. destruct (decide (q = p)) as [->|Hne].
  - apply list_lookup_total_insert_eq.
    destruct Hb as (-> & _). unfold on_grid, NPOINTS in *. lia.
  - apply list_lookup_total_insert_ne. unfold on_grid in *. lia.
Qed.

Lemma chn_upd_chain h f k :
  on_grid h -> chn (upd_chain b h f) k = if decide (k = h) then f (chn b h) else chn b k.
Proof.
  intros Hp. unfold chn, upd_chain. simpl. destruct (decide (k = h)) as [->|Hne].
  - apply list_lookup_total_insert_eq.
    destruct Hb as (_ & -> & _). unfold on_grid, NPOINTS in *. lia.
  - apply list_lookup_total_insert_ne. unfold on_grid in *. lia.
Qed.
End Views.

Lemma vtx_upd_chain b h f q : vtx (upd_chain b h f) q = vtx b q.
Proof. done. Qed.
Lemma chn_upd_vertex b p f k : chn (upd_vertex b p f) k = chn b k.
Proof. done. Qed.

(** A board read through its views. *)
Lemma colr_upd_vertex b p f q :
  shaped b -> on_grid p ->
  colr (upd_vertex b p f) q = if decide (q = p) then Vertex.color (f (vtx b p)) else colr b q.
Proof. intros Hb Hp. unfold colr. rewrite vtx_upd_vertex by done. by destruct (decide _). Qed.
Lemma hd_upd_vertex b p f q :
  shaped b -> on_grid p ->
  hd (upd_vertex b p f) q = if decide (q = p) then Vertex.chain_head (f (vtx b p)) else hd b q.
Proof. intros Hb Hp. unfold hd. rewrite vtx_upd_vertex by done. by destruct (decide _). Qed.
Lemma nx_upd_vertex b p f q :
  shaped b -> on_grid p ->
  nx (upd_vertex b p f) q = if decide (q = p) then Vertex.chain_next (f (vtx b p)) else nx b q.
Proof. intros Hb Hp. unfold nx. rewrite vtx_upd_vertex by done. by destruct (decide _). Qed.

(** ** Loops *)

Lemma for_each_app {A S} (l1 l2 : list A) (body : S -> A -> res S) (s : S) :
  for_each (l1 ++ l2) body s = (s' ← for_each l1 body s; for_each l2 body s').
Proof.
  revert s. induction l1 as [|x l1 IH]; intros s; [done|].
  simpl. destruct (body s x); simpl; [apply IH|done..].
Qed.

(** A loop invariant indexed by the part of the list already visited. *)
Lemma for_each_inv {A S} (P : list A -> S -> Prop) (l : list A)
    (body : S -> A -> res S) (s0 : S) :
  P [] s0 ->
  (forall pre x post s, l = pre ++ x :: post -> P pre s ->
     exists s', body s x = Ok s' /\ P (pre ++ [x]) s') ->
  exists s', for_each l body s0 = Ok s' /\ P l s'.
Proof.
  intros H0 Hstep.
  assert (forall post pre s, l = pre ++ post -> P pre s ->
            exists s', for_each post body s = Ok s' /\ P l s') as Hgen.
  { induction post as [|x post IH]; intros pre s Hl Hp.
    - exists s. rewrite app_nil_r in Hl. by subst.
    - destruct (Hstep pre x post s Hl Hp) as (s' & Hs' & Hp').
      simpl. rewrite Hs'. simpl. apply (IH (pre ++ [x])); [|done].
      by rewrite <- app_assoc. }
  by apply (Hgen l []).
Qed.

(** ** Batches of chain updates

    Several loops only mutate chain objects, each iteration choosing its
    target from the vertex array, which they leave alone. *)

Abbreviation chain_op := (Z * (Chain.t -> Chain.t))%type (only parsing).

Definition apply_ops (ops : list chain_op) (b : GoBoard) : GoBoard :=
  foldl (fun b o => upd_chain b o.1 o.2) b ops.

Definition ops_on (k : Point) (ops : list chain_op) (c : Chain.t) : Chain.t :=
  foldl (fun c o => if decide (o.1 = k) then o.2 c else c) c ops.

Lemma apply_ops_app ops1 ops2 b :
  apply_ops (ops1 ++ ops2) b = apply_ops ops2 (apply_ops ops1 b).
Proof. apply foldl_app. Qed.

Lemma ops_on_app k ops1 ops2 c :
  ops_on k (ops1 ++ ops2) c = ops_on k ops2 (ops_on k ops1 c).
Proof. apply foldl_app. Qed.

Lemma apply_ops_fields ops b :
  _board (apply_ops ops b) = _board b /\
  _board_size (apply_ops ops b) = _board_size b /\
  _last_ko_point (apply_ops ops b) = _last_ko_point b /\
  _last_captures (apply_ops ops b) = _last_captures b /\
  _zobrist_hash (apply_ops ops b) = _zobrist_hash b.
Proof.
  revert b. induction ops as [|o ops IH]; intros b; [done|].
  simpl. destruct (IH (upd_chain b o.1 o.2)) as (-> & -> & -> & -> & ->). done.
Qed.

Lemma vtx_apply_ops ops b q : vtx (apply_ops ops b) q = vtx b q.
Proof. unfold vtx. by rewrite (proj1 (apply_ops_fields ops b)). Qed.
Lemma colr_apply_ops ops b q : colr (apply_ops ops b) q = colr b q.
Proof. unfold colr. by rewrite vtx_apply_ops. Qed.
Lemma hd_apply_ops ops b q : hd (apply_ops ops b) q = hd b q.
Proof. unfold hd. by rewrite vtx_apply_ops. Qed.
Lemma nx_apply_ops ops b q : nx (apply_ops ops b) q = nx b q.
Proof. unfold nx. by rewrite vtx_apply_ops. Qed.

Lemma shaped_apply_ops ops b : shaped b -> shaped (apply_ops ops b).
Proof.
  revert b. induction ops as [|o ops IH]; intros b Hb; [done|].
  simpl. by apply IH, shaped_upd_chain.
Qed.

Lemma chn_apply_ops ops b k :
  shaped b -> Forall (fun o : chain_op => on_grid o.1) ops ->
  chn (apply_ops ops b) k = ops_on k ops (chn b k).
Proof.
  revert b. induction ops as [|o ops IH]; intros b Hb Hops; [done|].
  inversion Hops as [|? ? Ho Hops']; subst. simpl.
  rewrite IH by (done || by apply shaped_upd_chain).
  rewrite chn_upd_chain by done.
  destruct (decide (o.1 = k)) as [Hk|Hk], (decide (k = o.1)) as [Hk'|Hk'];
    congruence.
Qed.

(** A loop whose body applies a batch chosen from the vertex array. *)
Lemma for_each_ops {A} (l : list A) (body : GoBoard -> A -> res GoBoard)
    (sel : A -> list chain_op) (b : GoBoard) :
  shaped b ->
  (forall x, x ∈ l -> Forall (fun o : chain_op => on_grid o.1) (sel x)) ->
  (forall b' x, x ∈ l -> shaped b' -> _board b' = _board b ->
     body b' x = Ok (apply_ops (sel x) b')) ->
  for_each l body b = Ok (apply_ops (l ≫= sel) b).
Proof.
  intros Hb Hgrid Hbody.
  assert (forall b', shaped b' -> _board b' = _board b ->
            for_each l body b' = Ok (apply_ops (l ≫= sel) b')) as Hgen.
  { clear Hb. induction l as [|x l IH]; intros b' Hb' Hsame; [done|].
    simpl. rewrite Hbody by (done || apply list_elem_of_here). simpl.
    rewrite apply_ops_app. apply IH.
    - intros y Hy. apply Hgrid. by apply list_elem_of_further.
    - intros b'' y Hy. apply Hbody. by apply list_elem_of_further.
    - by apply shaped_apply_ops.
    - by rewrite (proj1 (apply_ops_fields _ _)). }
  by apply Hgen.
Qed.

(** The statistics after a batch. *)
Definition add_liberties (l : list Point) (c : Chain.t) : Chain.t :=
  foldl (fun c n => Chain.add_liberty n c) c l.

Lemma add_liberties_stats l c :
  Chain.num_stones (add_liberties l c) = Chain.num_stones c /\
  Chain.num_pseudo_liberties (add_liberties l c)
    = Chain.num_pseudo_liberties c + Z.of_nat (length l) /\
  Chain.liberty_vertex_sum (add_liberties l c)
    = Chain.liberty_vertex_sum c + Chain.coord_sum l /\
  Chain.liberty_vertex_sum_squared (add_liberties l c)
    = Chain.liberty_vertex_sum_squared c + Chain.coord_sum_squared l.
Proof.
  revert c. induction l as [|x l IH]; intros c.
  - simpl. lia.
  - cbn [add_liberties foldl]. fold (add_liberties l (Chain.add_liberty x c)).
    destruct (IH (Chain.add_liberty x c)) as (-> & -> & -> & ->).
    cbn [Chain.add_liberty Chain.num_stones Chain.num_pseudo_liberties
         Chain.liberty_vertex_sum Chain.liberty_vertex_sum_squared
         Chain.coord_sum Chain.coord_sum_squared length].
    lia.
Qed.

Lemma add_liberties_app l1 l2 c :
  add_liberties (l1 ++ l2) c = add_liberties l2 (add_liberties l1 c).
Proof. apply foldl_app. Qed.

(** ** Paths and cycles along [chain_next] *)

Fixpoint path (next : Point -> Point) (x : Point) (l : list Point) (y : Point) : Prop :=
  match l with
  | [] => x = y
  | a :: l' => a = x /\ path next (next a) l' y
  end.

Definition cycle (next : Point -> Point) (l : list Point) : Prop :=
  l <> [] /\ exists x, path next x l x.

Lemma path_app next x l1 l2 z :
  path next x (l1 ++ l2) z <-> exists y, path next x l1 y /\ path next y l2 z.
Proof.
  revert x. induction l1 as [|a l1 IH]; intros x; simpl.
  - split; [eauto|]. by intros (y & -> & ?).
  - rewrite IH. split.
    + intros (-> & y & ? & ?). eauto.
    + intros (y & (-> & ?) & ?). eauto.
Qed.

Lemma path_ext next next' x l y :
  (forall a, a ∈ l -> next' a = next a) -> path next x l y -> path next' x l y.
Proof.
  revert x. induction l as [|a l IH]; intros x Hagree; simpl; [done|].
  intros (-> & Hp). split; [done|].
  rewrite Hagree by apply list_elem_of_here. apply IH; [|done].
  intros a' Ha'. apply Hagree. by apply list_elem_of_further.
Qed.

Lemma path_snoc next x l a : path next x (l ++ [a]) (next a) <-> path next x l a.
Proof.
  rewrite path_app. simpl. split.
  - intros (y & Hp & Hy & _). by subst y.
  - intros Hp. exists a. done.
Qed.

(** A cycle can be read from any of its points: [y] first ... *)
Lemma cycle_from next l y :
  cycle next l -> y ∈ l ->
  exists l', y :: l' ≡ₚ l /\ path next y (y :: l') y.
Proof.
  intros (Hne & x & Hp) Hy.
  apply list_elem_of_split in Hy as (l1 & l2 & ->).
  apply path_app in Hp as (y' & Hp1 & Hp2).
  assert (y' = y) as -> by (by destruct Hp2).
  exists (l2 ++ l1). split.
  - exact (Permutation_app_comm (y :: l2) l1).
  - change (path next y ((y :: l2) ++ l1) y).
    apply path_app. eauto.
Qed.

(** ... or [y] last, starting from its successor. *)
Lemma cycle_until next l y :
  cycle next l -> y ∈ l ->
  exists l', l' ++ [y] ≡ₚ l /\ path next (next y) l' y.
Proof.
  intros Hc Hy. destruct (cycle_from next l y Hc Hy) as (l' & Hperm & Hp).
  exists l'. split.
  - rewrite <- Hperm. exact (Permutation_app_comm l' [y]).
  - by destruct Hp.
Qed.

Lemma path_head next x a l y : path next x (a :: l) y -> a = x.
Proof. by intros (-> & _). Qed.

(** Points of the grid, and how many distinct ones there can be. *)
Definition grid_points : list Point := range 441.

Lemma elem_of_range n x : x ∈ range n <-> 0 <= x < n.
Proof.
  unfold range. rewrite list_elem_of_fmap. split.
  - intros (k & -> & Hk). apply elem_of_seq in Hk. lia.
  - intros Hx. exists (Z.to_nat x). split; [lia|]. apply elem_of_seq. lia.
Qed.

Lemma NoDup_range n : NoDup (range n).
Proof.
  unfold range. apply NoDup_fmap_2; [|apply NoDup_seq].
  intros x y Hxy. lia.
Qed.

Lemma length_range n : length (range n) = Z.to_nat n.
Proof. unfold range. by rewrite length_fmap, length_seq. Qed.

Lemma NoDup_on_grid_length (l : list Point) :
  NoDup l -> Forall on_grid l -> (length l < 441)%nat.
Proof.
  intros Hnd Hall.
  assert (0 :: l ⊆+ grid_points) as Hsub.
  { apply NoDup_submseteq.
    - constructor; [|done]. intros H0. rewrite Forall_forall in Hall.
      specialize (Hall 0 H0). unfold on_grid in Hall. lia.
    - intros x Hx. apply elem_of_range. apply elem_of_cons in Hx as [->|Hx]; [lia|].
      rewrite Forall_forall in Hall. specialize (Hall x Hx). unfold on_grid in Hall. lia. }
  apply submseteq_length in Hsub. unfold grid_points in Hsub.
  rewrite length_range in Hsub. simpl in Hsub. lia.
Qed.

(** ** Geometry of the padded grid *)

Lemma in_board_area_spec b p :
  in_board_area b p = true <->
  1 <= p / 21 <= _board_size b /\ 1 <= p mod 21 <= _board_size b.
Proof.
  unfold in_board_area, point_to_2d, INVALID_POINT, PASS, VIRTUAL_BOARD_SIZE.
  case_bool_decide as Hs.
  - assert (p / 21 < 1 \/ p mod 21 < 1) as Hout by (destruct Hs as [->| ->]; vm_compute; auto).
    simpl. split; [done|lia].
  - rewrite !andb_true_iff, !Z.leb_le, !Z.ltb_lt. lia.
Qed.

Lemma in_board_area_range b p :
  _board_size b <= 19 -> in_board_area b p = true -> 22 <= p <= 418.
Proof.
  intros Hs Hp. apply in_board_area_spec in Hp as (Hr & Hc).
  pose proof (Z.div_mod p 21 ltac:(lia)). lia.
Qed.

Lemma neighbours_on_grid p n : 22 <= p <= 418 -> n ∈ neighbours p -> on_grid n.
Proof.
  intros Hp Hn. unfold neighbours, VIRTUAL_BOARD_SIZE in Hn.
  repeat (apply elem_of_cons in Hn as [->|Hn]); try (unfold on_grid; lia).
  by apply elem_of_nil in Hn.
Qed.

Lemma neighbours_sym p n : n ∈ neighbours p <-> p ∈ neighbours n.
Proof.
  unfold neighbours, VIRTUAL_BOARD_SIZE. rewrite !elem_of_cons, !elem_of_nil. lia.
Qed.

Lemma neighbours_irrefl p : p ∉ neighbours p.
Proof.
  unfold neighbours, VIRTUAL_BOARD_SIZE. rewrite !elem_of_cons, !elem_of_nil. lia.
Qed.

Lemma NoDup_neighbours p : NoDup (neighbours p).
Proof.
  unfold neighbours, VIRTUAL_BOARD_SIZE.
  repeat (constructor; [rewrite ?elem_of_cons, ?elem_of_nil; lia|]). constructor.
Qed.

(** ** The representation invariant *)

Definition stone (b : GoBoard) (q : Point) : Prop := is_stone (colr b q) = true.

#[global] Instance stone_dec b q : Decision (stone b q).
Proof. unfold stone. apply _. Defined.

(** The empty neighbours of a point, in the order the code visits them. *)
Definition empties (b : GoBoard) (q : Point) : list Point :=
  filter (fun n => colr b n = EMPTY) (neighbours q).

(** What holds of guards and of empty points, at all times between
    two statements of [play]'s capture loop. *)
Record Base (b : GoBoard) : Prop := {
  base_shaped : shaped b;
  base_size : _board_size b <= 19;
  base_area : forall q, colr b q <> GUARD <-> in_board_area b q = true;
  base_guard : forall q, on_grid q -> colr b q = GUARD -> hd b q = q;
  base_empty : forall q, colr b q = EMPTY ->
    hd b q = q /\
    Chain.num_pseudo_liberties (chn b q) = Z.of_nat (length (empties b q));
  base_adj : forall q n, stone b q -> n ∈ neighbours q -> colr b n = colr b q ->
    hd b n = hd b q }.

(** The points whose head is [H] are exactly those of one cycle of
    [chain_next], as many as the chain record says. *)
Definition ring_of (b : GoBoard) (H : Point) (l : list Point) : Prop :=
  NoDup l /\ cycle (nx b) l /\
  (forall x, x ∈ l <-> stone b x /\ hd b x = H) /\
  Chain.num_stones (chn b H) = Z.of_nat (length l).

Record Inv (b : GoBoard) : Prop := {
  inv_base : Base b;
  inv_head : forall q, stone b q ->
    colr b (hd b q) = colr b q /\ hd b (hd b q) = hd b q;
  inv_ring : forall H, stone b H -> hd b H = H -> exists l, ring_of b H l }.

(** While the chain of head [H] is being taken off the board, its points
    still to visit, [R], are the only stones outside the invariant. *)
Record RInv (b : GoBoard) (H : Point) (R : list Point) : Prop := {
  rinv_base : Base b;
  rinv_rest : forall x, x ∈ R -> stone b x /\ hd b x = H;
  rinv_head : forall q, stone b q -> q ∉ R ->
    colr b (hd b q) = colr b q /\ hd b (hd b q) = hd b q /\ hd b q <> H;
  rinv_ring : forall H', stone b H' -> hd b H' = H' -> H' <> H ->
    exists l, ring_of b H' l }.

Section BaseFacts.
Context (b : GoBoard) (Hb : Base b).

Lemma base_on_board q : colr b q <> GUARD -> 22 <= q <= 418.
Proof.
  intros Hq. apply (in_board_area_range b); [apply Hb|]. by apply (base_area b Hb).
Qed.

Lemma stone_on_board q : stone b q -> 22 <= q <= 418.
Proof.
  intros Hq. apply base_on_board. unfold stone in Hq. by destruct (colr b q).
Qed.

Lemma empty_on_board q : colr b q = EMPTY -> 22 <= q <= 418.
Proof. intros Hq. apply base_on_board. by rewrite Hq. Qed.

Lemma on_board_grid q : 22 <= q <= 418 -> on_grid q.
Proof. unfold on_grid. lia. Qed.

Lemma stone_not_empty q : stone b q -> colr b q <> EMPTY.
Proof. unfold stone. by destruct (colr b q). Qed.

Lemma stone_not_guard q : stone b q -> colr b q <> GUARD.
Proof. unfold stone. by destruct (colr b q). Qed.

(** Every point is a stone, empty or a guard. *)
Lemma color_cases q : stone b q \/ colr b q = EMPTY \/ colr b q = GUARD.
Proof. unfold stone. destruct (colr b q); auto. Qed.
End BaseFacts.

Lemma Inv_head_stone b q : Inv b -> stone b q -> stone b (hd b q).
Proof.
  intros Hi Hq. unfold stone. destruct (inv_head b Hi q Hq) as (-> & _). done.
Qed.

Lemma ring_of_nonempty b H l : ring_of b H l -> l <> [].
Proof. by intros (_ & (? & _) & _). Qed.

Lemma ring_of_on_grid b H l : Base b -> ring_of b H l -> Forall on_grid l.
Proof.
  intros Hb (_ & _ & Hmem & _). apply Forall_forall. intros x Hx.
  apply Hmem in Hx as (Hx & _). by apply on_board_grid, (stone_on_board b).
Qed.

Lemma ring_of_head_mem b H l : stone b H -> hd b H = H -> ring_of b H l -> H ∈ l.
Proof. intros Hs Hh (_ & _ & Hmem & _). by apply Hmem. Qed.

(** ** Reading a vertex after one of its attributes was assigned *)

Lemma vtx_upd_vertex_gen b p f q :
  vtx (upd_vertex b p f) q =
  if decide (Z.to_nat p = Z.to_nat q /\ (Z.to_nat p < length (_board b))%nat)
  then f (vtx b p) else vtx b q.
Proof. unfold vtx, upd_vertex. simpl. apply list_lookup_total_insert. Qed.

Lemma vtx_upd_vertex_frame (g : Vertex.t -> Z) b p f q :
  (forall v, g (f v) = g v) -> g (vtx (upd_vertex b p f) q) = g (vtx b q).
Proof.
  intros Hg. rewrite vtx_upd_vertex_gen. destruct (decide _) as [[Heq _]|]; [|done].
  rewrite Hg. unfold vtx. by rewrite Heq.
Qed.

Lemma colr_upd_vertex_frame b p f q :
  (forall v, Vertex.color (f v) = Vertex.color v) -> colr (upd_vertex b p f) q = colr b q.
Proof.
  intros Hg. unfold colr. rewrite vtx_upd_vertex_gen.
  destruct (decide _) as [[Heq _]|]; [|done].
  rewrite Hg. unfold vtx. by rewrite Heq.
Qed.

Lemma colr_set_head b p h q : colr (upd_vertex b p (Vertex.with_chain_head h)) q = colr b q.
Proof. by apply colr_upd_vertex_frame. Qed.
Lemma colr_set_next b p n q : colr (upd_vertex b p (Vertex.with_chain_next n)) q = colr b q.
Proof. by apply colr_upd_vertex_frame. Qed.
Lemma hd_set_next b p n q : hd (upd_vertex b p (Vertex.with_chain_next n)) q = hd b q.
Proof. by apply (vtx_upd_vertex_frame Vertex.chain_head). Qed.
Lemma hd_set_color b p c q : hd (upd_vertex b p (Vertex.with_color c)) q = hd b q.
Proof. by apply (vtx_upd_vertex_frame Vertex.chain_head). Qed.
Lemma nx_set_head b p h q : nx (upd_vertex b p (Vertex.with_chain_head h)) q = nx b q.
Proof. by apply (vtx_upd_vertex_frame Vertex.chain_next). Qed.
Lemma nx_set_color b p c q : nx (upd_vertex b p (Vertex.with_color c)) q = nx b q.
Proof. by apply (vtx_upd_vertex_frame Vertex.chain_next). Qed.

Lemma hd_set_head b p h q :
  shaped b -> on_grid p ->
  hd (upd_vertex b p (Vertex.with_chain_head h)) q = if decide (q = p) then h else hd b q.
Proof. intros. rewrite hd_upd_vertex by done. by destruct (decide _). Qed.
Lemma nx_set_next b p n q :
  shaped b -> on_grid p ->
  nx (upd_vertex b p (Vertex.with_chain_next n)) q = if decide (q = p) then n else nx b q.
Proof. intros. rewrite nx_upd_vertex by done. by destruct (decide _). Qed.
Lemma colr_set_color b p c q :
  shaped b -> on_grid p ->
  colr (upd_vertex b p (Vertex.with_color c)) q = if decide (q = p) then c else colr b q.
Proof. intros. rewrite colr_upd_vertex by done. by destruct (decide _). Qed.

Lemma colr_upd_chain b h f q : colr (upd_chain b h f) q = colr b q.
Proof. done. Qed.
Lemma hd_upd_chain b h f q : hd (upd_chain b h f) q = hd b q.
Proof. done. Qed.
Lemma nx_upd_chain b h f q : nx (upd_chain b h f) q = nx b q.
Proof. done. Qed.

Create HintDb board discriminated.
#[global] Hint Resolve shaped_upd_vertex shaped_upd_chain shaped_apply_ops : board.

Ltac side := solve [ eauto with board | unfold on_grid; lia ].

(** Continue after a statement that returned. *)
Ltac ok := cbn [mbind res_bind mret res_ret].

(** Push the accessors through the updates. *)
Ltac views :=
  repeat first
    [ rewrite colr_set_head | rewrite colr_set_next
    | rewrite hd_set_next | rewrite hd_set_color
    | rewrite nx_set_head | rewrite nx_set_color
    | rewrite colr_upd_chain | rewrite hd_upd_chain | rewrite nx_upd_chain
    | rewrite chn_upd_vertex
    | rewrite colr_apply_ops | rewrite hd_apply_ops | rewrite nx_apply_ops
    | rewrite hd_set_head by side
    | rewrite nx_set_next by side
    | rewrite colr_set_color by side
    | rewrite chn_upd_chain by side ].

(** ** What the helpers of [play] do *)

(** The fields no helper but [play] itself touches. *)
Definition scalars (b : GoBoard) : Z * Point * list Point :=
  (_board_size b, _last_ko_point b, _last_captures b).

Lemma scalars_apply_ops ops b : scalars (apply_ops ops b) = scalars b.
Proof.
  destruct (apply_ops_fields ops b) as (_ & Hs & Hk & Hc & _).
  unfold scalars. by rewrite Hs, Hk, Hc.
Qed.

Lemma hash_apply_ops ops b : _zobrist_hash (apply_ops ops b) = _zobrist_hash b.
Proof. by destruct (apply_ops_fields ops b) as (_ & _ & _ & _ & ?). Qed.

Lemma ops_on_adds (P : Point -> Prop) `{forall n, Decision (P n)} p l c :
  ops_on p (l ≫= fun n => if decide (P n) then [(p, Chain.add_liberty n)] else []) c
  = add_liberties (filter P l) c.
Proof.
  revert c. induction l as [|n l IH]; intros c; [done|].
  change ((n :: l) ≫= ?f) with (f n ++ (l ≫= f)).
  rewrite ops_on_app, IH, filter_cons. destruct (decide (P n)); [|done].
  simpl. by rewrite decide_True.
Qed.

(** Operations aimed elsewhere leave a chain alone. *)
Lemma ops_on_other k ops c :
  Forall (fun o : chain_op => o.1 <> k) ops -> ops_on k ops c = c.
Proof.
  revert c. induction ops as [|o ops IH]; intros c Hall; [done|].
  inversion Hall; subst. simpl. rewrite decide_False by done. by apply IH.
Qed.

Lemma elem_of_neighbours_on_grid p :
  22 <= p <= 418 -> Forall on_grid (neighbours p).
Proof. intros Hp. apply Forall_forall. intros n. by apply neighbours_on_grid. Qed.

Lemma bool_decide_decide (P : Prop) `{Decision P} {A} (x y : A) :
  (if bool_decide P then x else y) = (if decide P then x else y).
Proof. by destruct (decide P); [rewrite bool_decide_eq_true_2|rewrite bool_decide_eq_false_2]. Qed.

Lemma _init_new_chain_spec b p :
  shaped b -> 22 <= p <= 418 ->
  exists b', _init_new_chain b p = Ok b' /\ shaped b' /\
    (forall q, colr b' q = colr b q) /\
    (forall q, hd b' q = if decide (q = p) then p else hd b q) /\
    (forall q, nx b' q = if decide (q = p) then p else nx b q) /\
    (forall k, chn b' k =
       if decide (k = p) then add_liberties (empties b p) (Chain.mk 1 0 0 0)
       else chn b k) /\
    scalars b' = scalars b /\ _zobrist_hash b' = _zobrist_hash b.
Proof.
  intros Hb Hp. assert (on_grid p) as Hg by (unfold on_grid; lia).
  unfold _init_new_chain.
  rewrite update_vertex_Ok by done. ok.
  set (b1 := upd_vertex b p (Vertex.with_chain_head p)).
  assert (shaped b1) as Hb1 by (by apply shaped_upd_vertex).
  rewrite update_vertex_Ok by done. ok.
  set (b2 := upd_vertex b1 p (Vertex.with_chain_next p)).
  assert (shaped b2) as Hb2 by (by apply shaped_upd_vertex).
  assert (forall q, colr b2 q = colr b q) as Hcol by (intros q; unfold b2, b1; by views).
  assert (forall q, hd b2 q = if decide (q = p) then p else hd b q) as Hhd
    by (intros q; unfold b2, b1; by views).
  assert (forall q, nx b2 q = if decide (q = p) then p else nx b q) as Hnx
    by (intros q; unfold b2, b1; by views).
  rewrite chain_head_Ok by done. ok.
  rewrite Hhd, decide_True by done.
  rewrite update_chain_at_Ok by done. ok.
  set (b3 := upd_chain b2 p Chain.reset).
  assert (shaped b3) as Hb3 by (by apply shaped_upd_chain).
  rewrite update_chain_at_Ok by done. ok.
  set (b4 := upd_chain b3 p Chain.incr_num_stones).
  assert (shaped b4) as Hb4 by (by apply shaped_upd_chain).
  set (sel := fun n => if decide (colr b n = EMPTY)
                       then [(p, Chain.add_liberty n) : chain_op] else []).
  assert (forall n, Forall (fun o : chain_op => o.1 = p) (sel n)) as Hsel.
  { intros n. unfold sel. destruct (decide _); repeat constructor. }
  rewrite (for_each_ops (neighbours p) _ sel b4).
  - eexists. split; [done|]. split; [by apply shaped_apply_ops|].
    split; [|split; [|split; [|split; [|split]]]].
    + intros q. views. apply Hcol.
    + intros q. views. apply Hhd.
    + intros q. views. apply Hnx.
    + intros k. rewrite chn_apply_ops; [|done|].
      * unfold b4, b3. views.
        destruct (decide (k = p)) as [->|Hk].
        -- unfold sel. rewrite (ops_on_adds (fun n => colr b n = EMPTY)).
           by rewrite decide_True.
        -- apply ops_on_other. apply Forall_forall. intros o Ho.
           apply list_elem_of_bind in Ho as (n & Ho & _).
           specialize (Hsel n). rewrite Forall_forall in Hsel.
           rewrite (Hsel o Ho). done.
      * apply Forall_forall. intros o Ho. apply list_elem_of_bind in Ho as (n & Ho & _).
        specialize (Hsel n). rewrite Forall_forall in Hsel. by rewrite (Hsel o Ho).
    + by rewrite scalars_apply_ops.
    + by rewrite hash_apply_ops.
  - done.
  - intros n Hn. specialize (Hsel n). eapply Forall_impl; [exact Hsel|].
    intros o ->. done.
  - intros b' n Hn Hb' Hsame.
    rewrite is_empty_Ok by (done || by apply (neighbours_on_grid p)). ok.
    assert (colr b' n = colr b n) as ->.
    { unfold colr, vtx. rewrite Hsame. apply (Hcol n). }
    rewrite bool_decide_decide. unfold sel. destruct (decide _); [|done].
    by rewrite update_chain_at_Ok.
Qed.

Lemma ops_on_grants k l (C : Point -> Prop) `{forall n, Decision (C n)}
    (t x : Point -> Point) c :
  ops_on k (l ≫= fun n => if decide (C n) then [(t n, Chain.add_liberty (x n))] else []) c
  = add_liberties (l ≫= fun n => if decide (C n /\ t n = k) then [x n] else []) c.
Proof.
  revert c. induction l as [|n l IH]; intros c; [done|].
  change ((n :: l) ≫= ?f) with (f n ++ (l ≫= f)).
  rewrite ops_on_app, add_liberties_app, IH.
  destruct (decide (C n)) as [HC|HC].
  - simpl. destruct (decide (t n = k)) as [Ht|Ht].
    + by rewrite decide_True.
    + by rewrite decide_False by tauto.
  - by rewrite decide_False by tauto.
Qed.

Lemma length_bind_indicator (l : list Point) (q x : Point) :
  NoDup l ->
  length (l ≫= fun n => if decide (n = q) then [x] else [])
  = if decide (q ∈ l) then 1%nat else 0%nat.
Proof.
  induction 1 as [|n l Hn Hnd IH]; [done|].
  change ((n :: l) ≫= ?f) with (f n ++ (l ≫= f)).
  rewrite length_app, IH. destruct (decide (n = q)) as [->|Hne].
  - rewrite decide_False by done. rewrite decide_True by apply list_elem_of_here. done.
  - simpl. destruct (decide (q ∈ l)) as [Hq|Hq].
    + rewrite decide_True by (by apply list_elem_of_further). done.
    + rewrite decide_False; [done|]. intros [?|?]%elem_of_cons; congruence.
Qed.

Lemma bind_ext_in {A B} (f g : A -> list B) (l : list A) :
  (forall x, x ∈ l -> f x = g x) -> l ≫= f = l ≫= g.
Proof.
  induction l as [|x l IH]; intros Hfg; [done|].
  change ((x :: l) ≫= ?f) with (f x ++ (l ≫= f)).
  rewrite Hfg by apply list_elem_of_here. f_equal. apply IH.
  intros y Hy. apply Hfg. by apply list_elem_of_further.
Qed.

Lemma filter_ext_in {A} (P Q : A -> Prop) `{forall x, Decision (P x)}
    `{forall x, Decision (Q x)} (l : list A) :
  (forall x, x ∈ l -> P x <-> Q x) -> filter P l = filter Q l.
Proof.
  induction l as [|x l IH]; intros HPQ; [done|].
  rewrite !filter_cons.
  rewrite IH by (intros y Hy; apply HPQ; by apply list_elem_of_further).
  apply decide_ext, HPQ, list_elem_of_here.
Qed.

(** One more (or one fewer) point satisfies the test. *)
Lemma filter_length_add (P P' : Point -> Prop) `{forall x, Decision (P x)}
    `{forall x, Decision (P' x)} (l : list Point) (x : Point) :
  NoDup l -> ~ P x -> (forall n, P' n <-> P n \/ n = x) ->
  length (filter P' l) = (length (filter P l) + if decide (x ∈ l) then 1 else 0)%nat.
Proof.
  intros Hnd HPx HP'. induction Hnd as [|n l Hn Hnd IH]; [done|].
  rewrite !filter_cons.
  destruct (decide (n = x)) as [->|Hne].
  - rewrite (decide_True (P := P' x)) by (apply HP'; auto).
    rewrite (decide_False (P := P x)) by done.
    rewrite (decide_True (P := x ∈ x :: l)) by apply list_elem_of_here.
    simpl. rewrite IH. rewrite decide_False by done. lia.
  - assert ((if decide (x ∈ n :: l) then 1 else 0)%nat
            = (if decide (x ∈ l) then 1 else 0)%nat) as ->.
    { apply decide_ext. rewrite elem_of_cons. split; [|auto].
      intros [?|?]; [congruence|done]. }
    destruct (decide (P n)) as [HPn|HPn].
    + rewrite (decide_True (P := P' n)) by (apply HP'; auto). simpl. by rewrite IH.
    + rewrite (decide_False (P := P' n)); [done|].
      intros [?|?]%HP'; congruence.
Qed.

(** ** The zobrist table *)

Definition table_shaped (T : list (list Z)) : Prop :=
  length T = NPOINTS /\ Forall (fun row => length row = 4%nat) T.

Definition zv (T : list (list Z)) (p : Point) (c : Color) : Z :=
  (T !!! Z.to_nat p) !!! Z.to_nat (Color_value c).

(** The liberties handed back to the chain of head [k] when the points of
    [L] leave the board: one per adjacency, in the order of the loop. *)
Definition grants (b : GoBoard) (L : list Point) (k : Point) : list Point :=
  x ← L; n ← neighbours x; if decide (hd b n = k) then [x] else [].

Section Steps.
Variable ZOBRIST : list (list Z).
Hypothesis HZ : table_shaped ZOBRIST.

Lemma zobrist_value_Ok p c :
  on_grid p -> zobrist_value ZOBRIST p c = Ok (zv ZOBRIST p c).
Proof.
  intros Hp. destruct HZ as (Hlen & Hrows). unfold zobrist_value, zv.
  rewrite getitem_Ok by (rewrite Hlen; unfold on_grid, NPOINTS in *; lia). ok.
  apply getitem_Ok.
  assert (length (ZOBRIST !!! Z.to_nat p) = 4%nat) as ->.
  { rewrite Forall_forall in Hrows. apply Hrows. apply list_elem_of_lookup_total_2.
    rewrite Hlen. unfold on_grid, NPOINTS in *. lia. }
  destruct c; simpl; lia.
Qed.

Lemma _set_stone_spec b p c :
  shaped b -> on_grid p ->
  exists b', _set_stone ZOBRIST b p c = Ok b' /\ shaped b' /\
    (forall q, colr b' q = if decide (q = p) then c else colr b q) /\
    (forall q, hd b' q = hd b q) /\
    (forall q, nx b' q = nx b q) /\
    (forall k, chn b' k = chn b k) /\
    scalars b' = scalars b /\
    _zobrist_hash b' =
      Z.lxor (_zobrist_hash b)
             (zv ZOBRIST p (if decide (c = EMPTY) then colr b p else c)).
Proof.
  intros Hb Hp. unfold _set_stone.
  assert ((if bool_decide (c = EMPTY)
           then pc ← point_color b p; zobrist_value ZOBRIST p pc
           else zobrist_value ZOBRIST p c)
          = Ok (zv ZOBRIST p (if decide (c = EMPTY) then colr b p else c))) as ->.
  { rewrite bool_decide_decide. destruct (decide (c = EMPTY)).
    - rewrite point_color_Ok by done. ok. by apply zobrist_value_Ok.
    - by apply zobrist_value_Ok. }
  ok. set (b0 := with_zobrist_hash _ b).
  assert (shaped b0) as Hb0 by done.
  rewrite update_vertex_Ok by done.
  eexists. split; [done|]. split; [by apply shaped_upd_vertex|].
  split; [|split; [|split; [|split; [|split]]]]; try done.
  - intros q. by views.
  - intros q. by views.
  - intros q. by views.
Qed.

(** ** Taking one stone of a chain off the board *)

Lemma grants_single b x k :
  grants b [x] k = neighbours x ≫= fun n => if decide (hd b n = k) then [x] else [].
Proof.
  unfold grants. change ([x] ≫= ?f) with (f x ++ []). by rewrite app_nil_r.
Qed.

Lemma grants_app b L1 L2 k : grants b (L1 ++ L2) k = grants b L1 k ++ grants b L2 k.
Proof. unfold grants. induction L1 as [|x L1 IH]; [done|].
  change (((x :: L1) ++ L2) ≫= ?f) with (f x ++ ((L1 ++ L2) ≫= f)).
  change ((x :: L1) ≫= ?f) with (f x ++ (L1 ≫= f)).
  by rewrite IH, app_assoc.
Qed.

Lemma grants_ext b b' L k :
  (forall x n, x ∈ L -> n ∈ neighbours x -> hd b' n = k <-> hd b n = k) ->
  grants b' L k = grants b L k.
Proof.
  intros Hag. unfold grants. apply bind_ext_in. intros x Hx.
  apply bind_ext_in. intros n Hn. apply decide_ext. by apply (Hag x n).
Qed.

Lemma remove_step_spec b H cur R :
  RInv b H (cur :: R) -> cur ∉ R ->
  exists b', remove_step ZOBRIST b H cur = Ok (nx b cur, b') /\ RInv b' H R /\
    (forall q, colr b' q = if decide (q = cur) then EMPTY else colr b q) /\
    (forall q, q <> cur -> hd b' q = hd b q) /\
    (forall q, q <> cur -> nx b' q = nx b q) /\
    hd b' cur = cur /\
    (forall k, k <> cur -> k <> H ->
       chn b' k = add_liberties (grants b [cur] k) (chn b k)) /\
    scalars b' = scalars b /\
    _zobrist_hash b' = Z.lxor (_zobrist_hash b) (zv ZOBRIST cur (colr b cur)).
Proof.
  intros [HB Hrest Hhead Hring] HcurR.
  destruct (Hrest cur (list_elem_of_here _ _)) as (Hscur & Hhcur).
  pose proof (stone_on_board b HB cur Hscur) as Hcb.
  assert (on_grid cur) as Hgcur by (by apply on_board_grid).
  pose proof (base_shaped b HB) as Hsh.
  assert (forall n, n ∈ neighbours cur -> on_grid n) as Hngrid
    by (intros n; by apply neighbours_on_grid).
  assert (forall n, n ∈ neighbours cur -> n <> cur) as Hnne.
  { intros n Hn ->. by apply (neighbours_irrefl cur). }
  (* no stone outside the rest of the chain has [cur] as its head *)
  assert (forall q, stone b q -> q ∉ cur :: R -> hd b q <> cur) as Hnothead.
  { intros q Hq HqR Heq. destruct (Hhead q Hq HqR) as (_ & Hfix & HneH).
    rewrite Heq in Hfix. congruence. }
  unfold remove_step.
  rewrite vertex_Ok by done. ok.
  destruct (_set_stone_spec b cur EMPTY Hsh Hgcur)
    as (b1 & -> & Hsh1 & Hc1 & Hh1 & Hn1 & Hk1 & Hs1 & Hz1). ok.
  destruct (_init_new_chain_spec b1 cur Hsh1 Hcb)
    as (b2 & -> & Hsh2 & Hc2 & Hh2 & Hn2 & Hk2 & Hs2 & Hz2). ok.
  assert (forall q, colr b2 q = if decide (q = cur) then EMPTY else colr b q) as Hc
    by (intros q; by rewrite Hc2, Hc1).
  assert (forall q, hd b2 q = if decide (q = cur) then cur else hd b q) as Hh
    by (intros q; by rewrite Hh2, Hh1).
  assert (forall q, nx b2 q = if decide (q = cur) then cur else nx b q) as Hn
    by (intros q; by rewrite Hn2, Hn1).
  assert (forall n, n ∈ neighbours cur -> hd b2 n = hd b n /\ colr b2 n = colr b n) as Hnb.
  { intros n Hn'. rewrite Hh, Hc. by rewrite !decide_False by (by apply Hnne). }
  set (cond := fun n => hd b2 n <> H \/ colr b2 n = EMPTY).
  set (sel := fun n => if decide (cond n)
                       then [(hd b2 n, Chain.add_liberty cur) : chain_op] else []).
  (* where a granted liberty goes *)
  assert (forall n, n ∈ neighbours cur -> cond n ->
            on_grid (hd b2 n) /\ hd b2 n <> cur /\
            (colr b n = EMPTY -> hd b2 n = n) /\
            (colr b n <> EMPTY -> colr b (hd b2 n) <> EMPTY)) as Htarget.
  { intros n Hn' Hcond. destruct (Hnb n Hn') as (Ehd & Ecol).
    unfold cond in Hcond. rewrite Ehd, Ecol in Hcond. rewrite Ehd.
    destruct (color_cases b n) as [Hs|[He|Hg]].
    - destruct (decide (n ∈ R)) as [HnR|HnR].
      + destruct (Hrest n (list_elem_of_further _ _ _ HnR)) as (_ & HhH).
        destruct Hcond as [?|He]; [done|]. by apply stone_not_empty in Hs.
      + assert (n ∉ cur :: R) as HnR'.
        { intros [?|?]%elem_of_cons; [by apply (Hnne n)|done]. }
        destruct (Hhead n Hs HnR') as (Hcolh & _ & _).
        assert (stone b (hd b n)) as Hsh' by (unfold stone; by rewrite Hcolh).
        split; [by apply on_board_grid, (stone_on_board b)|].
        split; [by apply Hnothead|]. split.
        * intros He. by apply stone_not_empty in Hs.
        * intros _. by apply stone_not_empty.
    - destruct (base_empty b HB n He) as (Hself & _). rewrite Hself.
      split; [by apply Hngrid|]. split; [by apply Hnne|]. split; [done|]. done.
    - rewrite (base_guard b HB n (Hngrid n Hn') Hg).
      split; [by apply Hngrid|]. split; [by apply Hnne|]. split;
        [intros; congruence|]. intros _. by rewrite Hg. }
  rewrite (for_each_ops (neighbours cur) _ sel b2).
  2: done.
  2: { intros n Hn'. unfold sel. destruct (decide (cond n)) as [Hcond|]; [|constructor].
       constructor; [|constructor]. by apply Htarget. }
  2: { intros b' n Hn' Hsh' Hsame.
       assert (hd b' n = hd b2 n) as Ehd by (unfold hd, vtx; by rewrite Hsame).
       assert (colr b' n = colr b2 n) as Ecol by (unfold colr, vtx; by rewrite Hsame).
       rewrite chain_head_Ok by auto. ok. rewrite Ehd.
       unfold sel, cond. rewrite bool_decide_decide.
       destruct (decide (hd b2 n <> H)) as [HneH|HeqH].
       - ok. rewrite decide_True by auto.
         rewrite update_chain_Ok; [by rewrite Ehd|done|auto|].
         rewrite Ehd. apply Htarget; [done|]. by left.
       - rewrite is_empty_Ok by auto. ok. rewrite Ecol, bool_decide_decide.
         destruct (decide (colr b2 n = EMPTY)) as [He|He].
         + rewrite decide_True by auto.
           rewrite update_chain_Ok; [by rewrite Ehd|done|auto|].
           rewrite Ehd. apply Htarget; [done|]. by right.
         + rewrite decide_False by tauto. done. }
  set (b3 := apply_ops (neighbours cur ≫= sel) b2).
  assert (forall k, chn b3 k =
            add_liberties
              (neighbours cur ≫= fun n => if decide (cond n /\ hd b2 n = k) then [cur] else [])
              (chn b2 k)) as Hk3.
  { intros k. unfold b3. rewrite chn_apply_ops; [|done|].
    - unfold sel. by rewrite (ops_on_grants k _ cond (hd b2) (fun _ => cur)).
    - apply Forall_forall. intros o (n & Ho & Hn')%list_elem_of_bind.
      unfold sel in Ho. destruct (decide (cond n)) as [Hcond|]; [|by apply elem_of_nil in Ho].
      apply list_elem_of_singleton in Ho as ->. by apply Htarget. }
  assert (forall q, colr b3 q = if decide (q = cur) then EMPTY else colr b q) as Hc3
    by (intros q; unfold b3; by rewrite colr_apply_ops).
  assert (forall q, hd b3 q = if decide (q = cur) then cur else hd b q) as Hh3
    by (intros q; unfold b3; by rewrite hd_apply_ops).
  assert (forall q, nx b3 q = if decide (q = cur) then cur else nx b q) as Hn3
    by (intros q; unfold b3; by rewrite nx_apply_ops).
  assert (scalars b3 = scalars b) as Hs3
    by (unfold b3; by rewrite scalars_apply_ops, Hs2, Hs1).
  assert (forall q, q <> cur -> stone b3 q <-> stone b q) as Hst3.
  { intros q Hq. unfold stone. by rewrite Hc3, decide_False. }
  (* the empty neighbours of a point, before and after *)
  assert (forall q, length (empties b3 q)
            = (length (empties b q) + if decide (cur ∈ neighbours q) then 1 else 0)%nat)
    as Hemp.
  { intros q. unfold empties.
    apply (filter_length_add (fun n => colr b n = EMPTY)); [apply NoDup_neighbours| |].
    - by apply stone_not_empty.
    - intros n. rewrite Hc3. destruct (decide (n = cur)) as [->|]; [tauto|].
      split; [auto|]. by intros [?|?]. }
  exists b3. split; [done|].
  split; [|split; [done|split; [|split; [|split; [|split; [|split]]]]]].
  - (* the invariant of the loop *)
    split.
    + split.
      * unfold b3. by apply shaped_apply_ops.
      * assert (_board_size b3 = _board_size b) as -> by (by injection Hs3).
        apply HB.
      * intros q. rewrite Hc3.
        assert (in_board_area b3 q = in_board_area b q) as ->.
        { unfold in_board_area. by assert (_board_size b3 = _board_size b) as ->
            by (by injection Hs3). }
        destruct (decide (q = cur)) as [->|]; [|apply HB].
        split; [intros _|done]. apply (base_area b HB). by apply stone_not_guard.
      * intros q Hq. rewrite Hc3, Hh3. destruct (decide (q = cur)); [done|]. by apply HB.
      * intros q. rewrite Hc3, Hh3, Hk3, Hemp.
        destruct (decide (q = cur)) as [->|Hq].
        -- intros _. split; [done|].
           rewrite decide_False by apply neighbours_irrefl.
           assert ((neighbours cur ≫= fun n =>
                      if decide (cond n /\ hd b2 n = cur) then [cur] else []) = []) as ->.
           { rewrite <- (bind_ext_in (fun _ => [])).
             - reflexivity.
             - intros n Hn'. rewrite decide_False; [done|].
               intros (Hcond & Heq). by destruct (Htarget n Hn' Hcond) as (_ & ? & _). }
           rewrite Hk2, decide_True by done.
           change (add_liberties [] ?c) with c.
           destruct (add_liberties_stats (empties b1 cur) (Chain.mk 1 0 0 0))
             as (_ & -> & _). simpl. rewrite Nat.add_0_r, Z.add_0_l.
           do 2 f_equal. unfold empties. apply filter_ext_in.
           intros n Hn'. rewrite Hc1. by rewrite decide_False by (by apply Hnne).
        -- intros He. destruct (base_empty b HB q He) as (Hself & Hnpl).
           split; [done|].
           rewrite Hk2, decide_False, Hk1 by done.
           destruct (add_liberties_stats
             (neighbours cur ≫= fun n => if decide (cond n /\ hd b2 n = q) then [cur] else [])
             (chn b q)) as (_ & -> & _).
           rewrite Hnpl.
           rewrite (bind_ext_in _ (fun n => if decide (n = q) then [cur] else [])).
           ++ rewrite length_bind_indicator by apply NoDup_neighbours.
              rewrite (decide_ext (cur ∈ neighbours q) (q ∈ neighbours cur))
                by apply neighbours_sym.
              destruct (decide (q ∈ neighbours cur)); lia.
           ++ intros n Hn'. apply decide_ext. split.
              ** intros (Hcond & Heq).
                 destruct (Htarget n Hn' Hcond) as (_ & _ & Hte & Htn).
                 destruct (decide (colr b n = EMPTY)) as [Hne|Hne].
                 --- rewrite <- Heq. symmetry. by apply Hte.
                 --- exfalso. apply (Htn Hne). by rewrite Heq.
              ** intros ->. destruct (Hnb q Hn') as (Ehd & Ecol).
                 split; [right; by rewrite Ecol|]. by rewrite Ehd.
      * intros q n Hq Hn' Hcn.
        assert (q <> cur) as Hqc.
        { intros ->. unfold stone in Hq. rewrite Hc3, decide_True in Hq by done. done. }
        assert (n <> cur) as Hnc.
        { intros ->. unfold stone in Hq. rewrite <- Hcn in Hq.
          rewrite Hc3, decide_True in Hq by done. done. }
        rewrite !Hc3, !decide_False in Hcn by done.
        rewrite !Hh3, !decide_False by done.
        apply (base_adj b HB); [|done..]. by apply Hst3 in Hq.
    + intros x Hx. assert (x <> cur) as Hxc by (intros ->; done).
      rewrite Hst3, Hh3, decide_False by done.
      apply Hrest. by apply list_elem_of_further.
    + intros q Hq HqR.
      assert (q <> cur) as Hqc.
      { intros ->. unfold stone in Hq. rewrite Hc3, decide_True in Hq by done. done. }
      apply Hst3 in Hq; [|done].
      assert (q ∉ cur :: R) as HqR' by (intros [?|?]%elem_of_cons; done).
      destruct (Hhead q Hq HqR') as (Hcolh & Hfix & HneH).
      pose proof (Hnothead q Hq HqR') as Hnc.
      rewrite !Hh3, !Hc3. rewrite !(decide_False (P := q = cur)) by done.
      rewrite !decide_False by done. done.
    + intros H' HsH' HfixH' HneH'.
      assert (H' <> cur) as Hc'.
      { intros ->. unfold stone in HsH'. rewrite Hc3, decide_True in HsH' by done. done. }
      apply Hst3 in HsH'; [|done]. rewrite Hh3, decide_False in HfixH' by done.
      destruct (Hring H' HsH' HfixH' HneH') as (l & Hnd & (Hne & x & Hpath) & Hmem & Hnum).
      assert (cur ∉ l) as Hcl.
      { intros (_ & Hcl)%Hmem. congruence. }
      exists l. split; [done|]. split; [|split].
      * split; [done|]. exists x. apply (path_ext (nx b)); [|done].
        intros a Ha. rewrite Hn3, decide_False; [done|]. by intros ->.
      * intros y. rewrite Hmem. destruct (decide (y = cur)) as [->|Hy].
        -- split.
           ++ intros (_ & ?). congruence.
           ++ intros (Hst & _). unfold stone in Hst.
              rewrite Hc3, decide_True in Hst by done. done.
        -- by rewrite Hst3, Hh3, decide_False.
      * rewrite Hk3, Hk2, decide_False, Hk1 by done.
        by destruct (add_liberties_stats
          (neighbours cur ≫= fun n => if decide (cond n /\ hd b2 n = H') then [cur] else [])
          (chn b H')) as (-> & _).
  - intros q Hq. by rewrite Hh3, decide_False.
  - intros q Hq. by rewrite Hn3, decide_False.
  - by rewrite Hh3, decide_True.
  - intros k Hkc HkH. rewrite Hk3, Hk2, decide_False, Hk1 by done.
    f_equal. rewrite grants_single.
    apply bind_ext_in. intros n Hn'. apply decide_ext.
    destruct (Hnb n Hn') as (Ehd & Ecol). unfold cond. rewrite Ehd. split.
    + by intros (_ & ?).
    + intros <-. auto.
  - done.
  - unfold b3. rewrite hash_apply_ops, Hz2, Hz1. by rewrite decide_True.
Qed.

(** ** Taking a whole chain off the board *)

(** The zobrist values of the stones at the points of [L]. *)
Definition stones_xor (b : GoBoard) (L : list Point) : Z :=
  foldr (fun x acc => Z.lxor (zv ZOBRIST x (colr b x)) acc) 0 L.

(** [b'] is [b] without the stones at [L], which all had head [H]. *)
Definition removed (b : GoBoard) (H : Point) (L : list Point) (b' : GoBoard) : Prop :=
  (forall q, colr b' q = if decide (q ∈ L) then EMPTY else colr b q) /\
  (forall q, q ∉ L -> hd b' q = hd b q /\ nx b' q = nx b q) /\
  (forall q, q ∈ L -> hd b' q = q) /\
  (forall k, k ∉ L -> k <> H ->
     chn b' k = add_liberties (grants b L k) (chn b k)) /\
  scalars b' = scalars b /\
  _zobrist_hash b' = Z.lxor (_zobrist_hash b) (stones_xor b L).

Lemma stones_xor_ext b b' L :
  (forall x, x ∈ L -> colr b' x = colr b x) -> stones_xor b' L = stones_xor b L.
Proof.
  induction L as [|x L IH]; intros Hag; [done|]. simpl.
  rewrite Hag by apply list_elem_of_here. f_equal. apply IH.
  intros y Hy. apply Hag. by apply list_elem_of_further.
Qed.

Lemma remove_loop_spec H p R : forall cur b fuel,
  RInv b H (cur :: R) -> NoDup (cur :: R) ->
  path (nx b) cur (cur :: R) p -> p ∉ R -> (length R < fuel)%nat ->
  exists b', remove_loop ZOBRIST fuel b H p cur = Ok b' /\ RInv b' H [] /\
    removed b H (cur :: R) b'.
Proof.
  induction R as [|c2 R IH]; intros cur b fuel HR Hnd Hpath Hp Hfuel.
  - destruct fuel as [|fuel]; [simpl in Hfuel; lia|].
    destruct (remove_step_spec b H cur [] HR ltac:(apply not_elem_of_nil))
      as (b1 & E1 & HR1 & Hc1 & Hh1 & Hn1 & Hhc1 & Hk1 & Hs1 & Hz1).
    cbn [remove_loop]. rewrite E1. ok.
    destruct Hpath as (_ & Hlast). simpl in Hlast. rewrite Hlast, Z.eqb_refl.
    exists b1. split; [done|]. split; [done|].
    split; [|split; [|split; [|split; [|split]]]].
    + intros q. rewrite Hc1. apply decide_ext. by rewrite list_elem_of_singleton.
    + intros q Hq. rewrite list_elem_of_singleton in Hq. auto.
    + intros q Hq. apply list_elem_of_singleton in Hq as ->. done.
    + intros k Hk HkH. rewrite list_elem_of_singleton in Hk. auto.
    + done.
    + rewrite Hz1. simpl. by rewrite Z.lxor_0_r.
  - destruct fuel as [|fuel]; [simpl in Hfuel; lia|].
    apply NoDup_cons in Hnd as (HcurR & Hnd).
    destruct (remove_step_spec b H cur (c2 :: R) HR HcurR)
      as (b1 & E1 & HR1 & Hc1 & Hh1 & Hn1 & Hhc1 & Hk1 & Hs1 & Hz1).
    cbn [remove_loop]. rewrite E1. ok.
    destruct Hpath as (_ & Hc2 & Hpath).
    assert (nx b cur <> p) as Hne.
    { rewrite <- Hc2. intros ->. apply Hp, list_elem_of_here. }
    apply Z.eqb_neq in Hne. rewrite Hne, <- Hc2.
    assert (forall a, a ∈ c2 :: R -> a <> cur) as Hac by (intros a Ha ->; done).
    destruct (IH c2 b1 fuel) as (b' & E' & HR' & Hq' & Hhn' & Hhs' & Hk' & Hs' & Hz').
    + done.
    + done.
    + split; [done|]. rewrite Hn1 by (apply Hac, list_elem_of_here).
      apply (path_ext (nx b)); [|done].
      intros a Ha. apply Hn1, Hac. by apply list_elem_of_further.
    + intros HpR. apply Hp. by apply list_elem_of_further.
    + simpl in Hfuel. lia.
    + exists b'. split; [done|]. split; [done|].
      split; [|split; [|split; [|split; [|split]]]].
      * intros q. rewrite Hq', Hc1.
        destruct (decide (q = cur)) as [->|Hqc].
        -- rewrite (decide_True (P := cur ∈ cur :: c2 :: R)) by apply list_elem_of_here.
           by destruct (decide _).
        -- apply decide_ext. rewrite (elem_of_cons (c2 :: R) q cur).
           split; [auto|]. by intros [?|?].
      * intros q Hq. apply not_elem_of_cons in Hq as (Hqc & Hq).
        destruct (Hhn' q Hq) as (-> & ->). auto.
      * intros q Hq. destruct (decide (q ∈ c2 :: R)) as [HqR|HqR]; [by apply Hhs'|].
        apply elem_of_cons in Hq as [->|?]; [|done].
        destruct (Hhn' cur HqR) as (-> & _). done.
      * intros k Hk HkH. apply not_elem_of_cons in Hk as (Hkc & Hk).
        rewrite Hk', Hk1 by done.
        rewrite <- add_liberties_app. f_equal.
        change (cur :: c2 :: R) with ([cur] ++ c2 :: R). rewrite grants_app. f_equal.
        apply grants_ext. intros x n Hx Hn.
        destruct (decide (n = cur)) as [->|Hnc]; [|by rewrite Hh1].
        rewrite Hhc1. destruct (rinv_rest b H _ HR cur (list_elem_of_here _ _)) as (_ & ->).
        split; intros; congruence.
      * by rewrite Hs'.
      * rewrite Hz', Hz1.
        change (stones_xor b (cur :: c2 :: R))
          with (Z.lxor (zv ZOBRIST cur (colr b cur)) (stones_xor b (c2 :: R))).
        rewrite Z.lxor_assoc. do 2 f_equal.
        apply stones_xor_ext. intros x Hx. rewrite Hc1, decide_False; [done|]. by apply Hac.
Qed.

Lemma Inv_RInv b H l : Inv b -> ring_of b H l -> RInv b H l.
Proof.
  intros [HB Hhead Hring] (Hnd & Hcyc & Hmem & Hnum). split; [done|..].
  - intros x Hx. by apply Hmem.
  - intros q Hq Hql. destruct (Hhead q Hq) as (? & ?). split; [done|]. split; [done|].
    intros Heq. apply Hql, Hmem. done.
  - intros H' ? ? _. by apply Hring.
Qed.

Lemma RInv_Inv b H : RInv b H [] -> Inv b.
Proof.
  intros [HB Hrest Hhead Hring]. split; [done|..].
  - intros q Hq. destruct (Hhead q Hq ltac:(apply not_elem_of_nil)) as (? & ? & _). done.
  - intros H' Hs Hfix. apply Hring; [done..|].
    destruct (Hhead H' Hs ltac:(apply not_elem_of_nil)) as (_ & _ & Hne). congruence.
Qed.

Lemma ring_of_perm b H l l' :
  l' ≡ₚ l -> cycle (nx b) l' -> ring_of b H l -> ring_of b H l'.
Proof.
  intros Hperm Hcyc (Hnd & _ & Hmem & Hnum). split; [by rewrite Hperm|].
  split; [done|]. split.
  - intros x. by rewrite Hperm.
  - by rewrite Hperm.
Qed.

(** The ring of a stone, read from that stone. *)
Lemma Inv_ring_from b n :
  Inv b -> stone b n ->
  exists l, ring_of b (hd b n) (n :: l) /\ path (nx b) n (n :: l) n.
Proof.
  intros Hi Hn. destruct (inv_head b Hi n Hn) as (Hcol & Hfix).
  assert (stone b (hd b n)) as Hsh by (unfold stone; by rewrite Hcol).
  destruct (inv_ring b Hi (hd b n) Hsh Hfix) as (l & Hring).
  assert (n ∈ l) as Hnl by (by apply Hring).
  destruct Hring as (Hnd & Hcyc & Hmem & Hnum).
  destruct (cycle_from (nx b) l n Hcyc Hnl) as (l' & Hperm & Hpath).
  exists l'. split; [|done].
  apply (ring_of_perm b (hd b n) l); [done| |done].
  split; [done|]. by exists n.
Qed.

Lemma _remove_chain_spec b n :
  Inv b -> stone b n ->
  exists b' l, _remove_chain ZOBRIST b n = Ok b' /\ Inv b' /\
    ring_of b (hd b n) (n :: l) /\ removed b (hd b n) (n :: l) b'.
Proof.
  intros Hi Hn.
  destruct (Inv_ring_from b n Hi Hn) as (l & Hring & Hpath).
  pose proof (inv_base b Hi) as HB.
  unfold _remove_chain.
  rewrite chain_head_Ok
    by (apply HB || by apply on_board_grid, (stone_on_board b)). ok.
  assert (NoDup (n :: l)) as Hnd by apply Hring.
  destruct (remove_loop_spec (hd b n) n l n b loop_fuel)
    as (b' & E & HR & Hrem).
  - by apply Inv_RInv.
  - done.
  - done.
  - by apply NoDup_cons in Hnd as (? & _).
  - pose proof (NoDup_on_grid_length (n :: l) Hnd (ring_of_on_grid b _ _ HB Hring)) as Hlen.
    simpl in Hlen. unfold loop_fuel. change (Z.to_nat VIRTUAL_BOARD_POINTS) with 441%nat. lia.
  - exists b', l. split; [done|]. split; [by apply (RInv_Inv b' (hd b n))|]. done.
Qed.

(** ** Merging the chain of a neighbour into the largest one *)

Lemma scalars_size b b' : scalars b' = scalars b -> _board_size b' = _board_size b.
Proof. unfold scalars. intros Hs. by injection Hs. Qed.

Lemma scalars_area b b' q :
  scalars b' = scalars b -> in_board_area b' q = in_board_area b q.
Proof. intros Hs. unfold in_board_area. by rewrite (scalars_size b b' Hs). Qed.

Definition set_heads (L : Point) (l : list Point) (b : GoBoard) : GoBoard :=
  foldl (fun b x => upd_vertex b x (Vertex.with_chain_head L)) b l.

Lemma set_heads_spec L l : forall b,
  shaped b -> Forall on_grid l ->
  shaped (set_heads L l b) /\
  (forall q, colr (set_heads L l b) q = colr b q) /\
  (forall q, hd (set_heads L l b) q = if decide (q ∈ l) then L else hd b q) /\
  (forall q, nx (set_heads L l b) q = nx b q) /\
  (forall k, chn (set_heads L l b) k = chn b k) /\
  scalars (set_heads L l b) = scalars b /\
  _zobrist_hash (set_heads L l b) = _zobrist_hash b.
Proof.
  induction l as [|x l IH]; intros b Hb Hl.
  - split; [done|]. split; [done|]. split; [|done].
    intros q. by rewrite decide_False by apply not_elem_of_nil.
  - inversion Hl as [|? ? Hx Hl']; subst.
    destruct (IH (upd_vertex b x (Vertex.with_chain_head L)))
      as (Hs & Hc & Hh & Hn & Hk & Hsc & Hz); [by apply shaped_upd_vertex|done|].
    cbn [set_heads foldl]. fold (set_heads L l (upd_vertex b x (Vertex.with_chain_head L))).
    split; [done|]. split; [|split; [|split; [|split; [|split]]]]; try done.
    + intros q. rewrite Hc. by views.
    + intros q. rewrite Hh. views.
      destruct (decide (q ∈ l)) as [Hq|Hq].
      * by rewrite decide_True by (by apply list_elem_of_further).
      * destruct (decide (q = x)) as [->|Hqx].
        -- by rewrite decide_True by apply list_elem_of_here.
        -- rewrite decide_False; [done|]. by intros [?|?]%elem_of_cons.
    + intros q. rewrite Hn. by views.
Qed.

Lemma relabel_loop_spec L n R : forall cur b fuel,
  shaped b -> Forall on_grid (cur :: R) ->
  path (nx b) cur (cur :: R) n -> n ∉ R -> (length R < fuel)%nat ->
  relabel_loop fuel b L n cur = Ok (set_heads L (cur :: R) b).
Proof.
  induction R as [|c2 R IH]; intros cur b fuel Hb Hg Hpath Hn Hfuel;
    (destruct fuel as [|fuel]; [simpl in Hfuel; lia|]);
    inversion Hg as [|? ? Hgc Hg']; subst;
    cbn [relabel_loop];
    rewrite update_vertex_Ok by done; ok;
    rewrite vertex_Ok by (done || by apply shaped_upd_vertex); ok;
    change (Vertex.chain_next (vtx ?b ?q)) with (nx b q); rewrite nx_set_head.
  - destruct Hpath as (_ & Hlast). simpl in Hlast. by rewrite Hlast, Z.eqb_refl.
  - destruct Hpath as (_ & Hc2 & Hpath). rewrite <- Hc2.
    assert (c2 <> n) as Hne by (intros ->; apply Hn, list_elem_of_here).
    apply Z.eqb_neq in Hne. rewrite Hne.
    rewrite IH; [done|by apply shaped_upd_vertex|done| | |simpl in Hfuel; lia].
    + split; [done|]. rewrite nx_set_head.
      apply (path_ext (nx b)); [|done]. intros a _. apply nx_set_head.
    + intros HnR. apply Hn. by apply list_elem_of_further.
Qed.

Lemma join_step_merge b L n :
  Inv b -> stone b L -> hd b L = L -> stone b n -> colr b n = colr b L -> hd b n <> L ->
  exists b', join_step L (colr b L) b n = Ok b' /\ Inv b' /\
    (forall q, colr b' q = colr b q) /\
    (forall q, hd b' q = if decide (stone b q /\ hd b q = hd b n) then L else hd b q) /\
    (forall k, k <> L -> chn b' k = chn b k) /\
    scalars b' = scalars b /\ _zobrist_hash b' = _zobrist_hash b.
Proof.
  intros Hi HsL HfixL Hsn Hcoln Hne.
  pose proof (inv_base b Hi) as HB. pose proof (base_shaped b HB) as Hsh.
  destruct (Inv_ring_from b n Hi Hsn) as (l & Hringn & Hpathn).
  destruct (inv_head b Hi n Hsn) as (Hcolh & Hfixh).
  set (h := hd b n) in *.
  assert (stone b h) as Hsh' by (unfold stone; by rewrite Hcolh).
  assert (on_grid n) as Hgn by (by apply on_board_grid, (stone_on_board b)).
  assert (on_grid L) as HgL by (by apply on_board_grid, (stone_on_board b)).
  assert (on_grid h) as Hgh by (by apply on_board_grid, (stone_on_board b)).
  destruct (inv_ring b Hi L HsL HfixL) as (lL0 & HringL0).
  assert (L ∈ lL0) as HLin by (by apply HringL0).
  destruct (cycle_until (nx b) lL0 L ltac:(apply HringL0) HLin) as (lL & HpermL & HpathL).
  assert (ring_of b L (lL ++ [L])) as HringL.
  { apply (ring_of_perm b L lL0); [done| |done]. split; [by destruct lL|].
    exists (nx b L). by apply path_snoc. }
  clear HringL0 HLin HpermL lL0.
  destruct Hringn as (Hndn & _ & Hmemn & Hnumn).
  destruct HringL as (HndL & _ & HmemL & HnumL).
  assert (Forall on_grid (n :: l)) as Hgl.
  { apply Forall_forall. intros x (Hx & _)%Hmemn.
    by apply on_board_grid, (stone_on_board b). }
  unfold join_step.
  rewrite point_color_Ok by done. ok. rewrite bool_decide_eq_true_2 by done.
  rewrite chain_head_Ok by done. ok. rewrite bool_decide_eq_true_2 by done.
  rewrite _chain_Ok by done. ok.
  rewrite update_chain_Ok by (done || by rewrite HfixL). ok. rewrite HfixL.
  set (b1 := upd_chain b L _).
  assert (shaped b1) as Hsh1 by (by apply shaped_upd_chain).
  rewrite (relabel_loop_spec L n l n b1 loop_fuel); [|done|done|done| |].
  2: { by apply NoDup_cons in Hndn as (? & _). }
  2: { pose proof (NoDup_on_grid_length (n :: l) Hndn Hgl) as Hlen. simpl in Hlen.
       unfold loop_fuel. change (Z.to_nat VIRTUAL_BOARD_POINTS) with 441%nat. lia. }
  ok.
  destruct (set_heads_spec L (n :: l) b1 Hsh1 Hgl) as (Hsh2 & Hc2 & Hh2 & Hn2 & Hk2 & Hs2 & Hz2).
  set (b2 := set_heads L (n :: l) b1) in *.
  rewrite !vertex_Ok by done. ok.
  rewrite update_vertex_Ok by done. ok.
  rewrite update_vertex_Ok by (done || by apply shaped_upd_vertex).
  change (Vertex.chain_next (vtx b2 ?q)) with (nx b2 q).
  set (b3 := upd_vertex b2 L _). set (b4 := upd_vertex b3 n _).
  assert (shaped b3) as Hsh3 by (by apply shaped_upd_vertex).
  assert (forall q, colr b4 q = colr b q) as Hc4.
  { intros q. unfold b4, b3. views. by rewrite Hc2. }
  assert (forall q, hd b4 q = if decide (stone b q /\ hd b q = h) then L else hd b q) as Hh4.
  { intros q. unfold b4, b3. views. rewrite Hh2. apply decide_ext. apply Hmemn. }
  assert (forall q, nx b4 q = if decide (q = n) then nx b L
                              else if decide (q = L) then nx b n else nx b q) as Hn4.
  { intros q. unfold b4, b3. views. by rewrite !Hn2. }
  assert (forall k, chn b4 k = if decide (k = L) then Chain.merge (chn b L) (chn b h)
                               else chn b k) as Hk4.
  { intros k. unfold b4, b3. views. rewrite Hk2. unfold b1. by views. }
  assert (L ∉ n :: l) as HLl by (intros (_ & ?)%Hmemn; congruence).
  assert (forall x, x ∈ n :: l -> x ∉ lL ++ [L]) as Hdisj.
  { intros x (_ & Hx)%Hmemn (_ & Hx')%HmemL. congruence. }
  assert (forall q, stone b4 q <-> stone b q) as Hst4 by (intros q; unfold stone; by rewrite Hc4).
  assert (scalars b4 = scalars b) as Hs4.
  { unfold b4, b3. transitivity (scalars b2); [done|]. by rewrite Hs2. }
  exists b4. split; [done|]. split; [split|].
  - (* guards and empty points never see the merge *)
    split.
    + by apply shaped_upd_vertex.
    + rewrite (scalars_size b b4 Hs4). apply HB.
    + intros q. rewrite Hc4, (scalars_area b b4 q Hs4). apply HB.
    + intros q Hq. rewrite Hc4, Hh4. intros Hg. rewrite decide_False; [by apply HB|].
      intros (Hs & _). by apply stone_not_guard in Hs.
    + intros q. rewrite Hc4, Hh4, Hk4. intros He.
      destruct (base_empty b HB q He) as (Hself & Hnpl).
      rewrite decide_False by (intros (Hs & _); by apply stone_not_empty in Hs).
      rewrite decide_False by (intros ->; by apply stone_not_empty in HsL).
      split; [done|]. rewrite Hnpl. do 2 f_equal. unfold empties.
      apply list_filter_iff. intros x. by rewrite Hc4.
    + intros q m Hq Hm Hcm. apply Hst4 in Hq. rewrite !Hc4 in Hcm.
      assert (stone b m) as Hsm by (unfold stone; by rewrite Hcm).
      pose proof (base_adj b HB q m Hq Hm Hcm) as Hadj.
      rewrite !Hh4, Hadj. apply decide_ext. tauto.
  - intros q Hq. apply Hst4 in Hq. destruct (inv_head b Hi q Hq) as (Hcq & Hfq).
    rewrite !Hh4, !Hc4.
    destruct (decide (stone b q /\ hd b q = h)) as [(_ & Hqh)|Hqh].
    + rewrite decide_False by (intros (_ & ?); congruence).
      split; [|done]. rewrite <- Hcoln, <- Hcolh. fold h. rewrite <- Hqh. done.
    + split; [done|]. rewrite decide_False; [done|].
      intros (_ & Heq). apply Hqh. split; [done|]. congruence.
  - intros H' HsH' HfixH'. apply Hst4 in HsH'. rewrite Hh4 in HfixH'.
    destruct (decide (stone b H' /\ hd b H' = h)) as [(_ & HH'h)|HH'h];
      [subst H'; congruence|].
    destruct (decide (H' = L)) as [->|HneL].
    + (* the grown ring of the largest chain *)
      exists ((lL ++ [L]) ++ (l ++ [n])).
      assert (path (nx b) (nx b n) (l ++ [n]) (nx b n)) as Hpn.
      { apply path_snoc. by destruct Hpathn. }
      assert (n ∉ l) as Hnl by (by apply NoDup_cons in Hndn as (? & _)).
      assert (L ∉ lL) as HLlL.
      { apply NoDup_app in HndL as (_ & HL & _). intros HL'.
        apply (HL L HL'). apply list_elem_of_here. }
      split; [|split; [|split]].
      * apply NoDup_app. split; [done|]. split.
        -- intros x Hx Hx'. apply (Hdisj x); [|done].
           rewrite (Permutation_app_comm l [n]) in Hx'. done.
        -- by rewrite (Permutation_app_comm l [n]).
      * split; [by destruct lL|]. exists (nx b L).
        apply path_app. exists (nx b n). split.
        -- apply path_app. exists L. split.
           ++ apply (path_ext (nx b)); [|done]. intros a Ha. rewrite Hn4.
              rewrite decide_False.
              ** rewrite decide_False; [done|]. by intros ->.
              ** intros ->. apply (Hdisj n); [apply list_elem_of_here|].
                 apply elem_of_app. by left.
           ++ split; [done|]. simpl. rewrite Hn4.
              rewrite decide_False by (intros ->; apply HLl, list_elem_of_here).
              by rewrite decide_True.
        -- apply path_app. exists n. split.
           ++ apply path_app in Hpn as (y & Hp1 & Hp2). destruct Hp2 as (<- & _).
              apply (path_ext (nx b)); [|done]. intros a Ha. rewrite Hn4.
              rewrite decide_False by (by intros ->).
              rewrite decide_False; [done|]. intros ->. apply HLl.
              by apply list_elem_of_further.
           ++ split; [done|]. simpl. rewrite Hn4. by rewrite decide_True.
      * intros x. rewrite Hst4, Hh4, elem_of_app, HmemL.
        rewrite (Permutation_app_comm l [n]). change ([n] ++ l) with (n :: l).
        rewrite Hmemn. fold h.
        destruct (decide (stone b x /\ hd b x = h)) as [(? & ?)|Hx]; [tauto|].
        split; [|tauto]. intros [?|?]; [done|tauto].
      * rewrite Hk4, decide_True by done. simpl. rewrite HnumL.
        fold h in Hnumn. rewrite Hnumn. rewrite !length_app. simpl. lia.
    + (* the other rings are left alone *)
      assert (hd b H' = H') as Hfix by done.
      assert (H' <> h) as Hneh by (intros ->; apply HH'h; done).
      destruct (inv_ring b Hi H' HsH' Hfix) as (lx & Hndx & (Hnex & x & Hpx) & Hmemx & Hnumx).
      exists lx. split; [done|]. split; [|split].
      * split; [done|]. exists x. apply (path_ext (nx b)); [|done].
        intros a (_ & Ha)%Hmemx. rewrite Hn4.
        rewrite decide_False by (intros ->; fold h in Ha; congruence).
        rewrite decide_False; [done|]. intros ->. congruence.
      * intros y. rewrite Hmemx, Hst4, Hh4.
        destruct (decide (stone b y /\ hd b y = h)) as [(? & ?)|Hy]; [|done].
        split; [intros (_ & ?); congruence|]. intros (_ & ?). congruence.
      * by rewrite Hk4, decide_False.
  - split; [done|]. split; [done|]. split.
    + intros k Hk. by rewrite Hk4, decide_False.
    + split; [done|].
      unfold b4, b3. transitivity (_zobrist_hash b2); [done|]. by rewrite Hz2.
Qed.

(** ** Placing a stone *)

(** The board between [_set_stone] and
    [_remove_liberty_from_neighbouring_chains]: the stone at [p] is on the
    board and in its ring, and still counted as a liberty around it. *)
Record Placed (b : GoBoard) (p : Point) : Prop := {
  placed_shaped : shaped b;
  placed_size : _board_size b <= 19;
  placed_area : forall q, colr b q <> GUARD <-> in_board_area b q = true;
  placed_guard : forall q, on_grid q -> colr b q = GUARD -> hd b q = q;
  placed_stone : stone b p;
  placed_empty : forall q, colr b q = EMPTY ->
    hd b q = q /\
    Chain.num_pseudo_liberties (chn b q)
      = Z.of_nat (length (empties b q)) + (if decide (p ∈ neighbours q) then 1 else 0);
  placed_head : forall q, stone b q ->
    colr b (hd b q) = colr b q /\ hd b (hd b q) = hd b q;
  placed_ring : forall H, stone b H -> hd b H = H -> exists l, ring_of b H l;
  placed_adj : forall q n, stone b q -> n ∈ neighbours q -> colr b n = colr b q ->
    hd b n = hd b q }.

Lemma ops_on_removes k (l : list Point) (t : Point -> Point) x c :
  Chain.num_stones (ops_on k (l ≫= fun n => [(t n, Chain.remove_liberty x)]) c)
    = Chain.num_stones c /\
  Chain.num_pseudo_liberties (ops_on k (l ≫= fun n => [(t n, Chain.remove_liberty x)]) c)
    = Chain.num_pseudo_liberties c - Z.of_nat (length (filter (fun n => t n = k) l)).
Proof.
  revert c. induction l as [|n l IH]; intros c; [simpl; lia|].
  change ((n :: l) ≫= ?f) with (f n ++ (l ≫= f)).
  rewrite ops_on_app, filter_cons.
  change (ops_on k [(t n, Chain.remove_liberty x)] c)
    with (if decide (t n = k) then Chain.remove_liberty x c else c).
  destruct (decide (t n = k)) as [Ht|Ht].
  - destruct (IH (Chain.remove_liberty x c)) as (-> & ->).
    cbn [Chain.remove_liberty Chain.num_stones Chain.num_pseudo_liberties length]. lia.
  - apply IH.
Qed.

Lemma filter_eq_length (l : list Point) (q : Point) :
  NoDup l -> length (filter (fun n => n = q) l) = if decide (q ∈ l) then 1%nat else 0%nat.
Proof.
  intros Hnd.
  rewrite (filter_length_add (fun _ => False) (fun n => n = q) l q Hnd); [|tauto|].
  - assert (filter (fun _ : Z => False) l = []) as ->; [|done].
    induction l as [|a l IH]; [done|]. rewrite filter_cons. simpl.
    apply IH. by apply NoDup_cons in Hnd as (_ & ?).
  - intros n. tauto.
Qed.

Lemma _remove_liberty_spec b p :
  Placed b p ->
  exists b', _remove_liberty_from_neighbouring_chains b p = Ok b' /\ Inv b' /\
    (forall q, colr b' q = colr b q) /\
    (forall q, hd b' q = hd b q) /\
    (forall q, nx b' q = nx b q) /\
    scalars b' = scalars b /\ _zobrist_hash b' = _zobrist_hash b.
Proof.
  intros [Hsh Hsz Har Hgd Hsp Hem Hhd Hrg Hadj].
  assert (forall q, colr b q <> GUARD -> 22 <= q <= 418) as Hon.
  { intros q Hq. apply (in_board_area_range b); [done|]. by apply Har. }
  assert (forall q, stone b q -> 22 <= q <= 418) as Hons.
  { intros q Hq. apply Hon. unfold stone in Hq. by destruct (colr b q). }
  pose proof (Hons p Hsp) as Hp.
  assert (forall n, n ∈ neighbours p -> on_grid n) as Hng by (intros n; by apply neighbours_on_grid).
  (* where the chain of a neighbour lives *)
  assert (forall n, n ∈ neighbours p ->
            on_grid (hd b n) /\ forall q, colr b q = EMPTY -> hd b n = q <-> n = q) as Htarget.
  { intros n Hn. unfold stone in *.
    destruct (colr b n) eqn:Hc.
    - destruct (Hhd n) as (Hch & _); [by rewrite Hc|]. split.
      + unfold on_grid. assert (22 <= hd b n <= 418); [|lia]. apply Hons. by rewrite Hch, Hc.
      + intros q Hq. split; [|intros <-; congruence]. intros <-. congruence.
    - destruct (Hhd n) as (Hch & _); [by rewrite Hc|]. split.
      + unfold on_grid. assert (22 <= hd b n <= 418); [|lia]. apply Hons. by rewrite Hch, Hc.
      + intros q Hq. split; [|intros <-; congruence]. intros <-. congruence.
    - destruct (Hem n Hc) as (-> & _). split; [by apply Hng|]. done.
    - rewrite (Hgd n (Hng n Hn) Hc). split; [by apply Hng|]. done. }
  unfold _remove_liberty_from_neighbouring_chains.
  set (sel := fun n => [(hd b n, Chain.remove_liberty p) : chain_op]).
  rewrite (for_each_ops (neighbours p) _ sel b); [|done| |].
  2: { intros n Hn. constructor; [|constructor]. by apply Htarget. }
  2: { intros b' n Hn Hsh' Hsame.
       assert (hd b' n = hd b n) as Ehd by (unfold hd, vtx; by rewrite Hsame).
       rewrite update_chain_Ok; [by rewrite Ehd|done|auto|].
       rewrite Ehd. by apply Htarget. }
  set (b3 := apply_ops (neighbours p ≫= sel) b).
  assert (forall k, chn b3 k = ops_on k (neighbours p ≫= sel) (chn b k)) as Hk3.
  { intros k. unfold b3. apply chn_apply_ops; [done|].
    apply Forall_forall. intros o (n & Ho & Hn)%list_elem_of_bind.
    apply list_elem_of_singleton in Ho as ->. by apply Htarget. }
  assert (scalars b3 = scalars b) as Hs3 by apply scalars_apply_ops.
  assert (forall q, stone b3 q <-> stone b q) as Hst3 by done.
  exists b3. split; [done|]. split; [split; [split|..]|].
  - by apply shaped_apply_ops.
  - done.
  - done.
  - done.
  - intros q Hq. destruct (Hem q Hq) as (Hself & Hnpl). split; [done|].
    rewrite Hk3. unfold sel.
    destruct (ops_on_removes q (neighbours p) (hd b) p (chn b q)) as (_ & ->).
    rewrite Hnpl.
    rewrite (filter_ext_in _ (fun n => n = q)) by (intros n Hn; by apply Htarget).
    rewrite filter_eq_length by apply NoDup_neighbours.
    rewrite (decide_ext (p ∈ neighbours q) (q ∈ neighbours p)) by apply neighbours_sym.
    assert (empties b3 q = empties b q) as -> by done.
    destruct (decide (q ∈ neighbours p)); lia.
  - done.
  - done.
  - intros H' Hs Hfix. destruct (Hrg H' Hs Hfix) as (l & Hnd & Hcyc & Hmem & Hnum).
    exists l. split; [done|]. split; [done|]. split; [done|].
    rewrite Hk3. unfold sel.
    by destruct (ops_on_removes H' (neighbours p) (hd b) p (chn b H')) as (-> & _).
  - split; [done|]. split; [done|]. split; [done|]. split; [done|]. apply hash_apply_ops.
Qed.

Lemma Inv_num_stones_pos b n :
  Inv b -> stone b n -> 0 < Chain.num_stones (chn b (hd b n)).
Proof.
  intros Hi Hn. destruct (Inv_ring_from b n Hi Hn) as (l & (_ & _ & _ & ->) & _).
  simpl. lia.
Qed.

Lemma Inv_head_on_grid b n : Inv b -> stone b n -> on_grid (hd b n).
Proof.
  intros Hi Hn. apply on_board_grid, (stone_on_board b); [apply Hi|].
  by apply Inv_head_stone.
Qed.

Lemma largest_chain_spec b p c :
  Inv b -> 22 <= p <= 418 -> is_stone c = true ->
  exists L s, largest_chain b p c = Ok (L, s) /\
    ((s = 0 /\ forall n, n ∈ neighbours p -> colr b n <> c) \/
     (s <> 0 /\ stone b L /\ hd b L = L /\ colr b L = c)).
Proof.
  intros Hi Hp Hc. pose proof (inv_base b Hi) as HB. pose proof (base_shaped b HB) as Hsh.
  unfold largest_chain.
  destruct (for_each_inv
    (fun pre (st : Z * Z) =>
       (st.2 = 0 /\ forall n, n ∈ pre -> colr b n <> c) \/
       (0 < st.2 /\ stone b st.1 /\ hd b st.1 = st.1 /\ colr b st.1 = c))
    (neighbours p)
    (fun '(largest_chain_head, largest_chain_size) n =>
       nc ← point_color b n;
       if bool_decide (nc = c) then
         chain ← _chain b n;
         if largest_chain_size <? Chain.num_stones chain then
           h ← chain_head b n; Ok (h, Chain.num_stones chain)
         else Ok (largest_chain_head, largest_chain_size)
       else Ok (largest_chain_head, largest_chain_size))
    (INVALID_POINT, 0)) as ([L s] & E & HP).
  - left. split; [done|]. intros n Hn. by apply elem_of_nil in Hn.
  - intros pre n post [L s] Hl HP. simpl in HP.
    assert (n ∈ neighbours p) as Hn.
    { rewrite Hl. apply elem_of_app. right. apply list_elem_of_here. }
    assert (on_grid n) as Hgn by (by apply (neighbours_on_grid p)).
    rewrite point_color_Ok by done. ok. rewrite bool_decide_decide.
    destruct (decide (colr b n = c)) as [Hcn|Hcn].
    + assert (stone b n) as Hsn by (unfold stone; by rewrite Hcn).
      pose proof (Inv_num_stones_pos b n Hi Hsn) as Hpos.
      pose proof (Inv_head_on_grid b n Hi Hsn) as Hgh.
      destruct (inv_head b Hi n Hsn) as (Hch & Hfix).
      rewrite _chain_Ok by done. ok.
      destruct (s <? Chain.num_stones (chn b (hd b n))) eqn:Hlt.
      * rewrite chain_head_Ok by done. ok. eexists. split; [done|]. right. simpl.
        split; [done|]. split; [by apply Inv_head_stone|]. split; [done|]. congruence.
      * eexists. split; [done|]. right. simpl. apply Z.ltb_ge in Hlt.
        destruct HP as [(-> & _)|HP]; [lia|done].
    + eexists. split; [done|]. simpl. destruct HP as [(-> & Hpre)|HP]; [left|by right].
      split; [done|]. intros n' [Hn'|Hn']%elem_of_app; [by apply Hpre|].
      apply list_elem_of_singleton in Hn' as ->. done.
  - exists L, s. split; [done|]. simpl in HP.
    destruct HP as [?|(? & ?)]; [by left|right]. split; [lia|done].
Qed.

Lemma join_step_skip L c b n :
  shaped b -> on_grid n -> (colr b n = c -> hd b n = L) ->
  join_step L c b n = Ok b.
Proof.
  intros Hsh Hgn Hskip. unfold join_step.
  rewrite point_color_Ok by done. ok. rewrite bool_decide_decide.
  destruct (decide (colr b n = c)) as [Hc|Hc]; [|done].
  rewrite chain_head_Ok by done. ok. rewrite Hskip by done.
  by rewrite bool_decide_eq_false_2 by (intros ?; done).
Qed.

Lemma merge_loop_spec b p L c :
  Inv b -> 22 <= p <= 418 -> is_stone c = true ->
  stone b L -> hd b L = L -> colr b L = c ->
  exists bm, for_each (neighbours p) (join_step L c) b = Ok bm /\ Inv bm /\
    (forall q, colr bm q = colr b q) /\ hd bm L = L /\
    (forall n, n ∈ neighbours p -> colr b n = c -> hd bm n = L) /\
    scalars bm = scalars b /\ _zobrist_hash bm = _zobrist_hash b.
Proof.
  intros Hi Hp Hc HsL HfixL HcL.
  destruct (for_each_inv
    (fun (pre : list Z) bm =>
       Inv bm /\ (forall q, colr bm q = colr b q) /\ hd bm L = L /\
       (forall n, n ∈ pre -> colr b n = c -> hd bm n = L) /\
       scalars bm = scalars b /\ _zobrist_hash bm = _zobrist_hash b)
    (neighbours p) (join_step L c) b) as (bm & E & HP).
  - repeat (split; [done|]). split; [|done]. intros n Hn. by apply elem_of_nil in Hn.
  - intros pre n post b' Hl (Hi' & Hc' & Hfix' & Hk' & Hs' & Hz').
    assert (n ∈ neighbours p) as Hn.
    { rewrite Hl. apply elem_of_app. right. apply list_elem_of_here. }
    assert (on_grid n) as Hgn by (by apply (neighbours_on_grid p)).
    pose proof (inv_base b' Hi') as HB'.
    destruct (decide (colr b' n = c /\ hd b' n <> L)) as [(Hcn & Hhn)|Hskip].
    + assert (stone b' L) as HsL' by (unfold stone; by rewrite Hc').
      assert (stone b' n) as Hsn' by (unfold stone; by rewrite Hcn).
      assert (colr b' L = c) as HcL' by (by rewrite Hc').
      destruct (join_step_merge b' L n Hi' HsL' Hfix' Hsn' ltac:(congruence) Hhn)
        as (b'' & E'' & Hi'' & Hc'' & Hh'' & Hk'' & Hs'' & Hz'').
      rewrite HcL' in E''. exists b''. split; [done|]. split; [done|].
      split; [intros q; by rewrite Hc''|]. split.
      * rewrite Hh'', decide_False; [done|]. intros (_ & ?). congruence.
      * split; [|split; congruence].
        intros m [Hm|Hm]%elem_of_app Hcm.
        -- rewrite Hh'', (Hk' m Hm Hcm). by destruct (decide _).
        -- apply list_elem_of_singleton in Hm as ->.
           rewrite Hh'', decide_True; done.
    + assert (colr b' n = c -> hd b' n = L) as Hskip'.
      { intros Hcn. destruct (decide (hd b' n = L)); [done|]. exfalso. by apply Hskip. }
      exists b'. split; [by apply join_step_skip; [apply HB'|done|]|].
      split; [done|]. split; [done|]. split; [done|]. split; [|done].
      intros m [Hm|Hm]%elem_of_app Hcm; [by apply Hk'|].
      apply list_elem_of_singleton in Hm as ->. apply Hskip'. by rewrite Hc'.
  - exists bm. done.
Qed.

(** The board once the stone at [p] is in the ring of head [L'] and has its
    color, whichever branch of [_join_chains_around] ran. *)
Lemma placed_intro bm b2 p c L' :
  Inv bm -> colr bm p = EMPTY -> is_stone c = true -> shaped b2 ->
  (forall q, colr b2 q = if decide (q = p) then c else colr bm q) ->
  (forall q, q <> p -> hd b2 q = hd bm q) -> hd b2 p = L' ->
  (L' = p \/ (stone bm L' /\ hd bm L' = L' /\ colr bm L' = c)) ->
  (forall q, q <> p -> q <> L' -> nx b2 q = nx bm q) ->
  (forall k, k <> L' -> chn b2 k = chn bm k) ->
  scalars b2 = scalars bm ->
  (exists l, ring_of b2 L' l) ->
  (forall n, n ∈ neighbours p -> colr bm n = c -> hd bm n = L') ->
  Placed b2 p.
Proof.
  intros Hi Hpe Hc Hsh2 Hc2 Hh2 Hhp HL' Hn2 Hk2 Hs2 Hring Hfriends.
  pose proof (inv_base bm Hi) as HB.
  assert (forall q, q <> p -> stone b2 q <-> stone bm q) as Hst.
  { intros q Hq. unfold stone. by rewrite Hc2, decide_False. }
  assert (stone b2 p) as Hsp by (unfold stone; by rewrite Hc2, decide_True).
  assert (forall q, stone bm q -> q <> p) as Hsne.
  { intros q Hq ->. by apply (stone_not_empty bm) in Hq. }
  assert (L' <> p -> stone bm L' /\ hd bm L' = L' /\ colr bm L' = c) as HL'' by tauto.
  split.
  - done.
  - rewrite (scalars_size bm b2 Hs2). apply HB.
  - intros q. rewrite Hc2, (scalars_area bm b2 q Hs2).
    destruct (decide (q = p)) as [->|Hq]; [|apply HB].
    split; [intros _|by destruct c]. apply (base_area bm HB). by rewrite Hpe.
  - intros q Hgq. rewrite Hc2. destruct (decide (q = p)) as [->|Hq].
    + intros ->. done.
    + rewrite Hh2 by done. by apply HB.
  - done.
  - intros q. rewrite Hc2. destruct (decide (q = p)) as [->|Hq].
    + intros ->. done.
    + intros He. destruct (base_empty bm HB q He) as (Hself & Hnpl).
      rewrite Hh2 by done. split; [done|].
      rewrite Hk2.
      * rewrite Hnpl. unfold empties.
        rewrite (filter_length_add (fun n => colr b2 n = EMPTY) (fun n => colr bm n = EMPTY)
                   (neighbours q) p (NoDup_neighbours q)).
        -- destruct (decide (p ∈ neighbours q)); lia.
        -- rewrite Hc2, decide_True by done. by destruct c.
        -- intros n. rewrite Hc2. destruct (decide (n = p)) as [->|]; [tauto|].
           split; [auto|]. by intros [?|?].
      * intros HqL. destruct (HL'' ltac:(congruence)) as (Hs & _).
        rewrite <- HqL in Hs. by apply (stone_not_empty bm) in Hs.
  - intros q Hq. destruct (decide (q = p)) as [->|Hqp].
    + rewrite Hhp. destruct (decide (L' = p)) as [->|HLp]; [done|].
      destruct (HL'' HLp) as (Hs & Hfix & Hcol).
      rewrite !Hc2, (decide_True (P := p = p)), (decide_False (P := L' = p)) by done.
      rewrite Hh2 by done. done.
    + apply Hst in Hq; [|done]. destruct (inv_head bm Hi q Hq) as (Hch & Hfix).
      pose proof (Hsne (hd bm q) (Inv_head_stone bm q Hi Hq)) as Hhne.
      rewrite !Hh2, !Hc2, !decide_False by done. done.
  - intros H' HsH' HfixH'. destruct (decide (H' = L')) as [->|HneL]; [done|].
    assert (H' <> p) as HH'p by (intros ->; congruence).
    apply Hst in HsH'; [|done]. rewrite Hh2 in HfixH' by done.
    destruct (inv_ring bm Hi H' HsH' HfixH') as (l & Hnd & (Hne & x & Hpx) & Hmem & Hnum).
    exists l. split; [done|]. split; [|split].
    + split; [done|]. exists x. apply (path_ext (nx bm)); [|done].
      intros a (Ha & Hha)%Hmem. apply Hn2; [by apply Hsne|].
      intros ->. destruct (decide (L' = p)) as [->|HLp]; [by apply Hsne in Ha|].
      destruct (HL'' HLp) as (_ & ? & _). congruence.
    + intros y. rewrite Hmem. destruct (decide (y = p)) as [->|Hy].
      * split; [intros (Hs & _); by apply Hsne in Hs|]. intros (_ & ?). congruence.
      * by rewrite Hst, Hh2.
    + by rewrite Hk2.
  - intros q n Hq Hn Hcn. rewrite !Hc2 in Hcn.
    destruct (decide (q = p)) as [->|Hqp].
    + assert (n <> p) as Hnp by (intros ->; by apply (neighbours_irrefl p)).
      rewrite decide_False in Hcn by done.
      rewrite Hhp, Hh2 by done. by apply Hfriends.
    + apply Hst in Hq; [|done]. destruct (decide (n = p)) as [->|Hnp].
      * rewrite Hhp, Hh2 by done. symmetry. apply Hfriends; [by apply neighbours_sym|done].
      * rewrite !Hh2 by done. by apply (base_adj bm HB).
Qed.

Lemma init_placed b p c :
  Inv b -> colr b p = EMPTY -> is_stone c = true ->
  (forall n, n ∈ neighbours p -> colr b n <> c) ->
  exists b1 b2, _init_new_chain b p = Ok b1 /\ _set_stone ZOBRIST b1 p c = Ok b2 /\
    Placed b2 p /\
    (forall q, colr b2 q = if decide (q = p) then c else colr b q) /\
    scalars b2 = scalars b /\
    _zobrist_hash b2 = Z.lxor (_zobrist_hash b) (zv ZOBRIST p c).
Proof.
  intros Hi Hpe Hc Hnofriend. pose proof (inv_base b Hi) as HB.
  pose proof (empty_on_board b HB p Hpe) as Hp.
  destruct (_init_new_chain_spec b p (base_shaped b HB) Hp)
    as (b1 & E1 & Hsh1 & Hc1 & Hh1 & Hn1 & Hk1 & Hs1 & Hz1).
  destruct (_set_stone_spec b1 p c Hsh1 (on_board_grid p Hp))
    as (b2 & E2 & Hsh2 & Hc2 & Hh2 & Hn2 & Hk2 & Hs2 & Hz2).
  exists b1, b2. split; [done|]. split; [done|].
  assert (forall q, colr b2 q = if decide (q = p) then c else colr b q) as Hcol.
  { intros q. rewrite Hc2, Hc1. done. }
  split; [|split; [done|split; [congruence|]]].
  - apply (placed_intro b b2 p c p); try done.
    + intros q Hq. by rewrite Hh2, Hh1, decide_False.
    + by rewrite Hh2, Hh1, decide_True.
    + by left.
    + intros q Hq _. by rewrite Hn2, Hn1, decide_False.
    + intros k Hk. by rewrite Hk2, Hk1, decide_False.
    + congruence.
    + exists [p]. split; [apply NoDup_singleton|]. split; [|split].
      * split; [done|]. exists p. split; [done|]. simpl.
        by rewrite Hn2, Hn1, decide_True.
      * intros x. rewrite list_elem_of_singleton. split.
        -- intros ->. split; [unfold stone; by rewrite Hcol, decide_True|].
           by rewrite Hh2, Hh1, decide_True.
        -- intros (Hs & Hh). destruct (decide (x = p)) as [|Hx]; [done|]. exfalso.
           unfold stone in Hs. rewrite Hcol, decide_False in Hs by done.
           rewrite Hh2, Hh1, decide_False in Hh by done.
           pose proof (Inv_head_stone b x Hi Hs) as Hsh. rewrite Hh in Hsh.
           by apply (stone_not_empty b) in Hsh.
      * rewrite Hk2, Hk1, decide_True by done.
        by destruct (add_liberties_stats (empties b p) (Chain.mk 1 0 0 0)) as (-> & _).
    + intros n Hn Hcn. exfalso. by apply (Hnofriend n).
  - rewrite Hz2, Hz1. rewrite decide_False; [done|]. by destruct c.
Qed.

Lemma join_insert_placed bm p L c :
  Inv bm -> colr bm p = EMPTY -> is_stone c = true ->
  stone bm L -> hd bm L = L -> colr bm L = c ->
  (forall n, n ∈ neighbours p -> colr bm n = c -> hd bm n = L) ->
  exists b1 b2, join_insert L bm p = Ok b1 /\ _set_stone ZOBRIST b1 p c = Ok b2 /\
    Placed b2 p /\
    (forall q, colr b2 q = if decide (q = p) then c else colr bm q) /\
    scalars b2 = scalars bm /\
    _zobrist_hash b2 = Z.lxor (_zobrist_hash bm) (zv ZOBRIST p c).
Proof.
  intros Hi Hpe Hc HsL HfixL HcL Hfriends. pose proof (inv_base bm Hi) as HB.
  pose proof (base_shaped bm HB) as Hsh.
  pose proof (empty_on_board bm HB p Hpe) as Hp.
  assert (on_grid p) as Hgp by (by apply on_board_grid).
  assert (on_grid L) as HgL by (by apply on_board_grid, (stone_on_board bm)).
  assert (L <> p) as HLp by (intros ->; by apply (stone_not_empty bm) in HsL).
  unfold join_insert.
  rewrite vertex_Ok by done. ok. change (Vertex.chain_next (vtx bm L)) with (nx bm L).
  rewrite update_vertex_Ok by done. ok.
  set (b1 := upd_vertex bm p _). assert (shaped b1) as Hsh1 by (by apply shaped_upd_vertex).
  rewrite update_vertex_Ok by done. ok.
  set (b2 := upd_vertex b1 L _). assert (shaped b2) as Hsh2 by (by apply shaped_upd_vertex).
  rewrite update_vertex_Ok by done. ok.
  set (b3 := upd_vertex b2 p _). assert (shaped b3) as Hsh3 by (by apply shaped_upd_vertex).
  assert (forall q, colr b3 q = colr bm q) as Hc3 by (intros q; unfold b3, b2, b1; by views).
  assert (forall q, hd b3 q = if decide (q = p) then L else hd bm q) as Hh3
    by (intros q; unfold b3, b2, b1; by views).
  assert (forall q, nx b3 q = if decide (q = L) then p
                              else if decide (q = p) then nx bm L else nx bm q) as Hn3
    by (intros q; unfold b3, b2, b1; by views).
  assert (hd b3 L = L) as HL3 by (by rewrite Hh3, decide_False).
  rewrite update_chain_Ok by (done || by rewrite HL3). ok. rewrite HL3.
  set (b4 := upd_chain b3 L _). assert (shaped b4) as Hsh4 by (by apply shaped_upd_chain).
  set (sel := fun n => if decide (colr bm n = EMPTY)
                       then [(L, Chain.add_liberty n)] else []).
  assert (forall n, Forall (fun o : chain_op => o.1 = L) (sel n)) as Hsel.
  { intros n. unfold sel. destruct (decide _); repeat constructor. }
  rewrite (for_each_ops (neighbours p) _ sel b4); [|done| |].
  2: { intros n Hn. eapply Forall_impl; [apply Hsel|]. by intros o ->. }
  2: { intros b' n Hn Hsh' Hsame.
       rewrite is_empty_Ok by (done || by apply (neighbours_on_grid p)). ok.
       assert (colr b' n = colr bm n) as ->.
       { unfold colr, vtx. rewrite Hsame. apply (Hc3 n). }
       assert (hd b' L = L) as EL by (unfold hd, vtx; rewrite Hsame; apply HL3).
       rewrite bool_decide_decide. unfold sel. destruct (decide _); [|done].
       rewrite update_chain_Ok; [by rewrite EL|done|done|by rewrite EL]. }
  set (b5 := apply_ops (neighbours p ≫= sel) b4).
  assert (shaped b5) as Hsh5 by (by apply shaped_apply_ops).
  assert (forall k, chn b5 k = ops_on k (neighbours p ≫= sel) (chn b4 k)) as Hk5.
  { intros k. unfold b5. apply chn_apply_ops; [done|].
    apply Forall_forall. intros o (n & Ho & Hn)%list_elem_of_bind.
    specialize (Hsel n). rewrite Forall_forall in Hsel. by rewrite (Hsel o Ho). }
  destruct (_set_stone_spec b5 p c Hsh5 Hgp)
    as (b6 & E6 & Hsh6 & Hc6 & Hh6 & Hn6 & Hk6 & Hs6 & Hz6).
  exists b5, b6. split; [done|]. split; [done|].
  assert (forall q, colr b6 q = if decide (q = p) then c else colr bm q) as Hcol.
  { intros q. rewrite Hc6. unfold b5. rewrite colr_apply_ops. unfold b4. views.
    by rewrite Hc3. }
  assert (forall q, hd b6 q = if decide (q = p) then L else hd bm q) as Hhd.
  { intros q. rewrite Hh6. unfold b5. rewrite hd_apply_ops. unfold b4. views. apply Hh3. }
  assert (forall q, nx b6 q = if decide (q = L) then p
                              else if decide (q = p) then nx bm L else nx bm q) as Hnx.
  { intros q. rewrite Hn6. unfold b5. rewrite nx_apply_ops. unfold b4. views. apply Hn3. }
  split; [|split; [done|split]].
  - apply (placed_intro bm b6 p c L); try done.
    + intros q Hq. by rewrite Hhd, decide_False.
    + by rewrite Hhd, decide_True.
    + by right.
    + intros q Hq HqL. by rewrite Hnx, !decide_False.
    + intros k Hk. rewrite Hk6, Hk5. unfold b4. views. rewrite decide_False by done.
      apply ops_on_other. apply Forall_forall.
      intros o (n & Ho & Hn)%list_elem_of_bind.
      specialize (Hsel n). rewrite Forall_forall in Hsel. rewrite (Hsel o Ho). congruence.
    + rewrite Hs6. unfold b5. rewrite scalars_apply_ops. done.
    + (* the ring of [L] with [p] in front *)
      destruct (inv_ring bm Hi L HsL HfixL) as (l0 & Hring0).
      assert (L ∈ l0) as HLin by (by apply Hring0).
      destruct (cycle_until (nx bm) l0 L ltac:(apply Hring0) HLin) as (l & Hperm & Hpath).
      destruct Hring0 as (Hnd0 & _ & Hmem0 & Hnum0).
      assert (forall x, x ∈ l ++ [L] <-> stone bm x /\ hd bm x = L) as Hmem
        by (intros x; by rewrite Hperm).
      assert (NoDup (l ++ [L])) as Hnd by (by rewrite Hperm).
      assert (p ∉ l ++ [L]) as Hpl.
      { intros (Hs & _)%Hmem. by apply (stone_not_empty bm) in Hs. }
      assert (L ∉ l) as HLl.
      { apply NoDup_app in Hnd as (_ & HL & _). intros HL'.
        apply (HL L HL'). apply list_elem_of_here. }
      exists (p :: l ++ [L]). split; [by apply NoDup_cons|]. split; [|split].
      * split; [done|]. exists p. split; [done|].
        rewrite Hnx, decide_False, decide_True by done.
        apply path_app. exists L. split.
        -- apply (path_ext (nx bm)); [|done]. intros a Ha. rewrite Hnx.
           rewrite decide_False by (by intros ->).
           rewrite decide_False; [done|]. intros ->. apply Hpl, elem_of_app. by left.
        -- split; [done|]. simpl. by rewrite Hnx, decide_True.
      * intros x. rewrite elem_of_cons, Hmem. unfold stone. rewrite Hcol, Hhd.
        destruct (decide (x = p)) as [->|Hx]; [tauto|].
        split; [intros [?|?]; done|tauto].
      * rewrite Hk6, Hk5. unfold b4. views. rewrite decide_True by done.
        unfold sel. rewrite (ops_on_adds (fun n => colr bm n = EMPTY)).
        destruct (add_liberties_stats (filter (fun n => colr bm n = EMPTY) (neighbours p))
                    (Chain.incr_num_stones (chn b3 L))) as (-> & _).
        unfold b3, b2, b1. views. simpl. rewrite Hnum0, <- Hperm. simpl. lia.
  - rewrite Hs6. unfold b5. by rewrite scalars_apply_ops.
  - rewrite Hz6. rewrite decide_False by (by destruct c).
    unfold b5. by rewrite hash_apply_ops.
Qed.

(** [_join_chains_around], [_set_stone] and
    [_remove_liberty_from_neighbouring_chains] in sequence: the stone is on
    the board and the invariant holds again. *)
Lemma place_spec b p c :
  Inv b -> colr b p = EMPTY -> is_stone c = true ->
  exists b1 b2 b3,
    _join_chains_around b p c = Ok b1 /\ _set_stone ZOBRIST b1 p c = Ok b2 /\
    _remove_liberty_from_neighbouring_chains b2 p = Ok b3 /\
    Inv b3 /\
    (forall q, colr b3 q = if decide (q = p) then c else colr b q) /\
    scalars b3 = scalars b /\
    _zobrist_hash b3 = Z.lxor (_zobrist_hash b) (zv ZOBRIST p c).
Proof.
  intros Hi Hpe Hc. pose proof (inv_base b Hi) as HB.
  pose proof (empty_on_board b HB p Hpe) as Hp.
  assert (exists b1 b2, _join_chains_around b p c = Ok b1 /\
            _set_stone ZOBRIST b1 p c = Ok b2 /\ Placed b2 p /\
            (forall q, colr b2 q = if decide (q = p) then c else colr b q) /\
            scalars b2 = scalars b /\
            _zobrist_hash b2 = Z.lxor (_zobrist_hash b) (zv ZOBRIST p c))
    as (b1 & b2 & E1 & E2 & Hpl & Hc2 & Hs2 & Hz2).
  { unfold _join_chains_around.
    destruct (largest_chain_spec b p c Hi Hp Hc) as (L & s & -> & Hcase). ok.
    destruct Hcase as [(-> & Hnofriend)|(Hs & HsL & HfixL & HcL)].
    - simpl. by apply init_placed.
    - apply Z.eqb_neq in Hs. rewrite Hs.
      destruct (merge_loop_spec b p L c Hi Hp Hc HsL HfixL HcL)
        as (bm & -> & Him & Hcm & HfixLm & Hfr & Hsm & Hzm). ok.
      destruct (join_insert_placed bm p L c Him) as (b1 & b2 & ? & ? & ? & Hc2 & ? & ?).
      + by rewrite Hcm.
      + done.
      + unfold stone. by rewrite Hcm.
      + done.
      + by rewrite Hcm.
      + intros n Hn Hcn. apply Hfr; [done|]. by rewrite <- Hcm.
      + exists b1, b2. split; [done|]. split; [done|]. split; [done|].
        split; [|split; congruence].
        intros q. by rewrite Hc2, Hcm. }
  destruct (_remove_liberty_spec b2 p Hpl) as (b3 & E3 & Hi3 & Hc3 & _ & _ & Hs3 & Hz3).
  exists b1, b2, b3. split; [done|]. split; [done|]. split; [done|]. split; [done|].
  split; [|split; congruence].
  intros q. by rewrite Hc3, Hc2.
Qed.

(** ** Capturing *)

Lemma Inv_with_last_captures b l :
  Inv b -> length l = 4%nat -> Inv (with_last_captures l b).
Proof.
  intros [[Hsh Hsz Har Hgd Hem Hadj] Hhd Hrg] Hl. split; [split|..]; try done.
  destruct Hsh as (? & ? & ?). done.
Qed.

Lemma Inv_with_last_ko_point b k : Inv b -> Inv (with_last_ko_point k b).
Proof. intros [[Hsh Hsz Har Hgd Hem Hadj] Hhd Hrg]. split; [split|..]; done. Qed.

Lemma stones_xor_app b L1 L2 :
  stones_xor b (L1 ++ L2) = Z.lxor (stones_xor b L1) (stones_xor b L2).
Proof.
  induction L1 as [|x L1 IH]; [done|].
  cbn [app stones_xor foldr]. fold (stones_xor b (L1 ++ L2)). fold (stones_xor b L1).
  by rewrite IH, Z.lxor_assoc.
Qed.

(** [b'] is [b] after the stones at [caps], [k] of them, were captured by
    a stone of color [c]. *)
Record Captured (b : GoBoard) (c : Color) (caps : list Point) (k : Z) (b' : GoBoard)
  : Prop := {
  capt_inv : Inv b';
  capt_nodup : NoDup caps;
  capt_color : forall q, colr b' q = if decide (q ∈ caps) then EMPTY else colr b q;
  capt_in : forall q, q ∈ caps -> colr b q = opponent c /\ hd b q ∈ caps /\ hd b' q = q;
  capt_out : forall q, q ∉ caps -> hd b' q = hd b q /\ nx b' q = nx b q;
  capt_chain : forall x y, x ∈ caps -> stone b y -> hd b y = hd b x -> y ∈ caps;
  capt_grants : forall h, h ∉ caps ->
    chn b' h = add_liberties (grants b caps h) (chn b h);
  capt_count : k = Z.of_nat (length caps);
  capt_hash : _zobrist_hash b' = Z.lxor (_zobrist_hash b) (stones_xor b caps);
  capt_size : _board_size b' = _board_size b;
  capt_ko : _last_ko_point b' = _last_ko_point b }.

Lemma Captured_step b c caps k b' lc n l b'' :
  is_stone c = true ->
  Captured b c caps k b' -> colr b' n = opponent c ->
  ring_of b' (hd b' n) (n :: l) ->
  removed (with_last_captures lc b') (hd b' n) (n :: l) b'' -> Inv b'' ->
  Captured b c (caps ++ n :: l) (k + Chain.num_stones (chn b' (hd b' n))) b''.
Proof.
  intros Hc [Hi Hnd Hcol Hin Hout Hch Hgr Hk Hz Hsz Hko] Hn
    (Hndl & Hcyc & Hmem & Hnum) (Hrc0 & Hrout0 & Hrin & Hrk0 & Hrs & Hrz0) Hi''.
  assert (forall q, colr b'' q = if decide (q ∈ n :: l) then EMPTY else colr b' q)
    as Hrc by exact Hrc0.
  assert (forall q, q ∉ n :: l -> hd b'' q = hd b' q /\ nx b'' q = nx b' q)
    as Hrout by exact Hrout0.
  assert (forall h, h ∉ n :: l -> h <> hd b' n ->
            chn b'' h = add_liberties (grants b' (n :: l) h) (chn b' h))
    as Hrk by exact Hrk0.
  assert (_zobrist_hash b'' = Z.lxor (_zobrist_hash b') (stones_xor b' (n :: l)))
    as Hrz by exact Hrz0.
  clear Hrc0 Hrout0 Hrk0 Hrz0.
  assert (forall x, x ∈ n :: l -> x ∉ caps) as Hdisj.
  { intros x (Hs & _)%Hmem Hx. unfold stone in Hs.
    rewrite Hcol, decide_True in Hs by done. done. }
  assert (stone b' n) as Hsn by (unfold stone; rewrite Hn; by destruct c).
  assert (hd b' n ∈ n :: l) as Hhin.
  { apply Hmem. split; [by apply Inv_head_stone|]. by apply (inv_head b' Hi). }
  assert (forall x, x ∈ n :: l -> colr b x = opponent c) as Hlc.
  { intros x Hx. specialize (Hcol x). rewrite decide_False in Hcol by (by apply Hdisj).
    rewrite <- Hcol. apply Hmem in Hx as (Hs & Hh).
    destruct (inv_head b' Hi x Hs) as (<- & _). rewrite Hh.
    destruct (inv_head b' Hi n Hsn) as (-> & _). done. }
  split.
  - done.
  - apply NoDup_app. split; [done|]. split; [|done].
    intros x Hx Hx'. by apply (Hdisj x).
  - intros q. rewrite Hrc, Hcol.
    destruct (decide (q ∈ n :: l)) as [Hq|Hq].
    + rewrite decide_True; [done|]. apply elem_of_app. by right.
    + apply decide_ext. rewrite elem_of_app. tauto.
  - intros q [Hq|Hq]%elem_of_app.
    + destruct (Hin q Hq) as (? & ? & Hself). split; [done|]. split.
      * apply elem_of_app. by left.
      * destruct (Hrout q) as (-> & _); [|done]. intros Hq'. by apply (Hdisj q).
    + split; [by apply Hlc|]. split; [|by apply Hrin].
      apply elem_of_app. right.
      destruct (Hout q (Hdisj q Hq)) as (<- & _).
      apply Hmem in Hq as (_ & ->). done.
  - intros q Hq. rewrite elem_of_app in Hq.
    destruct (Hrout q) as (-> & ->); [tauto|]. apply Hout. tauto.
  - intros x y [Hx|Hx]%elem_of_app Hy Hxy; apply elem_of_app.
    + left. by apply (Hch x).
    + destruct (decide (y ∈ caps)) as [|Hyc]; [by left|right].
      apply Hmem. split.
      * unfold stone. by rewrite Hcol, decide_False.
      * destruct (Hout y Hyc) as (-> & _). rewrite Hxy.
        destruct (Hout x (Hdisj x Hx)) as (<- & _). by apply Hmem.
  - intros h Hh. rewrite elem_of_app in Hh.
    rewrite Hrk by (try tauto; intros ->; tauto).
    rewrite Hgr by tauto. rewrite <- add_liberties_app, grants_app. do 2 f_equal.
    apply grants_ext. intros x m Hx Hm.
    destruct (decide (m ∈ caps)) as [Hmc|Hmc].
    + destruct (Hin m Hmc) as (_ & Hhm & ->). split; intros <-; tauto.
    + by destruct (Hout m Hmc) as (-> & _).
  - rewrite Hk, Hnum, length_app. lia.
  - rewrite Hrz, Hz, stones_xor_app, Z.lxor_assoc. do 2 f_equal.
    apply stones_xor_ext. intros x Hx. rewrite Hcol. by rewrite decide_False by (by apply Hdisj).
  - rewrite <- Hsz. by apply (scalars_size (with_last_captures lc b')).
  - rewrite <- Hko. unfold scalars in Hrs. by injection Hrs.
Qed.

Lemma Captured_with_last_captures b c caps k b' lc :
  length lc = 4%nat -> Captured b c caps k b' ->
  Captured b c caps k (with_last_captures lc b').
Proof.
  intros Hlc [Hi Hnd Hcol Hin Hout Hch Hgr Hk Hz Hsz Hko].
  split; try done. by apply Inv_with_last_captures.
Qed.

Lemma Captured_nil b c : Inv b -> Captured b c [] 0 b.
Proof.
  intros Hi. split; try done.
  - constructor.
  - intros q Hq. by apply elem_of_nil in Hq.
  - intros x y Hx. by apply elem_of_nil in Hx.
  - simpl. by rewrite Z.lxor_0_r.
Qed.

Lemma elem_of_drop_range (n : nat) (m x : Z) :
  x ∈ drop n (range m) -> Z.of_nat n <= x < m.
Proof.
  unfold range. rewrite <- fmap_drop, drop_seq, list_elem_of_fmap.
  intros (k & -> & Hk). apply elem_of_seq in Hk. lia.
Qed.

(** The loop that clears the unused slots of [_last_captures]. *)
Lemma clear_captures_spec b idx :
  shaped b -> 0 <= idx ->
  exists l', for_each
      (drop (Z.to_nat idx) (range (Z.of_nat (length (_last_captures b)))))
      (fun b i => caps ← setitem (_last_captures b) i INVALID_POINT;
                  Ok (with_last_captures caps b)) b
    = Ok (with_last_captures l' b) /\ length l' = 4%nat /\
    (0 < idx -> l' !! 0%nat = _last_captures b !! 0%nat).
Proof.
  intros Hsh Hidx.
  destruct (for_each_inv
    (fun (pre : list Z) bb => exists l', bb = with_last_captures l' b /\ length l' = 4%nat /\
       (0 < idx -> l' !! 0%nat = _last_captures b !! 0%nat))
    (drop (Z.to_nat idx) (range (Z.of_nat (length (_last_captures b)))))
    (fun b i => caps ← setitem (_last_captures b) i INVALID_POINT;
                Ok (with_last_captures caps b)) b) as (bb & E & l' & -> & Hl').
  - exists (_last_captures b). split; [by destruct b|]. split; [apply Hsh|done].
  - intros pre i post bb Hl (l' & -> & Hlen & H0).
    assert (i ∈ drop (Z.to_nat idx) (range (Z.of_nat (length (_last_captures b))))) as Hi.
    { rewrite Hl. apply elem_of_app. right. apply list_elem_of_here. }
    apply elem_of_drop_range in Hi.
    assert (length (_last_captures b) = 4%nat) as Hlb by apply Hsh. rewrite Hlb in Hi.
    cbn [with_last_captures _last_captures].
    rewrite setitem_Ok by (rewrite Hlen; lia). ok.
    eexists. split; [done|]. eexists. split; [done|].
    split; [by rewrite length_insert|].
    intros Hpos. rewrite list_lookup_insert_ne by lia. by apply H0.
  - by exists l'.
Qed.

(** No captured stone was next to a surviving opposing chain. *)
Lemma Captured_no_grants b c caps k b' n :
  Inv b -> is_stone c = true -> Captured b c caps k b' ->
  colr b n = opponent c -> n ∉ caps -> grants b caps (hd b n) = [].
Proof.
  intros Hi Hc HC Hn Hnc. pose proof (inv_base b Hi) as HB.
  assert (stone b n) as Hsn by (unfold stone; rewrite Hn; by destruct c).
  unfold grants.
  assert (forall x, x ∈ caps ->
            (neighbours x ≫= fun m => if decide (hd b m = hd b n) then [x] else []) = [])
    as Hnone.
  { intros x Hx. destruct (capt_in _ _ _ _ _ HC x Hx) as (Hcx & _ & _).
    assert (stone b x) as Hsx by (unfold stone; rewrite Hcx; by destruct c).
    pose proof (stone_on_board b HB x Hsx) as Hxb.
    rewrite <- (bind_ext_in (fun _ => [])); [reflexivity|].
    intros m Hm. rewrite decide_False; [done|]. intros Hmn.
    pose proof (Inv_head_stone b n Hi Hsn) as Hshn.
    destruct (color_cases b m) as [Hsm|[Hem|Hgm]].
    - destruct (inv_head b Hi m Hsm) as (Hcm & _).
      destruct (inv_head b Hi n Hsn) as (Hcn & _).
      assert (colr b m = colr b x) as Hmx by congruence.
      pose proof (base_adj b HB x m Hsx Hm Hmx) as Hadj.
      apply Hnc. apply (capt_chain _ _ _ _ _ HC x n Hx Hsn). congruence.
    - destruct (base_empty b HB m Hem) as (Hself & _).
      apply (stone_not_empty b) in Hshn. congruence.
    - rewrite (base_guard b HB m (neighbours_on_grid x m Hxb Hm) Hgm) in Hmn.
      apply (stone_not_guard b) in Hshn. congruence. }
  rewrite (bind_ext_in _ (fun _ => []) caps Hnone).
  clear. by induction caps.
Qed.

(** The stones of dead opposing chains among the points of [pre]. *)
Definition dead_next_to (b : GoBoard) (c : Color) (pre : list Point) (x : Point) : Prop :=
  colr b x = opponent c /\
  Chain.num_pseudo_liberties (chn b (hd b x)) = 0 /\
  exists n, n ∈ pre /\ colr b n = opponent c /\ hd b n = hd b x.

Lemma opponent_stone c : is_stone c = true -> is_stone (opponent c) = true.
Proof. by destruct c. Qed.

Lemma _capture_dead_chains_spec b p c :
  Inv b -> 22 <= p <= 418 -> is_stone c = true ->
  exists k b' caps, _capture_dead_chains ZOBRIST b p c = Ok (k, b') /\
    Captured b c caps k b' /\
    (forall x, x ∈ caps <-> dead_next_to b c (neighbours p) x) /\
    (k = 1 -> exists x, caps = [x] /\ getitem (_last_captures b') 0 = Ok x).
Proof.
  intros Hi Hp Hc. pose proof (inv_base b Hi) as HB.
  pose proof (opponent_stone c Hc) as Hoc.
  unfold _capture_dead_chains.
  destruct (for_each_inv
    (fun pre (st : Z * Z * GoBoard) =>
       exists caps, Captured b c caps st.1.1 st.2 /\
         (forall x, x ∈ caps <-> dead_next_to b c pre x) /\
         0 <= st.1.2 <= Z.of_nat (length pre) /\
         (st.1.2 = 0 -> caps = []) /\
         (0 < st.1.2 -> exists x0, x0 ∈ caps /\
            _last_captures st.2 !! 0%nat = Some (hd b x0)))
    (neighbours p)
    (fun '(stones_captured, capture_index, b) n =>
        nc ← point_color b n;
        if bool_decide (nc = opponent c) then
          ch ← _chain b n;
          if Chain.num_pseudo_liberties ch =? 0 then
            h ← chain_head b n;
            caps ← setitem (_last_captures b) capture_index h;
            let b := with_last_captures caps b in
            ch ← _chain b n;
            b ← _remove_chain ZOBRIST b n;
            Ok (stones_captured + Chain.num_stones ch, capture_index + 1, b)
          else Ok (stones_captured, capture_index, b)
        else Ok (stones_captured, capture_index, b))
    (0, 0, b)) as ([[k idx] b1] & E & caps & HC & Hmemc & Hidx & Hidx0 & Hidxp).
  - exists []. split; [by apply Captured_nil|]. split.
    + intros x. split; [intros Hx; by apply elem_of_nil in Hx|].
      intros (_ & _ & n & Hn & _). by apply elem_of_nil in Hn.
    + simpl. split; [lia|]. split; [done|lia].
  - intros pre n post [[k idx] b'] Hl (caps & HC & Hmemc & Hidx & Hidx0 & Hidxp).
    cbn [fst snd] in *.
    assert (n ∈ neighbours p) as Hn.
    { rewrite Hl. apply elem_of_app. right. apply list_elem_of_here. }
    assert (Z.of_nat (length pre) < 4) as Hlen.
    { assert (length (neighbours p) = 4%nat) as Hl4 by done.
      rewrite Hl, length_app in Hl4. simpl in Hl4. lia. }
    assert (on_grid n) as Hgn by (by apply (neighbours_on_grid p)).
    pose proof (capt_inv _ _ _ _ _ HC) as Hi'. pose proof (inv_base b' Hi') as HB'.
    pose proof (base_shaped b' HB') as Hsh'.
    assert (forall x, dead_next_to b c pre x -> dead_next_to b c (pre ++ [n]) x) as Hmono.
    { intros x (? & ? & m & Hm & ?). split; [done|]. split; [done|].
      exists m. split; [|done]. apply elem_of_app. by left. }
    rewrite point_color_Ok by done. ok. rewrite bool_decide_decide.
    destruct (decide (colr b' n = opponent c)) as [Hcn|Hcn].
    + assert (stone b' n) as Hsn' by (unfold stone; by rewrite Hcn).
      assert (n ∉ caps) as Hnc.
      { intros Hnc. rewrite (capt_color _ _ _ _ _ HC), decide_True in Hcn by done.
        rewrite <- Hcn in Hoc. done. }
      assert (colr b n = opponent c) as Hcnb.
      { rewrite (capt_color _ _ _ _ _ HC), decide_False in Hcn; done. }
      assert (stone b n) as Hsn by (unfold stone; by rewrite Hcnb).
      destruct (capt_out _ _ _ _ _ HC n Hnc) as (Hhn & _).
      pose proof (Inv_head_on_grid b' n Hi' Hsn') as Hgh.
      assert (hd b n ∉ caps) as Hhc.
      { intros Hin. apply Hnc. apply (capt_chain _ _ _ _ _ HC (hd b n) n Hin Hsn).
        symmetry. by apply (inv_head b Hi). }
      assert (chn b' (hd b' n) = chn b (hd b n)) as Hchn.
      { rewrite Hhn, (capt_grants _ _ _ _ _ HC) by done.
        by rewrite (Captured_no_grants b c caps k b' n). }
      rewrite _chain_Ok by done. ok.
      destruct (Chain.num_pseudo_liberties (chn b' (hd b' n)) =? 0) eqn:Hdead.
      * apply Z.eqb_eq in Hdead.
        rewrite chain_head_Ok by done. ok.
        rewrite setitem_Ok by (destruct Hsh' as (_ & _ & ->); lia). ok.
        set (lc := <[Z.to_nat idx := hd b' n]> (_last_captures b')).
        assert (length lc = 4%nat) as Hlc.
        { unfold lc. rewrite length_insert. apply Hsh'. }
        pose proof (Inv_with_last_captures b' lc Hi' Hlc) as Hi''.
        rewrite _chain_Ok by (done || apply Hi''). ok.
        destruct (_remove_chain_spec (with_last_captures lc b') n Hi'' Hsn')
          as (b3 & l & -> & Hi3 & Hring & Hrem). ok.
        eexists. split; [done|]. cbn [fst snd].
        exists (caps ++ n :: l). split; [|split; [|split; [|split]]].
        -- change (chn (with_last_captures lc b') (hd (with_last_captures lc b') n))
             with (chn b' (hd b' n)).
           by apply (Captured_step b c caps k b' lc n l b3).
        -- destruct Hring as (_ & _ & Hmem & _).
           intros x. rewrite elem_of_app, Hmemc. split.
           ++ intros [Hx|Hx]; [by apply Hmono|].
              apply Hmem in Hx as (Hsx & Hhx).
              change (stone b' x) in Hsx. change (hd b' x = hd b' n) in Hhx.
              assert (x ∉ caps) as Hxc.
              { intros Hxc. unfold stone in Hsx.
                by rewrite (capt_color _ _ _ _ _ HC), decide_True in Hsx. }
              destruct (capt_out _ _ _ _ _ HC x Hxc) as (Hhxb & _).
              assert (hd b x = hd b n) as Hxn by congruence.
              split.
              { pose proof (capt_color _ _ _ _ _ HC x) as Hcx.
                rewrite decide_False in Hcx by done. rewrite <- Hcx.
                destruct (inv_head b' Hi' x Hsx) as (<- & _). rewrite Hhx.
                destruct (inv_head b' Hi' n Hsn') as (-> & _). done. }
              split; [by rewrite Hxn, <- Hchn|].
              exists n. split; [|done]. apply elem_of_app. right. apply list_elem_of_here.
           ++ intros (Hcx & Hnpl & m & [Hm|Hm]%elem_of_app & Hcm & Hhm).
              { left. split; [done|]. split; [done|]. by exists m. }
              apply list_elem_of_singleton in Hm as ->.
              destruct (decide (x ∈ caps)) as [Hxc|Hxc].
              { left. by apply Hmemc. }
              right. apply Hmem.
              change (stone b' x /\ hd b' x = hd b' n).
              destruct (capt_out _ _ _ _ _ HC x Hxc) as (-> & _).
              split; [|congruence].
              unfold stone. rewrite (capt_color _ _ _ _ _ HC), decide_False by done.
              by rewrite Hcx.
        -- rewrite length_app. simpl. lia.
        -- lia.
        -- intros _. destruct Hrem as (_ & _ & _ & _ & Hsc & _).
           assert (_last_captures b3 = lc) as -> by (unfold scalars in Hsc; by injection Hsc).
           destruct (decide (idx = 0)) as [->|Hne].
           ++ exists n. split; [apply elem_of_app; right; apply list_elem_of_here|].
              unfold lc. rewrite list_lookup_insert_eq by (destruct Hsh' as (_ & _ & ->); lia).
              by rewrite Hhn.
           ++ destruct Hidxp as (x0 & Hx0 & Hlk); [lia|].
              exists x0. split; [apply elem_of_app; by left|].
              unfold lc. by rewrite list_lookup_insert_ne by lia.
      * apply Z.eqb_neq in Hdead. eexists. split; [done|]. cbn [fst snd].
        exists caps. split; [done|]. split; [|split; [|done]].
        -- intros x. rewrite Hmemc. split; [by apply Hmono|].
           intros (Hcx & Hnpl & m & [Hm|Hm]%elem_of_app & Hcm & Hhm).
           { split; [done|]. split; [done|]. by exists m. }
           apply list_elem_of_singleton in Hm as ->. exfalso. apply Hdead.
           rewrite Hchn. congruence.
        -- rewrite length_app. simpl. lia.
    + eexists. split; [done|]. cbn [fst snd].
      exists caps. split; [done|]. split; [|split; [|done]].
      * intros x. rewrite Hmemc. split; [by apply Hmono|].
        intros (Hcx & Hnpl & m & [Hm|Hm]%elem_of_app & Hcm & Hhm).
        { split; [done|]. split; [done|]. by exists m. }
        apply list_elem_of_singleton in Hm as ->.
        assert (n ∈ caps) as Hnc.
        { destruct (decide (n ∈ caps)) as [|Hnc]; [done|]. exfalso. apply Hcn.
          by rewrite (capt_color _ _ _ _ _ HC), decide_False. }
        apply Hmemc. apply (capt_chain _ _ _ _ _ HC n x Hnc); [|done].
        unfold stone. by rewrite Hcx.
      * rewrite length_app. simpl. lia.
  - cbn [fst snd] in *. rewrite E. ok.
    pose proof (capt_inv _ _ _ _ _ HC) as Hi1.
    destruct (clear_captures_spec b1 idx (base_shaped b1 (inv_base b1 Hi1)) ltac:(lia))
      as (l' & -> & Hl' & H0). ok.
    exists k, (with_last_captures l' b1), caps. split; [done|].
    split; [by apply Captured_with_last_captures|]. split; [done|].
    intros ->. pose proof (capt_count _ _ _ _ _ HC) as Hcount.
    destruct caps as [|x [|y caps]]; simpl in Hcount; try lia.
    exists x. split; [done|].
    assert (0 < idx) as Hpos.
    { destruct (decide (idx = 0)) as [Hz|]; [|lia]. by specialize (Hidx0 Hz). }
    destruct (Hidxp Hpos) as (x0 & Hx0 & Hlk).
    apply list_elem_of_singleton in Hx0 as ->.
    destruct (capt_in _ _ _ _ _ HC x (list_elem_of_here _ _)) as (_ & Hhx & _).
    apply list_elem_of_singleton in Hhx. rewrite Hhx in Hlk.
    cbn [with_last_captures _last_captures].
    rewrite getitem_Ok by (rewrite Hl'; lia).
    rewrite <- (H0 Hpos) in Hlk. by rewrite (list_lookup_total_correct _ _ _ Hlk).
Qed.

(** ** A whole move *)

Lemma any_of_pure {A} (l : list A) (test : A -> res bool) (f : A -> bool) :
  (forall x, x ∈ l -> test x = Ok (f x)) -> any_of l test = Ok (existsb f l).
Proof.
  induction l as [|x l IH]; intros Hf; [done|].
  simpl. rewrite Hf by apply list_elem_of_here. ok.
  destruct (f x); [done|]. apply IH. intros y Hy. apply Hf. by apply list_elem_of_further.
Qed.

(** [play]'s flag: no neighbour of [p] is of color [c] or empty. *)
Definition played_in_enemy_eye (b : GoBoard) (p : Point) (c : Color) : bool :=
  negb (existsb (fun n => bool_decide (colr b n = c) || bool_decide (colr b n = EMPTY))
          (neighbours p)).

(** A move on an empty point runs to the final assertion: the stone is placed
    (board [b3]), the dead chains next to it are captured (board [b4]), and
    the ko point is set. *)
Lemma play_spec b p c :
  Inv b -> is_stone c = true -> colr b p = EMPTY ->
  exists b3 b4 caps ko,
    (exists b1 b2, _join_chains_around b p c = Ok b1 /\
       _set_stone ZOBRIST b1 p c = Ok b2 /\
       _remove_liberty_from_neighbouring_chains b2 p = Ok b3) /\
    _capture_dead_chains ZOBRIST b3 p c = Ok (Z.of_nat (length caps), b4) /\
    Inv b3 /\
    (forall q, colr b3 q = if decide (q = p) then c else colr b q) /\
    scalars b3 = scalars b /\
    _zobrist_hash b3 = Z.lxor (_zobrist_hash b) (zv ZOBRIST p c) /\
    Captured b3 c caps (Z.of_nat (length caps)) b4 /\
    (forall x, x ∈ caps <-> dead_next_to b3 c (neighbours p) x) /\
    (if played_in_enemy_eye b p c && (Z.of_nat (length caps) =? 1)
     then caps = [ko] else ko = INVALID_POINT) /\
    play ZOBRIST b p c =
      (if 0 <? Chain.num_pseudo_liberties (chn b4 (hd b4 p))
       then Ok (with_last_ko_point ko b4) else Raise AssertionError).
Proof.
  intros Hi Hc Hpe. pose proof (inv_base b Hi) as HB.
  pose proof (empty_on_board b HB p Hpe) as Hp.
  pose proof (base_shaped b HB) as Hsh.
  assert (on_grid p) as Hgp by (by apply on_board_grid).
  destruct (place_spec b p c Hi Hpe Hc) as (b1 & b2 & b3 & E1 & E2 & E3 & Hi3 & Hc3 & Hs3 & Hz3).
  destruct (_capture_dead_chains_spec b3 p c Hi3 Hp Hc) as (k & b4 & caps & E4 & HC & Hmem & Hko).
  pose proof (capt_count _ _ _ _ _ HC) as Hk. subst k.
  pose proof (capt_inv _ _ _ _ _ HC) as Hi4.
  assert (stone b4 p) as Hsp4.
  { unfold stone. rewrite (capt_color _ _ _ _ _ HC).
    rewrite decide_False; [by rewrite Hc3, decide_True|].
    intros Hpc. destruct (capt_in _ _ _ _ _ HC p Hpc) as (Hcp & _).
    rewrite Hc3, decide_True in Hcp by done. by destruct c. }
  set (eye := played_in_enemy_eye b p c).
  assert (exists ko, (if eye && (Z.of_nat (length caps) =? 1) then caps = [ko]
                      else ko = INVALID_POINT) /\
            (if eye && (Z.of_nat (length caps) =? 1)
             then k ← getitem (_last_captures b4) 0; Ok (with_last_ko_point k b4)
             else Ok (with_last_ko_point INVALID_POINT b4))
            = Ok (with_last_ko_point ko b4)) as (ko & Hkoc & Eko).
  { destruct (eye && (Z.of_nat (length caps) =? 1)) eqn:Hcond.
    - apply andb_true_iff in Hcond as (_ & H1%Z.eqb_eq).
      destruct (Hko H1) as (x & -> & ->). by exists x.
    - by exists INVALID_POINT. }
  exists b3, b4, caps, ko.
  split; [by exists b1, b2|]. split; [done|].
  split; [done|]. split; [done|]. split; [done|]. split; [done|].
  split; [done|]. split; [done|]. split; [done|].
  unfold play.
  assert ((p =? PASS) = false) as -> by (apply Z.eqb_neq; unfold PASS, VIRTUAL_BOARD_SIZE; lia).
  rewrite vertex_Ok by done. ok.
  change (Vertex.color (vtx b p)) with (colr b p).
  rewrite bool_decide_eq_true_2 by done. cbn [assert]. ok.
  rewrite (any_of_pure _ _
    (fun n => bool_decide (colr b n = c) || bool_decide (colr b n = EMPTY))).
  2: { intros n Hn. by rewrite point_color_Ok by (done || by apply (neighbours_on_grid p)). }
  ok. rewrite E1. ok. rewrite E2. ok. rewrite E3. ok. rewrite E4. ok.
  fold (played_in_enemy_eye b p c). fold eye. rewrite Eko. ok.
  rewrite _chain_Ok.
  - ok. change (chn (with_last_ko_point ko b4) (hd (with_last_ko_point ko b4) p))
      with (chn b4 (hd b4 p)).
    by destruct (0 <? _).
  - apply (base_shaped _ (inv_base _ (Inv_with_last_ko_point b4 ko Hi4))).
  - done.
  - by apply (Inv_head_on_grid b4 p Hi4).
Qed.

(** ** The board after construction *)

Definition check_point (b : GoBoard) (q : Point) : bool :=
  match colr b q with
  | GUARD => negb (in_board_area b q) && (hd b q =? q)
  | EMPTY => in_board_area b q && (hd b q =? q) &&
             (Chain.num_pseudo_liberties (chn b q) =? Z.of_nat (length (empties b q)))
  | _ => false
  end.

Definition check_init (b : GoBoard) : bool :=
  bool_decide (length (_board b) = NPOINTS) && bool_decide (length (_chains b) = NPOINTS) &&
  bool_decide (length (_last_captures b) = 4%nat) &&
  forallb (check_point b) grid_points.

Lemma colr_off_grid b q :
  length (_board b) = NPOINTS -> 441 <= q -> colr b q = GUARD.
Proof.
  intros Hlen Hq. unfold colr, vtx. rewrite list_lookup_total_alt.
  rewrite (proj2 (lookup_ge_None _ _)); [done|]. rewrite Hlen. unfold NPOINTS. lia.
Qed.

Lemma check_init_Inv b :
  _board_size b <= 19 -> check_init b = true -> Inv b /\ forall q, ~ stone b q.
Proof.
  intros Hsz Hck. unfold check_init in Hck.
  apply andb_true_iff in Hck as (Hck & Hall).
  apply andb_true_iff in Hck as (Hck & Hl3).
  apply andb_true_iff in Hck as (Hl1 & Hl2).
  apply bool_decide_eq_true in Hl1, Hl2, Hl3.
  rewrite forallb_forall in Hall.
  assert (forall q, 0 <= q < 441 -> check_point b q = true) as Hpt.
  { intros q Hq. apply Hall. apply list_elem_of_In, elem_of_range. done. }
  assert (forall q,
    (colr b q = GUARD /\ in_board_area b q = false /\ (on_grid q -> hd b q = q)) \/
    (colr b q = EMPTY /\ in_board_area b q = true /\ hd b q = q /\
     Chain.num_pseudo_liberties (chn b q) = Z.of_nat (length (empties b q)))) as Hcases.
  { intros q.
    assert (forall q', ~ 22 <= q' <= 418 -> in_board_area b q' = false) as Hout.
    { intros q' Hq. destruct (in_board_area b q') eqn:E; [|done].
      by apply (in_board_area_range b q' Hsz) in E. }
    destruct (decide (0 <= q < 441)) as [Hq|Hq].
    - specialize (Hpt q Hq). unfold check_point in Hpt.
      destruct (colr b q); try done.
      + right. apply andb_true_iff in Hpt as (Hpt & E3).
        apply andb_true_iff in Hpt as (E1 & E2). split; [done|]. split; [done|].
        split; [by apply Z.eqb_eq|by apply Z.eqb_eq].
      + left. apply andb_true_iff in Hpt as (E1 & E2). split; [done|].
        split; [by apply negb_true_iff|]. intros _. by apply Z.eqb_eq.
    - left. split; [|split; [apply Hout; lia|unfold on_grid; lia]].
      destruct (decide (441 <= q)) as [|Hneg]; [by apply colr_off_grid|].
      assert (colr b q = colr b 0) as ->.
      { unfold colr, vtx. by replace (Z.to_nat q) with (Z.to_nat 0) by lia. }
      specialize (Hpt 0 ltac:(lia)). unfold check_point in Hpt.
      by destruct (colr b 0). }
  assert (forall q, ~ stone b q) as Hns.
  { intros q Hq. unfold stone in Hq.
    destruct (Hcases q) as [(E & _)|(E & _)]; by rewrite E in Hq. }
  split; [|done]. split; [split|..].
  - done.
  - done.
  - intros q. destruct (Hcases q) as [(-> & -> & _)|(-> & -> & _)]; split; done.
  - intros q Hq Hg. destruct (Hcases q) as [(_ & _ & Hh)|(E & _)]; [auto|congruence].
  - intros q He. destruct (Hcases q) as [(E & _)|(_ & _ & ? & ?)]; [congruence|done].
  - intros q n Hq. by apply Hns in Hq.
  - intros q Hq. by apply Hns in Hq.
  - intros H Hq. by apply Hns in Hq.
Qed.

Definition with_board_size (s : Z) (b : GoBoard) : GoBoard :=
  mkGoBoard s (_last_ko_point b) (_board b) (_chains b) (_last_captures b) (_zobrist_hash b).

(** A board without a playable point stays one at any size below 1. *)
Lemma Inv_resize b s :
  Inv b -> _board_size b <= 0 -> s <= 0 -> Inv (with_board_size s b).
Proof.
  intros [[Hsh Hsz Har Hgd Hem Hadj] Hhd Hrg] Hb Hs. split; [split|..]; try done.
  - simpl. lia.
  - intros q. change (colr (with_board_size s b) q) with (colr b q). rewrite Har.
    assert (forall b', _board_size b' <= 0 -> in_board_area b' q = false) as Hno.
    { intros b' Hb'. destruct (in_board_area b' q) eqn:E; [|done].
      apply in_board_area_spec in E. lia. }
    by rewrite !Hno.
Qed.

Lemma GoBoard__init__spec size :
  size <= 19 ->
  exists b, GoBoard__init__ size = Ok b /\ Inv b /\ (forall q, ~ stone b q) /\
    _board_size b = size /\ _zobrist_hash b = 0 /\ _last_ko_point b = INVALID_POINT.
Proof.
  intros Hs.
  assert (forall s, 0 <= s <= 19 ->
            exists b, GoBoard__init__ s = Ok b /\ check_init b = true /\
              _board_size b = s /\ _zobrist_hash b = 0 /\
              _last_ko_point b = INVALID_POINT) as Hsmall.
  { intros s Hs'.
    assert (s = 0 \/ s = 1 \/ s = 2 \/ s = 3 \/ s = 4 \/ s = 5 \/ s = 6 \/ s = 7 \/
            s = 8 \/ s = 9 \/ s = 10 \/ s = 11 \/ s = 12 \/ s = 13 \/ s = 14 \/
            s = 15 \/ s = 16 \/ s = 17 \/ s = 18 \/ s = 19) as Hcases by lia.
    repeat (destruct Hcases as [->|Hcases]); try subst s;
      (eexists; split; [vm_compute; reflexivity|]; split; [vm_compute; reflexivity|];
       split; [reflexivity|]; split; reflexivity). }
  destruct (decide (0 <= size)) as [Hpos|Hneg].
  - destruct (Hsmall size ltac:(lia)) as (b & E & Hck & Hsz & Hz & Hko).
    exists b. split; [done|].
    destruct (check_init_Inv b) as (Hi & Hns); [lia|done|]. done.
  - destruct (Hsmall 0 ltac:(lia)) as (b0 & E0 & Hck0 & Hsz0 & Hz0 & Hko0).
    destruct (check_init_Inv b0) as (Hi0 & Hns0); [lia|done|].
    exists (with_board_size size b0).
    assert (GoBoard__init__ size = Ok (with_board_size size b0)) as E.
    { unfold GoBoard__init__, board_points, range in *.
      replace (Z.to_nat size) with 0%nat by lia.
      change (Z.to_nat 0) with 0%nat in E0. cbn [seq fmap list_fmap mbind list_bind for_each] in *.
      cbn [mbind res_bind] in *. injection E0 as <-. done. }
    split; [done|]. split; [apply Inv_resize; [done|lia|lia]|].
    split; [exact Hns0|]. done.
Qed.

(** ** The zobrist hash as a function of the colors *)

Definition xor_over (l : list Point) (f : Point -> Z) : Z :=
  foldr (fun q acc => Z.lxor (f q) acc) 0 l.

(** The weight of a point: the table entry of its stone, if it has one. *)
Definition weight (b : GoBoard) (q : Point) : Z :=
  if is_stone (colr b q) then zv ZOBRIST q (colr b q) else 0.

(** The hash that a position ought to have. *)
Definition stones_hash (b : GoBoard) : Z := xor_over grid_points (weight b).

Lemma xor_over_lxor l f g :
  xor_over l (fun q => Z.lxor (f q) (g q)) = Z.lxor (xor_over l f) (xor_over l g).
Proof.
  induction l as [|x l IH]; [done|]. cbn [xor_over foldr].
  fold (xor_over l f). fold (xor_over l g). fold (xor_over l (fun q => Z.lxor (f q) (g q))).
  rewrite IH. rewrite !Z.lxor_assoc. f_equal.
  rewrite <- !Z.lxor_assoc. f_equal. apply Z.lxor_comm.
Qed.

Lemma xor_over_ext l f g : (forall q, q ∈ l -> f q = g q) -> xor_over l f = xor_over l g.
Proof.
  induction l as [|x l IH]; intros Hfg; [done|]. cbn [xor_over foldr].
  rewrite Hfg by apply list_elem_of_here. f_equal. apply IH.
  intros q Hq. apply Hfg. by apply list_elem_of_further.
Qed.

Lemma xor_over_zero l f : (forall q, q ∈ l -> f q = 0) -> xor_over l f = 0.
Proof.
  induction l as [|x l IH]; intros Hf; [done|]. cbn [xor_over foldr].
  rewrite Hf by apply list_elem_of_here. rewrite Z.lxor_0_l. apply IH.
  intros q Hq. apply Hf. by apply list_elem_of_further.
Qed.

(** Summing over the grid a function that vanishes outside [D]. *)
Lemma xor_over_middle D1 D2 x f :
  xor_over (D1 ++ x :: D2) f = Z.lxor (f x) (xor_over (D1 ++ D2) f).
Proof.
  induction D1 as [|d D1 IHD]; [done|]. cbn [app xor_over foldr].
  fold (xor_over (D1 ++ D2) f). fold (xor_over (D1 ++ x :: D2) f).
  rewrite IHD. rewrite <- !Z.lxor_assoc. f_equal. apply Z.lxor_comm.
Qed.

Lemma xor_over_support l D f :
  NoDup l -> NoDup D -> (forall q, q ∈ D -> q ∈ l) ->
  (forall q, q ∈ l -> q ∉ D -> f q = 0) ->
  xor_over l f = xor_over D f.
Proof.
  intros Hl. revert D. induction Hl as [|x l Hx Hl IH]; intros D HD Hsub Hsupp.
  - destruct D as [|d D]; [done|]. specialize (Hsub d (list_elem_of_here _ _)).
    by apply elem_of_nil in Hsub.
  - cbn [xor_over foldr]. fold (xor_over l f).
    destruct (decide (x ∈ D)) as [HxD|HxD].
    + apply list_elem_of_split in HxD as (D1 & D2 & ->).
      assert (NoDup (x :: D1 ++ D2)) as HD' by (by rewrite Permutation_middle).
      apply NoDup_cons in HD' as (HxD' & HD').
      rewrite xor_over_middle. f_equal. apply IH; [done| |].
      * intros q Hq. assert (q ∈ D1 ++ x :: D2) as Hq'.
        { rewrite elem_of_app, elem_of_cons. rewrite elem_of_app in Hq. tauto. }
        apply Hsub, elem_of_cons in Hq' as [->|?]; done.
      * intros q Hql Hq. apply Hsupp; [by apply list_elem_of_further|].
        rewrite elem_of_app, elem_of_cons. rewrite elem_of_app in Hq.
        intros [?|[->|?]]; tauto.
    + rewrite (Hsupp x (list_elem_of_here _ _) HxD), Z.lxor_0_l. apply IH; [done| |].
      * intros q Hq. specialize (Hsub q Hq). apply elem_of_cons in Hsub as [->|?]; done.
      * intros q Hql Hq. apply Hsupp; [by apply list_elem_of_further|done].
Qed.

Lemma stones_xor_xor_over b L :
  stones_xor b L = xor_over L (fun q => zv ZOBRIST q (colr b q)).
Proof. done. Qed.

(** The hash of a position changes by the weights of the points [D] whose
    color changed. *)
Lemma stones_hash_change b b' D :
  NoDup D -> (forall q, q ∈ D -> 0 <= q < 441) ->
  (forall q, q ∉ D -> colr b' q = colr b q) ->
  stones_hash b' =
    Z.lxor (stones_hash b) (xor_over D (fun q => Z.lxor (weight b q) (weight b' q))).
Proof.
  intros HD Hgrid Hsame. unfold stones_hash.
  rewrite <- (xor_over_support grid_points D); [|apply NoDup_range|done| |].
  - rewrite <- xor_over_lxor. apply xor_over_ext. intros q _.
    by rewrite <- Z.lxor_assoc, Z.lxor_nilpotent, Z.lxor_0_l.
  - intros q Hq. by apply elem_of_range, Hgrid.
  - intros q _ Hq. unfold weight. rewrite Hsame by done. apply Z.lxor_nilpotent.
Qed.

Definition hash_ok (b : GoBoard) : Prop := _zobrist_hash b = stones_hash b.

Lemma play_PASS b c : play ZOBRIST b PASS c = Ok (with_last_ko_point INVALID_POINT b).
Proof. done. Qed.

Lemma play_occupied b p c :
  Inv b -> in_board_area b p = true -> colr b p <> EMPTY ->
  play ZOBRIST b p c = Raise AssertionError.
Proof.
  intros Hi Hp Hne. pose proof (inv_base b Hi) as HB.
  pose proof (in_board_area_range b p (base_size b HB) Hp) as Hr.
  unfold play.
  assert ((p =? PASS) = false) as -> by (apply Z.eqb_neq; unfold PASS, VIRTUAL_BOARD_SIZE; lia).
  rewrite vertex_Ok by (apply HB || by apply on_board_grid). ok.
  change (Vertex.color (vtx b p)) with (colr b p).
  by rewrite bool_decide_eq_false_2.
Qed.

Lemma play_preserves b p c b' :
  Inv b -> hash_ok b -> is_stone c = true ->
  p = PASS \/ in_board_area b p = true ->
  play ZOBRIST b p c = Ok b' -> Inv b' /\ hash_ok b'.
Proof.
  intros Hi Hh Hc [->|Hp] E.
  - rewrite play_PASS in E. injection E as <-. split; [by apply Inv_with_last_ko_point|done].
  - destruct (decide (colr b p = EMPTY)) as [Hpe|Hpe];
      [|by rewrite play_occupied in E].
    destruct (play_spec b p c Hi Hc Hpe)
      as (b3 & b4 & caps & ko & _ & _ & Hi3 & Hc3 & Hs3 & Hz3 & HC & _ & _ & Eplay).
    rewrite Eplay in E. destruct (0 <? _); [|done]. injection E as <-.
    split; [apply Inv_with_last_ko_point, HC|].
    pose proof (empty_on_board b (inv_base b Hi) p Hpe) as Hpr.
    assert (stones_hash b3 = Z.lxor (stones_hash b) (zv ZOBRIST p c)) as H3.
    { rewrite (stones_hash_change b b3 [p]).
      - f_equal. cbn [xor_over foldr]. unfold weight.
        rewrite Hc3, decide_True, Hpe, Hc by done. simpl.
        by rewrite Z.lxor_0_r.
      - apply NoDup_singleton.
      - intros q ->%list_elem_of_singleton. lia.
      - intros q Hq. rewrite Hc3, decide_False; [done|].
        intros ->. apply Hq, list_elem_of_here. }
    assert (stones_hash b4 = Z.lxor (stones_hash b3) (stones_xor b3 caps)) as H4.
    { rewrite (stones_hash_change b3 b4 caps).
      - f_equal. rewrite stones_xor_xor_over. apply xor_over_ext. intros q Hq.
        unfold weight. rewrite (capt_color _ _ _ _ _ HC), decide_True by done.
        destruct (capt_in _ _ _ _ _ HC q Hq) as (-> & _).
        rewrite (opponent_stone c Hc). simpl. by rewrite Z.lxor_0_r.
      - apply HC.
      - intros q Hq. destruct (capt_in _ _ _ _ _ HC q Hq) as (Hcq & _).
        assert (22 <= q <= 418); [|lia].
        apply (stone_on_board b3 (inv_base b3 Hi3)). unfold stone. rewrite Hcq.
        by apply opponent_stone.
      - intros q Hq. by rewrite (capt_color _ _ _ _ _ HC), decide_False. }
    unfold hash_ok in *. change (_zobrist_hash (with_last_ko_point ko b4)) with (_zobrist_hash b4).
    change (stones_hash (with_last_ko_point ko b4)) with (stones_hash b4).
    rewrite (capt_hash _ _ _ _ _ HC), Hz3, H4, H3, Hh. done.
Qed.

Lemma is_legal_move_on_board b p c :
  is_legal_move b p c = Ok true -> p = PASS \/ in_board_area b p = true.
Proof.
  unfold is_legal_move. destruct (p =? PASS) eqn:Hp; [left; by apply Z.eqb_eq|].
  destruct (in_board_area b p); [by right|done].
Qed.

(** ** Reachable boards *)

(** Boards built from a constructor call (on a size the grid supports) by
    moves on points of the board or passes that returned normally. *)
Inductive built : GoBoard -> Prop :=
| built_init size b :
    size <= 19 -> GoBoard__init__ size = Ok b -> built b
| built_play b p c b' :
    built b -> is_stone c = true -> p = PASS \/ in_board_area b p = true ->
    play ZOBRIST b p c = Ok b' -> built b'.

(** Boards reachable by legal moves only. *)
Inductive reachable : GoBoard -> Prop :=
| reachable_init size b :
    size <= 19 -> GoBoard__init__ size = Ok b -> reachable b
| reachable_play b p c b' :
    reachable b -> is_stone c = true -> is_legal_move b p c = Ok true ->
    play ZOBRIST b p c = Ok b' -> reachable b'.

Lemma reachable_built b : reachable b -> built b.
Proof.
  induction 1 as [size b Hs E|b p c b' _ IH Hc Hl E].
  - by apply (built_init size).
  - apply (built_play b p c); [done..| |done]. by apply (is_legal_move_on_board b p c).
Qed.

Lemma built_Inv b : built b -> Inv b /\ hash_ok b.
Proof.
  induction 1 as [size b Hs E|b p c b' _ (Hi & Hh) Hc Hp E].
  - destruct (GoBoard__init__spec size Hs) as (b0 & E0 & Hi & Hns & _ & Hz & _).
    rewrite E in E0. injection E0 as <-. split; [done|].
    unfold hash_ok, stones_hash. rewrite Hz. symmetry. apply xor_over_zero.
    intros q _. unfold weight. specialize (Hns q). unfold stone in Hns.
    by destruct (is_stone (colr b q)).
  - by apply (play_preserves b p c).
Qed.

Lemma reachable_Inv b : reachable b -> Inv b.
Proof. intros Hr. by apply built_Inv, reachable_built. Qed.

(** * Properties of the boards that play reaches *)

(** ** Rings of chains (C5) *)

Lemma follow_Ok b : shaped b -> forall k p,
  (forall j, (j < k)%nat -> on_grid (Nat.iter j (nx b) p)) ->
  follow b p k = Ok (Nat.iter k (nx b) p).
Proof.
  intros Hsh. induction k as [|k IH]; intros p Hg; [done|].
  cbn [follow]. rewrite vertex_Ok by (done || apply (Hg 0%nat); lia). ok.
  change (Vertex.chain_next (vtx b p)) with (nx b p).
  rewrite IH.
  - f_equal. clear. induction k as [|k IHk]; [done|]. simpl. by rewrite IHk.
  - intros j Hj. specialize (Hg (S j) ltac:(lia)).
    replace (Nat.iter j (nx b) (nx b p)) with (Nat.iter (S j) (nx b) p); [done|].
    clear. induction j as [|j IHj]; [done|]. simpl. by rewrite <- IHj.
Qed.

Lemma path_iter next l : forall x y,
  path next x l y ->
  Nat.iter (length l) next x = y /\
  forall k, (k < length l)%nat -> l !! k = Some (Nat.iter k next x).
Proof.
  assert (forall k x, Nat.iter k next (next x) = Nat.iter (S k) next x) as Hshift.
  { induction k as [|k IHk]; intros x; [done|]. simpl. by rewrite IHk. }
  induction l as [|a l IH]; intros x y Hp.
  - simpl in Hp. subst. split; [done|]. intros k Hk. simpl in Hk. lia.
  - destruct Hp as (-> & Hp). destruct (IH _ _ Hp) as (Hend & Hk).
    split.
    + cbn [length]. by rewrite <- Hshift.
    + intros [|k] Hlt; [done|]. cbn [length] in Hlt.
      rewrite <- Hshift. apply Hk. lia.
Qed.

(** C5: on every board reachable by legal moves, following [chain_next]
    from a stone [p] comes back to [p] after exactly [num_stones] steps,
    through that many distinct points, all with the chain head of [p], and
    these are all the stones of that head. *)
Theorem chain_ring_invariant b p :
  reachable b -> in_board_area b p = true ->
  point_color b p = Ok BLACK \/ point_color b p = Ok WHITE ->
  exists (n : nat) (h : Point),
    chain_size b p = Ok (Z.of_nat n) /\ chain_head b p = Ok h /\ (0 < n)%nat /\
    follow b p n = Ok p /\
    (forall k, (k < n)%nat -> exists q,
       follow b p k = Ok q /\ chain_head b q = Ok h /\ point_color b q = point_color b p /\
       (0 < k -> q <> p)%nat) /\
    (forall j k q, (j < k < n)%nat -> follow b p j = Ok q -> follow b p k <> Ok q) /\
    (forall x, in_board_area b x = true -> point_color b x = point_color b p ->
       chain_head b x = Ok h -> exists k, (k < n)%nat /\ follow b p k = Ok x).
Proof.
  intros Hr Hp Hcol. pose proof (reachable_Inv b Hr) as Hi.
  pose proof (inv_base b Hi) as HB. pose proof (base_shaped b HB) as Hsh.
  pose proof (in_board_area_range b p (base_size b HB) Hp) as Hpr.
  assert (on_grid p) as Hgp by (by apply on_board_grid).
  rewrite point_color_Ok in Hcol |- * by done.
  assert (stone b p) as Hsp.
  { unfold stone. destruct Hcol as [Hc|Hc]; injection Hc as ->; done. }
  destruct (Inv_ring_from b p Hi Hsp) as (l & (Hnd & _ & Hmem & Hnum) & Hpath).
  destruct (path_iter (nx b) (p :: l) p p Hpath) as (Hend & Hk).
  assert (forall k, (k < length (p :: l))%nat ->
            Nat.iter k (nx b) p ∈ p :: l) as Hin.
  { intros k Hlt. apply list_elem_of_lookup. exists k. by apply Hk. }
  assert (forall k, (k <= length (p :: l))%nat -> on_grid (Nat.iter k (nx b) p)) as Hgrid.
  { intros k Hle. destruct (decide (k = length (p :: l))) as [->|Hne].
    - by rewrite Hend.
    - apply on_board_grid, (stone_on_board b HB). apply Hmem, Hin. lia. }
  assert (forall k, (k <= length (p :: l))%nat ->
            follow b p k = Ok (Nat.iter k (nx b) p)) as Hfollow.
  { intros k Hle. apply follow_Ok; [done|]. intros j Hj. apply Hgrid. lia. }
  pose proof (Inv_head_on_grid b p Hi Hsp) as Hgh.
  exists (length (p :: l)), (hd b p).
  split; [unfold chain_size; rewrite _chain_Ok by done; ok; by rewrite Hnum|].
  split; [by apply chain_head_Ok|]. split; [simpl; lia|].
  split; [by rewrite Hfollow, Hend|]. split; [|split].
  - intros k Hlt. exists (Nat.iter k (nx b) p).
    pose proof (Hin k Hlt) as Hq. apply Hmem in Hq as (Hsq & Hhq).
    pose proof (on_board_grid _ (stone_on_board b HB _ Hsq)) as Hgq.
    split; [apply Hfollow; lia|].
    split; [rewrite chain_head_Ok by done; by f_equal|].
    split.
    + rewrite point_color_Ok by done. f_equal.
      destruct (inv_head b Hi _ Hsq) as (<- & _). rewrite Hhq.
      by destruct (inv_head b Hi p Hsp) as (-> & _).
    + intros Hpos Heq. pose proof (proj1 (NoDup_alt _) Hnd k 0%nat p) as Hnd'.
      rewrite Hk, Heq in Hnd' by done.
      specialize (Hnd' eq_refl eq_refl). lia.
  - intros j k q Hjk Hj Hk'. rewrite Hfollow in Hj, Hk' by lia.
    injection Hj as <-. injection Hk' as Heq.
    pose proof (proj1 (NoDup_alt _) Hnd j k (Nat.iter j (nx b) p)) as Hnd'.
    rewrite !Hk in Hnd' by lia. rewrite Heq in Hnd'. specialize (Hnd' eq_refl eq_refl). lia.
  - intros x Hx Hcx Hhx.
    pose proof (in_board_area_range b x (base_size b HB) Hx) as Hxr.
    assert (on_grid x) as Hgx by (by apply on_board_grid).
    rewrite point_color_Ok in Hcx by done. rewrite chain_head_Ok in Hhx by done.
    injection Hcx as Hcx. injection Hhx as Hhx.
    assert (x ∈ p :: l) as Hxl.
    { apply Hmem. split; [unfold stone; by rewrite Hcx|done]. }
    apply list_elem_of_lookup in Hxl as (k & Hlk).
    pose proof (lookup_lt_Some _ _ _ Hlk) as Hlt.
    exists k. split; [done|]. rewrite Hfollow by lia. f_equal.
    rewrite Hk in Hlk by done. by injection Hlk.
Qed.

(** ** Empty points (C10) *)

(** C10: on every board reachable by legal moves, an empty point of the
    board is its own chain head, and the chain slot at that point counts its
    empty neighbours; so the test [num_pseudo_liberties > 0] that
    [is_legal_move] makes at an empty point says that some neighbour is empty. *)
Theorem empty_point_singleton b p :
  reachable b -> in_board_area b p = true -> is_empty b p = Ok true ->
  chain_head b p = Ok p /\
  exists ch, getitem (_chains b) p = Ok ch /\ _chain b p = Ok ch /\
    Chain.num_pseudo_liberties ch
      = Z.of_nat (length (filter (fun n => is_empty b n = Ok true) (neighbours p))) /\
    ((0 <? Chain.num_pseudo_liberties ch) = true <->
     exists n, n ∈ neighbours p /\ is_empty b n = Ok true).
Proof.
  intros Hr Hp He. pose proof (reachable_Inv b Hr) as Hi.
  pose proof (inv_base b Hi) as HB. pose proof (base_shaped b HB) as Hsh.
  pose proof (in_board_area_range b p (base_size b HB) Hp) as Hpr.
  assert (on_grid p) as Hgp by (by apply on_board_grid).
  rewrite is_empty_Ok in He by done. injection He as He.
  apply bool_decide_eq_true in He.
  destruct (base_empty b HB p He) as (Hself & Hnpl).
  assert (filter (fun n => is_empty b n = Ok true) (neighbours p) = empties b p) as Hf.
  { unfold empties. apply filter_ext_in. intros n Hn.
    rewrite is_empty_Ok by (done || by apply (neighbours_on_grid p)).
    split.
    - intros E. injection E as E. by apply bool_decide_eq_true in E.
    - intros E. by rewrite bool_decide_eq_true_2. }
  split; [rewrite chain_head_Ok by done; by f_equal|].
  exists (chn b p). split; [|split; [|split]].
  - unfold chn. apply getitem_Ok. destruct Hsh as (_ & -> & _). unfold NPOINTS. lia.
  - rewrite _chain_Ok by (done || by rewrite Hself). by rewrite Hself.
  - by rewrite Hf.
  - rewrite Hnpl, Z.ltb_lt, <- Hf. split.
    + intros Hpos. destruct (filter _ _) as [|n l] eqn:E; [simpl in Hpos; lia|].
      assert (n ∈ filter (fun n => is_empty b n = Ok true) (neighbours p)) as Hn
        by (rewrite E; apply list_elem_of_here).
      apply list_elem_of_filter in Hn as (? & ?). by exists n.
    + intros (n & Hn & Hen).
      assert (n ∈ filter (fun n => is_empty b n = Ok true) (neighbours p)) as Hn'
        by (by apply list_elem_of_filter).
      destruct (filter _ _); [by apply elem_of_nil in Hn'|simpl; lia].
Qed.

(** ** Legal moves (C1) *)

Lemma any_of_exists {A} (l : list A) (test : A -> res bool) (f : A -> bool) :
  (forall x, x ∈ l -> test x = Ok (f x)) ->
  exists r, any_of l test = Ok r /\ (r = true <-> exists x, x ∈ l /\ f x = true).
Proof.
  intros Hf. exists (existsb f l). split; [by apply any_of_pure|].
  rewrite existsb_exists. split.
  - intros (x & Hx & ?). exists x. by rewrite list_elem_of_In.
  - intros (x & Hx & ?). exists x. by rewrite <- list_elem_of_In.
Qed.

(** A move that is not a suicide: the point has an empty neighbour, a
    neighbour of color [c] whose chain is not in atari, or an opposing
    neighbour whose chain is in atari. *)
Definition not_suicide (b : GoBoard) (p : Point) (c : Color) : Prop :=
  (exists n, n ∈ neighbours p /\ point_color b n = Ok EMPTY) \/
  (exists n, n ∈ neighbours p /\ point_color b n = Ok c /\ in_atari b n = Ok false) \/
  (exists n, n ∈ neighbours p /\ point_color b n = Ok (opponent c) /\
             in_atari b n = Ok true).

Lemma is_legal_move_Inv b p c :
  Inv b -> c = BLACK \/ c = WHITE ->
  exists r, is_legal_move b p c = Ok r /\
    (r = true <->
     p = PASS \/
     (in_board_area b p = true /\ point_color b p = Ok EMPTY /\ p <> _last_ko_point b /\
      not_suicide b p c)).
Proof.
  intros Hi Hc. unfold not_suicide.
  pose proof (inv_base b Hi) as HB. pose proof (base_shaped b HB) as Hsh.
  assert (is_stone c = true) as Hsc by (by destruct Hc as [-> | ->]).
  unfold is_legal_move.
  destruct (p =? PASS) eqn:Hpass.
  { exists true. split; [done|]. split; [|done]. left. by apply Z.eqb_eq. }
  apply Z.eqb_neq in Hpass.
  destruct (in_board_area b p) eqn:Hp; cbn [negb].
  2: { exists false. split; [done|]. split; [done|]. intros [?|(? & _)]; done. }
  pose proof (in_board_area_range b p (base_size b HB) Hp) as Hpr.
  assert (on_grid p) as Hgp by (by apply on_board_grid).
  assert (forall n, n ∈ neighbours p -> on_grid n) as Hng
    by (intros n; by apply neighbours_on_grid).
  rewrite is_empty_Ok by done. ok. rewrite !point_color_Ok by done.
  destruct (decide (colr b p = EMPTY)) as [He|He].
  2: { rewrite bool_decide_eq_false_2 by done. exists false. split; [done|].
       split; [done|]. intros [?|(_ & E & _)]; [done|]. injection E as E. done. }
  rewrite bool_decide_eq_true_2 by done. cbn [negb orb].
  destruct (p =? _last_ko_point b) eqn:Hko.
  { exists false. split; [done|]. split; [done|]. apply Z.eqb_eq in Hko.
    intros [?|(_ & _ & ? & _)]; done. }
  apply Z.eqb_neq in Hko.
  destruct (base_empty b HB p He) as (Hself & Hnpl).
  rewrite _chain_Ok by (done || by rewrite Hself). ok. rewrite Hself.
  (* what the two loops read at a neighbour *)
  assert (forall n c', n ∈ neighbours p -> is_stone c' = true -> colr b n = c' ->
            in_atari b n = Ok (Chain.in_atari (chn b (hd b n))) /\
            _chain b n = Ok (chn b (hd b n))) as Hat.
  { intros n c' Hn Hc' Hcn.
    assert (stone b n) as Hsn by (unfold stone; by rewrite Hcn).
    pose proof (Inv_head_on_grid b n Hi Hsn) as Hgh.
    unfold in_atari. rewrite _chain_Ok by auto. done. }
  destruct (any_of_exists (neighbours p)
    (fun n => nc ← point_color b n;
              if bool_decide (nc = c) then ch ← _chain b n; Ok (negb (Chain.in_atari ch))
              else Ok false)
    (fun n => bool_decide (colr b n = c) && negb (Chain.in_atari (chn b (hd b n)))))
    as (r1 & E1 & H1).
  { intros n Hn. rewrite point_color_Ok by auto. ok.
    destruct (decide (colr b n = c)) as [Hcn|Hcn].
    - rewrite bool_decide_eq_true_2 by done.
      by destruct (Hat n c Hn Hsc Hcn) as (_ & ->).
    - by rewrite bool_decide_eq_false_2. }
  destruct (any_of_exists (neighbours p)
    (fun n => nc ← point_color b n;
              if bool_decide (nc = opponent c) then ch ← _chain b n; Ok (Chain.in_atari ch)
              else Ok false)
    (fun n => bool_decide (colr b n = opponent c) && Chain.in_atari (chn b (hd b n))))
    as (r2 & E2 & H2).
  { intros n Hn. rewrite point_color_Ok by auto. ok.
    destruct (decide (colr b n = opponent c)) as [Hcn|Hcn].
    - rewrite bool_decide_eq_true_2 by done.
      by destruct (Hat n (opponent c) Hn (opponent_stone c Hsc) Hcn) as (_ & ->).
    - by rewrite bool_decide_eq_false_2. }
  assert ((exists n, n ∈ neighbours p /\ point_color b n = Ok EMPTY) <->
          0 < Chain.num_pseudo_liberties (chn b p)) as Hlib.
  { rewrite Hnpl. unfold empties. split.
    - intros (n & Hn & E). rewrite point_color_Ok in E by auto. injection E as E.
      assert (n ∈ filter (fun n => colr b n = EMPTY) (neighbours p)) as Hn'
        by (by apply list_elem_of_filter).
      destruct (filter _ _); [by apply elem_of_nil in Hn'|simpl; lia].
    - intros Hpos. destruct (filter _ _) as [|n l] eqn:E; [simpl in Hpos; lia|].
      assert (n ∈ filter (fun n => colr b n = EMPTY) (neighbours p)) as Hn
        by (rewrite E; apply list_elem_of_here).
      apply list_elem_of_filter in Hn as (Hne & Hnn). exists n.
      split; [done|]. rewrite point_color_Ok by auto. by f_equal. }
  assert ((exists n, n ∈ neighbours p /\ point_color b n = Ok c /\ in_atari b n = Ok false)
          <-> r1 = true) as Hconn.
  { rewrite H1. split.
    - intros (n & Hn & E & Ea). exists n. split; [done|].
      rewrite point_color_Ok in E by auto. injection E as E.
      destruct (Hat n c Hn Hsc E) as (Ea' & _). rewrite Ea' in Ea. injection Ea as ->.
      by rewrite bool_decide_eq_true_2.
    - intros (n & Hn & (E & Ea)%andb_true_iff). apply bool_decide_eq_true in E.
      exists n. split; [done|]. rewrite point_color_Ok by auto. split; [by f_equal|].
      destruct (Hat n c Hn Hsc E) as (-> & _). f_equal. by apply negb_true_iff. }
  assert ((exists n, n ∈ neighbours p /\ point_color b n = Ok (opponent c) /\
                     in_atari b n = Ok true) <-> r2 = true) as Hkill.
  { rewrite H2. split.
    - intros (n & Hn & E & Ea). exists n. split; [done|].
      rewrite point_color_Ok in E by auto. injection E as E.
      destruct (Hat n (opponent c) Hn (opponent_stone c Hsc) E) as (Ea' & _).
      rewrite Ea' in Ea. injection Ea as ->. by rewrite bool_decide_eq_true_2.
    - intros (n & Hn & (E & Ea)%andb_true_iff). apply bool_decide_eq_true in E.
      exists n. split; [done|]. rewrite point_color_Ok by auto. split; [by f_equal|].
      destruct (Hat n (opponent c) Hn (opponent_stone c Hsc) E) as (-> & _). by f_equal. }
  destruct (0 <? Chain.num_pseudo_liberties (chn b p)) eqn:Hpos.
  { exists true. split; [done|]. split; [|done]. intros _. right.
    split; [done|]. split; [by rewrite He|]. split; [done|]. left.
    apply Hlib. by apply Z.ltb_lt. }
  apply Z.ltb_ge in Hpos. rewrite E1. ok.
  destruct r1.
  { exists true. split; [done|]. split; [|done]. intros _. right.
    split; [done|]. split; [by rewrite He|]. split; [done|]. right. left. by apply Hconn. }
  rewrite E2. ok.
  exists r2. split; [by destruct r2|]. split.
  - intros ->. right. split; [done|]. split; [by rewrite He|]. split; [done|].
    right. right. by apply Hkill.
  - intros [?|(_ & _ & _ & [Hl|[Hcn|Hk]])]; [done| | |].
    + apply Hlib in Hl. lia.
    + by apply Hconn in Hcn.
    + by apply Hkill.
Qed.

(** ** The hash (C6) *)

Lemma point_color_grid b q :
  shaped b -> 0 <= q < 441 -> point_color b q = Ok (colr b q).
Proof.
  intros Hsh Hq. unfold point_color, vertex.
  rewrite getitem_Ok by (destruct Hsh as (-> & _); unfold NPOINTS; lia). done.
Qed.

(** C6: two boards built by any play calls (with the same zobrist table)
    whose points all have the same colors have the same hash. *)
Theorem zobrist_hash_by_colors b1 b2 :
  built b1 -> built b2 ->
  (forall q, 0 <= q < VIRTUAL_BOARD_POINTS -> point_color b1 q = point_color b2 q) ->
  __hash__ b1 = __hash__ b2.
Proof.
  intros H1 H2 Hsame.
  destruct (built_Inv b1 H1) as (Hi1 & Hh1). destruct (built_Inv b2 H2) as (Hi2 & Hh2).
  unfold __hash__. rewrite Hh1, Hh2. unfold stones_hash.
  apply xor_over_ext. intros q Hq. apply elem_of_range in Hq.
  specialize (Hsame q Hq).
  rewrite !point_color_grid in Hsame by (done || apply Hi1 || apply Hi2).
  injection Hsame as Hsame. unfold weight. by rewrite Hsame.
Qed.

(** ** Captures (C3) *)

(** C3: when [play] returns for a point of the board area, on any board
    built by the constructor and calls of [play] (legal or not: [play] never
    consults [is_legal_move], so a capture by a play at the ko point is
    covered as well), the board [b3] on which [_capture_dead_chains] started
    lost exactly the stones [caps] of the opposing chains next to [p] whose
    pseudo-liberty count was zero: each of them is empty afterwards, no
    other point changed color during the capture, and every chain that was
    not captured got one liberty back for each adjacency of one of its
    points with a captured point. *)
Theorem capture_restores_liberties b p c b' :
  built b -> c = BLACK \/ c = WHITE -> in_board_area b p = true ->
  play ZOBRIST b p c = Ok b' ->
  exists b1 b2 b3 caps,
    _join_chains_around b p c = Ok b1 /\ _set_stone ZOBRIST b1 p c = Ok b2 /\
    _remove_liberty_from_neighbouring_chains b2 p = Ok b3 /\
    (exists b4 ko, _capture_dead_chains ZOBRIST b3 p c = Ok (Z.of_nat (length caps), b4) /\
       b' = with_last_ko_point ko b4) /\
    NoDup caps /\
    (forall x, 0 <= x < VIRTUAL_BOARD_POINTS ->
       x ∈ caps <->
       point_color b3 x = Ok (opponent c) /\
       (exists ch, _chain b3 x = Ok ch /\ Chain.num_pseudo_liberties ch = 0) /\
       exists n, n ∈ neighbours p /\ point_color b3 n = Ok (opponent c) /\
                 chain_head b3 n = chain_head b3 x) /\
    (forall x, x ∈ caps -> in_board_area b x = true) /\
    (forall x, x ∈ caps -> point_color b' x = Ok EMPTY) /\
    (forall x, 0 <= x < VIRTUAL_BOARD_POINTS -> x ∉ caps ->
       point_color b' x = point_color b3 x) /\
    (forall h, 0 < h < VIRTUAL_BOARD_POINTS -> h ∉ caps ->
       exists ch ch', getitem (_chains b3) h = Ok ch /\ getitem (_chains b') h = Ok ch' /\
         let back := x ← caps; n ← neighbours x;
                     if decide (chain_head b3 n = Ok h) then [x] else [] in
         Chain.num_stones ch' = Chain.num_stones ch /\
         Chain.num_pseudo_liberties ch'
           = Chain.num_pseudo_liberties ch + Z.of_nat (length back) /\
         Chain.liberty_vertex_sum ch' = Chain.liberty_vertex_sum ch + Chain.coord_sum back /\
         Chain.liberty_vertex_sum_squared ch'
           = Chain.liberty_vertex_sum_squared ch + Chain.coord_sum_squared back).
Proof.
  intros Hb Hc Hp E. destruct (built_Inv b Hb) as (Hi & _).
  assert (is_stone c = true) as Hsc by (by destruct Hc as [-> | ->]).
  destruct (decide (colr b p = EMPTY)) as [Hpe|Hpe];
    [|by rewrite play_occupied in E].
  destruct (play_spec b p c Hi Hsc Hpe)
    as (b3 & b4 & caps & ko & (b1 & b2 & E1 & E2 & E3) & E4 & Hi3 & Hc3 & Hs3 & Hz3 &
        HC & Hmem & _ & Eplay).
  rewrite Eplay in E. destruct (0 <? _); [|done]. injection E as <-.
  pose proof (inv_base b3 Hi3) as HB3. pose proof (base_shaped b3 HB3) as Hsh3.
  pose proof (capt_inv _ _ _ _ _ HC) as Hi4. pose proof (inv_base b4 Hi4) as HB4.
  pose proof (base_shaped b4 HB4) as Hsh4.
  assert (forall x, colr b3 x = opponent c -> on_grid x /\ on_grid (hd b3 x)) as Hopp.
  { intros x Hx. assert (stone b3 x) as Hsx
      by (unfold stone; rewrite Hx; by apply opponent_stone).
    split; [by apply on_board_grid, (stone_on_board b3)|by apply Inv_head_on_grid]. }
  exists b1, b2, b3, caps. split; [done|]. split; [done|]. split; [done|].
  split; [by exists b4, ko|]. split; [apply HC|]. split; [|split; [|split; [|split]]].
  - intros x Hxr. rewrite Hmem. unfold dead_next_to.
    assert (0 <= x < 441) as Hxr' by exact Hxr.
    pose proof (empty_on_board b (inv_base b Hi) p Hpe) as Hpr.
    split.
    + intros (Hcx & Hnpl & n & Hn & Hcn & Hhn).
      destruct (Hopp x Hcx) as (Hgx & Hghx). destruct (Hopp n Hcn) as (Hgn & _).
      split; [rewrite point_color_Ok by done; by f_equal|]. split.
      * exists (chn b3 (hd b3 x)). by rewrite _chain_Ok.
      * exists n. split; [done|]. rewrite !point_color_Ok, !chain_head_Ok by done.
        split; by f_equal.
    + intros (Hcx & (ch & Ech & Hnpl) & n & Hn & Hcn & Hhn).
      pose proof (neighbours_on_grid p n Hpr Hn) as Hgn.
      rewrite point_color_Ok in Hcn by done. injection Hcn as Hcn.
      rewrite point_color_grid in Hcx by done. injection Hcx as Hcx.
      destruct (Hopp x Hcx) as (Hgx & Hghx).
      rewrite _chain_Ok in Ech by done. injection Ech as <-.
      rewrite !chain_head_Ok in Hhn by done. injection Hhn as Hhn.
      split; [done|]. split; [done|]. by exists n.
  - intros x Hx. destruct (capt_in _ _ _ _ _ HC x Hx) as (Hcx & _).
    apply (base_area b (inv_base b Hi)).
    assert (x <> p) as Hxp.
    { intros ->. rewrite Hc3, decide_True in Hcx by done. by destruct c. }
    rewrite Hc3, decide_False in Hcx by done. rewrite Hcx.
    pose proof (opponent_stone c Hsc). by destruct (opponent c).
  - intros x Hx. destruct (capt_in _ _ _ _ _ HC x Hx) as (Hcx & _).
    destruct (Hopp x Hcx) as (Hgx & _).
    change (point_color (with_last_ko_point ko b4) x) with (point_color b4 x).
    rewrite point_color_Ok by done. f_equal.
    by rewrite (capt_color _ _ _ _ _ HC), decide_True.
  - intros x Hx Hnc.
    change (point_color (with_last_ko_point ko b4) x) with (point_color b4 x).
    rewrite !point_color_grid by (done || unfold VIRTUAL_BOARD_POINTS, VIRTUAL_BOARD_SIZE in Hx; lia).
    f_equal. by rewrite (capt_color _ _ _ _ _ HC), decide_False.
  - intros h Hh Hnc.
    assert (on_grid h) as Hgh
      by (unfold on_grid, VIRTUAL_BOARD_POINTS, VIRTUAL_BOARD_SIZE in *; lia).
    exists (chn b3 h), (chn b4 h).
    split; [unfold chn; apply getitem_Ok; destruct Hsh3 as (_ & -> & _);
            unfold on_grid, NPOINTS in *; lia|].
    split; [unfold chn; apply getitem_Ok; destruct Hsh4 as (_ & -> & _);
            unfold on_grid, NPOINTS in *; lia|].
    cbn zeta. rewrite (capt_grants _ _ _ _ _ HC h Hnc).
    assert ((x ← caps; n ← neighbours x;
             if decide (chain_head b3 n = Ok h) then [x] else []) = grants b3 caps h) as ->.
    { unfold grants. apply bind_ext_in. intros x Hx.
      destruct (capt_in _ _ _ _ _ HC x Hx) as (Hcx & _).
      destruct (Hopp x Hcx) as (Hgx & _).
      assert (22 <= x <= 418) as Hxr.
      { apply (stone_on_board b3 HB3). unfold stone. rewrite Hcx. by apply opponent_stone. }
      apply bind_ext_in. intros n Hn. apply decide_ext.
      rewrite chain_head_Ok by (done || by apply (neighbours_on_grid x)).
      split; [by intros [= ->]|by intros ->]. }
    apply add_liberties_stats.
Qed.

(** C1: on a board reachable by legal moves, for a stone color [c],
    [is_legal_move] returns, and returns true exactly for a pass and for an
    empty point of the board other than the ko point with an empty neighbour,
    a neighbour of color [c] whose chain is not in atari, or an opposing
    neighbour whose chain is in atari. *)
Theorem is_legal_move_spec b p c :
  reachable b -> c = BLACK \/ c = WHITE ->
  exists r, is_legal_move b p c = Ok r /\
    (r = true <->
     p = PASS \/
     (in_board_area b p = true /\ point_color b p = Ok EMPTY /\ p <> _last_ko_point b /\
      ((exists n, n ∈ neighbours p /\ point_color b n = Ok EMPTY) \/
       (exists n, n ∈ neighbours p /\ point_color b n = Ok c /\ in_atari b n = Ok false) \/
       (exists n, n ∈ neighbours p /\ point_color b n = Ok (opponent c) /\
                  in_atari b n = Ok true)))).
Proof. intros Hr Hc. by apply is_legal_move_Inv; [apply reachable_Inv|]. Qed.

(** ** Ko (C4) *)

(** The stones that a move took off the board. *)
Definition captured_stones (b b' : GoBoard) : list Point :=
  filter (fun x => (point_color b x = Ok BLACK \/ point_color b x = Ok WHITE) /\
                   point_color b' x = Ok EMPTY) grid_points.

(** Every neighbour of [p] is of the opposing color or off the board. *)
Definition enemy_eye (b : GoBoard) (p : Point) (c : Color) : Prop :=
  forall n, n ∈ neighbours p ->
    point_color b n = Ok (opponent c) \/ point_color b n = Ok GUARD.

Lemma played_in_enemy_eye_spec b p c :
  Inv b -> 22 <= p <= 418 -> c = BLACK \/ c = WHITE ->
  played_in_enemy_eye b p c = true <-> enemy_eye b p c.
Proof.
  intros Hi Hp Hc. pose proof (base_shaped b (inv_base b Hi)) as Hsh.
  unfold played_in_enemy_eye, enemy_eye. rewrite negb_true_iff.
  rewrite <- not_true_iff_false, existsb_exists. split.
  - intros Hno n Hn. rewrite point_color_Ok by (done || by apply (neighbours_on_grid p)).
    destruct (colr b n) eqn:E.
    + destruct Hc as [-> | ->]; [|by left]. exfalso. apply Hno. exists n.
      split; [by apply list_elem_of_In|]. by rewrite E.
    + destruct Hc as [-> | ->]; [by left|]. exfalso. apply Hno. exists n.
      split; [by apply list_elem_of_In|]. by rewrite E.
    + exfalso. apply Hno. exists n. split; [by apply list_elem_of_In|].
      rewrite E. by rewrite orb_true_r.
    + by right.
  - intros Heye (n & Hn%list_elem_of_In & Ht). specialize (Heye n Hn).
    rewrite point_color_Ok in Heye by (done || by apply (neighbours_on_grid p)).
    apply orb_true_iff in Ht as [Ht|Ht]; apply bool_decide_eq_true in Ht;
      rewrite Ht in Heye; destruct Heye as [[= E]|[= E]]; try done;
      by destruct Hc as [-> | ->].
Qed.

(** What a successful move on an empty point did, as the ko rule needs it. *)
Lemma play_ko b p c b' :
  Inv b -> c = BLACK \/ c = WHITE -> colr b p = EMPTY -> play ZOBRIST b p c = Ok b' ->
  exists caps, caps ≡ₚ captured_stones b b' /\ Inv b' /\
    (forall x, x ∈ caps -> colr b x = opponent c /\ colr b' x = EMPTY /\ x <> p) /\
    (forall q, colr b q = EMPTY -> q <> p -> colr b' q = EMPTY) /\
    _board_size b' = _board_size b /\
    (if played_in_enemy_eye b p c && (Z.of_nat (length caps) =? 1)
     then caps = [_last_ko_point b'] else _last_ko_point b' = INVALID_POINT).
Proof.
  intros Hi Hc Hpe E.
  assert (is_stone c = true) as Hsc by (by destruct Hc as [-> | ->]).
  destruct (play_spec b p c Hi Hsc Hpe)
    as (b3 & b4 & caps & ko & _ & _ & Hi3 & Hc3 & Hs3 & Hz3 & HC & Hmem & Hko & Eplay).
  rewrite Eplay in E. destruct (0 <? _); [|done]. injection E as <-.
  pose proof (capt_inv _ _ _ _ _ HC) as Hi4.
  assert (forall x, x ∈ caps -> colr b x = opponent c /\ x <> p /\ 22 <= x <= 418) as Hin.
  { intros x Hx. destruct (capt_in _ _ _ _ _ HC x Hx) as (Hcx & _).
    assert (x <> p) as Hxp.
    { intros ->. rewrite Hc3, decide_True in Hcx by done. by destruct c. }
    rewrite Hc3, decide_False in Hcx by done. split; [done|]. split; [done|].
    apply (stone_on_board b (inv_base b Hi)). unfold stone. rewrite Hcx.
    by apply opponent_stone. }
  assert (forall x, colr (with_last_ko_point ko b4) x
            = if decide (x ∈ caps) then EMPTY
              else if decide (x = p) then c else colr b x) as Hcol.
  { intros x. change (colr (with_last_ko_point ko b4) x) with (colr b4 x).
    by rewrite (capt_color _ _ _ _ _ HC), Hc3. }
  exists caps. split; [|split; [by apply Inv_with_last_ko_point|split; [|split; [|split]]]].
  - apply NoDup_Permutation; [apply HC|apply NoDup_filter, NoDup_range|].
    intros x. unfold captured_stones. rewrite list_elem_of_filter.
    unfold grid_points. rewrite elem_of_range. split.
    + intros Hx. destruct (Hin x Hx) as (Hcx & Hxp & Hxr).
      rewrite !point_color_grid
        by (lia || apply (inv_base b Hi) || apply (inv_base _ (Inv_with_last_ko_point b4 ko Hi4))).
      rewrite Hcol, decide_True, Hcx by done.
      split; [|lia]. split; [|done]. destruct Hc as [-> | ->]; auto.
    + intros ((Hst & He) & Hxr).
      rewrite !point_color_grid in Hst, He
        by (lia || apply (inv_base b Hi) || apply (inv_base _ (Inv_with_last_ko_point b4 ko Hi4))).
      injection He as He. rewrite Hcol in He.
      destruct (decide (x ∈ caps)) as [|Hxc]; [done|]. exfalso.
      destruct (decide (x = p)) as [->|Hxp]; [by destruct c|].
      rewrite He in Hst. by destruct Hst.
  - intros x Hx. destruct (Hin x Hx) as (? & ? & _). split; [done|]. split; [|done].
    by rewrite Hcol, decide_True.
  - intros q Hq Hqp. rewrite Hcol. destruct (decide (q ∈ caps)); [done|].
    by rewrite decide_False.
  - change (_board_size (with_last_ko_point ko b4)) with (_board_size b4).
    rewrite (capt_size _ _ _ _ _ HC). by apply scalars_size.
  - exact Hko.
Qed.

(** C4: after a call of [play] that returned (a pass or a play on a point of
    the board area, legal or not: [play] never consults [is_legal_move], so
    the immediate retake of a ko is covered), on any board built by the
    constructor and calls of [play], the ko point is the place of the
    captured stone when exactly one stone was captured and every neighbour of
    [p] was an opposing stone or off the board, and [INVALID_POINT]
    otherwise.  In the first case the opponent may not play there at once;
    after any further call of [play] elsewhere that returns (again a pass or
    a point of the board area) the ko point is another one, and playing there
    is legal again exactly when the point is still empty and the move is no
    suicide. *)
Theorem ko_point_after_play b p c b' :
  built b -> c = BLACK \/ c = WHITE -> p = PASS \/ in_board_area b p = true ->
  play ZOBRIST b p c = Ok b' ->
  (length (captured_stones b b') = 1%nat /\ enemy_eye b p c ->
     captured_stones b b' = [_last_ko_point b']) /\
  (~ (length (captured_stones b b') = 1%nat /\ enemy_eye b p c) ->
     _last_ko_point b' = INVALID_POINT) /\
  (forall x, captured_stones b b' = [x] -> enemy_eye b p c ->
     _last_ko_point b' = x /\
     is_legal_move b' x (opponent c) = Ok false /\
     forall q c' b'', c' = BLACK \/ c' = WHITE -> q <> x ->
       q = PASS \/ in_board_area b' q = true -> play ZOBRIST b' q c' = Ok b'' ->
       _last_ko_point b'' <> x /\
       (is_legal_move b'' x (opponent c) = Ok true <->
        point_color b'' x = Ok EMPTY /\ not_suicide b'' x (opponent c))).
Proof.
  intros Hbt Hc Harea E. destruct (built_Inv b Hbt) as (Hi & _).
  assert (built b') as Hbt'.
  { apply (built_play b p c); [done| |done..]. by destruct Hc as [-> | ->]. }
  destruct (built_Inv b' Hbt') as (Hi' & _).
  destruct Harea as [->|Hp].
  { (* a pass captures nothing *)
    rewrite play_PASS in E. injection E as <-.
    assert (captured_stones b (with_last_ko_point INVALID_POINT b) = []) as Hnone.
    { unfold captured_stones. apply elem_of_nil_inv.
      intros x (Hx & _)%list_elem_of_filter. revert Hx.
      change (point_color (with_last_ko_point INVALID_POINT b) x) with (point_color b x).
      intros ([Hb|Hw] & He); congruence. }
    rewrite Hnone. split; [by intros (? & _)|]. split; [done|]. done. }
  destruct (decide (colr b p = EMPTY)) as [Hpe|Hpe];
    [|by rewrite play_occupied in E].
  pose proof (empty_on_board b (inv_base b Hi) p Hpe) as Hpr.
  destruct (play_ko b p c b' Hi Hc Hpe E) as (caps & Hperm & _ & Hin & Hemp & Hsz & Hko).
  pose proof (played_in_enemy_eye_spec b p c Hi Hpr Hc) as Heye.
  assert (length caps = length (captured_stones b b')) as Hlen by (by rewrite Hperm).
  assert ((length (captured_stones b b') = 1%nat /\ enemy_eye b p c) ->
            captured_stones b b' = [_last_ko_point b']) as Hone.
  { intros (H1 & He). apply Heye in He. rewrite He, Hlen, H1 in Hko. simpl in Hko.
    rewrite Hko in Hperm. symmetry. by apply Permutation_singleton_l. }
  split; [done|]. split.
  { intros Hnot. destruct (played_in_enemy_eye b p c && (Z.of_nat (length caps) =? 1)) eqn:Hb;
      [|done].
    exfalso. apply Hnot. apply andb_true_iff in Hb as (He & H1%Z.eqb_eq).
    split; [lia|by apply Heye]. }
  intros x Hx He.
  assert (_last_ko_point b' = x) as Hkx.
  { assert (length (captured_stones b b') = 1%nat) as H1 by (by rewrite Hx).
    specialize (Hone (conj H1 He)). congruence. }
  assert (x ∈ caps) as Hxc by (rewrite Hperm, Hx; apply list_elem_of_here).
  destruct (Hin x Hxc) as (Hcx & Hex & Hxp).
  assert (in_board_area b' x = true) as Hxb'.
  { apply (base_area b' (inv_base b' Hi')). by rewrite Hex. }
  pose proof (in_board_area_range b' x (base_size b' (inv_base b' Hi')) Hxb') as Hxr.
  assert (forall bb, Inv bb -> in_board_area bb x = true ->
            is_legal_move bb x (opponent c) =
              (e ← is_empty bb x;
               if negb e || (x =? _last_ko_point bb) then Ok false else
               ch ← _chain bb x;
               if 0 <? Chain.num_pseudo_liberties ch then Ok true else
               connects ← any_of (neighbours x) (fun n =>
                 nc ← point_color bb n;
                 if bool_decide (nc = opponent c)
                 then ch ← _chain bb n; Ok (negb (Chain.in_atari ch)) else Ok false);
               if (connects : bool) then Ok true else
               kills ← any_of (neighbours x) (fun n =>
                 nc ← point_color bb n;
                 if bool_decide (nc = opponent (opponent c))
                 then ch ← _chain bb n; Ok (Chain.in_atari ch) else Ok false);
               if (kills : bool) then Ok true else Ok false)) as Hunf.
  { intros bb _ Hbb. unfold is_legal_move.
    assert ((x =? PASS) = false) as ->
      by (apply Z.eqb_neq; unfold PASS, VIRTUAL_BOARD_SIZE; lia).
    by rewrite Hbb. }
  split; [done|]. split.
  { rewrite (Hunf b' Hi' Hxb').
    rewrite is_empty_Ok by (apply Hi' || by apply on_board_grid). ok.
    by rewrite Hkx, Z.eqb_refl, orb_true_r. }
  intros q c' b'' Hc' Hqx Harea' E'.
  assert (built b'') as Hbt''.
  { apply (built_play b' q c'); [done| |done..]. by destruct Hc' as [-> | ->]. }
  destruct (built_Inv b'' Hbt'') as (Hi'' & _).
  assert (_last_ko_point b'' <> x /\ (colr b'' x = EMPTY -> in_board_area b'' x = true))
    as (Hko'' & Harea'').
  { destruct Harea' as [->|Hq].
    - rewrite play_PASS in E'. injection E' as <-. split; [|done].
      cbn. unfold INVALID_POINT. lia.
    - destruct (decide (colr b' q = EMPTY)) as [Hqe|Hqe];
        [|by rewrite play_occupied in E'].
      destruct (play_ko b' q c' b'' Hi' Hc' Hqe E')
        as (caps' & _ & _ & Hin' & Hemp' & Hsz' & Hko').
      split.
      + destruct (played_in_enemy_eye b' q c' && (Z.of_nat (length caps') =? 1)).
        * intros Heq. destruct (Hin' x) as (Hcx' & _).
          { rewrite Hko', Heq. apply list_elem_of_here. }
          rewrite Hex in Hcx'. by destruct Hc' as [-> | ->].
        * rewrite Hko'. unfold INVALID_POINT. lia.
      + intros _. unfold in_board_area in *. by rewrite Hsz'. }
  destruct (is_legal_move_Inv b'' x (opponent c) Hi'') as (r & Er & Hr_iff).
  { destruct Hc as [-> | ->]; auto. }
  rewrite Er. split; [done|]. split.
  - intros [= ->]. destruct (proj1 Hr_iff eq_refl) as [Hpass|(_ & ? & _ & ?)]; [|done].
    exfalso. unfold PASS, VIRTUAL_BOARD_SIZE in Hpass. lia.
  - intros (Hemp'' & Hns). f_equal. apply Hr_iff. right.
    assert (colr b'' x = EMPTY) as Hex''.
    { rewrite point_color_Ok in Hemp'' by (apply Hi'' || by apply on_board_grid).
      by injection Hemp''. }
    split; [by apply Harea''|]. split; [done|]. split; [congruence|done].
Qed.

End Steps.

(** * Chains in atari (C2) *)

(** C2: for a chain whose statistics are the count, the sum and the sum of
    squares of a non-empty multiset [l] of liberty coordinates, [in_atari]
    holds exactly when [l] has one distinct coordinate; then
    [single_liberty] returns that coordinate, which is
    [liberty_vertex_sum] divided evenly by [num_pseudo_liberties]. *)
Theorem in_atari_single_liberty (c : Chain.t) (l : list Point) :
  l <> [] -> Chain.aggregates c l ->
  (Chain.in_atari c = true <-> length (remove_dups l) = 1%nat) /\
  (Chain.in_atari c = true ->
   exists x, remove_dups l = [x] /\ Chain.single_liberty c = Ok x /\
     Chain.liberty_vertex_sum c mod Chain.num_pseudo_liberties c = 0 /\
     x = Chain.liberty_vertex_sum c / Chain.num_pseudo_liberties c).
Proof.
  intros Hl Hagg. destruct l as [|x l]; [done|]. clear Hl.
  pose proof (ChainFacts.in_atari_defect c (x :: l) Hagg) as Hat.
  rewrite ChainFacts.defect_zero in Hat.
  split.
  - rewrite Hat. split.
    + intros Hall. by rewrite (ChainFacts.remove_dups_all_equal x l Hall).
    + intros Hlen. destruct (remove_dups (x :: l)) as [|y [|? ?]] eqn:E; try done.
      assert (x = y) as <-.
      { apply (ChainFacts.remove_dups_singleton y (x :: l)); [done|].
        apply list_elem_of_here. }
      intros z Hz. by apply (ChainFacts.remove_dups_singleton x (x :: l)).
  - intros Ha. pose proof (proj1 Hat Ha) as Hall.
    destruct Hagg as (Hn & Hs & _).
    rewrite (ChainFacts.coord_sum_all_equal x (x :: l) Hall) in Hs.
    assert (Chain.num_pseudo_liberties c <> 0) as Hn0.
    { rewrite Hn. cbn [length]. lia. }
    rewrite <- Hn in Hs.
    assert (Chain.liberty_vertex_sum c mod Chain.num_pseudo_liberties c = 0) as Hmod.
    { rewrite Hs, Z.mul_comm. by apply Z.mod_mul. }
    assert (Chain.liberty_vertex_sum c / Chain.num_pseudo_liberties c = x) as Hdiv.
    { rewrite Hs, Z.mul_comm. by apply Z.div_mul. }
    exists x. split; [by apply ChainFacts.remove_dups_all_equal|].
    split; [|done].
    unfold Chain.single_liberty. rewrite Ha. cbn.
    apply Z.eqb_neq in Hn0. rewrite Hn0, Hmod. cbn. by rewrite Hdiv.
Qed.

(** A chain with the pseudo-liberties 43, 43 and 43, as a stone has whose
    only liberty touches it three times. *)
Lemma in_atari_single_liberty_witness :
  ([43; 43; 43] : list Point) <> [] /\
  Chain.aggregates (Chain.mk 3 3 129 5547) [43; 43; 43] /\
  Chain.single_liberty (Chain.mk 3 3 129 5547) = Ok 43.
Proof.
  assert (([43; 43; 43] : list Point) <> []) as H1 by done.
  assert (Chain.aggregates (Chain.mk 3 3 129 5547) [43; 43; 43]) as H2
    by (by vm_compute).
  split; [exact H1|]. split; [exact H2|].
  destruct (in_atari_single_liberty _ _ H1 H2) as (_ & Hs).
  destruct (Hs eq_refl) as (x & Hx & -> & _).
  vm_compute in Hx. by injection Hx as <-.
Defined.

(** * The board after construction (C9) *)

(** The neighbours of [p] that lie on the real board: four in the interior,
    three on an edge and two in a corner. *)
Definition board_neighbours (b : GoBoard) (p : Point) : list Point :=
  filter (fun n => in_board_area b n = true) (neighbours p).

Definition starts_empty_at (b : GoBoard) (p : Point) : bool :=
  implb (in_board_area b p)
    (bool_decide (point_color b p = Ok EMPTY) &&
     bool_decide (pseudo_liberty b p = Ok (Z.of_nat (length (board_neighbours b p))))).

Definition starts_empty (board_size : Z) : bool :=
  match GoBoard__init__ board_size with
  | Ok b => forallb (starts_empty_at b) grid_points
  | _ => false
  end.

(** On the 9x9 board the corner A1 is the point 22; after construction it has
    two pseudo-liberties, not four (and the edge point B1 has three). *)
Lemma corner_pseudo_liberty :
  exists b, GoBoard__init__ 9 = Ok b /\
    22 ∈ board_points 9 /\ in_board_area b 22 = true /\
    point_color b 22 = Ok EMPTY /\
    pseudo_liberty b 22 = Ok 2 /\ pseudo_liberty b 23 = Ok 3 /\
    pseudo_liberty b 22 <> Ok 4.
Proof.
  assert (match GoBoard__init__ 9 with
          | Ok b => in_board_area b 22 = true /\ point_color b 22 = Ok EMPTY /\
                    pseudo_liberty b 22 = Ok 2 /\ pseudo_liberty b 23 = Ok 3
          | _ => False end) as H by (vm_compute; repeat split).
  destruct (GoBoard__init__spec 9 ltac:(lia)) as (b & E & _).
  exists b. split; [exact E|]. rewrite E in H. clear E.
  destruct H as (H1 & H2 & H3 & H4).
  split; [apply (bool_decide_unpack _); vm_compute; reflexivity|].
  split; [exact H1|]. split; [exact H2|]. split; [exact H3|]. split; [exact H4|].
  rewrite H3. intros [= ?].
Qed.

(** C9 (amended): for the board sizes 9, 13 and 19, right after
    construction every point of the board area is EMPTY and its
    pseudo-liberty count is the number of its neighbours on the board: four
    in the interior, three on an edge, two in a corner. *)
Theorem starts_empty_spec (board_size : Z) :
  board_size = 9 \/ board_size = 13 \/ board_size = 19 ->
  exists b, GoBoard__init__ board_size = Ok b /\
    forall p, in_board_area b p = true ->
      point_color b p = Ok EMPTY /\
      pseudo_liberty b p = Ok (Z.of_nat (length (board_neighbours b p))) /\
      (2 <= length (board_neighbours b p) <= 4)%nat.
Proof.
  intros Hs.
  assert (starts_empty board_size = true) as Hck
    by (destruct Hs as [-> | [-> | ->]]; vm_compute; reflexivity).
  destruct (GoBoard__init__spec board_size ltac:(lia)) as (b & E & Hi & _ & Hsz & _).
  exists b. split; [exact E|]. intros p Hp.
  unfold starts_empty in Hck. rewrite E in Hck. clear E.
  rewrite forallb_forall in Hck.
  pose proof (in_board_area_range b p ltac:(lia) Hp) as Hr.
  assert (In p grid_points) as Hin.
  { apply list_elem_of_In, elem_of_range. unfold VIRTUAL_BOARD_POINTS, VIRTUAL_BOARD_SIZE. lia. }
  specialize (Hck p Hin). unfold starts_empty_at in Hck. rewrite Hp in Hck.
  cbn [implb] in Hck. apply andb_true_iff in Hck as (Hc & Hl).
  apply bool_decide_eq_true in Hc, Hl. split; [done|]. split; [done|].
  split.
  - (* a point of the board has at least two neighbours on it *)
    assert (2 <= Z.of_nat (length (board_neighbours b p))); [|lia].
    unfold board_neighbours, neighbours, VIRTUAL_BOARD_SIZE.
    apply in_board_area_spec in Hp.
    assert (forall q, in_board_area b q = true <->
              1 <= q / 21 <= board_size /\ 1 <= q mod 21 <= board_size) as Hq
      by (intros q; by rewrite in_board_area_spec, Hsz).
    rewrite Hsz in Hp.
    pose proof (Z.div_mod p 21 ltac:(lia)) as Hdm.
    pose proof (Z.mod_pos_bound p 21 ltac:(lia)) as Hmb.
    assert (forall k, (p + 21 * k) / 21 = p / 21 + k) as Hrow.
    { intros k. rewrite Z.mul_comm. by rewrite Z.div_add by lia. }
    assert (forall k, (p + 21 * k) mod 21 = p mod 21) as Hcol.
    { intros k. rewrite Z.mul_comm. by rewrite Z.mod_add by lia. }
    assert (forall d, 0 <= p mod 21 + d < 21 ->
              (p + d) / 21 = p / 21 /\ (p + d) mod 21 = p mod 21 + d) as Hside.
    { intros d Hd.
      assert (p + d = (p mod 21 + d) + p / 21 * 21) as Heq by lia.
      rewrite Heq. split.
      - rewrite Z.div_add by lia. rewrite Z.div_small by lia. lia.
      - rewrite Z.mod_add by lia. apply Z.mod_small. lia. }
    rewrite !filter_cons, filter_nil.
    assert (board_size >= 2) as Hbig by lia.
    destruct (decide (p / 21 < board_size)) as [Hup|Hup];
      destruct (decide (p mod 21 < board_size)) as [Hright|Hright].
    + (* up and right *)
      assert (in_board_area b (p + 21) = true) as H1.
      { apply Hq. replace (p + 21) with (p + 21 * 1) by lia. rewrite Hrow, Hcol. lia. }
      assert (in_board_area b (p + 1) = true) as H2.
      { apply Hq. destruct (Hside 1 ltac:(lia)) as (-> & ->). lia. }
      repeat case_decide; try done; cbn [length]; lia.
    + assert (in_board_area b (p + 21) = true) as H1.
      { apply Hq. replace (p + 21) with (p + 21 * 1) by lia. rewrite Hrow, Hcol. lia. }
      assert (in_board_area b (p - 1) = true) as H2.
      { apply Hq. replace (p - 1) with (p + -1) by lia.
        destruct (Hside (-1) ltac:(lia)) as (-> & ->). lia. }
      repeat case_decide; try done; cbn [length]; lia.
    + assert (in_board_area b (p - 21) = true) as H1.
      { apply Hq. replace (p - 21) with (p + 21 * -1) by lia. rewrite Hrow, Hcol. lia. }
      assert (in_board_area b (p + 1) = true) as H2.
      { apply Hq. destruct (Hside 1 ltac:(lia)) as (-> & ->). lia. }
      repeat case_decide; try done; cbn [length]; lia.
    + assert (in_board_area b (p - 21) = true) as H1.
      { apply Hq. replace (p - 21) with (p + 21 * -1) by lia. rewrite Hrow, Hcol. lia. }
      assert (in_board_area b (p - 1) = true) as H2.
      { apply Hq. replace (p - 1) with (p + -1) by lia.
        destruct (Hside (-1) ltac:(lia)) as (-> & ->). lia. }
      repeat case_decide; try done; cbn [length]; lia.
  - unfold board_neighbours. etrans; [apply length_filter|]. done.
Qed.

(** The 13x13 board: its corner A1 (point 22) has two neighbours on the
    board, the centre G7 (point 154) has four. *)
Lemma starts_empty_spec_witness :
  (13 = 9 \/ 13 = 13 \/ 13 = 19) /\
  exists b, GoBoard__init__ 13 = Ok b /\
    in_board_area b 154 = true /\ pseudo_liberty b 154 = Ok 4 /\
    in_board_area b 22 = true /\ pseudo_liberty b 22 = Ok 2.
Proof.
  assert (13 = 9 \/ 13 = 13 \/ 13 = 19) as H by (right; left; reflexivity).
  split; [exact H|].
  assert (match GoBoard__init__ 13 with
          | Ok b => in_board_area b 154 = true /\ in_board_area b 22 = true /\
                    length (board_neighbours b 154) = 4%nat /\
                    length (board_neighbours b 22) = 2%nat
          | _ => False end) as Hc by (vm_compute; repeat split).
  destruct (starts_empty_spec 13 H) as (b & E & Hall).
  exists b. split; [exact E|]. rewrite E in Hc. clear E.
  destruct Hc as (H1 & H2 & L1 & L2).
  destruct (Hall 154 H1) as (_ & P1 & _). destruct (Hall 22 H2) as (_ & P2 & _).
  rewrite L1 in P1. rewrite L2 in P2.
  split; [exact H1|]. split; [exact P1|]. split; [exact H2|exact P2].
Defined.

(** * Coordinate strings (C8) *)

(** Strings are Rocq strings, each character read as the code point of the
    same number (0 to 255).  On these [str.lower] maps a character to a
    character; on other code points it may give several (U+0130 becomes
    two), which is why [parse_point] and every statement about it measure
    the lowered string, as the code does with [len(s.lower())], and never
    the argument. *)
Module Text.

Definition ord (a : ascii) : Z := Z.of_nat (nat_of_ascii a).
Definition chr (n : Z) : ascii := ascii_of_nat (Z.to_nat n).

(** [str.lower] on one character: A-Z, and the upper-case letters from
    0xC0 to 0xDE but the multiplication sign 0xD7. *)
Definition lower_char (a : ascii) : ascii :=
  let n := ord a in
  if ((65 <=? n) && (n <=? 90)) || ((192 <=? n) && (n <=? 222) && negb (n =? 215))
  then chr (n + 32) else a.

Fixpoint lower (s : string) : string :=
  match s with
  | EmptyString => EmptyString
  | String a s' => String (lower_char a) (lower s')
  end.

(** What [int] strips at both ends: the C white space, and the two
    characters above 127 that [str.isspace] accepts. *)
Definition is_space (a : ascii) : bool :=
  let n := ord a in
  ((9 <=? n) && (n <=? 13)) || (n =? 32) || (n =? 133) || (n =? 160).

Definition digit (a : ascii) : option Z :=
  let n := ord a in
  if (48 <=? n) && (n <=? 57) then Some (n - 48) else None.

Fixpoint lstrip (l : list ascii) : list ascii :=
  match l with
  | a :: l' => if is_space a then lstrip l' else l
  | [] => []
  end.

Definition strip (l : list ascii) : list ascii := rev (lstrip (rev (lstrip l))).

(** Decimal digits, single underscores allowed between two digits. *)
Fixpoint digits (acc : Z) (after_digit : bool) (l : list ascii) : option Z :=
  match l with
  | [] => if after_digit then Some acc else None
  | a :: l' =>
    match digit a with
    | Some d => digits (10 * acc + d) true l'
    | None => if Ascii.eqb a "_"%char && after_digit then digits acc false l' else None
    end
  end.

(** [int(s)] in base ten: white space around, an optional sign, digits;
    anything else raises [ValueError]. *)
Definition py_int (s : string) : res Z :=
  let l := strip (list_ascii_of_string s) in
  let '(sign, l) :=
    match l with
    | a :: l' => if Ascii.eqb a "-"%char then (-1, l')
                 else if Ascii.eqb a "+"%char then (1, l') else (1, l)
    | [] => (1, l)
    end in
  match digits 0 false l with
  | Some n => Ok (sign * n)
  | None => Raise ValueError
  end.

(** [ord(s[0]) - ord('a') + (1 if s[0] <= 'i' else 0)] *)
Definition column (a : ascii) : Z :=
  ord a - ord "a"%char + (if ord a <=? ord "i"%char then 1 else 0).

End Text.

Definition parse_point (s : string) : res Point :=
  let s := Text.lower s in
  if String.eqb s "pass" then Ok PASS else
  if (Z.of_nat (String.length s) <? 2) || (3 <? Z.of_nat (String.length s))
  then Ok INVALID_POINT else
  match s with
  | String a rest =>
    let col := Text.column a in
    row ← Text.py_int rest;
    Ok (row * VIRTUAL_BOARD_SIZE + col)
  | EmptyString => Raise IndexError
  end.





(** * Boards as objects on a heap (C7)

    A Python board is an object whose attributes refer to three list
    objects; the lists [_board] and [_chains] hold references to one
    [Vertex] and one [Chain] object per point, and every method mutates
    these objects in place.  Whether two boards share storage is a
    question about references, so this part runs the code on a heap of
    objects: a reference is an index into the heap, allocation appends, and
    a computation keeps the heap it has reached when it raises. *)

Module Heap.

Abbreviation loc := nat (only parsing).

(** The attributes of a [GoBoard] object. *)
Record board_obj := mk_board_obj {
  o_board_size : Z;
  o_last_ko_point : Point;
  o_board : loc;
  o_chains : loc;
  o_last_captures : loc;
  o_zobrist_hash : Z }.

Inductive obj :=
| OVertex (v : Vertex.t)
| OChain (c : Chain.t)
| ORefs (l : list loc)
| OInts (l : list Z)
| OBoard (o : board_obj).

Abbreviation heap := (list obj) (only parsing).

Definition hm (A : Type) : Type := heap -> heap * res A.

#[global] Instance hm_ret : MRet hm := fun A a h => (h, Ok a).
#[global] Instance hm_bind : MBind hm := fun A B f m h =>
  match m h with
  | (h', Ok a) => f a h'
  | (h', Raise e) => (h', Raise e)
  | (h', Timeout) => (h', Timeout)
  end.

Definition lift {A : Type} (r : res A) : hm A := fun h => (h, r).
Definition alloc (o : obj) : hm loc := fun h => (h ++ [o], Ok (length h)).
Definition write (l : loc) (o : obj) : hm unit := fun h => (<[l:=o]> h, Ok tt).

(** Reading an object as one of a class; a reference to an object of
    another class has no such attributes. *)
Definition read_vertex (l : loc) : hm Vertex.t := fun h =>
  match h !! l with Some (OVertex v) => (h, Ok v) | _ => (h, Raise AttributeError) end.
Definition read_chain (l : loc) : hm Chain.t := fun h =>
  match h !! l with Some (OChain c) => (h, Ok c) | _ => (h, Raise AttributeError) end.
Definition read_refs (l : loc) : hm (list loc) := fun h =>
  match h !! l with Some (ORefs x) => (h, Ok x) | _ => (h, Raise AttributeError) end.
Definition read_ints (l : loc) : hm (list Z) := fun h =>
  match h !! l with Some (OInts x) => (h, Ok x) | _ => (h, Raise AttributeError) end.
Definition self (r : loc) : hm board_obj := fun h =>
  match h !! r with Some (OBoard o) => (h, Ok o) | _ => (h, Raise AttributeError) end.

Fixpoint for_each {A S : Type} (l : list A) (body : S -> A -> hm S) (s : S) : hm S :=
  match l with
  | [] => mret s
  | x :: l' => s' ← body s x; for_each l' body s'
  end.

Fixpoint any_of {A : Type} (l : list A) (test : A -> hm bool) : hm bool :=
  match l with
  | [] => mret false
  | x :: l' => t ← test x; if (t : bool) then mret true else any_of l' test
  end.

(** [[make(x) for x in l]]: the objects are made in the order of [l]. *)
Fixpoint alloc_each {A : Type} (l : list A) (make : A -> obj) : hm (list loc) :=
  match l with
  | [] => mret []
  | x :: l' => r ← alloc (make x); rs ← alloc_each l' make; mret (r :: rs)
  end.

(** ** Attribute access on [self] *)

(** The object [self._board[p]]. *)
Definition vertex_ref (r : loc) (p : Point) : hm loc :=
  o ← self r; l ← read_refs (o_board o); lift (getitem l p).

Definition vertex (r : loc) (p : Point) : hm Vertex.t :=
  l ← vertex_ref r p; read_vertex l.

Definition update_vertex (r : loc) (p : Point) (f : Vertex.t -> Vertex.t) : hm unit :=
  l ← vertex_ref r p; v ← read_vertex l; write l (OVertex (f v)).

(** The object [self._chains[i]]. *)
Definition chain_ref (r : loc) (i : Point) : hm loc :=
  o ← self r; l ← read_refs (o_chains o); lift (getitem l i).

Definition chain_at (r : loc) (i : Point) : hm Chain.t :=
  l ← chain_ref r i; read_chain l.

Definition update_chain_at (r : loc) (i : Point) (f : Chain.t -> Chain.t) : hm unit :=
  l ← chain_ref r i; c ← read_chain l; write l (OChain (f c)).

Definition last_captures (r : loc) : hm (list Point) :=
  o ← self r; read_ints (o_last_captures o).

(** [self._last_captures[i] = x] *)
Definition set_last_capture (r : loc) (i : Z) (x : Point) : hm unit :=
  o ← self r; l ← read_ints (o_last_captures o);
  l' ← lift (setitem l i x); write (o_last_captures o) (OInts l').

Definition set_last_ko_point (r : loc) (k : Point) : hm unit :=
  o ← self r;
  write r (OBoard (mk_board_obj (o_board_size o) k (o_board o) (o_chains o)
                                (o_last_captures o) (o_zobrist_hash o))).

Definition set_zobrist_hash (r : loc) (z : Z) : hm unit :=
  o ← self r;
  write r (OBoard (mk_board_obj (o_board_size o) (o_last_ko_point o) (o_board o)
                                (o_chains o) (o_last_captures o) z)).

(** ** The methods *)

Definition point_color (r : loc) (p : Point) : hm Color :=
  v ← vertex r p; mret (Vertex.color v).

Definition is_empty (r : loc) (p : Point) : hm bool :=
  c ← point_color r p; mret (bool_decide (c = EMPTY)).

Definition chain_head (r : loc) (p : Point) : hm Point :=
  v ← vertex r p; mret (Vertex.chain_head v).

Definition _chain (r : loc) (p : Point) : hm Chain.t :=
  h ← chain_head r p; chain_at r h.

Definition update_chain (r : loc) (p : Point) (f : Chain.t -> Chain.t) : hm unit :=
  h ← chain_head r p; update_chain_at r h f.

(** [c = self._chain(p)] is the object [self._chains[h]] for the head [h]
    just assigned; the list [_chains] is never assigned to, so every later
    use of [c] is that same object. *)
Definition _init_new_chain (r : loc) (p : Point) : hm unit :=
  _ ← update_vertex r p (Vertex.with_chain_head p);
  _ ← update_vertex r p (Vertex.with_chain_next p);
  h ← chain_head r p;
  _ ← update_chain_at r h Chain.reset;
  _ ← update_chain_at r h Chain.incr_num_stones;
  for_each (neighbours p) (fun _ n =>
    e ← is_empty r n;
    if (e : bool) then update_chain_at r h (Chain.add_liberty n) else mret tt) tt.

Definition _remove_liberty_from_neighbouring_chains (r : loc) (p : Point) : hm unit :=
  for_each (neighbours p) (fun _ n => update_chain r n (Chain.remove_liberty p)) tt.

Fixpoint relabel_loop (fuel : nat) (r : loc) (head n cur : Point) : hm unit :=
  match fuel with
  | O => lift Timeout
  | S fuel' =>
    _ ← update_vertex r cur (Vertex.with_chain_head head);
    v ← vertex r cur;
    let cur := Vertex.chain_next v in
    if cur =? n then mret tt else relabel_loop fuel' r head n cur
  end.

Section Board.
Variable ZOBRIST : list (list Z).

Definition _set_stone (r : loc) (p : Point) (c : Color) : hm unit :=
  z ← (if bool_decide (c = EMPTY)
       then pc ← point_color r p; lift (zobrist_value ZOBRIST p pc)
       else lift (zobrist_value ZOBRIST p c));
  o ← self r;
  _ ← set_zobrist_hash r (Z.lxor (o_zobrist_hash o) z);
  update_vertex r p (Vertex.with_color c).

Definition largest_chain (r : loc) (p : Point) (c : Color) : hm (Point * Z) :=
  for_each (neighbours p) (fun '(largest_chain_head, largest_chain_size) n =>
    nc ← point_color r n;
    if bool_decide (nc = c) then
      chain ← _chain r n;
      if largest_chain_size <? Chain.num_stones chain then
        h ← chain_head r n; mret (h, Chain.num_stones chain)
      else mret (largest_chain_head, largest_chain_size)
    else mret (largest_chain_head, largest_chain_size)) (INVALID_POINT, 0).

Definition join_step (r : loc) (largest_chain_head : Point) (c : Color) (n : Point)
  : hm unit :=
  nc ← point_color r n;
  if bool_decide (nc = c) then
    h ← chain_head r n;
    if bool_decide (h <> largest_chain_head) then
      other ← _chain r n;
      _ ← update_chain r largest_chain_head (fun ch => Chain.merge ch other);
      _ ← relabel_loop loop_fuel r largest_chain_head n n;
      vn ← vertex r n;
      vl ← vertex r largest_chain_head;
      _ ← update_vertex r largest_chain_head
            (Vertex.with_chain_next (Vertex.chain_next vn));
      update_vertex r n (Vertex.with_chain_next (Vertex.chain_next vl))
    else mret tt
  else mret tt.

Definition join_insert (r : loc) (largest_chain_head : Point) (p : Point) : hm unit :=
  vl ← vertex r largest_chain_head;
  _ ← update_vertex r p (Vertex.with_chain_next (Vertex.chain_next vl));
  _ ← update_vertex r largest_chain_head (Vertex.with_chain_next p);
  _ ← update_vertex r p (Vertex.with_chain_head largest_chain_head);
  _ ← update_chain r largest_chain_head Chain.incr_num_stones;
  for_each (neighbours p) (fun _ n =>
    e ← is_empty r n;
    if (e : bool) then update_chain r largest_chain_head (Chain.add_liberty n)
    else mret tt) tt.

Definition _join_chains_around (r : loc) (p : Point) (c : Color) : hm unit :=
  '(largest_chain_head, largest_chain_size) ← largest_chain r p c;
  if largest_chain_size =? 0 then _init_new_chain r p else
  _ ← for_each (neighbours p) (fun _ n => join_step r largest_chain_head c n) tt;
  join_insert r largest_chain_head p.

Definition remove_step (r : loc) (this_chain_head cur : Point) : hm Point :=
  v ← vertex r cur;
  let next_p := Vertex.chain_next v in
  _ ← _set_stone r cur EMPTY;
  _ ← _init_new_chain r cur;
  _ ← for_each (neighbours cur) (fun _ n =>
    h ← chain_head r n;
    grant ← (if bool_decide (h <> this_chain_head) then mret true else is_empty r n);
    if (grant : bool) then update_chain r n (Chain.add_liberty cur) else mret tt) tt;
  mret next_p.

Fixpoint remove_loop (fuel : nat) (r : loc) (this_chain_head p cur : Point) : hm unit :=
  match fuel with
  | O => lift Timeout
  | S fuel' =>
    cur ← remove_step r this_chain_head cur;
    if cur =? p then mret tt else remove_loop fuel' r this_chain_head p cur
  end.

Definition _remove_chain (r : loc) (p : Point) : hm unit :=
  this_chain_head ← chain_head r p;
  remove_loop loop_fuel r this_chain_head p p.

Definition _capture_dead_chains (r : loc) (p : Point) (c : Color) : hm Z :=
  '(stones_captured, capture_index) ←
    for_each (neighbours p) (fun '(stones_captured, capture_index) n =>
      nc ← point_color r n;
      if bool_decide (nc = opponent c) then
        ch ← _chain r n;
        if Chain.num_pseudo_liberties ch =? 0 then
          h ← chain_head r n;
          _ ← set_last_capture r capture_index h;
          ch ← _chain r n;
          _ ← _remove_chain r n;
          mret (stones_captured + Chain.num_stones ch, capture_index + 1)
        else mret (stones_captured, capture_index)
      else mret (stones_captured, capture_index)) (0, 0);
  caps ← last_captures r;
  _ ← for_each (drop (Z.to_nat capture_index) (range (Z.of_nat (length caps))))
        (fun _ i => set_last_capture r i INVALID_POINT) tt;
  mret stones_captured.

Definition play (r : loc) (p : Point) (c : Color) : hm unit :=
  if p =? PASS then set_last_ko_point r INVALID_POINT else
  v ← vertex r p;
  _ ← lift (assert (bool_decide (Vertex.color v = EMPTY)));
  not_eye ← any_of (neighbours p) (fun n =>
    nc ← point_color r n; mret (bool_decide (nc = c) || bool_decide (nc = EMPTY)));
  let played_in_enemy_eye := negb not_eye in
  _ ← _join_chains_around r p c;
  _ ← _set_stone r p c;
  _ ← _remove_liberty_from_neighbouring_chains r p;
  stones_captured ← _capture_dead_chains r p c;
  _ ← (if played_in_enemy_eye && (stones_captured =? 1)
       then caps ← last_captures r; k ← lift (getitem caps 0); set_last_ko_point r k
       else set_last_ko_point r INVALID_POINT);
  ch ← _chain r p;
  lift (assert (0 <? Chain.num_pseudo_liberties ch)).

(** A caller making one [play] call after the other on the same board,
    going on after a call that raised. *)
Fixpoint plays (r : loc) (moves : list (Point * Color)) (h : heap) : heap :=
  match moves with
  | [] => h
  | (p, c) :: moves' => plays r moves' (play r p c h).1
  end.
End Board.

(** ** Construction and cloning *)

(** [GoBoard(board_size)]: the vertex and chain objects and the three lists
    are made anew; no attribute is read before it has been assigned, and
    the object is entered with [_zobrist_hash] at the 0 it is assigned last. *)
Definition __init__ (board_size : Z) : hm loc :=
  vrefs ← alloc_each (range VIRTUAL_BOARD_POINTS) (fun i => OVertex (Vertex.mk i i GUARD));
  lb ← alloc (ORefs vrefs);
  crefs ← alloc_each (range VIRTUAL_BOARD_POINTS) (fun _ => OChain Chain.new);
  lc ← alloc (ORefs crefs);
  lk ← alloc (OInts ((fun _ => INVALID_POINT) <$> range 4));
  r ← alloc (OBoard (mk_board_obj board_size INVALID_POINT lb lc lk 0));
  _ ← for_each (board_points board_size) (fun _ p =>
        _ ← update_vertex r p (Vertex.with_color EMPTY);
        update_chain_at r p Chain.reset) tt;
  _ ← for_each (board_points board_size) (fun _ p =>
        for_each (neighbours p) (fun _ n =>
          e ← is_empty r n;
          if (e : bool) then update_chain_at r p (Chain.add_liberty n) else mret tt) tt) tt;
  _ ← set_zobrist_hash r 0;
  mret r.

Definition clone (r : loc) : hm loc :=
  o ← self r;
  other ← __init__ (o_board_size o);
  o ← self r;
  _ ← set_last_ko_point other (o_last_ko_point o);
  _ ← for_each (range VIRTUAL_BOARD_POINTS) (fun _ i =>
        v ← vertex r i;
        _ ← update_vertex other i (Vertex.with_chain_head (Vertex.chain_head v));
        v ← vertex r i;
        _ ← update_vertex other i (Vertex.with_chain_next (Vertex.chain_next v));
        v ← vertex r i;
        _ ← update_vertex other i (Vertex.with_color (Vertex.color v));
        c ← chain_at r i;
        _ ← update_chain_at other i
              (fun x => Chain.mk (Chain.num_stones c) (Chain.num_pseudo_liberties x)
                          (Chain.liberty_vertex_sum x) (Chain.liberty_vertex_sum_squared x));
        c ← chain_at r i;
        _ ← update_chain_at other i
              (fun x => Chain.mk (Chain.num_stones x) (Chain.num_pseudo_liberties c)
                          (Chain.liberty_vertex_sum x) (Chain.liberty_vertex_sum_squared x));
        c ← chain_at r i;
        _ ← update_chain_at other i
              (fun x => Chain.mk (Chain.num_stones x) (Chain.num_pseudo_liberties x)
                          (Chain.liberty_vertex_sum c) (Chain.liberty_vertex_sum_squared x));
        c ← chain_at r i;
        update_chain_at other i
              (fun x => Chain.mk (Chain.num_stones x) (Chain.num_pseudo_liberties x)
                          (Chain.liberty_vertex_sum x) (Chain.liberty_vertex_sum_squared c))) tt;
  caps ← last_captures r;
  _ ← for_each (range (Z.of_nat (length caps))) (fun _ i =>
        caps ← last_captures r;
        x ← lift (getitem caps i);
        set_last_capture other i x) tt;
  o ← self r;
  _ ← set_zobrist_hash other (o_zobrist_hash o);
  mret other.

End Heap.
(** ** Heaps that hold a board *)

(** Where the objects of one board are: the board object, its three lists,
    and the vertex and chain objects the first two lists refer to. *)
Record layout := mk_layout {
  root : nat; lboard : nat; lchains : nat; lcaptures : nat;
  vrefs : list nat; crefs : list nat }.

Definition locs (L : layout) : list nat :=
  root L :: lboard L :: lchains L :: lcaptures L :: vrefs L ++ crefs L.

(** The heap [h] holds at [L] a board whose attributes have the values
    of [b]. *)
Definition repr (L : layout) (h : list Heap.obj) (b : GoBoard) : Prop :=
  h !! root L = Some (Heap.OBoard (Heap.mk_board_obj (_board_size b) (_last_ko_point b)
                         (lboard L) (lchains L) (lcaptures L) (_zobrist_hash b))) /\
  h !! lboard L = Some (Heap.ORefs (vrefs L)) /\
  h !! lchains L = Some (Heap.ORefs (crefs L)) /\
  h !! lcaptures L = Some (Heap.OInts (_last_captures b)) /\
  Forall2 (fun l v => h !! l = Some (Heap.OVertex v)) (vrefs L) (_board b) /\
  Forall2 (fun l c => h !! l = Some (Heap.OChain c)) (crefs L) (_chains b).

(** Nothing was allocated and nothing outside [L] was written. *)
Definition frame (L : layout) (h h' : list Heap.obj) : Prop :=
  length h' = length h /\ forall l, l ∉ locs L -> h' !! l = h !! l.

Definition outcome {A : Type} (x : res (A * GoBoard)) : res A :=
  match x with Ok (a, _) => Ok a | Raise e => Raise e | Timeout => Timeout end.

(** The method [mh] run on the heap does what [mp] does on the value of the
    board: same result, same exception, and the heap it leaves holds the
    board [mp] returns; when it raises the heap still holds some board.
    [I] is what else is known of the heap, for methods that read a second
    board. *)
Definition sim {A : Type} (I : list Heap.obj -> Prop) (L : layout)
    (mh : Heap.hm A) (mp : GoBoard -> res (A * GoBoard)) : Prop :=
  forall h b, I h -> repr L h b ->
    exists h' b', mh h = (h', outcome (mp b)) /\ repr L h' b' /\ frame L h h' /\
      (forall x b2, mp b = Ok (x, b2) -> b' = b2).

(** Methods that only read, and methods that return nothing. *)
Definition simR {A : Type} (I : list Heap.obj -> Prop) (L : layout)
    (mh : Heap.hm A) (f : GoBoard -> res A) : Prop :=
  sim I L mh (fun b => x ← f b; Ok (x, b)).
Definition simU (I : list Heap.obj -> Prop) (L : layout)
    (mh : Heap.hm unit) (f : GoBoard -> res GoBoard) : Prop :=
  sim I L mh (fun b => b' ← f b; Ok (tt, b')).

Lemma frame_refl L h : frame L h h.
Proof. by split. Qed.

Lemma frame_trans L h1 h2 h3 : frame L h1 h2 -> frame L h2 h3 -> frame L h1 h3.
Proof.
  intros (Hl1 & H1) (Hl2 & H2). split; [congruence|].
  intros l Hl. by rewrite H2, H1.
Qed.

Lemma py_index_lt n i k : py_index n i = Some k -> (k < n)%nat.
Proof.
  unfold py_index. repeat case_bool_decide; intros [= <-]; lia.
Qed.

Lemma getitem_Forall2 {A B : Type} (P : A -> B -> Prop) (la : list A) (lb : list B) i :
  Forall2 P la lb ->
  (exists k a b, py_index (length lb) i = Some k /\ la !! k = Some a /\ lb !! k = Some b /\
     P a b /\ getitem la i = Ok a /\ getitem lb i = Ok b) \/
  (py_index (length lb) i = None /\ getitem la i = Raise IndexError /\
   getitem lb i = Raise IndexError).
Proof.
  intros HF. pose proof (Forall2_length _ _ _ HF) as Hlen.
  unfold getitem. rewrite Hlen.
  destruct (py_index (length lb) i) as [k|] eqn:E; [left|by right].
  apply py_index_lt in E as Hk.
  destruct (lookup_lt_is_Some_2 lb k Hk) as [b Hb].
  destruct (lookup_lt_is_Some_2 la k ltac:(lia)) as [a Ha].
  exists k, a, b. rewrite Ha, Hb. repeat split; try done.
  by apply (Forall2_lookup_lr _ _ _ _ _ _ HF Ha Hb).
Qed.

Lemma NoDup_locs L :
  NoDup (locs L) ->
  (forall l, l ∈ vrefs L ->
     l <> root L /\ l <> lboard L /\ l <> lchains L /\ l <> lcaptures L /\ l ∉ crefs L) /\
  (forall l, l ∈ crefs L ->
     l <> root L /\ l <> lboard L /\ l <> lchains L /\ l <> lcaptures L /\ l ∉ vrefs L) /\
  root L <> lboard L /\ root L <> lchains L /\ root L <> lcaptures L /\
  lboard L <> lchains L /\ lboard L <> lcaptures L /\ lchains L <> lcaptures L /\
  NoDup (vrefs L) /\ NoDup (crefs L).
Proof.
  unfold locs. rewrite !NoDup_cons, NoDup_app, !not_elem_of_cons, !not_elem_of_app.
  intros ((? & ? & ? & ? & ?) & (? & ? & ? & ?) & (? & ? & ?) & (? & ?) & ? & Hd & ?).
  repeat split; try done; try (intros ->; done); try (by apply Hd).
  intros Hl. by apply (Hd l).
Qed.

(** Reading the attributes of a board that the heap holds. *)
Lemma heap_self L h b :
  repr L h b ->
  Heap.self (root L) h =
    (h, Ok (Heap.mk_board_obj (_board_size b) (_last_ko_point b) (lboard L) (lchains L)
              (lcaptures L) (_zobrist_hash b))).
Proof. intros (Hr & _). unfold Heap.self. by rewrite Hr. Qed.

Lemma heap_vertex_ref L h b p :
  repr L h b -> Heap.vertex_ref (root L) p h = (h, getitem (vrefs L) p).
Proof.
  intros Hr. unfold Heap.vertex_ref, mbind, Heap.hm_bind. rewrite (heap_self L h b Hr).
  destruct Hr as (_ & Hb & _). cbn. unfold Heap.read_refs. by rewrite Hb.
Qed.

Lemma heap_chain_ref L h b p :
  repr L h b -> Heap.chain_ref (root L) p h = (h, getitem (crefs L) p).
Proof.
  intros Hr. unfold Heap.chain_ref, mbind, Heap.hm_bind. rewrite (heap_self L h b Hr).
  destruct Hr as (_ & _ & Hb & _). cbn. unfold Heap.read_refs. by rewrite Hb.
Qed.

Lemma heap_vertex L h b p :
  repr L h b -> Heap.vertex (root L) p h = (h, vertex b p).
Proof.
  intros Hr.
  unfold Heap.vertex, mbind, Heap.hm_bind. rewrite (heap_vertex_ref L h b p Hr).
  destruct Hr as (_ & _ & _ & _ & Hvs & _). unfold vertex.
  destruct (getitem_Forall2 _ _ _ p Hvs)
    as [(k & l & v & _ & _ & _ & HP & -> & ->)|(_ & -> & ->)]; [|done].
  cbn beta in HP. unfold Heap.read_vertex. by rewrite HP.
Qed.

Lemma heap_chain_at L h b i :
  repr L h b -> Heap.chain_at (root L) i h = (h, getitem (_chains b) i).
Proof.
  intros Hr.
  unfold Heap.chain_at, mbind, Heap.hm_bind. rewrite (heap_chain_ref L h b i Hr).
  destruct Hr as (_ & _ & _ & _ & _ & Hcs).
  destruct (getitem_Forall2 _ _ _ i Hcs)
    as [(k & l & v & _ & _ & _ & HP & -> & ->)|(_ & -> & ->)]; [|done].
  cbn beta in HP. unfold Heap.read_chain. by rewrite HP.
Qed.

Lemma heap_last_captures L h b :
  repr L h b -> Heap.last_captures (root L) h = (h, Ok (_last_captures b)).
Proof.
  intros Hr.
  unfold Heap.last_captures, mbind, Heap.hm_bind. rewrite (heap_self L h b Hr). cbn.
  destruct Hr as (_ & _ & _ & Hk & _). unfold Heap.read_ints. by rewrite Hk.
Qed.

(** Stating what the method does on values in the shape of a rule. *)
Ltac pure_as f :=
  lazymatch goal with
  | |- simU ?I ?L ?mh _ => change (simU I L mh f)
  | |- simR ?I ?L ?mh _ => change (simR I L mh f)
  | |- sim ?I ?L ?mh _ => change (sim I L mh f)
  end.

Section Sim.
Variable I : list Heap.obj -> Prop.
Variable L : layout.
Hypothesis HL : NoDup (locs L).
Hypothesis I_stable : forall h h', I h -> frame L h h' -> I h'.
Variable ZOBRIST : list (list Z).

Lemma sim_ext {A : Type} (mh : Heap.hm A) (mp mp' : GoBoard -> res (A * GoBoard)) :
  (forall b, mp b = mp' b) -> sim I L mh mp -> sim I L mh mp'.
Proof.
  intros He Hs h b Hi Hr. destruct (Hs h b Hi Hr) as (h' & b' & E & ? & ? & Hb).
  exists h', b'. rewrite <- He. split; [done|]. split; [done|]. split; [done|].
  apply Hb.
Qed.

Lemma sim_bind {A B : Type} (m : Heap.hm A) (k : A -> Heap.hm B) f g :
  sim I L m f -> (forall x, sim I L (k x) (g x)) ->
  sim I L (m ≫= k) (fun b => '(x, b1) ← f b; g x b1).
Proof.
  intros Hm Hk h b Hi Hr. destruct (Hm h b Hi Hr) as (h1 & b1 & E & Hr1 & Hf1 & Hb1).
  unfold mbind at 1, Heap.hm_bind. rewrite E.
  destruct (f b) as [[x b2]| |]; cbn.
  - rewrite (Hb1 x b2 eq_refl) in Hr1.
    destruct (Hk x h1 b2 (I_stable _ _ Hi Hf1) Hr1) as (h2 & b3 & E2 & Hr2 & Hf2 & Hb2).
    exists h2, b3. rewrite E2. split; [done|]. split; [done|].
    split; [by apply (frame_trans _ _ h1)|done].
  - by exists h1, b1.
  - by exists h1, b1.
Qed.

Lemma sim_ret {A : Type} (x : A) : sim I L (mret x) (fun b => Ok (x, b)).
Proof.
  intros h b Hi Hr. exists h, b. split; [done|]. split; [done|].
  split; [apply frame_refl|]. by intros ? ? [= _ <-].
Qed.

Lemma simR_lift {A : Type} (r : res A) : simR I L (Heap.lift r) (fun _ => r).
Proof.
  intros h b Hi Hr. exists h, b. split; [by destruct r|]. split; [done|].
  split; [apply frame_refl|]. destruct r; cbn; by intros ? ? [= _ <-].
Qed.

Lemma simR_ret {A : Type} (x : A) : simR I L (mret x) (fun _ => Ok x).
Proof. apply sim_ret. Qed.

Lemma simU_ret : simU I L (mret tt) (fun b => Ok b).
Proof. apply sim_ret. Qed.

Lemma simR_bind {A B : Type} (m : Heap.hm A) (k : A -> Heap.hm B) f g :
  simR I L m f -> (forall x, simR I L (k x) (g x)) ->
  simR I L (m ≫= k) (fun b => x ← f b; g x b).
Proof.
  intros Hm Hk. eapply sim_ext; [|apply (sim_bind _ _ _ _ Hm Hk)].
  intros b. cbn. by destruct (f b).
Qed.

Lemma simU_bind_R {A : Type} (m : Heap.hm A) (k : A -> Heap.hm unit) f g :
  simR I L m f -> (forall x, simU I L (k x) (g x)) ->
  simU I L (m ≫= k) (fun b => x ← f b; g x b).
Proof.
  intros Hm Hk. eapply sim_ext; [|apply (sim_bind _ _ _ _ Hm Hk)].
  intros b. cbn. by destruct (f b).
Qed.

Lemma simU_bind_U (m : Heap.hm unit) (k : Heap.hm unit) f g :
  simU I L m f -> simU I L k g ->
  simU I L (m ≫= fun _ => k) (fun b => b1 ← f b; g b1).
Proof.
  intros Hm Hk. eapply sim_ext; [|apply (sim_bind _ _ _ _ Hm (fun _ => Hk))].
  intros b. cbn. by destruct (f b).
Qed.

Lemma sim_bind_R {A B : Type} (m : Heap.hm A) (k : A -> Heap.hm B) f g :
  simR I L m f -> (forall x, sim I L (k x) (g x)) ->
  sim I L (m ≫= k) (fun b => x ← f b; g x b).
Proof.
  intros Hm Hk. eapply sim_ext; [|apply (sim_bind _ _ _ _ Hm Hk)].
  intros b. cbn. by destruct (f b).
Qed.

Lemma sim_bind_U {B : Type} (m : Heap.hm unit) (k : Heap.hm B) f g :
  simU I L m f -> sim I L k g ->
  sim I L (m ≫= fun _ => k) (fun b => b1 ← f b; g b1).
Proof.
  intros Hm Hk. eapply sim_ext; [|apply (sim_bind _ _ _ _ Hm (fun _ => Hk))].
  intros b. cbn. by destruct (f b).
Qed.

Lemma simU_bind {A : Type} (m : Heap.hm A) (k : A -> Heap.hm unit) f g :
  sim I L m f -> (forall x, simU I L (k x) (g x)) ->
  simU I L (m ≫= k) (fun b => '(x, b1) ← f b; g x b1).
Proof.
  intros Hm Hk. eapply sim_ext; [|apply (sim_bind _ _ _ _ Hm Hk)].
  intros b. cbn. by destruct (f b) as [[? ?]| |].
Qed.

Lemma simU_lift (r : res unit) : simU I L (Heap.lift r) (fun b => _ ← r; Ok b).
Proof.
  intros h b Hi Hr. exists h, b. split; [by destruct r as [[]| |]|]. split; [done|].
  split; [apply frame_refl|]. destruct r; cbn; by intros ? ? [= _ <-].
Qed.

Lemma simU_for_each {A : Type} (l : list A) (kh : A -> Heap.hm unit) kp :
  (forall x, simU I L (kh x) (fun b => kp b x)) ->
  simU I L (Heap.for_each l (fun _ x => kh x) tt) (fun b => for_each l kp b).
Proof.
  intros Hk. induction l as [|x l IH]; [apply simU_ret|].
  cbn [Heap.for_each for_each].
  eapply sim_ext;
    [|apply (sim_bind _ _ _ (fun _ b => b' ← for_each l kp b; Ok (tt, b')) (Hk x))].
  - intros b. cbn. destruct (kp b x); [|done..]. cbn. reflexivity.
  - intros []. apply IH.
Qed.

Lemma simR_for_each {A S : Type} (l : list A) (kh : S -> A -> Heap.hm S) kp s :
  (forall s x, simR I L (kh s x) (fun b => kp b s x)) ->
  simR I L (Heap.for_each l kh s) (fun b => for_each l (kp b) s).
Proof.
  intros Hk. revert s. induction l as [|x l IH]; intros s; [apply simR_ret|].
  cbn [Heap.for_each for_each].
  apply (simR_bind _ _ (fun b => kp b s x) (fun s' b => for_each l (kp b) s')); [apply Hk|].
  intros s'. apply IH.
Qed.

Lemma sim_for_each {A S : Type} (l : list A) (kh : S -> A -> Heap.hm S) kp s :
  (forall s x, sim I L (kh s x) (fun b => kp (s, b) x)) ->
  sim I L (Heap.for_each l kh s) (fun b => for_each l kp (s, b)).
Proof.
  intros Hk. revert s. induction l as [|x l IH]; intros s; [apply sim_ret|].
  cbn [Heap.for_each for_each].
  eapply sim_ext; [|apply (sim_bind _ _ _ _ (Hk s x) IH)].
  intros b. cbn. by destruct (kp (s, b) x) as [[? ?]| |].
Qed.

Lemma simR_any_of {A : Type} (l : list A) (th : A -> Heap.hm bool) tp :
  (forall x, simR I L (th x) (fun b => tp b x)) ->
  simR I L (Heap.any_of l th) (fun b => any_of l (tp b)).
Proof.
  intros Hk. induction l as [|x l IH]; [apply simR_ret|].
  cbn [Heap.any_of any_of].
  apply (simR_bind _ _ (fun b => tp b x)
           (fun t b => if (t : bool) then Ok true else any_of l (tp b))); [apply Hk|].
  intros [|]; [apply simR_ret|apply IH].
Qed.

(** ** The attribute accesses *)

Lemma Forall2_heap_unchanged {B : Type} (mk : B -> Heap.obj) (h h' : list Heap.obj)
    (ls : list nat) (xs : list B) :
  Forall2 (fun l x => h !! l = Some (mk x)) ls xs ->
  (forall l, l ∈ ls -> h' !! l = h !! l) ->
  Forall2 (fun l x => h' !! l = Some (mk x)) ls xs.
Proof.
  intros HF Hsame. apply Forall2_same_length_lookup.
  split; [by apply (Forall2_length _ _ _ HF)|].
  intros i l x Hl Hx. rewrite Hsame by (by apply (list_elem_of_lookup_2 _ i)).
  by apply (Forall2_lookup_lr _ _ _ _ _ _ HF Hl Hx).
Qed.

Lemma Forall2_heap_write {B : Type} (mk : B -> Heap.obj) (h : list Heap.obj)
    (ls : list nat) (xs : list B) k l x' :
  NoDup ls ->
  Forall2 (fun l x => h !! l = Some (mk x)) ls xs ->
  ls !! k = Some l ->
  Forall2 (fun l0 x => <[l:=mk x']> h !! l0 = Some (mk x)) ls (<[k:=x']> xs).
Proof.
  intros Hnd HF Hk. pose proof (Forall2_length _ _ _ HF) as Hlen.
  apply Forall2_same_length_lookup. rewrite length_insert. split; [done|].
  intros i l0 x Hl Hx.
  destruct (decide (i = k)) as [->|Hik].
  - assert (l0 = l) as -> by congruence.
    rewrite list_lookup_insert_eq in Hx
      by (rewrite <- Hlen; by apply lookup_lt_is_Some_1; eexists).
    injection Hx as <-.
    destruct (lookup_lt_is_Some_2 xs k) as [x Hx].
    { rewrite <- Hlen. apply lookup_lt_is_Some_1. by eexists. }
    pose proof (Forall2_lookup_lr _ _ _ _ _ _ HF Hk Hx) as Hh. cbn beta in Hh.
    apply list_lookup_insert_eq. apply lookup_lt_is_Some_1. by eexists.
  - rewrite list_lookup_insert_ne in Hx by done.
    rewrite list_lookup_insert_ne.
    + by apply (Forall2_lookup_lr _ _ _ _ _ _ HF Hl Hx).
    + intros <-. apply Hik. by apply (NoDup_lookup ls i k l).
Qed.


Lemma frame_write h l o : l ∈ locs L -> frame L h (<[l:=o]> h).
Proof.
  intros Hl. split; [apply length_insert|].
  intros l' Hl'. apply list_lookup_insert_ne. by intros ->.
Qed.

Lemma repr_write_vertex h b k l v' :
  repr L h b -> vrefs L !! k = Some l ->
  repr L (<[l:=Heap.OVertex v']> h) (with_board (<[k:=v']> (_board b)) b) /\
  frame L h (<[l:=Heap.OVertex v']> h).
Proof.
  intros (Hr & Hb & Hc & Hk & Hvs & Hcs) Hl.
  destruct (NoDup_locs L HL) as (Hv & _ & _ & _ & _ & _ & _ & _ & Hndv & _).
  assert (l ∈ vrefs L) as Hin by (by apply (list_elem_of_lookup_2 _ k)).
  destruct (Hv l Hin) as (? & ? & ? & ? & Hnc).
  split.
  - unfold repr. cbn. rewrite !list_lookup_insert_ne by done.
    split; [done|]. split; [done|]. split; [done|]. split; [done|]. split.
    + by apply Forall2_heap_write.
    + apply (Forall2_heap_unchanged _ h); [done|].
      intros l' Hl'. apply list_lookup_insert_ne. by intros ->.
  - apply frame_write. unfold locs. rewrite !elem_of_cons, elem_of_app. auto 10.
Qed.

Lemma repr_write_chain h b k l c' :
  repr L h b -> crefs L !! k = Some l ->
  repr L (<[l:=Heap.OChain c']> h) (with_chains (<[k:=c']> (_chains b)) b) /\
  frame L h (<[l:=Heap.OChain c']> h).
Proof.
  intros (Hr & Hb & Hc & Hk & Hvs & Hcs) Hl.
  destruct (NoDup_locs L HL) as (_ & Hv & _ & _ & _ & _ & _ & _ & _ & Hndc).
  assert (l ∈ crefs L) as Hin by (by apply (list_elem_of_lookup_2 _ k)).
  destruct (Hv l Hin) as (? & ? & ? & ? & Hnc).
  split.
  - unfold repr. cbn. rewrite !list_lookup_insert_ne by done.
    split; [done|]. split; [done|]. split; [done|]. split; [done|]. split.
    + apply (Forall2_heap_unchanged _ h); [done|].
      intros l' Hl'. apply list_lookup_insert_ne. by intros ->.
    + by apply Forall2_heap_write.
  - apply frame_write. unfold locs. rewrite !elem_of_cons, elem_of_app. auto 10.
Qed.

Lemma repr_write_captures h b caps :
  repr L h b ->
  repr L (<[lcaptures L:=Heap.OInts caps]> h) (with_last_captures caps b) /\
  frame L h (<[lcaptures L:=Heap.OInts caps]> h).
Proof.
  intros (Hr & Hb & Hc & Hk & Hvs & Hcs).
  destruct (NoDup_locs L HL) as (Hv & Hch & ? & ? & ? & ? & ? & ? & _).
  split.
  - unfold repr. cbn.
    rewrite (list_lookup_insert_ne _ _ (root L)) by done.
    rewrite (list_lookup_insert_ne _ _ (lboard L)) by done.
    rewrite (list_lookup_insert_ne _ _ (lchains L)) by done.
    split; [done|]. split; [done|]. split; [done|]. split.
    { apply list_lookup_insert_eq. apply lookup_lt_is_Some_1. by eexists. }
    split.
    + apply (Forall2_heap_unchanged _ h); [done|].
      intros l' Hl'. apply list_lookup_insert_ne. intros <-. by destruct (Hv _ Hl') as (? & ? & ? & ? & ?).
    + apply (Forall2_heap_unchanged _ h); [done|].
      intros l' Hl'. apply list_lookup_insert_ne. intros <-. by destruct (Hch _ Hl') as (? & ? & ? & ? & ?).
  - apply frame_write. unfold locs. rewrite !elem_of_cons. auto 10.
Qed.

Lemma repr_write_root h b ko z :
  repr L h b ->
  repr L (<[root L:=Heap.OBoard (Heap.mk_board_obj (_board_size b) ko (lboard L) (lchains L)
                                    (lcaptures L) z)]> h)
         (with_zobrist_hash z (with_last_ko_point ko b)) /\
  frame L h (<[root L:=Heap.OBoard (Heap.mk_board_obj (_board_size b) ko (lboard L)
                                      (lchains L) (lcaptures L) z)]> h).
Proof.
  intros (Hr & Hb & Hc & Hk & Hvs & Hcs).
  destruct (NoDup_locs L HL) as (Hv & Hch & ? & ? & ? & ? & ? & ? & _).
  split.
  - unfold repr. cbn.
    split. { apply list_lookup_insert_eq. apply lookup_lt_is_Some_1. by eexists. }
    rewrite !list_lookup_insert_ne by done.
    split; [done|]. split; [done|]. split; [done|]. split.
    + apply (Forall2_heap_unchanged _ h); [done|].
      intros l' Hl'. apply list_lookup_insert_ne. intros <-. by destruct (Hv _ Hl') as (? & ? & ? & ? & ?).
    + apply (Forall2_heap_unchanged _ h); [done|].
      intros l' Hl'. apply list_lookup_insert_ne. intros <-. by destruct (Hch _ Hl') as (? & ? & ? & ? & ?).
  - apply frame_write. unfold locs. rewrite !elem_of_cons. auto 10.
Qed.

Lemma simR_intro {A : Type} (mh : Heap.hm A) (f : GoBoard -> res A) :
  (forall h b, I h -> repr L h b -> mh h = (h, f b)) -> simR I L mh f.
Proof.
  intros H h b Hi Hr. exists h, b. rewrite (H h b Hi Hr).
  split; [by destruct (f b)|]. split; [done|]. split; [apply frame_refl|].
  destruct (f b); cbn; by intros ? ? [= _ <-].
Qed.

Lemma simU_intro (mh : Heap.hm unit) (f : GoBoard -> res GoBoard) :
  (forall h b, repr L h b ->
     exists h', mh h = (h', outcome (b' ← f b; Ok (tt, b'))) /\
       match f b with
       | Ok b' => repr L h' b' /\ frame L h h'
       | _ => h' = h
       end) -> simU I L mh f.
Proof.
  intros H h b Hi Hr. destruct (H h b Hr) as (h' & Eh & H'). cbn beta.
  destruct (f b) as [b'|e|] eqn:E.
  - destruct H' as (Hr' & Hf). exists h', b'. cbn.
    split; [done|]. split; [done|]. split; [done|]. by intros ? ? [= _ <-].
  - subst h'. exists h, b. cbn.
    split; [done|]. split; [done|]. split; [apply frame_refl|done].
  - subst h'. exists h, b. cbn.
    split; [done|]. split; [done|]. split; [apply frame_refl|done].
Qed.

Lemma simR_vertex p : simR I L (Heap.vertex (root L) p) (fun b => vertex b p).
Proof. apply simR_intro. intros h b _ Hr. by apply heap_vertex. Qed.

Lemma simR_chain_at i : simR I L (Heap.chain_at (root L) i) (fun b => getitem (_chains b) i).
Proof. apply simR_intro. intros h b _ Hr. by apply heap_chain_at. Qed.

Lemma simU_update_vertex p f :
  simU I L (Heap.update_vertex (root L) p f) (fun b => update_vertex b p f).
Proof.
  apply simU_intro. intros h b Hr.
  unfold Heap.update_vertex, mbind at 1, Heap.hm_bind. rewrite (heap_vertex_ref L h b p Hr).
  pose proof Hr as (_ & _ & _ & _ & Hvs & _). unfold update_vertex.
  destruct (getitem_Forall2 _ _ _ p Hvs)
    as [(k & l & v & Hk & Hl & Hv & HP & -> & ->)|(_ & -> & ->)].
  - cbn beta in HP. cbn. unfold setitem. rewrite Hk. cbn.
    unfold mbind, Heap.hm_bind, Heap.read_vertex. rewrite HP.
    eexists. split; [reflexivity|]. by apply repr_write_vertex.
  - by exists h.
Qed.

Lemma simU_update_chain_at i f :
  simU I L (Heap.update_chain_at (root L) i f) (fun b => update_chain_at b i f).
Proof.
  apply simU_intro. intros h b Hr.
  unfold Heap.update_chain_at, mbind at 1, Heap.hm_bind. rewrite (heap_chain_ref L h b i Hr).
  pose proof Hr as (_ & _ & _ & _ & _ & Hcs). unfold update_chain_at.
  destruct (getitem_Forall2 _ _ _ i Hcs)
    as [(k & l & v & Hk & Hl & Hv & HP & -> & ->)|(_ & -> & ->)].
  - cbn beta in HP. cbn. unfold setitem. rewrite Hk. cbn.
    unfold mbind, Heap.hm_bind, Heap.read_chain. rewrite HP.
    eexists. split; [reflexivity|]. by apply repr_write_chain.
  - by exists h.
Qed.

Lemma simR_last_captures :
  simR I L (Heap.last_captures (root L)) (fun b => Ok (_last_captures b)).
Proof. apply simR_intro. intros h b _ Hr. by apply heap_last_captures. Qed.

Lemma simU_set_last_capture i x :
  simU I L (Heap.set_last_capture (root L) i x)
    (fun b => caps ← setitem (_last_captures b) i x; Ok (with_last_captures caps b)).
Proof.
  apply simU_intro. intros h b Hr.
  unfold Heap.set_last_capture, mbind at 1, Heap.hm_bind. rewrite (heap_self L h b Hr). cbn.
  pose proof Hr as (_ & _ & _ & Hk & _).
  unfold mbind at 1, Heap.hm_bind, Heap.read_ints. rewrite Hk.
  unfold mbind at 1, Heap.hm_bind, Heap.lift.
  destruct (setitem (_last_captures b) i x) as [caps| |]; cbn; [|by exists h..].
  eexists. split; [reflexivity|]. by apply repr_write_captures.
Qed.

Lemma simU_set_last_ko_point k :
  simU I L (Heap.set_last_ko_point (root L) k) (fun b => Ok (with_last_ko_point k b)).
Proof.
  apply simU_intro. intros h b Hr.
  unfold Heap.set_last_ko_point, mbind, Heap.hm_bind. rewrite (heap_self L h b Hr). cbn.
  eexists. split; [reflexivity|].
  destruct (repr_write_root h b k (_zobrist_hash b) Hr) as (H1 & H2).
  split; [|done]. by destruct b.
Qed.

Lemma simU_set_zobrist_hash z :
  simU I L (Heap.set_zobrist_hash (root L) z) (fun b => Ok (with_zobrist_hash z b)).
Proof.
  apply simU_intro. intros h b Hr.
  unfold Heap.set_zobrist_hash, mbind, Heap.hm_bind. rewrite (heap_self L h b Hr). cbn.
  eexists. split; [reflexivity|].
  destruct (repr_write_root h b (_last_ko_point b) z Hr) as (H1 & H2).
  split; [|done]. by destruct b.
Qed.

Lemma simR_self :
  simR I L (Heap.self (root L))
    (fun b => Ok (Heap.mk_board_obj (_board_size b) (_last_ko_point b) (lboard L) (lchains L)
                    (lcaptures L) (_zobrist_hash b))).
Proof. apply simR_intro. intros h b _ Hr. by apply heap_self. Qed.

(** ** The methods on the heap and on values *)

Lemma simR_point_color p : simR I L (Heap.point_color (root L) p) (fun b => point_color b p).
Proof.
  unfold Heap.point_color, point_color.
  apply simR_bind; [by apply simR_vertex|]. intros v. apply simR_ret.
Qed.

Lemma simR_is_empty p : simR I L (Heap.is_empty (root L) p) (fun b => is_empty b p).
Proof.
  unfold Heap.is_empty, is_empty.
  apply simR_bind; [apply simR_point_color|]. intros v. apply simR_ret.
Qed.

Lemma simR_chain_head p : simR I L (Heap.chain_head (root L) p) (fun b => chain_head b p).
Proof.
  unfold Heap.chain_head, chain_head.
  apply simR_bind; [by apply simR_vertex|]. intros v. apply simR_ret.
Qed.

Lemma simR__chain p : simR I L (Heap._chain (root L) p) (fun b => _chain b p).
Proof.
  unfold Heap._chain, _chain.
  apply simR_bind; [apply simR_chain_head|]. intros h. by apply simR_chain_at.
Qed.

Lemma simU_update_chain p f :
  simU I L (Heap.update_chain (root L) p f) (fun b => update_chain b p f).
Proof.
  unfold Heap.update_chain, update_chain.
  apply simU_bind_R; [apply simR_chain_head|]. intros h. by apply simU_update_chain_at.
Qed.

Lemma simU__init_new_chain p :
  simU I L (Heap._init_new_chain (root L) p) (fun b => _init_new_chain b p).
Proof.
  unfold Heap._init_new_chain, _init_new_chain.
  apply simU_bind_U; [by apply simU_update_vertex|].
  apply simU_bind_U; [by apply simU_update_vertex|].
  apply simU_bind_R; [apply simR_chain_head|]. intros h.
  apply simU_bind_U; [by apply simU_update_chain_at|].
  apply simU_bind_U; [by apply simU_update_chain_at|].
  apply simU_for_each. intros n.
  apply simU_bind_R; [apply simR_is_empty|].
  intros [|]; [by apply simU_update_chain_at|apply simU_ret].
Qed.

Lemma simU__remove_liberty_from_neighbouring_chains p :
  simU I L (Heap._remove_liberty_from_neighbouring_chains (root L) p)
    (fun b => _remove_liberty_from_neighbouring_chains b p).
Proof.
  unfold Heap._remove_liberty_from_neighbouring_chains,
    _remove_liberty_from_neighbouring_chains.
  apply simU_for_each. intros n. apply simU_update_chain.
Qed.

Lemma simU_relabel_loop fuel head n cur :
  simU I L (Heap.relabel_loop fuel (root L) head n cur)
    (fun b => relabel_loop fuel b head n cur).
Proof.
  revert cur. induction fuel as [|fuel IH]; intros cur; [apply (simU_lift Timeout)|].
  cbn [Heap.relabel_loop relabel_loop].
  apply simU_bind_U; [by apply simU_update_vertex|].
  apply simU_bind_R; [by apply simR_vertex|]. intros v. cbn zeta.
  destruct (Vertex.chain_next v =? n); [apply simU_ret|apply IH].
Qed.

Lemma simU__set_stone p c :
  simU I L (Heap._set_stone ZOBRIST (root L) p c) (fun b => _set_stone ZOBRIST b p c).
Proof.
  unfold Heap._set_stone, _set_stone.
  apply (simU_bind_R _ _
    (fun b => if bool_decide (c = EMPTY)
              then pc ← point_color b p; zobrist_value ZOBRIST p pc
              else zobrist_value ZOBRIST p c)
    (fun z b => update_vertex (with_zobrist_hash (Z.lxor (_zobrist_hash b) z) b) p
                  (Vertex.with_color c))).
  { destruct (bool_decide (c = EMPTY)); [|apply simR_lift].
    apply simR_bind; [apply simR_point_color|]. intros pc. apply simR_lift. }
  intros z.
  pure_as (fun b =>
    o ← Ok (Heap.mk_board_obj (_board_size b) (_last_ko_point b) (lboard L) (lchains L)
              (lcaptures L) (_zobrist_hash b));
    b1 ← Ok (with_zobrist_hash (Z.lxor (Heap.o_zobrist_hash o) z) b);
    update_vertex b1 p (Vertex.with_color c)).
  apply simU_bind_R; [apply simR_self|]. intros o.
  apply simU_bind_U; [by apply simU_set_zobrist_hash|by apply simU_update_vertex].
Qed.

Lemma simR_largest_chain p c :
  simR I L (Heap.largest_chain (root L) p c) (fun b => largest_chain b p c).
Proof.
  unfold Heap.largest_chain, largest_chain.
  apply (simR_for_each _ _
    (fun b '(largest_chain_head, largest_chain_size) n =>
       nc ← point_color b n;
       if bool_decide (nc = c) then
         chain ← _chain b n;
         if largest_chain_size <? Chain.num_stones chain then
           h ← chain_head b n; Ok (h, Chain.num_stones chain)
         else Ok (largest_chain_head, largest_chain_size)
       else Ok (largest_chain_head, largest_chain_size))).
  intros [lh ls] n.
  apply simR_bind; [apply simR_point_color|]. intros nc.
  destruct (bool_decide (nc = c)); [|apply simR_ret].
  apply simR_bind; [apply simR__chain|]. intros ch.
  destruct (ls <? Chain.num_stones ch); [|apply simR_ret].
  apply simR_bind; [apply simR_chain_head|]. intros h. apply simR_ret.
Qed.

Lemma simU_join_step lh c n :
  simU I L (Heap.join_step (root L) lh c n) (fun b => join_step lh c b n).
Proof.
  unfold Heap.join_step, join_step.
  apply simU_bind_R; [apply simR_point_color|]. intros nc.
  destruct (bool_decide (nc = c)); [|apply simU_ret].
  apply simU_bind_R; [apply simR_chain_head|]. intros h.
  destruct (bool_decide (h <> lh)); [|apply simU_ret].
  apply simU_bind_R; [apply simR__chain|]. intros other.
  apply simU_bind_U; [apply simU_update_chain|].
  apply simU_bind_U; [apply simU_relabel_loop|].
  apply simU_bind_R; [by apply simR_vertex|]. intros vn.
  apply simU_bind_R; [by apply simR_vertex|]. intros vl.
  apply simU_bind_U; by apply simU_update_vertex.
Qed.

Lemma simU_join_insert lh p :
  simU I L (Heap.join_insert (root L) lh p) (fun b => join_insert lh b p).
Proof.
  unfold Heap.join_insert, join_insert.
  apply simU_bind_R; [by apply simR_vertex|]. intros vl.
  apply simU_bind_U; [by apply simU_update_vertex|].
  apply simU_bind_U; [by apply simU_update_vertex|].
  apply simU_bind_U; [by apply simU_update_vertex|].
  apply simU_bind_U; [apply simU_update_chain|].
  apply simU_for_each. intros n.
  apply simU_bind_R; [apply simR_is_empty|].
  intros [|]; [apply simU_update_chain|apply simU_ret].
Qed.

Lemma simU__join_chains_around p c :
  simU I L (Heap._join_chains_around (root L) p c) (fun b => _join_chains_around b p c).
Proof.
  unfold Heap._join_chains_around, _join_chains_around.
  apply (simU_bind_R _ _ (fun b => largest_chain b p c)
    (fun x b =>
       let '(largest_chain_head, largest_chain_size) := x in
       if largest_chain_size =? 0 then _init_new_chain b p else
       b ← for_each (neighbours p) (join_step largest_chain_head c) b;
       join_insert largest_chain_head b p) (simR_largest_chain p c)).
  intros [lh ls]. destruct (ls =? 0); [apply simU__init_new_chain|].
  apply simU_bind_U; [|apply simU_join_insert].
  apply simU_for_each. intros n. apply simU_join_step.
Qed.

Lemma sim_remove_step tch cur :
  sim I L (Heap.remove_step ZOBRIST (root L) tch cur)
    (fun b => remove_step ZOBRIST b tch cur).
Proof.
  unfold Heap.remove_step, remove_step.
  apply sim_bind_R; [by apply simR_vertex|]. intros v. cbn zeta.
  apply sim_bind_U; [apply simU__set_stone|].
  apply sim_bind_U; [apply simU__init_new_chain|].
  apply sim_bind_U; [|apply sim_ret].
  apply simU_for_each. intros n.
  apply simU_bind_R; [apply simR_chain_head|]. intros h.
  apply (simU_bind_R _ _
    (fun b => if bool_decide (h <> tch) then Ok true else is_empty b n)
    (fun (grant : bool) b =>
       if grant then update_chain b n (Chain.add_liberty cur) else Ok b)).
  { destruct (bool_decide (h <> tch)); [apply simR_ret|apply simR_is_empty]. }
  intros [|]; [apply simU_update_chain|apply simU_ret].
Qed.

Lemma simU_remove_loop fuel tch p cur :
  simU I L (Heap.remove_loop ZOBRIST fuel (root L) tch p cur)
    (fun b => remove_loop ZOBRIST fuel b tch p cur).
Proof.
  revert cur. induction fuel as [|fuel IH]; intros cur; [apply (simU_lift Timeout)|].
  cbn [Heap.remove_loop remove_loop].
  apply (simU_bind _ _ (fun b => remove_step ZOBRIST b tch cur)
    (fun cur b => if cur =? p then Ok b else remove_loop ZOBRIST fuel b tch p cur)
    (sim_remove_step tch cur)).
  intros cur'. destruct (cur' =? p); [apply simU_ret|apply IH].
Qed.

Lemma simU__remove_chain p :
  simU I L (Heap._remove_chain ZOBRIST (root L) p) (fun b => _remove_chain ZOBRIST b p).
Proof.
  unfold Heap._remove_chain, _remove_chain.
  apply simU_bind_R; [apply simR_chain_head|]. intros h. apply simU_remove_loop.
Qed.

Lemma sim__capture_dead_chains p c :
  sim I L (Heap._capture_dead_chains ZOBRIST (root L) p c)
    (fun b => _capture_dead_chains ZOBRIST b p c).
Proof.
  unfold Heap._capture_dead_chains, _capture_dead_chains.
  apply (sim_bind _ _
    (fun b => for_each (neighbours p) (fun '(stones_captured, capture_index, b) n =>
      nc ← point_color b n;
      if bool_decide (nc = opponent c) then
        ch ← _chain b n;
        if Chain.num_pseudo_liberties ch =? 0 then
          h ← chain_head b n;
          caps ← setitem (_last_captures b) capture_index h;
          let b := with_last_captures caps b in
          ch ← _chain b n;
          b ← _remove_chain ZOBRIST b n;
          Ok (stones_captured + Chain.num_stones ch, capture_index + 1, b)
        else Ok (stones_captured, capture_index, b)
      else Ok (stones_captured, capture_index, b)) (0, 0, b))
    (fun x b =>
      let '(stones_captured, capture_index) := x in
      b ← for_each
        (drop (Z.to_nat capture_index) (range (Z.of_nat (length (_last_captures b)))))
        (fun b i => caps ← setitem (_last_captures b) i INVALID_POINT;
                    Ok (with_last_captures caps b)) b;
      Ok (stones_captured, b))).
  - apply (sim_for_each _ _ _ (0, 0)). intros [sc ci] n.
    apply sim_bind_R; [apply simR_point_color|]. intros nc.
    destruct (bool_decide (nc = opponent c)); [|apply sim_ret].
    apply sim_bind_R; [apply simR__chain|]. intros ch.
    destruct (Chain.num_pseudo_liberties ch =? 0); [|apply sim_ret].
    apply sim_bind_R; [apply simR_chain_head|]. intros h.
    eapply sim_ext;
      [|apply (sim_bind_U _ _
          (fun b => caps ← setitem (_last_captures b) ci h; Ok (with_last_captures caps b))
          (fun b => ch ← _chain b n; b ← _remove_chain ZOBRIST b n;
                    Ok (sc + Chain.num_stones ch, ci + 1, b)))].
    + intros b. cbn. by destruct (setitem (_last_captures b) ci h).
    + by apply simU_set_last_capture.
    + apply sim_bind_R; [apply simR__chain|]. intros ch'.
      apply sim_bind_U; [apply simU__remove_chain|]. apply sim_ret.
  - intros [sc ci].
    pure_as (fun b =>
      caps ← Ok (_last_captures b);
      b ← for_each (drop (Z.to_nat ci) (range (Z.of_nat (length caps))))
            (fun b i => caps ← setitem (_last_captures b) i INVALID_POINT;
                        Ok (with_last_captures caps b)) b;
      Ok (sc, b)).
    apply sim_bind_R; [apply simR_last_captures|].
    intros caps. apply sim_bind_U; [|apply sim_ret].
    apply simU_for_each. intros i. by apply simU_set_last_capture.
Qed.

Lemma simU_play p c :
  simU I L (Heap.play ZOBRIST (root L) p c) (fun b => play ZOBRIST b p c).
Proof.
  unfold Heap.play, play.
  destruct (p =? PASS); [by apply simU_set_last_ko_point|].
  apply simU_bind_R; [by apply simR_vertex|]. intros v.
  apply (simU_bind_R _ _ (fun _ => assert (bool_decide (Vertex.color v = EMPTY))));
    [apply simR_lift|]. intros _.
  apply (simU_bind_R _ _
    (fun b => any_of (neighbours p) (fun n =>
       nc ← point_color b n; Ok (bool_decide (nc = c) || bool_decide (nc = EMPTY))))).
  { apply (simR_any_of _ _ (fun b n =>
       nc ← point_color b n; Ok (bool_decide (nc = c) || bool_decide (nc = EMPTY)))).
    intros n. apply simR_bind; [apply simR_point_color|]. intros nc. apply simR_ret. }
  intros not_eye. cbn zeta.
  apply simU_bind_U; [apply simU__join_chains_around|].
  apply simU_bind_U; [apply simU__set_stone|].
  apply simU_bind_U; [apply simU__remove_liberty_from_neighbouring_chains|].
  apply (simU_bind _ _ (fun b => _capture_dead_chains ZOBRIST b p c)
    (fun stones_captured b =>
       b ← (if negb not_eye && (stones_captured =? 1)
            then k ← getitem (_last_captures b) 0; Ok (with_last_ko_point k b)
            else Ok (with_last_ko_point INVALID_POINT b));
       ch ← _chain b p;
       _ ← assert (0 <? Chain.num_pseudo_liberties ch);
       Ok b) (sim__capture_dead_chains p c)).
  intros sc.
  apply (simU_bind_U _ _
    (fun b => if negb not_eye && (sc =? 1)
              then k ← getitem (_last_captures b) 0; Ok (with_last_ko_point k b)
              else Ok (with_last_ko_point INVALID_POINT b))
    (fun b => ch ← _chain b p; _ ← assert (0 <? Chain.num_pseudo_liberties ch); Ok b)).
  - destruct (negb not_eye && (sc =? 1)); [|by apply simU_set_last_ko_point].
    pure_as (fun b =>
      caps ← Ok (_last_captures b); k ← getitem caps 0; Ok (with_last_ko_point k b)).
    apply simU_bind_R; [apply simR_last_captures|].
    intros caps.
    apply (simU_bind_R _ _ (fun _ => getitem caps 0)
      (fun k b => Ok (with_last_ko_point k b))); [apply simR_lift|].
    intros k. by apply simU_set_last_ko_point.
  - apply simU_bind_R; [apply simR__chain|]. intros ch. apply simU_lift.
Qed.

(** ** What [clone] does to the values *)

(** One pass of its first loop: the three attributes of the vertex [i] and
    the four of the chain [i] go from [b] to the copy [o], one at a time. *)
Definition copy_point (b o : GoBoard) (i : Z) : res GoBoard :=
  v ← vertex b i;
  o ← update_vertex o i (Vertex.with_chain_head (Vertex.chain_head v));
  v ← vertex b i;
  o ← update_vertex o i (Vertex.with_chain_next (Vertex.chain_next v));
  v ← vertex b i;
  o ← update_vertex o i (Vertex.with_color (Vertex.color v));
  c ← getitem (_chains b) i;
  o ← update_chain_at o i
        (fun x => Chain.mk (Chain.num_stones c) (Chain.num_pseudo_liberties x)
                    (Chain.liberty_vertex_sum x) (Chain.liberty_vertex_sum_squared x));
  c ← getitem (_chains b) i;
  o ← update_chain_at o i
        (fun x => Chain.mk (Chain.num_stones x) (Chain.num_pseudo_liberties c)
                    (Chain.liberty_vertex_sum x) (Chain.liberty_vertex_sum_squared x));
  c ← getitem (_chains b) i;
  o ← update_chain_at o i
        (fun x => Chain.mk (Chain.num_stones x) (Chain.num_pseudo_liberties x)
                    (Chain.liberty_vertex_sum c) (Chain.liberty_vertex_sum_squared x));
  c ← getitem (_chains b) i;
  update_chain_at o i
        (fun x => Chain.mk (Chain.num_stones x) (Chain.num_pseudo_liberties x)
                    (Chain.liberty_vertex_sum x) (Chain.liberty_vertex_sum_squared c)).

Definition copy_capture (b o : GoBoard) (i : Z) : res GoBoard :=
  x ← getitem (_last_captures b) i;
  caps ← setitem (_last_captures o) i x;
  Ok (with_last_captures caps o).

Definition copy_fields (b o : GoBoard) : res GoBoard :=
  let o := with_last_ko_point (_last_ko_point b) o in
  o ← for_each (range VIRTUAL_BOARD_POINTS) (copy_point b) o;
  o ← for_each (range (Z.of_nat (length (_last_captures b)))) (copy_capture b) o;
  Ok (with_zobrist_hash (_zobrist_hash b) o).

Definition clone (b : GoBoard) : res GoBoard :=
  o ← GoBoard__init__ (_board_size b);
  copy_fields b o.

Lemma getitem_lookup {A : Type} (l : list A) (k : nat) (x : A) :
  l !! k = Some x -> getitem l (Z.of_nat k) = Ok x.
Proof.
  intros Hk. unfold getitem. rewrite py_index_on_grid.
  - by rewrite Nat2Z.id, Hk.
  - apply lookup_lt_Some in Hk. lia.
Qed.

Lemma setitem_lookup {A : Type} (l : list A) (k : nat) (x : A) :
  (k < length l)%nat -> setitem l (Z.of_nat k) x = Ok (<[k:=x]> l).
Proof.
  intros Hk. unfold setitem. rewrite py_index_on_grid by lia. by rewrite Nat2Z.id.
Qed.

Lemma range_S (n : nat) : range (Z.of_nat (S n)) = range (Z.of_nat n) ++ [Z.of_nat n].
Proof.
  unfold range. rewrite !Nat2Z.id, seq_S, fmap_app. done.
Qed.

Lemma insert_take_drop {A : Type} (src dst : list A) (n : nat) (x : A) :
  src !! n = Some x -> (n < length dst)%nat ->
  <[n:=x]> (take n src ++ drop n dst) = take (S n) src ++ drop (S n) dst.
Proof.
  intros Hs Hd. pose proof (lookup_lt_Some _ _ _ Hs) as Hn.
  destruct (lookup_lt_is_Some_2 dst n Hd) as [d Hdn].
  rewrite insert_app_r_alt by (rewrite length_take; lia).
  rewrite length_take, Nat.min_l, Nat.sub_diag by lia.
  rewrite (drop_S _ _ _ Hdn). cbn. rewrite (take_S_r _ _ _ Hs).
  by rewrite <- app_assoc.
Qed.

(** The copy when the first [n] points have been gone through. *)
Definition copied (n : nat) (b o : GoBoard) : GoBoard :=
  with_chains (take n (_chains b) ++ drop n (_chains o))
    (with_board (take n (_board b) ++ drop n (_board o)) o).

Lemma update_vertex_lookup o (k : nat) v0 f :
  _board o !! k = Some v0 ->
  update_vertex o (Z.of_nat k) f = Ok (with_board (<[k:=f v0]> (_board o)) o).
Proof.
  intros Hk. unfold update_vertex. rewrite (getitem_lookup _ _ _ Hk). cbn.
  rewrite setitem_lookup by (by apply lookup_lt_Some in Hk). done.
Qed.

Lemma update_chain_at_lookup o (k : nat) c0 f :
  _chains o !! k = Some c0 ->
  update_chain_at o (Z.of_nat k) f = Ok (with_chains (<[k:=f c0]> (_chains o)) o).
Proof.
  intros Hk. unfold update_chain_at. rewrite (getitem_lookup _ _ _ Hk). cbn.
  rewrite setitem_lookup by (by apply lookup_lt_Some in Hk). done.
Qed.

Lemma copy_point_spec b o (k : nat) v c :
  _board b !! k = Some v -> _chains b !! k = Some c ->
  (k < length (_board o))%nat -> (k < length (_chains o))%nat ->
  copy_point b o (Z.of_nat k) =
    Ok (with_chains (<[k:=c]> (_chains o)) (with_board (<[k:=v]> (_board o)) o)).
Proof.
  intros Hv Hc Hbo Hco.
  destruct (lookup_lt_is_Some_2 _ _ Hbo) as [v0 Hv0].
  destruct (lookup_lt_is_Some_2 _ _ Hco) as [c0 Hc0].
  unfold copy_point, vertex.
  rewrite (getitem_lookup _ _ _ Hv), (getitem_lookup _ _ _ Hc). ok.
  rewrite (update_vertex_lookup _ _ _ _ Hv0). ok.
  erewrite update_vertex_lookup by (cbn; by apply list_lookup_insert_eq). ok.
  erewrite update_vertex_lookup by (cbn; apply list_lookup_insert_eq;
    by rewrite length_insert). ok.
  erewrite update_chain_at_lookup by (cbn; exact Hc0). ok.
  erewrite update_chain_at_lookup by (cbn; by apply list_lookup_insert_eq). ok.
  erewrite update_chain_at_lookup by (cbn; apply list_lookup_insert_eq;
    by rewrite length_insert). ok.
  erewrite update_chain_at_lookup by (cbn; apply list_lookup_insert_eq;
    by rewrite !length_insert).
  f_equal. unfold with_chains, with_board. cbn.
  rewrite !list_insert_insert_eq. by destruct v, c.
Qed.

Lemma for_each_copy_point b o (n : nat) :
  length (_board o) = length (_board b) -> length (_chains o) = length (_chains b) ->
  (n <= length (_board b))%nat -> (n <= length (_chains b))%nat ->
  for_each (range (Z.of_nat n)) (copy_point b) o = Ok (copied n b o).
Proof.
  intros Hlb Hlc. induction n as [|n IH]; intros Hnb Hnc.
  - cbn. unfold copied. cbn. by destruct o.
  - rewrite range_S, for_each_app, IH by lia. cbn.
    destruct (lookup_lt_is_Some_2 (_board b) n ltac:(lia)) as [v Hv].
    destruct (lookup_lt_is_Some_2 (_chains b) n ltac:(lia)) as [c Hc].
    rewrite (copy_point_spec _ _ _ v c Hv Hc).
    + unfold copied. cbn. unfold with_chains, with_board. cbn.
      by rewrite !insert_take_drop by (done || lia).
    + unfold copied. cbn. rewrite length_app, length_take, length_drop. lia.
    + unfold copied. cbn. rewrite length_app, length_take, length_drop. lia.
Qed.

Lemma for_each_copy_capture b o (n : nat) :
  length (_last_captures o) = length (_last_captures b) ->
  (n <= length (_last_captures b))%nat ->
  for_each (range (Z.of_nat n)) (copy_capture b) o =
    Ok (with_last_captures (take n (_last_captures b) ++ drop n (_last_captures o)) o).
Proof.
  intros Hl. induction n as [|n IH]; intros Hn.
  - cbn. by destruct o.
  - rewrite range_S, for_each_app, IH by lia. cbn.
    destruct (lookup_lt_is_Some_2 (_last_captures b) n ltac:(lia)) as [x Hx].
    unfold copy_capture. rewrite (getitem_lookup _ _ _ Hx). cbn.
    rewrite setitem_lookup by (rewrite length_app, length_take, length_drop; lia).
    cbn. unfold with_last_captures. cbn.
    by rewrite insert_take_drop by (done || lia).
Qed.

(** On values [clone] is the identity: every attribute of the copy is the
    attribute of the board. *)
Lemma clone_value b :
  shaped b -> _board_size b <= 19 -> clone b = Ok b.
Proof.
  intros (Hb & Hc & Hk) Hs. unfold clone.
  destruct (GoBoard__init__spec (_board_size b) Hs) as (o & -> & Hi & _ & Hso & _).
  pose proof (base_shaped o (inv_base o Hi)) as (Hob & Hoc & Hok).
  cbn. unfold copy_fields. cbn zeta.
  change (range VIRTUAL_BOARD_POINTS) with (range (Z.of_nat 441)).
  rewrite for_each_copy_point
    by (cbn; rewrite ?Hb, ?Hc, ?Hob, ?Hoc; unfold NPOINTS; lia).
  cbn. rewrite for_each_copy_capture by (cbn; rewrite ?Hk, ?Hok; lia).
  cbn. unfold copied, with_zobrist_hash, with_last_captures, with_chains, with_board,
    with_last_ko_point. cbn.
  rewrite !take_ge, !drop_ge, !app_nil_r
    by (rewrite ?Hb, ?Hc, ?Hk, ?Hob, ?Hoc, ?Hok; unfold NPOINTS; lia).
  rewrite Hso. by destruct b.
Qed.
(** The loops of the constructor. *)
Lemma sim_init_loops (board_size : Z) :
  sim I L
    (_ ← Heap.for_each (board_points board_size) (fun _ p =>
           _ ← Heap.update_vertex (root L) p (Vertex.with_color EMPTY);
           Heap.update_chain_at (root L) p Chain.reset) tt;
     _ ← Heap.for_each (board_points board_size) (fun _ p =>
           Heap.for_each (neighbours p) (fun _ n =>
             e ← Heap.is_empty (root L) n;
             if (e : bool) then Heap.update_chain_at (root L) p (Chain.add_liberty n)
             else mret tt) tt) tt;
     _ ← Heap.set_zobrist_hash (root L) 0;
     mret (root L))
    (fun b =>
       b ← for_each (board_points board_size) (fun b p =>
             b ← update_vertex b p (Vertex.with_color EMPTY);
             update_chain_at b p Chain.reset) b;
       b ← for_each (board_points board_size) (fun b p =>
             for_each (neighbours p) (fun b n =>
               e ← is_empty b n;
               if (e : bool) then update_chain_at b p (Chain.add_liberty n) else Ok b) b) b;
       b ← Ok (with_zobrist_hash 0 b);
       Ok (root L, b)).
Proof.
  apply sim_bind_U.
  { apply simU_for_each. intros p.
    apply simU_bind_U; [apply simU_update_vertex|apply simU_update_chain_at]. }
  apply sim_bind_U.
  { apply simU_for_each. intros p. apply simU_for_each. intros n.
    apply simU_bind_R; [apply simR_is_empty|].
    intros [|]; [apply simU_update_chain_at|apply simU_ret]. }
  apply sim_bind_U; [apply simU_set_zobrist_hash|apply sim_ret].
Qed.

(** *** Copying from a second board *)

Section Copy.
Variable Ls : layout.
Variable bs : GoBoard.
Hypothesis I_source : forall h, I h -> repr Ls h bs.

Lemma simR_source {A : Type} (mh : Heap.hm A) (x : res A) :
  (forall h, repr Ls h bs -> mh h = (h, x)) -> simR I L mh (fun _ => x).
Proof.
  intros H. apply simR_intro. intros h b Hi _. apply H. by apply I_source.
Qed.

Lemma simU_copy_point other_is_L i :
  other_is_L = root L ->
  simU I L
    (v ← Heap.vertex (root Ls) i;
     _ ← Heap.update_vertex other_is_L i (Vertex.with_chain_head (Vertex.chain_head v));
     v ← Heap.vertex (root Ls) i;
     _ ← Heap.update_vertex other_is_L i (Vertex.with_chain_next (Vertex.chain_next v));
     v ← Heap.vertex (root Ls) i;
     _ ← Heap.update_vertex other_is_L i (Vertex.with_color (Vertex.color v));
     c ← Heap.chain_at (root Ls) i;
     _ ← Heap.update_chain_at other_is_L i
           (fun x => Chain.mk (Chain.num_stones c) (Chain.num_pseudo_liberties x)
                       (Chain.liberty_vertex_sum x) (Chain.liberty_vertex_sum_squared x));
     c ← Heap.chain_at (root Ls) i;
     _ ← Heap.update_chain_at other_is_L i
           (fun x => Chain.mk (Chain.num_stones x) (Chain.num_pseudo_liberties c)
                       (Chain.liberty_vertex_sum x) (Chain.liberty_vertex_sum_squared x));
     c ← Heap.chain_at (root Ls) i;
     _ ← Heap.update_chain_at other_is_L i
           (fun x => Chain.mk (Chain.num_stones x) (Chain.num_pseudo_liberties x)
                       (Chain.liberty_vertex_sum c) (Chain.liberty_vertex_sum_squared x));
     c ← Heap.chain_at (root Ls) i;
     Heap.update_chain_at other_is_L i
           (fun x => Chain.mk (Chain.num_stones x) (Chain.num_pseudo_liberties x)
                       (Chain.liberty_vertex_sum x) (Chain.liberty_vertex_sum_squared c)))
    (fun o => copy_point bs o i).
Proof.
  intros ->. unfold copy_point.
  assert (simR I L (Heap.vertex (root Ls) i) (fun _ => vertex bs i)) as Hv
    by (apply simR_source; intros h Hr; by apply heap_vertex).
  assert (simR I L (Heap.chain_at (root Ls) i) (fun _ => getitem (_chains bs) i)) as Hc
    by (apply simR_source; intros h Hr; by apply heap_chain_at).
  apply simU_bind_R; [exact Hv|]. intros v1.
  apply simU_bind_U; [apply simU_update_vertex|].
  apply simU_bind_R; [exact Hv|]. intros v2.
  apply simU_bind_U; [apply simU_update_vertex|].
  apply simU_bind_R; [exact Hv|]. intros v3.
  apply simU_bind_U; [apply simU_update_vertex|].
  apply simU_bind_R; [exact Hc|]. intros c1.
  apply simU_bind_U; [apply simU_update_chain_at|].
  apply simU_bind_R; [exact Hc|]. intros c2.
  apply simU_bind_U; [apply simU_update_chain_at|].
  apply simU_bind_R; [exact Hc|]. intros c3.
  apply simU_bind_U; [apply simU_update_chain_at|].
  apply simU_bind_R; [exact Hc|]. intros c4.
  apply simU_update_chain_at.
Qed.

(** What [clone] does once the new board has been made. *)
Lemma sim_copy_fields :
  sim I L
    (o ← Heap.self (root Ls);
     _ ← Heap.set_last_ko_point (root L) (Heap.o_last_ko_point o);
     _ ← Heap.for_each (range VIRTUAL_BOARD_POINTS) (fun _ i =>
        v ← Heap.vertex (root Ls) i;
        _ ← Heap.update_vertex (root L) i (Vertex.with_chain_head (Vertex.chain_head v));
        v ← Heap.vertex (root Ls) i;
        _ ← Heap.update_vertex (root L) i (Vertex.with_chain_next (Vertex.chain_next v));
        v ← Heap.vertex (root Ls) i;
        _ ← Heap.update_vertex (root L) i (Vertex.with_color (Vertex.color v));
        c ← Heap.chain_at (root Ls) i;
        _ ← Heap.update_chain_at (root L) i
              (fun x => Chain.mk (Chain.num_stones c) (Chain.num_pseudo_liberties x)
                          (Chain.liberty_vertex_sum x) (Chain.liberty_vertex_sum_squared x));
        c ← Heap.chain_at (root Ls) i;
        _ ← Heap.update_chain_at (root L) i
              (fun x => Chain.mk (Chain.num_stones x) (Chain.num_pseudo_liberties c)
                          (Chain.liberty_vertex_sum x) (Chain.liberty_vertex_sum_squared x));
        c ← Heap.chain_at (root Ls) i;
        _ ← Heap.update_chain_at (root L) i
              (fun x => Chain.mk (Chain.num_stones x) (Chain.num_pseudo_liberties x)
                          (Chain.liberty_vertex_sum c) (Chain.liberty_vertex_sum_squared x));
        c ← Heap.chain_at (root Ls) i;
        Heap.update_chain_at (root L) i
              (fun x => Chain.mk (Chain.num_stones x) (Chain.num_pseudo_liberties x)
                          (Chain.liberty_vertex_sum x) (Chain.liberty_vertex_sum_squared c))) tt;
     caps ← Heap.last_captures (root Ls);
     _ ← Heap.for_each (range (Z.of_nat (length caps))) (fun _ i =>
        caps ← Heap.last_captures (root Ls);
        x ← Heap.lift (getitem caps i);
        Heap.set_last_capture (root L) i x) tt;
     o ← Heap.self (root Ls);
     _ ← Heap.set_zobrist_hash (root L) (Heap.o_zobrist_hash o);
     mret (root L))
    (fun o => o' ← copy_fields bs o; Ok (root L, o')).
Proof.
  assert (simR I L (Heap.self (root Ls))
            (fun _ => Ok (Heap.mk_board_obj (_board_size bs) (_last_ko_point bs)
                            (lboard Ls) (lchains Ls) (lcaptures Ls) (_zobrist_hash bs))))
    as Hself by (apply simR_source; intros h Hr; by apply heap_self).
  assert (simR I L (Heap.last_captures (root Ls)) (fun _ => Ok (_last_captures bs)))
    as Hcaps by (apply simR_source; intros h Hr; by apply heap_last_captures).
  eapply sim_ext; [|apply (sim_bind_R _ _ _
    (fun ob o =>
       o ← Ok (with_last_ko_point (Heap.o_last_ko_point ob) o);
       o ← for_each (range VIRTUAL_BOARD_POINTS) (copy_point bs) o;
       caps ← Ok (_last_captures bs);
       o ← for_each (range (Z.of_nat (length caps))) (copy_capture bs) o;
       ob' ← Ok (Heap.mk_board_obj (_board_size bs) (_last_ko_point bs)
                   (lboard Ls) (lchains Ls) (lcaptures Ls) (_zobrist_hash bs));
       o ← Ok (with_zobrist_hash (Heap.o_zobrist_hash ob') o);
       Ok (root L, o)) Hself)].
  { intros o. unfold copy_fields. cbn.
    destruct (for_each (range VIRTUAL_BOARD_POINTS) (copy_point bs) _); [|done..]. cbn.
    by destruct (for_each _ (copy_capture bs) _). }
  intros ob.
  apply sim_bind_U; [apply simU_set_last_ko_point|].
  apply sim_bind_U.
  { apply simU_for_each. intros i. by apply simU_copy_point. }
  apply sim_bind_R; [exact Hcaps|]. intros caps.
  apply sim_bind_U.
  { apply simU_for_each. intros i. unfold copy_capture.
    pure_as (fun o => caps ← Ok (_last_captures bs); x ← getitem caps i;
                      caps' ← setitem (_last_captures o) i x;
                      Ok (with_last_captures caps' o)).
    apply simU_bind_R; [exact Hcaps|]. intros caps'.
    apply (simU_bind_R _ _ (fun _ => getitem caps' i)); [apply simR_lift|].
    intros x. apply simU_set_last_capture. }
  apply sim_bind_R; [exact Hself|]. intros ob'.
  apply sim_bind_U; [apply simU_set_zobrist_hash|apply sim_ret].
Qed.

End Copy.

End Sim.
(** ** Making and cloning boards *)

Lemma repr_unchanged L h h' b :
  repr L h b -> (forall l, l ∈ locs L -> h' !! l = h !! l) -> repr L h' b.
Proof.
  intros (Hr & Hb & Hc & Hk & Hvs & Hcs) Hsame. unfold repr.
  rewrite !Hsame by (unfold locs; rewrite !elem_of_cons; auto 10).
  split; [done|]. split; [done|]. split; [done|]. split; [done|]. split.
  - apply (Forall2_heap_unchanged _ h); [done|]. intros l Hl. apply Hsame.
    unfold locs. rewrite !elem_of_cons, elem_of_app. auto 10.
  - apply (Forall2_heap_unchanged _ h); [done|]. intros l Hl. apply Hsame.
    unfold locs. rewrite !elem_of_cons, elem_of_app. auto 10.
Qed.

Lemma repr_lt L h b l : repr L h b -> l ∈ locs L -> (l < length h)%nat.
Proof.
  intros (Hr & Hb & Hc & Hk & Hvs & Hcs). unfold locs.
  rewrite !elem_of_cons, elem_of_app.
  intros [->|[->|[->|[->|[Hl|Hl]]]]]; try (by eapply lookup_lt_Some).
  - apply list_elem_of_lookup_1 in Hl as (i & Hi).
    destruct (Forall2_lookup_l _ _ _ _ _ Hvs Hi) as (v & _ & Hv).
    by eapply lookup_lt_Some.
  - apply list_elem_of_lookup_1 in Hl as (i & Hi).
    destruct (Forall2_lookup_l _ _ _ _ _ Hcs Hi) as (v & _ & Hv).
    by eapply lookup_lt_Some.
Qed.

(** A method run on one board leaves a board elsewhere in the heap as it
    is. *)
Lemma repr_frame L L2 h h' b2 :
  frame L h h' -> repr L2 h b2 -> (forall l, l ∈ locs L2 -> l ∉ locs L) -> repr L2 h' b2.
Proof.
  intros (_ & Hf) Hr Hd. apply (repr_unchanged _ h); [done|].
  intros l Hl. apply Hf. by apply Hd.
Qed.

Lemma hbind_Ok {A B : Type} (m : Heap.hm A) (k : A -> Heap.hm B) h h' x :
  m h = (h', Ok x) -> (m ≫= k) h = k x h'.
Proof. intros E. unfold mbind, Heap.hm_bind. by rewrite E. Qed.

Lemma alloc_each_spec {A : Type} (l : list A) (make : A -> Heap.obj) h :
  Heap.alloc_each l make h = (h ++ (make <$> l), Ok (seq (length h) (length l))).
Proof.
  revert h. induction l as [|x l IH]; intros h; cbn.
  - by rewrite app_nil_r.
  - unfold mbind, Heap.hm_bind, Heap.alloc. rewrite IH. cbn.
    rewrite length_app, Nat.add_1_r, <- app_assoc. done.
Qed.

Lemma Forall2_alloc {A B : Type} (mk : B -> Heap.obj) (f : A -> B) (l : list A)
    (h k : list Heap.obj) :
  Forall2 (fun loc x => ((h ++ ((fun a => mk (f a)) <$> l)) ++ k) !! loc = Some (mk x))
    (seq (length h) (length l)) (f <$> l).
Proof.
  apply Forall2_same_length_lookup. split; [by rewrite length_seq, length_fmap|].
  intros i loc x Hl Hx. apply lookup_seq in Hl as (-> & Hi).
  rewrite lookup_app_l by (rewrite length_app, length_fmap; lia).
  rewrite lookup_app_r by lia. replace (length h + i - length h)%nat with i by lia.
  rewrite list_lookup_fmap in Hx. rewrite list_lookup_fmap.
  destruct (l !! i); [|done]. cbn in *. by injection Hx as <-.
Qed.

(** The constructor returns a board of new objects that holds what
    [GoBoard__init__] computes, and touches nothing that was there. *)
Lemma heap_init size h :
  size <= 19 ->
  exists h' L' b',
    Heap.__init__ size h = (h', Ok (root L')) /\ GoBoard__init__ size = Ok b' /\
    NoDup (locs L') /\ repr L' h' b' /\
    (forall l, l ∈ locs L' -> (length h <= l)%nat) /\
    (forall l, (l < length h)%nat -> h' !! l = h !! l).
Proof.
  intros Hs. destruct (GoBoard__init__spec size Hs) as (b' & Eb & _).
  set (n := length (range VIRTUAL_BOARD_POINTS)).
  assert (n = 441%nat) as Hn by (unfold n; by rewrite length_range).
  set (vr := seq (length h) n).
  set (h1 := h ++ ((fun i => Heap.OVertex (Vertex.mk i i GUARD)) <$> range VIRTUAL_BOARD_POINTS)).
  set (h2 := h1 ++ [Heap.ORefs vr]).
  set (cr := seq (length h2) n).
  set (h3 := h2 ++ ((fun _ : Z => Heap.OChain Chain.new) <$> range VIRTUAL_BOARD_POINTS)).
  set (h4 := h3 ++ [Heap.ORefs cr]).
  set (h5 := h4 ++ [Heap.OInts ((fun _ : Z => INVALID_POINT) <$> range 4)]).
  set (h6 := h5 ++ [Heap.OBoard (Heap.mk_board_obj size INVALID_POINT (length h1)
                                   (length h3) (length h4) 0)]).
  set (L' := mk_layout (length h5) (length h1) (length h3) (length h4) vr cr).
  assert (length h1 = length h + 441)%nat as Hl1
    by (unfold h1; rewrite length_app, length_fmap; fold n; lia).
  assert (length h2 = length h + 442)%nat as Hl2
    by (unfold h2; rewrite length_app; cbn; lia).
  assert (length h3 = length h + 883)%nat as Hl3
    by (unfold h3; rewrite length_app, length_fmap; fold n; lia).
  assert (length h4 = length h + 884)%nat as Hl4
    by (unfold h4; rewrite length_app; cbn; lia).
  assert (length h5 = length h + 885)%nat as Hl5
    by (unfold h5; rewrite length_app; cbn; lia).
  assert (forall l, l ∈ locs L' -> (length h <= l)%nat) as Hge.
  { intros l. unfold locs, L'. cbn. rewrite !elem_of_cons, elem_of_app.
    unfold vr, cr. rewrite !elem_of_seq. lia. }
  assert (NoDup (locs L')) as HL'.
  { unfold locs, L'. cbn. rewrite !NoDup_cons, !not_elem_of_cons, !not_elem_of_app.
    unfold vr, cr. rewrite !elem_of_seq. rewrite NoDup_app.
    repeat split; try lia; try apply NoDup_seq.
    intros x. rewrite !elem_of_seq. lia. }
  assert (repr L' h6 (fresh_board size)) as Hr6.
  { unfold repr, L', fresh_board. cbn. split; [|split; [|split; [|split; [|split]]]].
    - unfold h6. by apply list_lookup_middle.
    - unfold h6, h5, h4, h3. rewrite !lookup_app_l by (rewrite ?length_app; cbn; lia).
      unfold h2. by apply list_lookup_middle.
    - unfold h6, h5. rewrite !lookup_app_l by (rewrite ?length_app; cbn; lia).
      unfold h4. by apply list_lookup_middle.
    - unfold h6. rewrite !lookup_app_l by (rewrite ?length_app; cbn; lia).
      unfold h5. by apply list_lookup_middle.
    - unfold h6, h5, h4, h3, h2, h1. rewrite <- !app_assoc. rewrite app_assoc.
      apply (Forall2_alloc Heap.OVertex (fun i => Vertex.mk i i GUARD)).
    - unfold h6, h5, h4, h3. rewrite <- !app_assoc. rewrite app_assoc.
      apply (Forall2_alloc Heap.OChain (fun _ => Chain.new)). }
  destruct (sim_init_loops (fun _ => True) L' HL' (fun _ _ _ _ => Logic.I) size h6
              (fresh_board size) Logic.I Hr6) as (h7 & b7 & E & Hr7 & Hf7 & Hb7).
  assert (forall b1 : GoBoard, GoBoard__init__ size = Ok b1 ->
            (b ← for_each (board_points size) (fun b p =>
                   b ← update_vertex b p (Vertex.with_color EMPTY);
                   update_chain_at b p Chain.reset) (fresh_board size);
             b ← for_each (board_points size) (fun b p =>
                   for_each (neighbours p) (fun b n =>
                     e ← is_empty b n;
                     if (e : bool) then update_chain_at b p (Chain.add_liberty n)
                     else Ok b) b) b;
             b ← Ok (with_zobrist_hash 0 b);
             Ok (root L', b)) = Ok (root L', b1)) as Hpure.
  { intros b1. unfold GoBoard__init__. cbn zeta.
    destruct (for_each (board_points size) _ (fresh_board size)) as [x1| |]; [|done..].
    cbn. destruct (for_each (board_points size) _ x1) as [x2| |]; [|done..].
    cbn. by intros [= <-]. }
  specialize (Hpure b' Eb). cbn beta in E, Hb7. rewrite Hpure in E.
  pose proof (Hb7 _ _ Hpure) as ->.
  exists h7, L', b'. split; [|split; [done|split; [done|split; [done|split; [done|]]]]].
  - unfold Heap.__init__.
    erewrite hbind_Ok by apply alloc_each_spec. cbn beta.
    erewrite hbind_Ok by reflexivity. cbn beta.
    erewrite hbind_Ok by apply alloc_each_spec. cbn beta.
    erewrite hbind_Ok by reflexivity. cbn beta.
    erewrite hbind_Ok by reflexivity. cbn beta.
    erewrite hbind_Ok by reflexivity. cbn beta.
    exact E.
  - intros l Hl. destruct Hf7 as (_ & Hf7). rewrite Hf7.
    + unfold h6, h5, h4, h3, h2, h1. by rewrite !lookup_app_l by (rewrite ?length_app; cbn; lia).
    + intros Hin. apply Hge in Hin. lia.
Qed.

(** [clone] returns a board of new objects that holds the values of the
    board cloned, which it leaves as it was. *)
Lemma heap_clone Ls h b :
  NoDup (locs Ls) -> repr Ls h b -> shaped b -> _board_size b <= 19 ->
  exists h' L',
    Heap.clone (root Ls) h = (h', Ok (root L')) /\
    NoDup (locs L') /\ repr Ls h' b /\ repr L' h' b /\
    (forall l, l ∈ locs Ls -> l ∉ locs L').
Proof.
  intros HLs Hrs Hsh Hsz.
  destruct (heap_init (_board_size b) h Hsz) as (h1 & L' & b0 & Einit & Eb0 & HL' & Hr0 & Hge & Hold).
  assert (forall l, l ∈ locs Ls -> l ∉ locs L') as Hdisj.
  { intros l Hl Hl'. apply (repr_lt _ _ _ _ Hrs) in Hl. apply Hge in Hl'. lia. }
  assert (repr Ls h1 b) as Hrs1.
  { apply (repr_unchanged _ h); [done|]. intros l Hl. apply Hold.
    by apply (repr_lt _ _ _ _ Hrs). }
  assert (forall h h', repr Ls h b -> frame L' h h' -> repr Ls h' b) as Hstable.
  { intros x x' Hx Hf. by apply (repr_frame L' Ls x x' b Hf Hx). }
  destruct (sim_copy_fields (fun h => repr Ls h b) L' HL' Hstable Ls b (fun _ H => H)
              h1 b0 Hrs1 Hr0) as (h2 & b2 & E & Hr2 & Hf2 & Hb2).
  pose proof (clone_value b Hsh Hsz) as Hcv. unfold clone in Hcv. rewrite Eb0 in Hcv.
  cbn in Hcv. cbn beta in E, Hb2. rewrite Hcv in E, Hb2. cbn in E.
  pose proof (Hb2 _ _ eq_refl) as ->.
  exists h2, L'. split; [|split; [done|split; [by apply (Hstable h1)|split; [done|done]]]].
  unfold Heap.clone.
  erewrite hbind_Ok by (by apply (heap_self Ls h b)). cbn beta. cbn [Heap.o_board_size].
  erewrite hbind_Ok by exact Einit. cbn beta.
  exact E.
Qed.

(** [play] on the heap is [play] on the value of the board. *)
Lemma heap_play ZOBRIST L h b p c b' :
  NoDup (locs L) -> repr L h b -> play ZOBRIST b p c = Ok b' ->
  exists h', Heap.play ZOBRIST (root L) p c h = (h', Ok tt) /\ repr L h' b' /\
    frame L h h'.
Proof.
  intros HL Hr Ep.
  destruct (simU_play (fun _ => True) L HL (fun _ _ _ _ => Logic.I) ZOBRIST p c h b
              Logic.I Hr) as (h1 & b1 & E & Hr1 & Hf1 & Hb1).
  cbn beta in E, Hb1. rewrite Ep in E, Hb1. cbn in E, Hb1.
  rewrite (Hb1 tt b' eq_refl) in Hr1. by exists h1.
Qed.

(** Each [play] leaves in the heap a board at the same place, and writes
    only to the objects of that board. *)
Lemma plays_frame ZOBRIST L moves h b :
  NoDup (locs L) -> repr L h b ->
  exists b', repr L (Heap.plays ZOBRIST (root L) moves h) b' /\
    frame L h (Heap.plays ZOBRIST (root L) moves h).
Proof.
  intros HL. revert h b. induction moves as [|[p c] moves IH]; intros h b Hr.
  - exists b. split; [done|apply frame_refl].
  - cbn [Heap.plays].
    destruct (simU_play (fun _ => True) L HL (fun _ _ _ _ => Logic.I) ZOBRIST p c h b
                Logic.I Hr) as (h1 & b1 & E & Hr1 & Hf1 & _).
    rewrite E. cbn [fst].
    destruct (IH h1 b1 Hr1) as (b2 & Hr2 & Hf2).
    exists b2. split; [done|]. by apply (frame_trans _ _ h1).
Qed.

(** C7: [clone] returns a board that holds the values of the board cloned
    (hash, vertex array, chain array, last captures, ko point and size) in
    objects of its own: no object of the one is an object of the other, so
    whatever [play] calls are made on the clone, returning or raising, the
    board cloned keeps its values, and the other way round. *)
Theorem clone_independent (ZOBRIST : list (list Z)) Ls h b :
  NoDup (locs Ls) -> repr Ls h b -> shaped b -> _board_size b <= 19 ->
  exists h' L',
    Heap.clone (root Ls) h = (h', Ok (root L')) /\
    repr L' h' b /\ repr Ls h' b /\
    (forall l, l ∈ locs Ls -> l ∉ locs L') /\
    (forall moves, repr Ls (Heap.plays ZOBRIST (root L') moves h') b) /\
    (forall moves, repr L' (Heap.plays ZOBRIST (root Ls) moves h') b).
Proof.
  intros HLs Hrs Hsh Hsz.
  destruct (heap_clone Ls h b HLs Hrs Hsh Hsz) as (h' & L' & E & HL' & Hrs' & Hr' & Hdisj).
  exists h', L'. split; [done|]. split; [done|]. split; [done|]. split; [done|]. split.
  - intros moves.
    destruct (plays_frame ZOBRIST L' moves h' b HL' Hr') as (_ & _ & Hf).
    by apply (repr_frame L' Ls h' _ b Hf Hrs').
  - intros moves.
    destruct (plays_frame ZOBRIST Ls moves h' b HLs Hrs') as (_ & _ & Hf).
    apply (repr_frame Ls L' h' _ b Hf Hr'). intros l Hl Hl'. by apply (Hdisj l).
Qed.

(** * The theorems on sample games *)

(** A table of the right shape, with a different value at every entry. *)
Definition sample_table : list (list Z) :=
  (fun p => (fun c => p * 4 + c + 1) <$> range 4) <$> range VIRTUAL_BOARD_POINTS.

Lemma sample_table_shaped : table_shaped sample_table.
Proof.
  split; [by vm_compute|].
  apply Forall_forall. intros row Hrow. unfold sample_table in Hrow.
  apply list_elem_of_fmap in Hrow as (p & -> & _).
  by rewrite length_fmap, length_range.
Qed.

(** Moves played one after the other, each one checked with
    [is_legal_move] first. *)
Definition legal_plays (b : GoBoard) (moves : list (Point * Color)) : res GoBoard :=
  for_each moves (fun b '(p, c) =>
    _ ← assert (is_stone c);
    ok ← is_legal_move b p c;
    _ ← assert ok;
    play sample_table b p c) b.

Definition sample_board (board_size : Z) (moves : list (Point * Color)) : res GoBoard :=
  b ← GoBoard__init__ board_size; legal_plays b moves.

Lemma legal_plays_reachable b moves b' :
  reachable sample_table b -> legal_plays b moves = Ok b' -> reachable sample_table b'.
Proof.
  revert b. induction moves as [|[p c] moves IH]; intros b Hr E.
  - cbn in E. by injection E as <-.
  - unfold legal_plays in E. cbn [for_each] in E.
    destruct (is_stone c) eqn:Hc; [|done]. cbn in E.
    destruct (is_legal_move b p c) as [[|]| |] eqn:Hl; try done. cbn in E.
    destruct (play sample_table b p c) as [b1| |] eqn:Ep; try done. cbn in E.
    apply (IH b1); [|done]. by apply (reachable_play sample_table b p c).
Qed.

Lemma sample_board_reachable board_size moves b :
  board_size <= 19 -> sample_board board_size moves = Ok b -> reachable sample_table b.
Proof.
  intros Hs E. unfold sample_board in E.
  destruct (GoBoard__init__ board_size) as [b0| |] eqn:E0; try done. cbn in E.
  apply (legal_plays_reachable b0 moves); [|done]. by apply (reachable_init _ board_size).
Qed.

(** Two black stones side by side on the 9x9 board form one ring. *)
Lemma chain_ring_invariant_witness :
  exists b, sample_board 9 [(44, BLACK); (89, WHITE); (45, BLACK)] = Ok b /\
    in_board_area b 44 = true /\ point_color b 44 = Ok BLACK /\
    exists (n : nat) (h : Point),
      chain_size b 44 = Ok (Z.of_nat n) /\ chain_head b 44 = Ok h /\ follow b 44 n = Ok 44.
Proof.
  assert (match sample_board 9 [(44, BLACK); (89, WHITE); (45, BLACK)] with
          | Ok b => in_board_area b 44 && bool_decide (point_color b 44 = Ok BLACK)
          | _ => false
          end = true) as Hc by (vm_compute; reflexivity).
  destruct (sample_board 9 [(44, BLACK); (89, WHITE); (45, BLACK)]) as [b| |] eqn:E;
    [|discriminate Hc..].
  apply andb_true_iff in Hc as (Ha & Hp). apply bool_decide_eq_true in Hp.
  exists b. split; [reflexivity|]. split; [exact Ha|]. split; [exact Hp|].
  destruct (chain_ring_invariant sample_table sample_table_shaped b 44
              (sample_board_reachable 9 _ b ltac:(lia) E) Ha (or_introl Hp))
    as (n & h & H1 & H2 & _ & H3 & _).
  exists n, h. split; [exact H1|]. split; [exact H2|exact H3].
Defined.

(** The empty point next to them is its own chain. *)
Lemma empty_point_singleton_witness :
  exists b, sample_board 9 [(44, BLACK); (89, WHITE); (45, BLACK)] = Ok b /\
    in_board_area b 46 = true /\ is_empty b 46 = Ok true /\ chain_head b 46 = Ok 46.
Proof.
  assert (match sample_board 9 [(44, BLACK); (89, WHITE); (45, BLACK)] with
          | Ok b => in_board_area b 46 && bool_decide (is_empty b 46 = Ok true)
          | _ => false
          end = true) as Hc by (vm_compute; reflexivity).
  destruct (sample_board 9 [(44, BLACK); (89, WHITE); (45, BLACK)]) as [b| |] eqn:E;
    [|discriminate Hc..].
  apply andb_true_iff in Hc as (Ha & Hp). apply bool_decide_eq_true in Hp.
  exists b. split; [reflexivity|]. split; [exact Ha|]. split; [exact Hp|].
  exact (proj1 (empty_point_singleton sample_table sample_table_shaped b 46
                  (sample_board_reachable 9 _ b ltac:(lia) E) Ha Hp)).
Defined.

(** On the empty 9x9 board the corner is a legal move for Black. *)
Lemma is_legal_move_spec_witness :
  exists b, sample_board 9 [] = Ok b /\ (BLACK = BLACK \/ BLACK = WHITE) /\
    exists r, is_legal_move b 22 BLACK = Ok r.
Proof.
  assert (match sample_board 9 [] with Ok b => true | _ => false end = true) as Hc
    by (vm_compute; reflexivity).
  destruct (sample_board 9 []) as [b| |] eqn:E; [|discriminate Hc..].
  exists b. split; [reflexivity|]. split; [left; reflexivity|].
  destruct (is_legal_move_spec sample_table sample_table_shaped b 22 BLACK
              (sample_board_reachable 9 _ b ltac:(lia) E) (or_introl eq_refl))
    as (r & Hr & _).
  exists r. exact Hr.
Defined.

(** A white stone in the corner captured by two black stones, and the two
    black stones played on the empty board: the same colors, the same
    hash. *)
Lemma zobrist_hash_by_colors_witness :
  exists b1 b2,
    sample_board 9 [(22, WHITE); (23, BLACK); (43, BLACK)] = Ok b1 /\
    sample_board 9 [(43, BLACK); (23, BLACK)] = Ok b2 /\
    (forall q, 0 <= q < VIRTUAL_BOARD_POINTS -> point_color b1 q = point_color b2 q) /\
    __hash__ b1 = __hash__ b2.
Proof.
  assert (match sample_board 9 [(22, WHITE); (23, BLACK); (43, BLACK)],
                sample_board 9 [(43, BLACK); (23, BLACK)] with
          | Ok b1, Ok b2 =>
              forallb (fun q => bool_decide (point_color b1 q = point_color b2 q))
                (range VIRTUAL_BOARD_POINTS)
          | _, _ => false
          end = true) as Hc by (vm_compute; reflexivity).
  destruct (sample_board 9 [(22, WHITE); (23, BLACK); (43, BLACK)]) as [b1| |] eqn:E1;
    [|discriminate Hc..].
  destruct (sample_board 9 [(43, BLACK); (23, BLACK)]) as [b2| |] eqn:E2;
    [|discriminate Hc..].
  assert (forall q, 0 <= q < VIRTUAL_BOARD_POINTS -> point_color b1 q = point_color b2 q)
    as Hsame.
  { intros q Hq. rewrite forallb_forall in Hc.
    eapply bool_decide_eq_true_1, Hc. apply list_elem_of_In, elem_of_range, Hq. }
  exists b1, b2. split; [reflexivity|]. split; [reflexivity|]. split; [exact Hsame|].
  apply (zobrist_hash_by_colors sample_table sample_table_shaped b1 b2).
  - apply reachable_built.
    exact (sample_board_reachable 9 _ b1 ltac:(lia) E1).
  - apply reachable_built.
    exact (sample_board_reachable 9 _ b2 ltac:(lia) E2).
  - exact Hsame.
Defined.

(** The ko of the repository's tests, retaken at once: Black takes one
    stone inside the white eye, and White plays on the ko point.
    [is_legal_move] refuses that move, [play] carries it out and captures
    the black stone. *)
Lemma capture_restores_liberties_witness :
  exists b b1 b2,
    sample_board 9 [(45, BLACK); (65, BLACK); (87, BLACK);
                    (46, WHITE); (66, WHITE); (68, WHITE); (88, WHITE)] = Ok b /\
    in_board_area b 67 = true /\ play sample_table b 67 BLACK = Ok b1 /\
    is_legal_move b1 66 WHITE = Ok false /\
    (WHITE = BLACK \/ WHITE = WHITE) /\ in_board_area b1 66 = true /\
    play sample_table b1 66 WHITE = Ok b2 /\
    point_color b1 67 = Ok BLACK /\ point_color b2 67 = Ok EMPTY /\
    exists caps, NoDup caps /\ (forall x, x ∈ caps -> point_color b2 x = Ok EMPTY).
Proof.
  assert (match sample_board 9 [(45, BLACK); (65, BLACK); (87, BLACK);
                                (46, WHITE); (66, WHITE); (68, WHITE); (88, WHITE)] with
          | Ok b =>
              match play sample_table b 67 BLACK with
              | Ok b1 =>
                  in_board_area b 67 &&
                  bool_decide (is_legal_move b1 66 WHITE = Ok false) &&
                  in_board_area b1 66 &&
                  bool_decide (point_color b1 67 = Ok BLACK) &&
                  match play sample_table b1 66 WHITE with
                  | Ok b2 => bool_decide (point_color b2 67 = Ok EMPTY)
                  | _ => false
                  end
              | _ => false
              end
          | _ => false
          end = true) as Hc by (vm_compute; reflexivity).
  destruct (sample_board 9 _) as [b| |] eqn:E; [|discriminate Hc..].
  destruct (play sample_table b 67 BLACK) as [b1| |] eqn:E1; [|discriminate Hc..].
  apply andb_true_iff in Hc as (Hc & H2). apply andb_true_iff in Hc as (Hc & Hk).
  apply andb_true_iff in Hc as (Hc & Ha1). apply andb_true_iff in Hc as (Ha & Hl).
  apply bool_decide_eq_true in Hl. apply bool_decide_eq_true in Hk.
  destruct (play sample_table b1 66 WHITE) as [b2| |] eqn:E2; [|discriminate H2..].
  apply bool_decide_eq_true in H2.
  pose proof (reachable_built _ _ (sample_board_reachable 9 _ b ltac:(lia) E)) as Hb.
  pose proof (built_play sample_table b 67 BLACK b1 Hb eq_refl (or_intror Ha) E1) as Hb1.
  destruct (capture_restores_liberties sample_table sample_table_shaped b1 66 WHITE b2
              Hb1 (or_intror eq_refl) Ha1 E2)
    as (b3 & b4 & b5 & caps & _ & _ & _ & _ & Hnd & _ & _ & Hemp & _).
  exists b, b1, b2. split; [reflexivity|]. split; [exact Ha|]. split; [exact E1|].
  split; [exact Hl|]. split; [right; reflexivity|]. split; [exact Ha1|].
  split; [exact E2|]. split; [exact Hk|]. split; [exact H2|].
  exists caps. split; [exact Hnd|exact Hemp].
Defined.

(** The ko of the repository's tests: Black takes one stone inside the
    white eye; the point of that stone is the ko point, where White may not
    play at once.  White retakes all the same: [play] captures the black
    stone, whose point is the new ko point, where Black may not play at
    once. *)
Lemma ko_point_after_play_witness :
  exists b b1 b2,
    sample_board 9 [(45, BLACK); (65, BLACK); (87, BLACK);
                    (46, WHITE); (66, WHITE); (68, WHITE); (88, WHITE)] = Ok b /\
    (67 = PASS \/ in_board_area b 67 = true) /\
    play sample_table b 67 BLACK = Ok b1 /\
    captured_stones b b1 = [66] /\ enemy_eye b 67 BLACK /\
    _last_ko_point b1 = 66 /\ is_legal_move b1 66 WHITE = Ok false /\
    (66 = PASS \/ in_board_area b1 66 = true) /\
    play sample_table b1 66 WHITE = Ok b2 /\
    captured_stones b1 b2 = [67] /\ enemy_eye b1 66 WHITE /\
    _last_ko_point b2 = 67 /\ is_legal_move b2 67 BLACK = Ok false.
Proof.
  assert (match sample_board 9 [(45, BLACK); (65, BLACK); (87, BLACK);
                                (46, WHITE); (66, WHITE); (68, WHITE); (88, WHITE)] with
          | Ok b =>
              match play sample_table b 67 BLACK with
              | Ok b1 =>
                  in_board_area b 67 &&
                  forallb (fun n => bool_decide (point_color b n = Ok WHITE))
                    (neighbours 67) &&
                  bool_decide (captured_stones b b1 = [66]) &&
                  in_board_area b1 66 &&
                  forallb (fun n => bool_decide (point_color b1 n = Ok BLACK))
                    (neighbours 66) &&
                  match play sample_table b1 66 WHITE with
                  | Ok b2 => bool_decide (captured_stones b1 b2 = [67])
                  | _ => false
                  end
              | _ => false
              end
          | _ => false
          end = true) as Hc by (vm_compute; reflexivity).
  destruct (sample_board 9 _) as [b| |] eqn:E; [|discriminate Hc..].
  destruct (play sample_table b 67 BLACK) as [b1| |] eqn:E1; [|discriminate Hc..].
  apply andb_true_iff in Hc as (Hc & H2). apply andb_true_iff in Hc as (Hc & Hn1).
  apply andb_true_iff in Hc as (Hc & Ha1). apply andb_true_iff in Hc as (Hc & Hp).
  apply andb_true_iff in Hc as (Ha & Hn). apply bool_decide_eq_true in Hp.
  destruct (play sample_table b1 66 WHITE) as [b2| |] eqn:E2; [|discriminate H2..].
  apply bool_decide_eq_true in H2.
  assert (enemy_eye b 67 BLACK) as Heye.
  { intros n Hin. left. rewrite forallb_forall in Hn.
    eapply bool_decide_eq_true_1, Hn. apply list_elem_of_In, Hin. }
  assert (enemy_eye b1 66 WHITE) as Heye1.
  { intros n Hin. left. rewrite forallb_forall in Hn1.
    eapply bool_decide_eq_true_1, Hn1. apply list_elem_of_In, Hin. }
  pose proof (reachable_built _ _ (sample_board_reachable 9 _ b ltac:(lia) E)) as Hb.
  pose proof (built_play sample_table b 67 BLACK b1 Hb eq_refl (or_intror Ha) E1) as Hb1.
  destruct (ko_point_after_play sample_table sample_table_shaped b 67 BLACK b1
              Hb (or_introl eq_refl) (or_intror Ha) E1) as (_ & _ & Hko).
  destruct (Hko 66 Hp Heye) as (Hk & Hill & _).
  destruct (ko_point_after_play sample_table sample_table_shaped b1 66 WHITE b2
              Hb1 (or_intror eq_refl) (or_intror Ha1) E2) as (_ & _ & Hko1).
  destruct (Hko1 67 H2 Heye1) as (Hk1 & Hill1 & _).
  exists b, b1, b2. split; [reflexivity|]. split; [right; exact Ha|].
  split; [exact E1|]. split; [exact Hp|]. split; [exact Heye|]. split; [exact Hk|].
  split; [exact Hill|]. split; [right; exact Ha1|]. split; [exact E2|].
  split; [exact H2|]. split; [exact Heye1|]. split; [exact Hk1|exact Hill1].
Defined.

(** A new 9x9 board is cloned, and two moves are played on the clone. *)
Lemma clone_independent_witness :
  exists h L b,
    NoDup (locs L) /\ repr L h b /\ shaped b /\ _board_size b <= 19 /\
    exists h' L',
      Heap.clone (root L) h = (h', Ok (root L')) /\ repr L' h' b /\
      repr L (Heap.plays sample_table (root L') [(44, BLACK); (45, WHITE)] h') b.
Proof.
  destruct (heap_init 9 [] ltac:(lia)) as (h & L & b & _ & Eb & HL & Hr & _).
  destruct (GoBoard__init__spec 9 ltac:(lia)) as (b1 & Eb1 & Hi & _ & Hsz & _).
  rewrite Eb in Eb1. injection Eb1 as <-.
  pose proof (base_shaped b (inv_base b Hi)) as Hsh.
  assert (_board_size b <= 19) as Hle by (rewrite Hsz; lia).
  exists h, L, b. split; [exact HL|]. split; [exact Hr|]. split; [exact Hsh|].
  split; [exact Hle|].
  destruct (clone_independent sample_table L h b HL Hr Hsh Hle)
    as (h' & L' & E & Hr' & _ & _ & Hp & _).
  exists h', L'. split; [exact E|]. split; [exact Hr'|apply Hp].
Defined.

(** * More of the coordinate system *)

(** The column letters, without I. *)
Definition _COLS : string := "ABCDEFGHJKLMNOPQRST".

(** [str(n)] of an integer: its decimal digits, after a minus sign when it
    is negative. *)
Definition py_str (n : Z) : string := NilZero.string_of_int (Z.to_int n).

Definition format_point (p : Point) : res string :=
  let '(row, col) := point_to_2d p in
  a ← getitem (list_ascii_of_string _COLS) col;
  Ok (String a (py_str (row + 1))).

(** X1: [point_to_2d] undoes [point_from_2d] for the columns 0 to 19 and
    rows from 0, and [point_from_2d] undoes [point_to_2d] on every point but
    the two sentinels, which both map to (-1, -1) and come back as 0. *)
Theorem point_2d_round_trip :
  (forall row col, 0 <= row -> 0 <= col < 20 ->
     point_to_2d (point_from_2d row col) = (row, col)) /\
  (forall p, p <> INVALID_POINT -> p <> PASS ->
     point_from_2d (point_to_2d p).1 (point_to_2d p).2 = p /\
     -1 <= (point_to_2d p).2 < 20) /\
  point_to_2d PASS = (-1, -1) /\ point_to_2d INVALID_POINT = (-1, -1) /\
  point_from_2d (-1) (-1) = 0.
Proof.
  split; [|split; [|by vm_compute]].
  - intros row col Hr Hc.
    unfold point_to_2d, point_from_2d, INVALID_POINT, PASS, VIRTUAL_BOARD_SIZE.
    rewrite bool_decide_eq_false_2 by lia.
    replace ((row + 1) * 21 + col + 1) with ((col + 1) + (row + 1) * 21) by lia.
    rewrite Z.div_add, Z.mod_add by lia.
    rewrite Z.div_small, Z.mod_small by lia. f_equal; lia.
  - intros p Hi Hp.
    unfold point_to_2d, point_from_2d, VIRTUAL_BOARD_SIZE.
    rewrite bool_decide_eq_false_2 by (intros [?|?]; done). cbn [fst snd].
    pose proof (Z.div_mod p 21 ltac:(lia)).
    pose proof (Z.mod_pos_bound p 21 ltac:(lia)). lia.
Qed.

Lemma length_bind_const {A B : Type} (f : A -> list B) (l : list A) (n : nat) :
  (forall x, x ∈ l -> length (f x) = n) -> length (l ≫= f) = (length l * n)%nat.
Proof.
  induction l as [|x l IH]; intros H; [done|].
  change ((x :: l) ≫= f) with (f x ++ (l ≫= f)).
  rewrite length_app, IH, H; cbn; [lia|apply list_elem_of_here|].
  intros y Hy. apply H. by apply list_elem_of_further.
Qed.

Lemma elem_of_board_points size p :
  p ∈ board_points size <->
  exists row col, 0 <= row < size /\ 0 <= col < size /\ p = point_from_2d row col.
Proof.
  unfold board_points. rewrite list_elem_of_bind. split.
  - intros (row & Hp & Hrow). apply list_elem_of_bind in Hp as (col & Hp & Hcol).
    apply list_elem_of_singleton in Hp. apply elem_of_range in Hrow, Hcol.
    by exists row, col.
  - intros (row & col & Hrow & Hcol & ->). exists row. split; [|by apply elem_of_range].
    apply list_elem_of_bind. exists col. split; [|by apply elem_of_range].
    by apply list_elem_of_singleton.
Qed.

(** X2: for a board size up to 20, [board_points] yields size * size
    different points, and they are the points [in_board_area] accepts. *)
Theorem board_points_spec (b : GoBoard) :
  _board_size b <= 20 ->
  length (board_points (_board_size b))
    = (Z.to_nat (_board_size b) * Z.to_nat (_board_size b))%nat /\
  NoDup (board_points (_board_size b)) /\
  (forall p, p ∈ board_points (_board_size b) <-> in_board_area b p = true).
Proof.
  intros Hs. split; [|split].
  - unfold board_points. rewrite (length_bind_const _ _ (Z.to_nat (_board_size b))).
    + by rewrite length_range.
    + intros row _. rewrite (length_bind_const _ _ 1%nat); [|done].
      rewrite length_range. lia.
  - unfold board_points. apply NoDup_bind; [| |apply NoDup_range].
    + intros r1 r2 p Hr1 Hr2 H1 H2.
      apply list_elem_of_bind in H1 as (c1 & H1 & Hc1).
      apply list_elem_of_bind in H2 as (c2 & H2 & Hc2).
      apply list_elem_of_singleton in H1, H2.
      apply elem_of_range in Hc1, Hc2. unfold point_from_2d, VIRTUAL_BOARD_SIZE in *. lia.
    + intros row _. apply NoDup_bind; [| |apply NoDup_range].
      * intros c1 c2 p _ _ H1 H2. apply list_elem_of_singleton in H1, H2.
        unfold point_from_2d in *. lia.
      * intros col _. apply NoDup_singleton.
  - intros p. rewrite elem_of_board_points, in_board_area_spec. split.
    + intros (row & col & Hr & Hc & ->). unfold point_from_2d, VIRTUAL_BOARD_SIZE.
      replace ((row + 1) * 21 + col + 1) with ((col + 1) + (row + 1) * 21) by lia.
      rewrite Z.div_add, Z.mod_add by lia.
      rewrite Z.div_small, Z.mod_small by lia. lia.
    + intros (Hr & Hc). exists (p / 21 - 1), (p mod 21 - 1).
      split; [lia|]. split; [lia|]. unfold point_from_2d, VIRTUAL_BOARD_SIZE.
      pose proof (Z.div_mod p 21 ltac:(lia)). lia.
Qed.

(** The 9x9 board. *)
Lemma board_points_spec_witness :
  exists b, GoBoard__init__ 9 = Ok b /\ _board_size b <= 20 /\
    length (board_points (_board_size b)) = 81%nat /\ in_board_area b 22 = true.
Proof.
  destruct (GoBoard__init__spec 9 ltac:(lia)) as (b & E & _ & _ & Hs & _).
  assert (_board_size b <= 20) as Hle by (rewrite Hs; lia).
  destruct (board_points_spec b Hle) as (Hlen & _ & Hmem).
  exists b. split; [exact E|]. split; [exact Hle|]. split.
  - rewrite Hlen, Hs. reflexivity.
  - apply Hmem. rewrite Hs. apply (bool_decide_unpack _). vm_compute. exact Logic.I.
Defined.

(** Checking the round trip at every point of the 19x19 board. *)
Definition format_round_trip (p : Point) : bool :=
  match format_point p with
  | Ok s => bool_decide (parse_point s = Ok p) &&
            bool_decide (2 <= String.length s <= 3)%nat
  | _ => false
  end.

(** X3: on a board of any size up to 19, [format_point] gives every point of
    the board area a name of two or three characters, and [parse_point]
    reads that name back as the point. *)
Theorem format_parse_round_trip (b : GoBoard) (p : Point) :
  _board_size b <= 19 -> in_board_area b p = true ->
  exists s, format_point p = Ok s /\ parse_point s = Ok p /\
    (2 <= String.length s <= 3)%nat.
Proof.
  intros Hs Hp.
  assert (forallb format_round_trip (board_points 19) = true) as Hall
    by (vm_compute; reflexivity).
  rewrite forallb_forall in Hall.
  assert (p ∈ board_points 19) as Hin.
  { apply elem_of_board_points. apply in_board_area_spec in Hp as (Hr & Hc).
    exists (p / 21 - 1), (p mod 21 - 1).
    split; [lia|]. split; [lia|]. unfold point_from_2d, VIRTUAL_BOARD_SIZE.
    pose proof (Z.div_mod p 21 ltac:(lia)). lia. }
  apply list_elem_of_In, Hall in Hin. unfold format_round_trip in Hin.
  destruct (format_point p) as [s| |]; [|discriminate Hin..].
  apply andb_true_iff in Hin as (H1 & H2).
  apply bool_decide_eq_true in H1, H2. by exists s.
Qed.

(** The point D4 of the 9x9 board. *)
Lemma format_parse_round_trip_witness :
  exists b, GoBoard__init__ 9 = Ok b /\ _board_size b <= 19 /\
    in_board_area b 88 = true /\ format_point 88 = Ok "D4"%string /\
    parse_point "D4" = Ok 88.
Proof.
  destruct (GoBoard__init__spec 9 ltac:(lia)) as (b & E & _ & _ & Hs & _).
  assert (_board_size b <= 19) as Hle by (rewrite Hs; lia).
  assert (in_board_area b 88 = true) as Hp.
  { unfold in_board_area. rewrite Hs. vm_compute. reflexivity. }
  destruct (format_parse_round_trip b 88 Hle Hp) as (s & Hf & Hparse & _).
  exists b. split; [exact E|]. split; [exact Hle|]. split; [exact Hp|].
  assert (format_point 88 = Ok "D4"%string) as Hd by (vm_compute; reflexivity).
  rewrite Hd in Hf. injection Hf as <-. split; [exact Hd|exact Hparse].
Defined.

(** X4: [format_point] raises [IndexError] exactly on the points of the
    last column of the virtual grid (column index 19 has no letter), the
    INVALID sentinel apart; everywhere else it returns a name.  The two
    sentinels are both printed as column -1 and row 0, the name of no
    point, which [parse_point] reads as the point 19. *)
Theorem format_point_total (p : Point) :
  (p mod 21 = 20 /\ p <> INVALID_POINT -> format_point p = Raise IndexError) /\
  (~ (p mod 21 = 20 /\ p <> INVALID_POINT) -> exists s, format_point p = Ok s) /\
  format_point PASS = Ok "T0"%string /\ format_point INVALID_POINT = Ok "T0"%string /\
  parse_point "T0" = Ok 19.
Proof.
  split; [|split; [|by vm_compute]].
  - intros (Hm & Hi). unfold format_point, point_to_2d, VIRTUAL_BOARD_SIZE.
    case_bool_decide as Hs.
    { destruct Hs as [->| ->]; [done|]. by vm_compute in Hm. }
    rewrite Hm. reflexivity.
  - intros Hn. unfold format_point, point_to_2d, VIRTUAL_BOARD_SIZE.
    case_bool_decide as Hs; [by eexists|].
    pose proof (Z.mod_pos_bound p 21 ltac:(lia)) as Hb.
    assert (p <> INVALID_POINT) as Hi by (intros ->; apply Hs; by left).
    assert (-1 <= p mod 21 - 1 < 19) as Hc by lia.
    assert (forall col, -1 <= col < 19 ->
              exists a, getitem (list_ascii_of_string _COLS) col = Ok a) as Hget.
    { intros col Hcol.
      assert (col = -1 \/ 0 <= col < 19) as [->|Hc0] by lia; [by eexists|].
      unfold getitem. rewrite py_index_on_grid by (cbn; lia).
      destruct (lookup_lt_is_Some_2 (list_ascii_of_string _COLS) (Z.to_nat col))
        as [a ->]; [cbn; lia|]. by eexists. }
    destruct (Hget _ Hc) as (a & ->). by eexists.
Qed.

(** X5: a point of the board area (sizes up to 19) has its four neighbours
    one row up, one column left, one column right and one row down; they
    differ from each other, all are indices of the arrays, and each has the
    point among its own neighbours. *)
Theorem neighbours_on_board (b : GoBoard) (p : Point) :
  _board_size b <= 19 -> in_board_area b p = true ->
  point_to_2d <$> neighbours p =
    [((point_to_2d p).1 + 1, (point_to_2d p).2); ((point_to_2d p).1, (point_to_2d p).2 - 1);
     ((point_to_2d p).1, (point_to_2d p).2 + 1); ((point_to_2d p).1 - 1, (point_to_2d p).2)] /\
  NoDup (neighbours p) /\
  (forall n, n ∈ neighbours p -> 0 <= n < VIRTUAL_BOARD_POINTS /\ p ∈ neighbours n).
Proof.
  intros Hs Hp. pose proof (in_board_area_range b p Hs Hp) as Hr.
  apply in_board_area_spec in Hp as (Hrow & Hcol).
  pose proof (Z.div_mod p 21 ltac:(lia)) as Hdm.
  assert (forall q a r, 0 <= r < 21 -> q = 21 * a + r -> q <> 420 -> q <> -1 ->
            point_to_2d q = (a - 1, r - 1)) as H2d.
  { intros q a r Hr0 Hq H1 H2.
    unfold point_to_2d, INVALID_POINT, PASS, VIRTUAL_BOARD_SIZE.
    rewrite bool_decide_eq_false_2 by lia.
    rewrite <- (Z.div_unique q 21 a r) by (auto; lia).
    rewrite <- (Z.mod_unique q 21 a r) by (auto; lia). done. }
  split; [|split].
  - unfold neighbours, VIRTUAL_BOARD_SIZE. cbn [fmap list_fmap].
    rewrite (H2d p (p / 21) (p mod 21)) by lia. cbn [fst snd].
    rewrite (H2d (p + 21) (p / 21 + 1) (p mod 21)) by lia.
    rewrite (H2d (p - 1) (p / 21) (p mod 21 - 1)) by lia.
    rewrite (H2d (p + 1) (p / 21) (p mod 21 + 1)) by lia.
    rewrite (H2d (p - 21) (p / 21 - 1) (p mod 21)) by lia.
    repeat f_equal; lia.
  - apply NoDup_neighbours.
  - intros n Hn. split.
    + unfold neighbours, VIRTUAL_BOARD_SIZE in Hn. unfold VIRTUAL_BOARD_POINTS, VIRTUAL_BOARD_SIZE.
      rewrite !elem_of_cons, elem_of_nil in Hn. lia.
    + by apply neighbours_sym.
Qed.

(** The corner A1 of the 9x9 board: two of its neighbours are guards, and
    still indices. *)
Lemma neighbours_on_board_witness :
  exists b, GoBoard__init__ 9 = Ok b /\ _board_size b <= 19 /\
    in_board_area b 22 = true /\
    point_to_2d <$> neighbours 22 = [(1, 0); (0, -1); (0, 1); (-1, 0)].
Proof.
  destruct (GoBoard__init__spec 9 ltac:(lia)) as (b & E & _ & _ & Hs & _).
  assert (_board_size b <= 19) as Hle by (rewrite Hs; lia).
  assert (in_board_area b 22 = true) as Hp.
  { unfold in_board_area. rewrite Hs. vm_compute. reflexivity. }
  destruct (neighbours_on_board b 22 Hle Hp) as (H2d & _).
  exists b. split; [exact E|]. split; [exact Hle|]. split; [exact Hp|]. exact H2d.
Defined.

(** * More of the chain accounting *)

Lemma coord_sum_perm l1 l2 :
  l1 ≡ₚ l2 ->
  Chain.coord_sum l1 = Chain.coord_sum l2 /\
  Chain.coord_sum_squared l1 = Chain.coord_sum_squared l2.
Proof.
  induction 1 as [|x l1 l2 _ [IH1 IH2]|x y l|l1 l2 l3 _ [IH1 IH2] _ [IH3 IH4]]; cbn; lia.
Qed.

Lemma coord_sum_app l1 l2 :
  Chain.coord_sum (l1 ++ l2) = Chain.coord_sum l1 + Chain.coord_sum l2 /\
  Chain.coord_sum_squared (l1 ++ l2)
    = Chain.coord_sum_squared l1 + Chain.coord_sum_squared l2.
Proof. induction l1 as [|x l1 [IH1 IH2]]; cbn; lia. Qed.

(** X6: the three statistics of a chain follow its liberties: when they
    are the count, sum and sum of squares of a list [l] of coordinates,
    [add_liberty p] makes them those of [p :: l], [remove_liberty p] those of
    [l] with one [p] taken out, wherever it stands, and [merge] those of the
    two lists together; [reset] gives those of the empty list.  None of them
    changes [num_stones] but [merge], which adds, and [reset]. *)
Theorem chain_statistics (c c2 : Chain.t) (l l2 : list Point) (p : Point) :
  Chain.aggregates c l -> Chain.aggregates c2 l2 ->
  Chain.aggregates (Chain.add_liberty p c) (p :: l) /\
  (forall l', l ≡ₚ p :: l' -> Chain.aggregates (Chain.remove_liberty p c) l') /\
  Chain.aggregates (Chain.merge c c2) (l ++ l2) /\
  Chain.aggregates (Chain.reset c) [] /\
  Chain.remove_liberty p (Chain.add_liberty p c) = c /\
  Chain.num_stones (Chain.add_liberty p c) = Chain.num_stones c /\
  Chain.num_stones (Chain.remove_liberty p c) = Chain.num_stones c /\
  Chain.num_stones (Chain.merge c c2) = Chain.num_stones c + Chain.num_stones c2.
Proof.
  intros (Hn & Hs & Hq) (Hn2 & Hs2 & Hq2).
  split; [|split; [|split; [|split; [|split]]]].
  - unfold Chain.aggregates. cbn. rewrite Hn, Hs, Hq. lia.
  - intros l' Hp. destruct (coord_sum_perm _ _ Hp) as (E1 & E2).
    apply Permutation_length in Hp. cbn in *.
    unfold Chain.aggregates. cbn. rewrite Hn, Hs, Hq, Hp, E1, E2. lia.
  - destruct (coord_sum_app l l2) as (E1 & E2).
    unfold Chain.aggregates. cbn. rewrite length_app, E1, E2, Hn, Hs, Hq, Hn2, Hs2, Hq2. lia.
  - done.
  - destruct c. unfold Chain.remove_liberty, Chain.add_liberty. cbn. f_equal; lia.
  - done.
Qed.

(** Three liberties, two of them the same point. *)
Lemma chain_statistics_witness :
  Chain.aggregates (Chain.mk 2 3 130 5634) [43; 43; 44] /\
  Chain.aggregates (Chain.mk 1 1 65 4225) [65] /\
  Chain.aggregates (Chain.remove_liberty 44 (Chain.mk 2 3 130 5634)) [43; 43] /\
  Chain.in_atari (Chain.remove_liberty 44 (Chain.mk 2 3 130 5634)) = true.
Proof.
  assert (Chain.aggregates (Chain.mk 2 3 130 5634) [43; 43; 44]) as H1 by (by vm_compute).
  assert (Chain.aggregates (Chain.mk 1 1 65 4225) [65]) as H2 by (by vm_compute).
  split; [exact H1|]. split; [exact H2|].
  destruct (chain_statistics _ _ _ _ 44 H1 H2) as (_ & Hrm & _).
  split; [|reflexivity].
  apply Hrm. apply Permutation_sym, Permutation_cons_append.
Defined.

(** * More of [play] *)

Lemma hbind_unfold {A B : Type} (m : Heap.hm A) (k : A -> Heap.hm B) h :
  (m ≫= k) h =
  match m h with
  | (h', Ok a) => k a h'
  | (h', Raise e) => (h', Raise e)
  | (h', Timeout) => (h', Timeout)
  end.
Proof. done. Qed.

Section MoreOfPlay.
Variable ZOBRIST : list (list Z).
Hypothesis HZ : table_shaped ZOBRIST.

(** X7: when [play] returns for a point of the board, the point was empty
    and now holds the stone; every other point keeps its color, but for
    opposing stones that were taken off; the size is what it was. *)
Theorem play_places_stone b p c b' :
  built ZOBRIST b -> c = BLACK \/ c = WHITE -> in_board_area b p = true ->
  play ZOBRIST b p c = Ok b' ->
  point_color b p = Ok EMPTY /\ point_color b' p = Ok c /\
  _board_size b' = _board_size b /\
  (forall q, 0 <= q < VIRTUAL_BOARD_POINTS -> q <> p ->
     point_color b' q = point_color b q \/
     (point_color b q = Ok (opponent c) /\ point_color b' q = Ok EMPTY)).
Proof.
  intros Hb Hc Hp E. destruct (built_Inv ZOBRIST HZ b Hb) as (Hi & _).
  assert (is_stone c = true) as Hsc by (by destruct Hc as [-> | ->]).
  pose proof (in_board_area_range b p (base_size b (inv_base b Hi)) Hp) as Hpr.
  destruct (decide (colr b p = EMPTY)) as [Hpe|Hpe];
    [|by rewrite (play_occupied ZOBRIST b p c Hi Hp Hpe) in E].
  destruct (play_spec ZOBRIST HZ b p c Hi Hsc Hpe)
    as (b3 & b4 & caps & ko & _ & _ & Hi3 & Hc3 & Hs3 & _ & HC & _ & _ & Eplay).
  rewrite Eplay in E. destruct (0 <? _); [|done]. injection E as <-.
  pose proof (capt_inv _ _ _ _ _ _ HC) as Hi4.
  assert (forall q, colr (with_last_ko_point ko b4) q
            = if decide (q ∈ caps) then EMPTY
              else if decide (q = p) then c else colr b q) as Hcol.
  { intros q. change (colr (with_last_ko_point ko b4) q) with (colr b4 q).
    by rewrite (capt_color _ _ _ _ _ _ HC), Hc3. }
  assert (p ∉ caps) as Hpc.
  { intros Hin. destruct (capt_in _ _ _ _ _ _ HC p Hin) as (Hcp & _).
    rewrite Hc3, decide_True in Hcp by done. by destruct Hc as [-> | ->]. }
  pose proof (base_shaped b (inv_base b Hi)) as Hsh.
  pose proof (base_shaped _ (inv_base _ (Inv_with_last_ko_point b4 ko Hi4))) as Hsh4.
  split; [by rewrite point_color_grid, Hpe by (done || lia)|].
  split.
  { rewrite point_color_grid by (done || lia).
    by rewrite Hcol, decide_False, decide_True. }
  split.
  { change (_board_size (with_last_ko_point ko b4)) with (_board_size b4).
    rewrite (capt_size _ _ _ _ _ _ HC). by rewrite (scalars_size _ _ Hs3). }
  intros q Hq Hqp. unfold VIRTUAL_BOARD_POINTS, VIRTUAL_BOARD_SIZE in Hq.
  rewrite !point_color_grid by (done || lia). rewrite Hcol.
  destruct (decide (q ∈ caps)) as [Hin|Hout].
  - right. destruct (capt_in _ _ _ _ _ _ HC q Hin) as (Hcq & _).
    rewrite Hc3, decide_False in Hcq by done. by rewrite Hcq.
  - left. by rewrite decide_False.
Qed.

(** X8: on every board built by the constructor and [play] calls that
    returned, two stones of one color next to each other have the same
    chain head (what the random games of the repository's tests check). *)
Theorem neighbours_share_head b p n :
  built ZOBRIST b -> in_board_area b p = true ->
  point_color b p = Ok BLACK \/ point_color b p = Ok WHITE ->
  n ∈ neighbours p -> point_color b n = point_color b p ->
  chain_head b n = chain_head b p.
Proof.
  intros Hb Hp Hc Hn Hsame. destruct (built_Inv ZOBRIST HZ b Hb) as (Hi & _).
  pose proof (in_board_area_range b p (base_size b (inv_base b Hi)) Hp) as Hpr.
  pose proof (base_shaped b (inv_base b Hi)) as Hsh.
  pose proof (neighbours_on_grid p n ltac:(lia) Hn) as Hng.
  assert (on_grid p) as Hpg by (unfold on_grid; lia).
  rewrite (point_color_Ok b Hsh p Hpg) in Hc, Hsame.
  rewrite (point_color_Ok b Hsh n Hng) in Hsame.
  rewrite !chain_head_Ok by (done || unfold on_grid; lia). f_equal.
  apply (base_adj b (inv_base b Hi)); [|done|by injection Hsame].
  unfold stone. by destruct Hc as [[= ->]|[= ->]].
Qed.

(** X9: asked to play on a point that holds a stone or a guard, [play]
    raises [AssertionError] with the heap as it was: nothing has been
    written; on an index the array does not have it raises [IndexError],
    the same way. *)
Theorem play_occupied_untouched L h b p c :
  repr L h b -> p <> PASS ->
  match point_color b p with
  | Ok col => col <> EMPTY ->
      Heap.play ZOBRIST (root L) p c h = (h, Raise AssertionError)
  | Raise e => Heap.play ZOBRIST (root L) p c h = (h, Raise e)
  | Timeout => False
  end.
Proof.
  intros Hr Hp. unfold Heap.play.
  apply Z.eqb_neq in Hp. rewrite Hp.
  rewrite hbind_unfold, (heap_vertex L h b p Hr).
  unfold point_color. destruct (vertex b p) as [v|e|] eqn:Ev; cbn [mbind res_bind].
  - intros Hcol. rewrite hbind_unfold. unfold Heap.lift.
    by rewrite bool_decide_eq_false_2.
  - done.
  - unfold vertex, getitem in Ev. by repeat case_match.
Qed.
End MoreOfPlay.

(** Black takes the white stone in the corner: the stone is on the board
    afterwards. *)
Lemma play_places_stone_witness :
  exists b b',
    sample_board 9 [(22, WHITE); (23, BLACK)] = Ok b /\
    in_board_area b 43 = true /\ play sample_table b 43 BLACK = Ok b' /\
    point_color b 43 = Ok EMPTY /\ point_color b' 43 = Ok BLACK.
Proof.
  assert (match sample_board 9 [(22, WHITE); (23, BLACK)] with
          | Ok b => in_board_area b 43 &&
                    match play sample_table b 43 BLACK with Ok _ => true | _ => false end
          | _ => false
          end = true) as Hc by (vm_compute; reflexivity).
  destruct (sample_board 9 [(22, WHITE); (23, BLACK)]) as [b| |] eqn:E;
    [|discriminate Hc..].
  apply andb_true_iff in Hc as (Ha & Hp).
  destruct (play sample_table b 43 BLACK) as [b'| |] eqn:Ep; [|discriminate Hp..].
  exists b, b'. split; [reflexivity|]. split; [exact Ha|]. split; [exact Ep|].
  destruct (play_places_stone sample_table sample_table_shaped b 43 BLACK b'
              (reachable_built _ _ (sample_board_reachable 9 _ b ltac:(lia) E))
              (or_introl eq_refl) Ha Ep) as (H1 & H2 & _).
  split; [exact H1|exact H2].
Defined.

(** Two black stones side by side have one head. *)
Lemma neighbours_share_head_witness :
  exists b, sample_board 9 [(44, BLACK); (89, WHITE); (45, BLACK)] = Ok b /\
    in_board_area b 44 = true /\ point_color b 44 = Ok BLACK /\
    45 ∈ neighbours 44 /\ point_color b 45 = point_color b 44 /\
    chain_head b 45 = chain_head b 44.
Proof.
  assert (match sample_board 9 [(44, BLACK); (89, WHITE); (45, BLACK)] with
          | Ok b => in_board_area b 44 && bool_decide (point_color b 44 = Ok BLACK)
                    && bool_decide (point_color b 45 = point_color b 44)
          | _ => false
          end = true) as Hc by (vm_compute; reflexivity).
  destruct (sample_board 9 [(44, BLACK); (89, WHITE); (45, BLACK)]) as [b| |] eqn:E;
    [|discriminate Hc..].
  apply andb_true_iff in Hc as (Hc & Hs). apply andb_true_iff in Hc as (Ha & Hp).
  apply bool_decide_eq_true in Hp. apply bool_decide_eq_true in Hs.
  assert (45 ∈ neighbours 44) as Hn.
  { unfold neighbours. apply list_elem_of_further, list_elem_of_further,
      list_elem_of_here. }
  exists b. split; [reflexivity|]. split; [exact Ha|]. split; [exact Hp|].
  split; [exact Hn|]. split; [exact Hs|].
  exact (neighbours_share_head sample_table sample_table_shaped b 44 45
           (reachable_built _ _ (sample_board_reachable 9 _ b ltac:(lia) E))
           Ha (or_introl Hp) Hn Hs).
Defined.

(** On the new 9x9 board a move on the guard point 21 raises and leaves the
    heap alone. *)
Lemma play_occupied_untouched_witness :
  exists h L b,
    repr L h b /\ 21 <> PASS /\ point_color b 21 = Ok GUARD /\
    Heap.play sample_table (root L) 21 BLACK h = (h, Raise AssertionError).
Proof.
  assert (match GoBoard__init__ 9 with
          | Ok b => bool_decide (point_color b 21 = Ok GUARD)
          | _ => false
          end = true) as Hc by (vm_compute; reflexivity).
  destruct (heap_init 9 [] ltac:(lia)) as (h & L & b & _ & Eb & HL & Hr & _).
  rewrite Eb in Hc. apply bool_decide_eq_true in Hc.
  assert (21 <> PASS) as Hne by (intros [=]).
  exists h, L, b. split; [exact Hr|]. split; [exact Hne|]. split; [exact Hc|].
  pose proof (play_occupied_untouched sample_table L h b 21 BLACK Hr Hne) as H.
  rewrite Hc in H. apply H. intros [=].
Defined.

(** * Liberty accounting

    A chain keeps three statistics of its pseudo-liberties: how many there
    are, the sum of their coordinates and the sum of the squares.  One
    pseudo-liberty is one pair of a stone of the chain and an empty point
    next to it. *)

Inductive stat := Count | Sum | Squares.

Definition stat_weight (s : stat) (n : Point) : Z :=
  match s with Count => 1 | Sum => n | Squares => n * n end.

Definition stat_field (s : stat) (c : Chain.t) : Z :=
  match s with
  | Count => Chain.num_pseudo_liberties c
  | Sum => Chain.liberty_vertex_sum c
  | Squares => Chain.liberty_vertex_sum_squared c
  end.

Definition sum_over (l : list Point) (f : Point -> Z) : Z :=
  foldr (fun x acc => f x + acc) 0 l.

Definition measure (s : stat) (l : list Point) : Z := sum_over l (stat_weight s).

Lemma sum_over_nil f : sum_over [] f = 0.
Proof. done. Qed.

Lemma sum_over_cons x l f : sum_over (x :: l) f = f x + sum_over l f.
Proof. done. Qed.

Lemma sum_over_app l1 l2 f : sum_over (l1 ++ l2) f = sum_over l1 f + sum_over l2 f.
Proof. induction l1 as [|x l1 IH]; simpl; [done|]. rewrite IH. lia. Qed.

Lemma sum_over_ext l f g : (forall x, x ∈ l -> f x = g x) -> sum_over l f = sum_over l g.
Proof.
  induction l as [|x l IH]; intros H; [done|]. simpl.
  rewrite (H x) by apply list_elem_of_here. rewrite IH; [done|].
  intros y Hy. apply H. by apply list_elem_of_further.
Qed.

Lemma sum_over_zero l f : (forall x, x ∈ l -> f x = 0) -> sum_over l f = 0.
Proof.
  induction l as [|x l IH]; intros H; [done|]. simpl.
  rewrite (H x) by apply list_elem_of_here. rewrite IH; [done|].
  intros y Hy. apply H. by apply list_elem_of_further.
Qed.

Lemma sum_over_plus l f g :
  sum_over l (fun x => f x + g x) = sum_over l f + sum_over l g.
Proof. induction l as [|x l IH]; simpl; [done|]. rewrite IH. lia. Qed.

Lemma sum_over_nonneg l f : (forall x, x ∈ l -> 0 <= f x) -> 0 <= sum_over l f.
Proof.
  induction l as [|x l IH]; intros H; [done|]. simpl.
  pose proof (H x (list_elem_of_here _ _)).
  assert (0 <= sum_over l f); [|lia].
  apply IH. intros y Hy. apply H. by apply list_elem_of_further.
Qed.

(** A sum of non-negative terms is positive when one of them is. *)
Lemma sum_over_pos l f :
  (forall x, x ∈ l -> 0 <= f x) -> 0 < sum_over l f <-> exists x, x ∈ l /\ 0 < f x.
Proof.
  induction l as [|x l IH]; intros H.
  - simpl. split; [lia|]. intros (x & Hx & _). by apply elem_of_nil in Hx.
  - simpl. pose proof (H x (list_elem_of_here _ _)) as Hx.
    assert (forall y, y ∈ l -> 0 <= f y) as Hl
      by (intros y Hy; apply H; by apply list_elem_of_further).
    pose proof (sum_over_nonneg l f Hl) as Hnn. specialize (IH Hl). split.
    + intros Hpos. destruct (decide (0 < f x)) as [Hfx|Hfx].
      * exists x. split; [apply list_elem_of_here|done].
      * destruct (proj1 IH ltac:(lia)) as (y & Hy & Hfy).
        exists y. split; [by apply list_elem_of_further|done].
    + intros (y & [->|Hy]%elem_of_cons & Hfy); [lia|].
      assert (0 < sum_over l f); [|lia]. apply IH. by exists y.
Qed.

Lemma sum_over_bind l (g : Point -> list Point) f :
  sum_over (l ≫= g) f = sum_over l (fun x => sum_over (g x) f).
Proof.
  induction l as [|x l IH]; [done|]. cbn [mbind list_bind]. simpl.
  change (foldr (fun x acc => f x + acc) 0 ?l) with (sum_over l f).
  rewrite sum_over_app. f_equal. apply IH.
Qed.

Lemma sum_over_filter (P : Point -> Prop) `{forall x, Decision (P x)} l f :
  sum_over (filter P l) f = sum_over l (fun x => if decide (P x) then f x else 0).
Proof.
  induction l as [|x l IH]; [done|]. rewrite filter_cons. simpl.
  destruct (decide (P x)); simpl; rewrite IH; lia.
Qed.

(** The one term of a sum that a test for [a] lets through. *)
Lemma sum_over_indicator l (a : Point) (v : Z) :
  NoDup l ->
  sum_over l (fun x => if decide (x = a) then v else 0) = if decide (a ∈ l) then v else 0.
Proof.
  induction l as [|x l IH]; intros Hnd.
  - rewrite sum_over_nil, decide_False; [done|]. apply not_elem_of_nil.
  - apply NoDup_cons in Hnd as (Hx & Hnd). rewrite sum_over_cons, (IH Hnd).
    destruct (decide (x = a)) as [->|Hxa].
    + rewrite (decide_True (P := a ∈ a :: l)) by apply list_elem_of_here.
      rewrite decide_False by done. lia.
    + destruct (decide (a ∈ l)) as [Hin|Hout].
      * rewrite decide_True by (by apply list_elem_of_further). lia.
      * rewrite decide_False; [lia|]. intros [->|?]%elem_of_cons; done.
Qed.

(** Summing over the grid what vanishes outside [l] is summing over [l]. *)
Lemma sum_over_grid l g :
  NoDup l -> (forall n, n ∈ l -> n ∉ grid_points -> g n = 0) ->
  sum_over grid_points (fun x => if decide (x ∈ l) then g x else 0) = sum_over l g.
Proof.
  induction l as [|a l IH]; intros Hnd Hout.
  - rewrite sum_over_nil. apply sum_over_zero. intros x _.
    rewrite decide_False; [done|]. apply not_elem_of_nil.
  - apply NoDup_cons in Hnd as (Ha & Hnd). rewrite sum_over_cons, <- IH; [|done|].
    2: { intros n Hn. apply Hout. by apply list_elem_of_further. }
    rewrite <- (sum_over_ext grid_points
      (fun x => (if decide (x = a) then g a else 0)
                + (if decide (x ∈ l) then g x else 0))).
    + rewrite sum_over_plus. f_equal.
      rewrite sum_over_indicator by apply NoDup_range.
      destruct (decide (a ∈ grid_points)) as [|Hg]; [done|].
      symmetry. apply Hout; [apply list_elem_of_here|done].
    + intros x _. destruct (decide (x = a)) as [->|Hxa].
      * rewrite (decide_True (P := a ∈ a :: l)) by apply list_elem_of_here.
        rewrite decide_False by done. lia.
      * destruct (decide (x ∈ l)) as [Hin|Hn].
        -- rewrite decide_True by (by apply list_elem_of_further). lia.
        -- rewrite decide_False; [lia|]. intros [->|?]%elem_of_cons; done.
Qed.

Lemma measure_length l : measure Count l = Z.of_nat (length l).
Proof. induction l as [|x l IH]; [done|]. unfold measure in *. simpl in *. lia. Qed.

Lemma measure_sum l : measure Sum l = Chain.coord_sum l.
Proof. induction l as [|x l IH]; [done|]. unfold measure in *. simpl in *. lia. Qed.

Lemma measure_squares l : measure Squares l = Chain.coord_sum_squared l.
Proof. induction l as [|x l IH]; [done|]. unfold measure in *. simpl in *. lia. Qed.

Lemma aggregates_stat c l :
  Chain.aggregates c l <-> forall s, stat_field s c = measure s l.
Proof.
  unfold Chain.aggregates. rewrite <- measure_length, <- measure_sum, <- measure_squares.
  split.
  - intros (H1 & H2 & H3) []; done.
  - intros H. split; [apply (H Count)|]. split; [apply (H Sum)|apply (H Squares)].
Qed.

Lemma stat_add_liberties s l c :
  stat_field s (add_liberties l c) = stat_field s c + measure s l.
Proof.
  destruct (add_liberties_stats l c) as (_ & H1 & H2 & H3).
  destruct s; simpl; [rewrite measure_length|rewrite measure_sum|rewrite measure_squares];
    done.
Qed.

Lemma stat_merge s c other :
  stat_field s (Chain.merge c other) = stat_field s c + stat_field s other.
Proof. by destruct s. Qed.

Lemma stat_incr s c : stat_field s (Chain.incr_num_stones c) = stat_field s c.
Proof. by destruct s. Qed.

Lemma stat_remove s p c :
  stat_field s (Chain.remove_liberty p c) = stat_field s c - stat_weight s p.
Proof. by destruct s. Qed.

(** What a batch of [remove_liberty] calls takes from the chain at [k]. *)
Lemma stat_ops_on_removes s k (l : list Point) (t : Point -> Point) x c :
  stat_field s (ops_on k (l ≫= fun n => [(t n, Chain.remove_liberty x)]) c)
  = stat_field s c - sum_over l (fun n => if decide (t n = k) then stat_weight s x else 0).
Proof.
  revert c. induction l as [|n l IH]; intros c; [simpl; lia|].
  rewrite bind_cons, ops_on_app, IH, sum_over_cons.
  cbn [ops_on foldl fst snd]. destruct (decide (t n = k)); [|lia].
  rewrite stat_remove. lia.
Qed.

Lemma stat_weight_nonneg_count n : 0 <= stat_weight Count n.
Proof. simpl. lia. Qed.

(** The statistic [s] of the pseudo-liberties of the points in [M], when the
    points in [E] count as empty. *)
Definition tally (M E : Point -> Prop) `{forall x, Decision (M x)}
    `{forall n, Decision (E n)} (s : stat) : Z :=
  sum_over grid_points
    (fun x => if decide (M x) then measure s (filter E (neighbours x)) else 0).

Section Tally.
Context (M M' E E' : Point -> Prop).
Context `{forall x, Decision (M x)} `{forall x, Decision (M' x)}.
Context `{forall n, Decision (E n)} `{forall n, Decision (E' n)}.

Lemma tally_ext s :
  (forall x, M x <-> M' x) ->
  (forall x n, M x -> n ∈ neighbours x -> E n <-> E' n) ->
  tally M E s = tally M' E' s.
Proof.
  intros HM HE. apply sum_over_ext. intros x _.
  rewrite (decide_ext (M x) (M' x)) by apply HM.
  destruct (decide (M' x)) as [Hx|]; [|done]. apply HM in Hx.
  f_equal. apply filter_ext_in. intros n Hn. by apply (HE x).
Qed.

Lemma tally_none s :
  (forall x n, M x -> n ∈ neighbours x -> ~ E n) -> tally M E s = 0.
Proof.
  intros Hnone. apply sum_over_zero. intros x _.
  destruct (decide (M x)) as [Hx|]; [|done].
  assert (filter E (neighbours x) = []) as ->; [|done].
  apply elem_of_nil_inv. intros n (Hn & Hin)%list_elem_of_filter. by apply (Hnone x n).
Qed.

Lemma tally_single s p :
  0 <= p < 441 -> (forall x, M x <-> x = p) ->
  tally M E s = measure s (filter E (neighbours p)).
Proof.
  intros Hp HM. unfold tally.
  rewrite (sum_over_ext _ _
    (fun x => if decide (x = p) then measure s (filter E (neighbours p)) else 0)).
  - rewrite sum_over_indicator by apply NoDup_range.
    rewrite decide_True; [done|]. by apply elem_of_range.
  - intros x _. rewrite (decide_ext (M x) (x = p)) by apply HM.
    by destruct (decide (x = p)) as [->|].
Qed.

Lemma tally_pos :
  0 < tally M E Count <->
  exists x n, x ∈ grid_points /\ M x /\ n ∈ neighbours x /\ E n.
Proof.
  unfold tally. rewrite sum_over_pos.
  - split.
    + intros (x & Hx & Hpos). destruct (decide (M x)) as [HMx|]; [|lia].
      rewrite measure_length in Hpos.
      destruct (filter E (neighbours x)) as [|n l] eqn:El; [simpl in Hpos; lia|].
      assert (n ∈ filter E (neighbours x)) as (Hn & Hin)%list_elem_of_filter
        by (rewrite El; apply list_elem_of_here).
      by exists x, n.
    + intros (x & n & Hx & HMx & Hn & HEn). exists x. split; [done|].
      rewrite decide_True by done. rewrite measure_length.
      assert (n ∈ filter E (neighbours x)) as Hin by (by apply list_elem_of_filter).
      destruct (filter E (neighbours x)); [by apply elem_of_nil in Hin|]. simpl. lia.
  - intros x _. destruct (decide (M x)); [|done]. rewrite measure_length. lia.
Qed.
End Tally.

Lemma tally_union (M M1 M2 E : Point -> Prop) `{forall x, Decision (M x)}
    `{forall x, Decision (M1 x)} `{forall x, Decision (M2 x)}
    `{forall n, Decision (E n)} s :
  (forall x, M x <-> M1 x \/ M2 x) -> (forall x, M1 x -> M2 x -> False) ->
  tally M E s = tally M1 E s + tally M2 E s.
Proof.
  intros HM Hdisj. unfold tally. rewrite <- sum_over_plus.
  apply sum_over_ext. intros x _.
  destruct (decide (M1 x)) as [Hx1|Hx1], (decide (M2 x)) as [Hx2|Hx2].
  - by destruct (Hdisj x).
  - rewrite decide_True by (apply HM; by left). lia.
  - rewrite decide_True by (apply HM; by right). lia.
  - rewrite decide_False; [lia|]. by intros [?|?]%HM.
Qed.

(** Each adjacency between a point of [M] and a point of [C] is seen once
    from either side. *)
Lemma adjacency_swap (M : Point -> Prop) `{forall x, Decision (M x)} (C : list Point) s :
  NoDup C -> (forall x, M x -> x ∈ grid_points) ->
  sum_over grid_points (fun x =>
    if decide (M x)
    then sum_over (neighbours x) (fun n => if decide (n ∈ C) then stat_weight s n else 0)
    else 0)
  = sum_over C (fun y =>
      sum_over (neighbours y) (fun n => if decide (M n) then stat_weight s y else 0)).
Proof.
  intros Hnd Hgrid. induction C as [|y C IH].
  - rewrite sum_over_nil. apply sum_over_zero. intros x _.
    destruct (decide (M x)); [|done]. apply sum_over_zero. intros n _.
    rewrite decide_False; [done|]. apply not_elem_of_nil.
  - apply NoDup_cons in Hnd as (Hy & Hnd). rewrite sum_over_cons, <- (IH Hnd).
    rewrite <- (sum_over_grid (neighbours y)
                  (fun n => if decide (M n) then stat_weight s y else 0)).
    2: apply NoDup_neighbours.
    2: { intros n _ Hn. rewrite decide_False; [done|]. intros Hm. by apply Hn, Hgrid. }
    rewrite <- sum_over_plus. apply sum_over_ext. intros x _.
    destruct (decide (M x)) as [HMx|HMx].
    2: { by destruct (decide (x ∈ neighbours y)). }
    rewrite (sum_over_ext (neighbours x) _
      (fun n => (if decide (n = y) then stat_weight s y else 0)
                + (if decide (n ∈ C) then stat_weight s n else 0))).
    + rewrite sum_over_plus. f_equal.
      rewrite sum_over_indicator by apply NoDup_neighbours.
      apply decide_ext, neighbours_sym.
    + intros n _. destruct (decide (n = y)) as [->|Hny].
      * rewrite (decide_True (P := y ∈ y :: C)) by apply list_elem_of_here.
        rewrite decide_False by done. lia.
      * destruct (decide (n ∈ C)) as [Hin|Hn].
        -- rewrite decide_True by (by apply list_elem_of_further). lia.
        -- rewrite decide_False; [lia|]. intros [->|?]%elem_of_cons; done.
Qed.

(** More points count as empty: those of [C]. *)
Lemma tally_more (M E E' : Point -> Prop) `{forall x, Decision (M x)}
    `{forall n, Decision (E n)} `{forall n, Decision (E' n)} (C : list Point) s :
  NoDup C -> (forall x, M x -> x ∈ grid_points) ->
  (forall n, E' n <-> E n \/ n ∈ C) -> (forall n, n ∈ C -> ~ E n) ->
  tally M E' s
  = tally M E s
    + sum_over C (fun y =>
        sum_over (neighbours y) (fun n => if decide (M n) then stat_weight s y else 0)).
Proof.
  intros Hnd Hgrid HE Hdisj. rewrite <- (adjacency_swap M C s Hnd Hgrid).
  unfold tally. rewrite <- sum_over_plus. apply sum_over_ext. intros x _.
  destruct (decide (M x)); [|done]. unfold measure.
  rewrite !sum_over_filter, <- sum_over_plus. apply sum_over_ext. intros n _.
  destruct (decide (E n)) as [He|He].
  - rewrite decide_True by (apply HE; by left).
    rewrite decide_False; [lia|]. intros Hc. by apply (Hdisj n).
  - destruct (decide (n ∈ C)) as [Hc|Hc].
    + rewrite decide_True by (apply HE; by right). lia.
    + rewrite decide_False; [lia|]. by intros [?|?]%HE.
Qed.

(** ** The statistics of the chains on the board *)

(** The stones of the chain of head [H]. *)
Definition member (b : GoBoard) (H x : Point) : Prop := stone b x /\ hd b x = H.

#[global] Instance member_dec b H x : Decision (member b H x).
Proof. unfold member. apply _. Defined.

Definition vacant (b : GoBoard) (n : Point) : Prop := colr b n = EMPTY.

#[global] Instance vacant_dec b n : Decision (vacant b n).
Proof. unfold vacant. apply _. Defined.

Definition total (s : stat) (b : GoBoard) (H : Point) : Z :=
  tally (member b H) (vacant b) s.

(** Every chain record holds the statistics of the pseudo-liberties of its
    stones. *)
Definition Exact (b : GoBoard) : Prop :=
  forall s H, stone b H -> hd b H = H -> stat_field s (chn b H) = total s b H.

Lemma member_grid b H x : Base b -> member b H x -> x ∈ grid_points.
Proof.
  intros HB (Hs & _). pose proof (stone_on_board b HB x Hs).
  apply elem_of_range. lia.
Qed.

Lemma tally_empty (M E : Point -> Prop) `{forall x, Decision (M x)}
    `{forall n, Decision (E n)} s :
  (forall x, ~ M x) -> tally M E s = 0.
Proof. intros Hno. apply tally_none. intros x n Hx. by destruct (Hno x). Qed.

(** Who points at a stone head is a stone. *)
Lemma head_member b H n :
  Base b -> stone b H -> on_grid n -> hd b n = H -> member b H n.
Proof.
  intros HB HsH Hgn Hn. split; [|done].
  destruct (color_cases b n) as [Hs|[He|Hg]]; [done|exfalso..].
  - destruct (base_empty b HB n He) as (Hself & _).
    apply (stone_not_empty b H HsH). congruence.
  - pose proof (base_guard b HB n Hgn Hg) as Hself.
    apply (stone_not_guard b H HsH). congruence.
Qed.

(** ** Merging keeps the statistics *)

Lemma join_step_chn b L n :
  Inv b -> stone b L -> hd b L = L -> stone b n -> colr b n = colr b L -> hd b n <> L ->
  exists b', join_step L (colr b L) b n = Ok b' /\
    chn b' L = Chain.merge (chn b L) (chn b (hd b n)).
Proof.
  intros Hi HsL HfixL Hsn Hcoln Hne.
  pose proof (inv_base b Hi) as HB. pose proof (base_shaped b HB) as Hsh.
  destruct (Inv_ring_from b n Hi Hsn) as (l & Hringn & Hpathn).
  destruct (inv_head b Hi n Hsn) as (Hcolh & Hfixh).
  set (h := hd b n) in *.
  assert (stone b h) as Hsh' by (unfold stone; by rewrite Hcolh).
  assert (on_grid n) as Hgn by (by apply on_board_grid, (stone_on_board b)).
  assert (on_grid L) as HgL by (by apply on_board_grid, (stone_on_board b)).
  assert (on_grid h) as Hgh by (by apply on_board_grid, (stone_on_board b)).
  destruct Hringn as (Hndn & _ & Hmemn & Hnumn).
  assert (Forall on_grid (n :: l)) as Hgl.
  { apply Forall_forall. intros x (Hx & _)%Hmemn.
    by apply on_board_grid, (stone_on_board b). }
  unfold join_step.
  rewrite point_color_Ok by done. ok. rewrite bool_decide_eq_true_2 by done.
  rewrite chain_head_Ok by done. ok. rewrite bool_decide_eq_true_2 by done.
  rewrite _chain_Ok by done. ok.
  rewrite update_chain_Ok by (done || by rewrite HfixL). ok. rewrite HfixL.
  set (b1 := upd_chain b L _).
  assert (shaped b1) as Hsh1 by (by apply shaped_upd_chain).
  rewrite (relabel_loop_spec L n l n b1 loop_fuel); [|done|done|done| |].
  2: { by apply NoDup_cons in Hndn as (? & _). }
  2: { pose proof (NoDup_on_grid_length (n :: l) Hndn Hgl) as Hlen. simpl in Hlen.
       unfold loop_fuel. change (Z.to_nat VIRTUAL_BOARD_POINTS) with 441%nat. lia. }
  ok.
  destruct (set_heads_spec L (n :: l) b1 Hsh1 Hgl) as (Hsh2 & Hc2 & Hh2 & Hn2 & Hk2 & Hs2 & Hz2).
  set (b2 := set_heads L (n :: l) b1) in *.
  rewrite !vertex_Ok by done. ok.
  rewrite update_vertex_Ok by done. ok.
  rewrite update_vertex_Ok by (done || by apply shaped_upd_vertex).
  eexists. split; [reflexivity|].
  views. rewrite Hk2. unfold b1. views. by rewrite decide_True.
Qed.

Lemma join_step_exact b L n :
  Inv b -> Exact b -> stone b L -> hd b L = L -> stone b n -> colr b n = colr b L ->
  hd b n <> L ->
  exists b', join_step L (colr b L) b n = Ok b' /\ Inv b' /\ Exact b' /\
    (forall q, colr b' q = colr b q) /\
    (forall q, hd b' q = if decide (member b (hd b n) q) then L else hd b q) /\
    scalars b' = scalars b /\ _zobrist_hash b' = _zobrist_hash b.
Proof.
  intros Hi Hex HsL HfixL Hsn Hcoln Hne.
  destruct (join_step_merge b L n Hi HsL HfixL Hsn Hcoln Hne)
    as (b' & E & Hi' & Hc' & Hh' & Hk' & Hs' & Hz').
  destruct (join_step_chn b L n Hi HsL HfixL Hsn Hcoln Hne) as (b'' & E' & HkL).
  rewrite E in E'. injection E' as <-.
  exists b'. split; [done|]. split; [done|]. split; [|done].
  destruct (inv_head b Hi n Hsn) as (Hcolh & Hfixh).
  assert (stone b (hd b n)) as Hsh by (unfold stone; by rewrite Hcolh).
  assert (forall q, stone b' q <-> stone b q) as Hst by (intros q; unfold stone; by rewrite Hc').
  assert (forall (x m : Point), vacant b' m <-> vacant b m) as Hvac
    by (intros _ m; unfold vacant; by rewrite Hc').
  intros s H HsH HfixH. apply Hst in HsH. rewrite Hh' in HfixH.
  destruct (decide (stone b H /\ hd b H = hd b n)) as [(_ & HHn)|HHn].
  { subst H. congruence. }
  unfold total. destruct (decide (H = L)) as [->|HL].
  - rewrite HkL, stat_merge, (Hex s L HsL HfixL), (Hex s (hd b n) Hsh Hfixh).
    unfold total.
    rewrite <- (tally_union (member b' L) (member b L) (member b (hd b n)) (vacant b) s).
    + apply tally_ext; [done|]. intros x m _ _. symmetry. apply (Hvac x).
    + intros x. unfold member. rewrite Hst, Hh'.
      destruct (decide (stone b x /\ hd b x = hd b n)) as [(? & ?)|Hx]; [tauto|].
      split; [tauto|]. intros [?|?]; [done|tauto].
    + intros x (_ & ?) (_ & ?). congruence.
  - rewrite (Hk' H HL), (Hex s H HsH HfixH). unfold total. symmetry.
    apply tally_ext; [|intros x m _ _; apply (Hvac x)].
    intros x. unfold member. rewrite Hst, Hh'.
    destruct (decide (stone b x /\ hd b x = hd b n)) as [(? & Hxn)|Hx]; [|done].
    split; [intros (_ & ?); congruence|]. intros (_ & Hx). exfalso. apply HHn.
    split; [done|]. congruence.
Qed.

(** The chains of color [c] next to [p], seen from the points of [pre]. *)
Definition joins (b : GoBoard) (c : Color) (pre : list Point) (q : Point) : Prop :=
  stone b q /\ Exists (fun n => colr b n = c /\ hd b n = hd b q) pre.

#[global] Instance joins_dec b c pre q : Decision (joins b c pre q).
Proof. unfold joins. apply _. Defined.

Lemma joins_snoc b c pre n q :
  joins b c (pre ++ [n]) q <->
  joins b c pre q \/ (stone b q /\ colr b n = c /\ hd b n = hd b q).
Proof.
  unfold joins. rewrite Exists_app, Exists_cons, Exists_nil. tauto.
Qed.

Lemma merge_loop_exact b p L c :
  Inv b -> Exact b -> 22 <= p <= 418 -> is_stone c = true ->
  stone b L -> hd b L = L -> colr b L = c ->
  exists bm, for_each (neighbours p) (join_step L c) b = Ok bm /\ Inv bm /\ Exact bm /\
    (forall q, colr bm q = colr b q) /\ hd bm L = L /\
    (forall q, hd bm q = if decide (joins b c (neighbours p) q) then L else hd b q) /\
    scalars bm = scalars b /\ _zobrist_hash bm = _zobrist_hash b.
Proof.
  intros Hi Hex Hp Hc HsL HfixL HcL.
  destruct (for_each_inv
    (fun (pre : list Z) bm =>
       Inv bm /\ Exact bm /\ (forall q, colr bm q = colr b q) /\ hd bm L = L /\
       (forall q, hd bm q = if decide (joins b c pre q) then L else hd b q) /\
       scalars bm = scalars b /\ _zobrist_hash bm = _zobrist_hash b)
    (neighbours p) (join_step L c) b) as (bm & E & HP).
  - repeat (split; [done|]). split; [|done]. intros q.
    rewrite decide_False; [done|]. intros (_ & Hex'). by apply Exists_nil in Hex'.
  - intros pre n post b' Hl (Hi' & Hex' & Hc' & Hfix' & Hh' & Hs' & Hz').
    assert (n ∈ neighbours p) as Hn.
    { rewrite Hl. apply elem_of_app. right. apply list_elem_of_here. }
    assert (on_grid n) as Hgn by (by apply (neighbours_on_grid p)).
    pose proof (inv_base b' Hi') as HB'.
    destruct (decide (colr b' n = c /\ hd b' n <> L)) as [(Hcn & Hhn)|Hskip].
    + assert (stone b' L) as HsL' by (unfold stone; by rewrite Hc').
      assert (stone b' n) as Hsn' by (unfold stone; by rewrite Hcn).
      assert (colr b' L = c) as HcL' by (by rewrite Hc').
      destruct (join_step_exact b' L n Hi' Hex' HsL' Hfix' Hsn' ltac:(congruence) Hhn)
        as (b'' & E'' & Hi'' & Hex'' & Hc'' & Hh'' & Hs'' & Hz'').
      rewrite HcL' in E''. exists b''. split; [done|]. split; [done|]. split; [done|].
      split; [intros q; by rewrite Hc''|]. split.
      * rewrite Hh'', decide_False; [done|]. intros (_ & ?). congruence.
      * split; [|split; congruence]. intros q. rewrite Hh''.
        assert (~ joins b c pre n /\ hd b' n = hd b n) as (Hnj & Hnh).
        { pose proof (Hh' n) as Hhn'. destruct (decide (joins b c pre n)); [done|]. done. }
        assert (forall x, stone b' x <-> stone b x) as Hst'
          by (intros x; unfold stone; by rewrite Hc').
        pose proof (Hh' q) as Hq.
        rewrite (decide_ext _ _ _ _ (joins_snoc b c pre n q)).
        rewrite Hc' in Hcn.
        destruct (decide (joins b c pre q)) as [Hj|Hj].
        -- rewrite decide_False.
           ++ rewrite decide_True by (by left). done.
           ++ intros (_ & ?). congruence.
        -- destruct (decide (stone b q /\ hd b q = hd b n)) as [(Hsq & Hqn)|Hqn].
           ++ rewrite decide_True by (split; [by apply Hst'|congruence]).
              rewrite decide_True; [done|]. right. done.
           ++ rewrite decide_False.
              ** rewrite decide_False; [done|]. intros [?|(? & _ & ?)]; [done|].
                 apply Hqn. done.
              ** intros (Hs & Hh). apply Hqn. split; [by apply Hst'|congruence].
    + assert (colr b' n = c -> hd b' n = L) as Hskip'.
      { intros Hcn. destruct (decide (hd b' n = L)); [done|]. exfalso. by apply Hskip. }
      exists b'. split; [by apply join_step_skip; [apply HB'|done|]|].
      split; [done|]. split; [done|]. split; [done|]. split; [done|]. split; [|done].
      intros q. rewrite Hh'.
      rewrite (decide_ext _ _ _ _ (joins_snoc b c pre n q)).
      destruct (decide (joins b c pre q)) as [Hj|Hj].
      * rewrite decide_True; [done|]. by left.
      * destruct (decide (stone b q /\ colr b n = c /\ hd b n = hd b q))
          as [(Hsq & Hcn & Hq)|Hq].
        -- rewrite decide_True by (by right).
           rewrite <- Hc' in Hcn. specialize (Hskip' Hcn). rewrite Hh' in Hskip'.
           destruct (decide (joins b c pre n)) as [(_ & Hjn)|_]; [|congruence].
           exfalso. apply Hj. split; [done|]. rewrite <- Hq. done.
        -- rewrite decide_False; [done|]. intros [?|?]; done.
  - exists bm. done.
Qed.

(** The largest chain found next to [p] is the chain of a neighbour. *)
Lemma largest_chain_adjacent b p c L s :
  Inv b -> 22 <= p <= 418 -> is_stone c = true ->
  largest_chain b p c = Ok (L, s) -> s <> 0 ->
  Exists (fun n => colr b n = c /\ hd b n = L) (neighbours p).
Proof.
  intros Hi Hp Hc. pose proof (inv_base b Hi) as HB. pose proof (base_shaped b HB) as Hsh.
  unfold largest_chain.
  destruct (for_each_inv
    (fun pre (st : Z * Z) =>
       st.2 = 0 \/ (0 < st.2 /\ Exists (fun n => colr b n = c /\ hd b n = st.1) pre))
    (neighbours p)
    (fun '(largest_chain_head, largest_chain_size) n =>
       nc ← point_color b n;
       if bool_decide (nc = c) then
         chain ← _chain b n;
         if largest_chain_size <? Chain.num_stones chain then
           h ← chain_head b n; Ok (h, Chain.num_stones chain)
         else Ok (largest_chain_head, largest_chain_size)
       else Ok (largest_chain_head, largest_chain_size))
    (INVALID_POINT, 0)) as ([L' s'] & E & HP).
  - by left.
  - intros pre n post [L0 s0] Hl HP. simpl in HP.
    assert (n ∈ neighbours p) as Hn.
    { rewrite Hl. apply elem_of_app. right. apply list_elem_of_here. }
    assert (on_grid n) as Hgn by (by apply (neighbours_on_grid p)).
    rewrite point_color_Ok by done. ok. rewrite bool_decide_decide.
    destruct (decide (colr b n = c)) as [Hcn|Hcn].
    + assert (stone b n) as Hsn by (unfold stone; by rewrite Hcn).
      pose proof (Inv_num_stones_pos b n Hi Hsn) as Hpos.
      pose proof (Inv_head_on_grid b n Hi Hsn) as Hgh.
      rewrite _chain_Ok by done. ok.
      destruct (s0 <? Chain.num_stones (chn b (hd b n))) eqn:Hlt.
      * rewrite chain_head_Ok by done. ok. eexists. split; [done|]. right. simpl.
        split; [done|]. apply Exists_app. right. by apply Exists_cons_hd.
      * eexists. split; [done|]. simpl. apply Z.ltb_ge in Hlt.
        destruct HP as [->|(? & HP)]; [lia|]. right. split; [done|].
        apply Exists_app. by left.
    + eexists. split; [done|]. simpl. destruct HP as [->|(? & HP)]; [by left|right].
      split; [done|]. apply Exists_app. by left.
  - rewrite E. intros [= -> ->] Hs. simpl in HP. destruct HP as [?|(_ & ?)]; done.
Qed.

(** ** Placing a stone keeps the statistics *)

(** Between [_set_stone] and [_remove_liberty_from_neighbouring_chains]
    the point [p] still counts as a liberty of the chains around it. *)
Definition PlacedExact (b : GoBoard) (p : Point) : Prop :=
  forall s H, stone b H -> hd b H = H ->
    stat_field s (chn b H) = tally (member b H) (fun n => vacant b n \/ n = p) s.

Lemma placed_exact bm b2 p c L' :
  Inv bm -> Exact bm -> colr bm p = EMPTY -> is_stone c = true ->
  (forall q, colr b2 q = if decide (q = p) then c else colr bm q) ->
  (forall q, hd b2 q = if decide (q = p) then L' else hd bm q) ->
  (L' = p \/ (stone bm L' /\ hd bm L' = L')) ->
  (forall k, k <> L' -> chn b2 k = chn bm k) ->
  (forall s, stat_field s (chn b2 L')
     = (if decide (L' = p) then 0 else stat_field s (chn bm L'))
       + measure s (empties bm p)) ->
  PlacedExact b2 p.
Proof.
  intros Hi Hex Hpe Hc Hcol Hhd HL' Hk HkL s H HsH HfixH.
  pose proof (inv_base bm Hi) as HB.
  pose proof (empty_on_board bm HB p Hpe) as Hp.
  assert (forall x, x <> p -> stone b2 x <-> stone bm x) as Hst.
  { intros x Hx. unfold stone. by rewrite Hcol, decide_False. }
  assert (stone b2 p) as Hsp by (unfold stone; by rewrite Hcol, decide_True).
  assert (forall H', ~ member bm H' p) as Hnp.
  { intros H' (Hs & _). by apply (stone_not_empty bm) in Hs. }
  assert (forall n, (vacant b2 n \/ n = p) <-> vacant bm n) as Hvac.
  { intros n. unfold vacant. rewrite Hcol.
    destruct (decide (n = p)) as [->|Hn]; [tauto|].
    split; [intros [?|?]; done|tauto]. }
  assert (forall H' x, x <> p -> member b2 H' x <-> member bm H' x) as Hmem.
  { intros H' x Hx. unfold member. by rewrite (Hst x Hx), Hhd, decide_False. }
  destruct (decide (H = L')) as [->|HHL].
  - rewrite HkL.
    rewrite (tally_union (member b2 L') (fun x => x = p) (member bm L')
               (fun n => vacant b2 n \/ n = p) s).
    + rewrite (tally_single _ _ s p) by (done || lia).
      rewrite (filter_ext_in _ (fun n => colr bm n = EMPTY)) by (intros n _; apply Hvac).
      change (filter _ (neighbours p)) with (empties bm p).
      rewrite (tally_ext (member bm L') (member bm L') _ (vacant bm) s);
        [|done|intros x n _ _; apply Hvac].
      destruct (decide (L' = p)) as [->|HLp].
      * rewrite (tally_empty (member bm p)); [lia|].
        intros x (Hs & Hh). pose proof (Inv_head_stone bm x Hi Hs) as Hsh.
        rewrite Hh in Hsh. by apply (stone_not_empty bm) in Hsh.
      * destruct HL' as [?|(HsL & HfL)]; [done|].
        rewrite (Hex s L' HsL HfL). unfold total. lia.
    + intros x. destruct (decide (x = p)) as [->|Hx].
      * split; [by left|]. intros _. split; [done|]. by rewrite Hhd, decide_True.
      * rewrite (Hmem L' x Hx). split; [by right|]. by intros [?|?].
    + intros x -> Hx. by apply (Hnp L').
  - assert (H <> p) as HHp.
    { intros ->. rewrite Hhd, decide_True in HfixH by done. congruence. }
    apply (Hst H HHp) in HsH. rewrite Hhd, decide_False in HfixH by done.
    rewrite (Hk H HHL), (Hex s H HsH HfixH). unfold total. symmetry.
    apply tally_ext; [|intros x n _ _; apply Hvac].
    intros x. destruct (decide (x = p)) as [->|Hx]; [|by apply Hmem].
    split; [|by intros ?%Hnp]. intros (_ & Hh). rewrite Hhd, decide_True in Hh by done.
    congruence.
Qed.

Section Accounting.
Variable ZOBRIST : list (list Z).
Hypothesis HZ : table_shaped ZOBRIST.

Lemma init_chn b p c :
  Inv b -> colr b p = EMPTY -> is_stone c = true ->
  exists b1 b2, _init_new_chain b p = Ok b1 /\ _set_stone ZOBRIST b1 p c = Ok b2 /\
    (forall q, hd b2 q = if decide (q = p) then p else hd b q) /\
    (forall k, chn b2 k =
       if decide (k = p) then add_liberties (empties b p) (Chain.mk 1 0 0 0)
       else chn b k).
Proof.
  intros Hi Hpe Hc. pose proof (inv_base b Hi) as HB.
  pose proof (empty_on_board b HB p Hpe) as Hp.
  destruct (_init_new_chain_spec b p (base_shaped b HB) Hp)
    as (b1 & E1 & Hsh1 & Hc1 & Hh1 & Hn1 & Hk1 & Hs1 & Hz1).
  destruct (_set_stone_spec ZOBRIST HZ b1 p c Hsh1 (on_board_grid p Hp))
    as (b2 & E2 & Hsh2 & Hc2 & Hh2 & Hn2 & Hk2 & Hs2 & Hz2).
  exists b1, b2. split; [done|]. split; [done|]. split.
  - intros q. by rewrite Hh2, Hh1.
  - intros k. by rewrite Hk2, Hk1.
Qed.

Lemma join_insert_chn bm p L c :
  Inv bm -> colr bm p = EMPTY -> is_stone c = true ->
  stone bm L -> hd bm L = L ->
  exists b1 b2, join_insert L bm p = Ok b1 /\ _set_stone ZOBRIST b1 p c = Ok b2 /\
    (forall q, hd b2 q = if decide (q = p) then L else hd bm q) /\
    (forall k, chn b2 k =
       if decide (k = L)
       then add_liberties (empties bm p) (Chain.incr_num_stones (chn bm L))
       else chn bm k).
Proof.
  intros Hi Hpe Hc HsL HfixL. pose proof (inv_base bm Hi) as HB.
  pose proof (base_shaped bm HB) as Hsh.
  pose proof (empty_on_board bm HB p Hpe) as Hp.
  assert (on_grid p) as Hgp by (by apply on_board_grid).
  assert (on_grid L) as HgL by (by apply on_board_grid, (stone_on_board bm)).
  assert (L <> p) as HLp by (intros ->; by apply (stone_not_empty bm) in HsL).
  unfold join_insert.
  rewrite vertex_Ok by done. ok. change (Vertex.chain_next (vtx bm L)) with (nx bm L).
  rewrite update_vertex_Ok by done. ok.
  set (b1 := upd_vertex bm p _). assert (shaped b1) as Hsh1 by (by apply shaped_upd_vertex).
  rewrite update_vertex_Ok by done. ok.
  set (b2 := upd_vertex b1 L _). assert (shaped b2) as Hsh2 by (by apply shaped_upd_vertex).
  rewrite update_vertex_Ok by done. ok.
  set (b3 := upd_vertex b2 p _). assert (shaped b3) as Hsh3 by (by apply shaped_upd_vertex).
  assert (forall q, colr b3 q = colr bm q) as Hc3 by (intros q; unfold b3, b2, b1; by views).
  assert (forall q, hd b3 q = if decide (q = p) then L else hd bm q) as Hh3
    by (intros q; unfold b3, b2, b1; by views).
  assert (hd b3 L = L) as HL3 by (by rewrite Hh3, decide_False).
  rewrite update_chain_Ok by (done || by rewrite HL3). ok. rewrite HL3.
  set (b4 := upd_chain b3 L _). assert (shaped b4) as Hsh4 by (by apply shaped_upd_chain).
  set (sel := fun n => if decide (colr bm n = EMPTY)
                       then [(L, Chain.add_liberty n)] else []).
  assert (forall n, Forall (fun o : chain_op => o.1 = L) (sel n)) as Hsel.
  { intros n. unfold sel. destruct (decide _); repeat constructor. }
  rewrite (for_each_ops (neighbours p) _ sel b4); [|done| |].
  2: { intros n Hn. eapply Forall_impl; [apply Hsel|]. by intros o ->. }
  2: { intros b' n Hn Hsh' Hsame.
       rewrite is_empty_Ok by (done || by apply (neighbours_on_grid p)). ok.
       assert (colr b' n = colr bm n) as ->.
       { unfold colr, vtx. rewrite Hsame. apply (Hc3 n). }
       assert (hd b' L = L) as EL by (unfold hd, vtx; rewrite Hsame; apply HL3).
       rewrite bool_decide_decide. unfold sel. destruct (decide _); [|done].
       rewrite update_chain_Ok; [by rewrite EL|done|done|by rewrite EL]. }
  set (b5 := apply_ops (neighbours p ≫= sel) b4).
  assert (shaped b5) as Hsh5 by (by apply shaped_apply_ops).
  assert (forall k, chn b5 k = ops_on k (neighbours p ≫= sel) (chn b4 k)) as Hk5.
  { intros k. unfold b5. apply chn_apply_ops; [done|].
    apply Forall_forall. intros o (n & Ho & Hn)%list_elem_of_bind.
    specialize (Hsel n). rewrite Forall_forall in Hsel. by rewrite (Hsel o Ho). }
  destruct (_set_stone_spec ZOBRIST HZ b5 p c Hsh5 Hgp)
    as (b6 & E6 & Hsh6 & Hc6 & Hh6 & Hn6 & Hk6 & Hs6 & Hz6).
  exists b5, b6. split; [done|]. split; [done|]. split.
  - intros q. rewrite Hh6. unfold b5. rewrite hd_apply_ops. unfold b4. views. apply Hh3.
  - intros k. rewrite Hk6, Hk5. unfold b4. views.
    destruct (decide (k = L)) as [->|Hk].
    + unfold sel. rewrite (ops_on_adds (fun n => colr bm n = EMPTY)).
      unfold b3, b2, b1. by views.
    + unfold b3, b2, b1. views.
      apply ops_on_other. apply Forall_forall.
      intros o (n & Ho & Hn)%list_elem_of_bind.
      specialize (Hsel n). rewrite Forall_forall in Hsel. rewrite (Hsel o Ho). congruence.
Qed.

Lemma _remove_liberty_chn b p :
  Placed b p ->
  exists b', _remove_liberty_from_neighbouring_chains b p = Ok b' /\
    forall s k, stat_field s (chn b' k)
      = stat_field s (chn b k)
        - sum_over (neighbours p)
            (fun n => if decide (hd b n = k) then stat_weight s p else 0).
Proof.
  intros [Hsh Hsz Har Hgd Hsp Hem Hhd Hrg Hadj].
  assert (forall q, colr b q <> GUARD -> 22 <= q <= 418) as Hon.
  { intros q Hq. apply (in_board_area_range b); [done|]. by apply Har. }
  assert (forall q, stone b q -> 22 <= q <= 418) as Hons.
  { intros q Hq. apply Hon. unfold stone in Hq. by destruct (colr b q). }
  pose proof (Hons p Hsp) as Hp.
  assert (forall n, n ∈ neighbours p -> on_grid n) as Hng by (intros n; by apply neighbours_on_grid).
  assert (forall n, n ∈ neighbours p -> on_grid (hd b n)) as Htarget.
  { intros n Hn. unfold stone in *.
    destruct (colr b n) eqn:Hc.
    - destruct (Hhd n) as (Hch & _); [by rewrite Hc|].
      unfold on_grid. assert (22 <= hd b n <= 418); [|lia]. apply Hons. by rewrite Hch, Hc.
    - destruct (Hhd n) as (Hch & _); [by rewrite Hc|].
      unfold on_grid. assert (22 <= hd b n <= 418); [|lia]. apply Hons. by rewrite Hch, Hc.
    - destruct (Hem n Hc) as (-> & _). by apply Hng.
    - rewrite (Hgd n (Hng n Hn) Hc). by apply Hng. }
  unfold _remove_liberty_from_neighbouring_chains.
  set (sel := fun n => [(hd b n, Chain.remove_liberty p) : chain_op]).
  rewrite (for_each_ops (neighbours p) _ sel b); [|done| |].
  2: { intros n Hn. constructor; [|constructor]. by apply Htarget. }
  2: { intros b' n Hn Hsh' Hsame.
       assert (hd b' n = hd b n) as Ehd by (unfold hd, vtx; by rewrite Hsame).
       rewrite update_chain_Ok; [by rewrite Ehd|done|auto|].
       rewrite Ehd. by apply Htarget. }
  eexists. split; [reflexivity|]. intros s k.
  rewrite chn_apply_ops; [|done|].
  2: { apply Forall_forall. intros o (n & Ho & Hn)%list_elem_of_bind.
       apply list_elem_of_singleton in Ho as ->. by apply Htarget. }
  apply stat_ops_on_removes.
Qed.

Lemma _remove_liberty_exact b p :
  Placed b p -> PlacedExact b p ->
  exists b', _remove_liberty_from_neighbouring_chains b p = Ok b' /\ Inv b' /\ Exact b' /\
    (forall q, colr b' q = colr b q) /\
    (forall q, hd b' q = hd b q) /\
    scalars b' = scalars b /\ _zobrist_hash b' = _zobrist_hash b.
Proof.
  intros Hpl Hpe.
  destruct (_remove_liberty_spec b p Hpl) as (b' & E & Hi' & Hc' & Hh' & _ & Hs' & Hz').
  destruct (_remove_liberty_chn b p Hpl) as (b'' & E' & Hk').
  rewrite E in E'. injection E' as <-.
  exists b'. split; [done|]. split; [done|]. split; [|done].
  pose proof (inv_base b' Hi') as HB'.
  assert (stone b' p) as Hsp by (unfold stone; rewrite Hc'; apply Hpl).
  pose proof (stone_on_board b' HB' p Hsp) as Hp.
  intros s H HsH HfixH.
  assert (stone b H) as HsH0 by (unfold stone; by rewrite <- Hc').
  rewrite Hk', (Hpe s H HsH0) by (by rewrite <- Hh').
  assert (tally (member b H) (fun n => vacant b n \/ n = p) s
          = tally (member b' H) (fun n => vacant b' n \/ n ∈ [p]) s) as ->.
  { apply tally_ext.
    - intros x. unfold member, stone. by rewrite Hc', Hh'.
    - intros x n _ _. unfold vacant. rewrite Hc', list_elem_of_singleton. done. }
  rewrite (tally_more (member b' H) (vacant b') (fun n => vacant b' n \/ n ∈ [p]) [p] s).
  - rewrite sum_over_cons, sum_over_nil. unfold total.
    rewrite (sum_over_ext (neighbours p)
      (fun n => if decide (hd b n = H) then stat_weight s p else 0)
      (fun n => if decide (member b' H n) then stat_weight s p else 0)); [lia|].
    intros n Hn. apply decide_ext. rewrite <- Hh'. split.
    + intros Hhn. apply head_member; [done|done| |done]. by apply (neighbours_on_grid p).
    + by intros (_ & ?).
  - apply NoDup_singleton.
  - intros x. by apply member_grid.
  - done.
  - intros n ->%list_elem_of_singleton. by apply (stone_not_empty b').
Qed.
End Accounting.

Section AccountingOfPlay.
Variable ZOBRIST : list (list Z).
Hypothesis HZ : table_shaped ZOBRIST.

(** [_join_chains_around], [_set_stone] and
    [_remove_liberty_from_neighbouring_chains]: the chain of [p] is [p]
    with the chains of its color around it, and the statistics are those of
    the new position. *)
Lemma place_exact b p c :
  Inv b -> Exact b -> colr b p = EMPTY -> is_stone c = true ->
  exists b1 b2 b3,
    _join_chains_around b p c = Ok b1 /\ _set_stone ZOBRIST b1 p c = Ok b2 /\
    _remove_liberty_from_neighbouring_chains b2 p = Ok b3 /\
    Exact b3 /\
    (forall q, hd b3 q =
       if decide (q = p \/ joins b c (neighbours p) q) then hd b3 p else hd b q) /\
    (forall x, member b3 (hd b3 p) x <-> x = p \/ joins b c (neighbours p) x).
Proof.
  intros Hi Hex Hpe Hc. pose proof (inv_base b Hi) as HB.
  pose proof (empty_on_board b HB p Hpe) as Hp.
  assert (exists b1 b2 L', _join_chains_around b p c = Ok b1 /\
            _set_stone ZOBRIST b1 p c = Ok b2 /\ Placed b2 p /\ PlacedExact b2 p /\
            (forall q, colr b2 q = if decide (q = p) then c else colr b q) /\
            (forall q, hd b2 q =
               if decide (q = p \/ joins b c (neighbours p) q) then L' else hd b q) /\
            (forall x, stone b x -> hd b x = L' -> joins b c (neighbours p) x))
    as (b1 & b2 & L' & E1 & E2 & Hpl & Hpx & Hc2 & Hh2 & HL').
  { unfold _join_chains_around.
    destruct (largest_chain_spec b p c Hi Hp Hc) as (L & s & EL & Hcase).
    pose proof (largest_chain_adjacent b p c L s Hi Hp Hc EL) as Hadj.
    rewrite EL. ok.
    destruct Hcase as [(-> & Hnofriend)|(Hs & HsL & HfixL & HcL)].
    - simpl.
      destruct (init_placed ZOBRIST HZ b p c Hi Hpe Hc Hnofriend)
        as (b1 & b2 & E1 & E2 & Hpl & Hc2 & _).
      destruct (init_chn ZOBRIST HZ b p c Hi Hpe Hc) as (b1' & b2' & E1' & E2' & Hh2 & Hk2).
      rewrite E1 in E1'. injection E1' as <-. rewrite E2 in E2'. injection E2' as <-.
      assert (forall q, ~ joins b c (neighbours p) q) as Hnj.
      { intros q (_ & (n & Hn & Hcn & _)%Exists_exists). by apply (Hnofriend n). }
      exists b1, b2, p. split; [done|]. split; [done|]. split; [done|]. split; [|split; [done|split]].
      + apply (placed_exact b b2 p c p); try done.
        * by left.
        * intros k Hk. by rewrite Hk2, decide_False.
        * intros st. rewrite Hk2, !decide_True by done. rewrite stat_add_liberties.
          by destruct st.
      + intros q. rewrite Hh2. apply decide_ext. split; [by left|].
        intros [?|?]; [done|]. by destruct (Hnj q).
      + intros x Hx Hh. exfalso. pose proof (Inv_head_stone b x Hi Hx) as Hs.
        rewrite Hh in Hs. by apply (stone_not_empty b) in Hs.
    - specialize (Hadj Hs). apply Z.eqb_neq in Hs. rewrite Hs.
      destruct (merge_loop_exact b p L c Hi Hex Hp Hc HsL HfixL HcL)
        as (bm & -> & Him & Hexm & Hcm & HfixLm & Hhm & Hsm & Hzm). ok.
      assert (colr bm p = EMPTY) as Hpem by (by rewrite Hcm).
      assert (stone bm L) as HsLm by (unfold stone; by rewrite Hcm).
      assert (L <> p) as HLp by (intros ->; by apply (stone_not_empty b) in HsL).
      destruct (join_insert_placed ZOBRIST HZ bm p L c Him Hpem Hc HsLm HfixLm)
        as (b1 & b2 & E1 & E2 & Hpl & Hc2 & _).
      { by rewrite Hcm. }
      { intros n Hn Hcn. rewrite Hcm in Hcn. rewrite Hhm, decide_True; [done|].
        split; [unfold stone; by rewrite Hcn|].
        apply Exists_exists. by exists n. }
      destruct (join_insert_chn ZOBRIST HZ bm p L c Him Hpem Hc HsLm HfixLm)
        as (b1' & b2' & E1' & E2' & Hh2 & Hk2).
      rewrite E1 in E1'. injection E1' as <-. rewrite E2 in E2'. injection E2' as <-.
      exists b1, b2, L. split; [done|]. split; [done|]. split; [done|].
      split; [|split; [|split]].
      + apply (placed_exact bm b2 p c L); try done.
        * by right.
        * intros k Hk. by rewrite Hk2, decide_False.
        * intros st. rewrite Hk2, decide_True, decide_False by done.
          by rewrite stat_add_liberties, stat_incr.
      + intros q. by rewrite Hc2, Hcm.
      + intros q. rewrite Hh2, Hhm.
        destruct (decide (q = p)) as [->|Hq].
        * rewrite decide_True; [done|]. by left.
        * apply decide_ext. split; [by right|]. by intros [?|?].
      + intros x Hx Hh. split; [done|].
        apply Exists_exists in Hadj as (n & Hn & Hcn & HnL).
        apply Exists_exists. exists n. split; [done|]. split; [done|]. congruence. }
  destruct (_remove_liberty_exact b2 p Hpl Hpx) as (b3 & E3 & Hi3 & Hex3 & Hc3 & Hh3 & _).
  exists b1, b2, b3. split; [done|]. split; [done|]. split; [done|]. split; [done|].
  assert (hd b3 p = L') as HpL.
  { rewrite Hh3, Hh2, decide_True; [done|]. by left. }
  split.
  - intros q. by rewrite HpL, Hh3, Hh2.
  - intros x. rewrite HpL. unfold member, stone. rewrite Hh3, Hc3, Hh2, Hc2.
    destruct (decide (x = p)) as [->|Hx].
    + rewrite decide_True by (by left). split; [by left|]. done.
    + destruct (decide (x = p \/ joins b c (neighbours p) x)) as [[?|Hj]|Hj]; [done| |].
      * split; [by right|]. intros _. split; [apply Hj|done].
      * split; [|by intros [?|?]; [|destruct Hj; right]].
        intros (Hs & Hh). right. by apply HL'.
Qed.

(** Captures keep the statistics: a chain gets back the liberties that the
    captured stones next to it leave behind. *)
Lemma Captured_exact b c caps k b' :
  Inv b -> Exact b -> is_stone c = true -> Captured ZOBRIST b c caps k b' -> Exact b'.
Proof.
  intros Hi Hex Hc HC s H HsH HfixH. pose proof (inv_base b Hi) as HB.
  assert (forall q, q ∈ caps -> stone b q) as Hcs.
  { intros q Hq. destruct (capt_in _ _ _ _ _ _ HC q Hq) as (Hcq & _).
    unfold stone. rewrite Hcq. by apply opponent_stone. }
  assert (H ∉ caps) as HH.
  { intros Hin. unfold stone in HsH. by rewrite (capt_color _ _ _ _ _ _ HC), decide_True in HsH. }
  assert (stone b H) as HsH0.
  { unfold stone in *. by rewrite (capt_color _ _ _ _ _ _ HC), decide_False in HsH. }
  assert (hd b H = H) as HfixH0.
  { by destruct (capt_out _ _ _ _ _ _ HC H HH) as (<- & _). }
  rewrite (capt_grants _ _ _ _ _ _ HC H HH), stat_add_liberties, (Hex s H HsH0 HfixH0).
  unfold total.
  assert (tally (member b' H) (vacant b') s
          = tally (member b H) (fun n => vacant b n \/ n ∈ caps) s) as ->.
  { apply tally_ext.
    - intros x. unfold member, stone. rewrite (capt_color _ _ _ _ _ _ HC).
      destruct (decide (x ∈ caps)) as [Hx|Hx].
      + split; [by intros (? & _)|]. intros (_ & Hh).
        destruct (capt_in _ _ _ _ _ _ HC x Hx) as (_ & Hin & _). congruence.
      + by destruct (capt_out _ _ _ _ _ _ HC x Hx) as (-> & _).
    - intros x n _ _. unfold vacant. rewrite (capt_color _ _ _ _ _ _ HC).
      destruct (decide (n ∈ caps)) as [Hn|Hn]; [tauto|].
      split; [by left|]. by intros [?|?]. }
  rewrite (tally_more (member b H) (vacant b) (fun n => vacant b n \/ n ∈ caps) caps s).
  - f_equal. unfold measure, grants. rewrite sum_over_bind.
    apply sum_over_ext. intros y Hy. rewrite sum_over_bind.
    apply sum_over_ext. intros n Hn.
    assert (hd b n = H <-> member b H n) as Hm.
    { split; [|by intros (_ & ?)]. intros Hhn. apply head_member; [done|done| |done].
      apply (neighbours_on_grid y); [|done]. apply (stone_on_board b HB). by apply Hcs. }
    rewrite (decide_ext _ _ _ _ Hm). destruct (decide (member b H n)); [|done].
    rewrite sum_over_cons, sum_over_nil. lia.
  - apply (capt_nodup _ _ _ _ _ _ HC).
  - intros x. by apply member_grid.
  - done.
  - intros n Hn. by apply (stone_not_empty b), Hcs.
Qed.

Lemma Exact_with_last_ko_point b k : Exact b -> Exact (with_last_ko_point k b).
Proof. done. Qed.

(** A move on an empty point, with the statistics. *)
Lemma play_steps b p c :
  Inv b -> Exact b -> is_stone c = true -> colr b p = EMPTY ->
  exists b3 b4 caps ko,
    Inv b3 /\ Exact b3 /\
    (forall q, colr b3 q = if decide (q = p) then c else colr b q) /\
    (forall q, hd b3 q =
       if decide (q = p \/ joins b c (neighbours p) q) then hd b3 p else hd b q) /\
    (forall x, member b3 (hd b3 p) x <-> x = p \/ joins b c (neighbours p) x) /\
    Captured ZOBRIST b3 c caps (Z.of_nat (length caps)) b4 /\
    (forall x, x ∈ caps <-> dead_next_to b3 c (neighbours p) x) /\
    Exact b4 /\
    play ZOBRIST b p c =
      (if 0 <? Chain.num_pseudo_liberties (chn b4 (hd b4 p))
       then Ok (with_last_ko_point ko b4) else Raise AssertionError).
Proof.
  intros Hi Hex Hc Hpe.
  destruct (play_spec ZOBRIST HZ b p c Hi Hc Hpe)
    as (b3 & b4 & caps & ko & (b1 & b2 & E1 & E2 & E3) & _ & Hi3 & Hc3 & _ & _ & HC
        & Hcaps & _ & Eplay).
  destruct (place_exact b p c Hi Hex Hpe Hc)
    as (b1' & b2' & b3' & E1' & E2' & E3' & Hex3 & Hh3 & Hm3).
  rewrite E1 in E1'. injection E1' as <-. rewrite E2 in E2'. injection E2' as <-.
  rewrite E3 in E3'. injection E3' as <-.
  exists b3, b4, caps, ko. repeat (split; [done|]). split; [|done].
  by apply (Captured_exact b3 c caps (Z.of_nat (length caps)) b4).
Qed.

Lemma play_Exact b p c b' :
  Inv b -> Exact b -> is_stone c = true -> p = PASS \/ in_board_area b p = true ->
  play ZOBRIST b p c = Ok b' -> Exact b'.
Proof.
  intros Hi Hex Hc Hp E.
  destruct (decide (p = PASS)) as [->|Hpass].
  { rewrite play_PASS in E. injection E as <-. by apply Exact_with_last_ko_point. }
  destruct Hp as [?|Hp]; [done|].
  destruct (decide (colr b p = EMPTY)) as [Hpe|Hpe];
    [|by rewrite (play_occupied ZOBRIST b p c Hi Hp Hpe) in E].
  destruct (play_steps b p c Hi Hex Hc Hpe)
    as (b3 & b4 & caps & ko & _ & _ & _ & _ & _ & _ & _ & Hex4 & Eplay).
  rewrite Eplay in E. destruct (0 <? _); [|done]. injection E as <-.
  by apply Exact_with_last_ko_point.
Qed.

Lemma no_stone_Exact b : (forall q, ~ stone b q) -> Exact b.
Proof. intros Hno s H HsH. by destruct (Hno H). Qed.

Lemma built_Exact b : built ZOBRIST b -> Exact b.
Proof.
  induction 1 as [size b Hsize E|b p c b' Hb IH Hc Hp E].
  - destruct (GoBoard__init__spec size Hsize) as (b0 & E0 & _ & Hno & _).
    rewrite E in E0. injection E0 as <-. by apply no_stone_Exact.
  - apply (play_Exact b p c b'); try done. by apply (built_Inv ZOBRIST HZ).
Qed.
End AccountingOfPlay.

(** ** The liberties of a chain *)

Lemma tally_nonneg (M E : Point -> Prop) `{forall x, Decision (M x)}
    `{forall n, Decision (E n)} : 0 <= tally M E Count.
Proof.
  apply sum_over_nonneg. intros x _. destruct (decide (M x)); [|done].
  rewrite measure_length. lia.
Qed.

(** The pseudo-liberties of the chain of head [H], one for each pair of a
    stone of the chain and an empty point next to it. *)
Definition liberties (b : GoBoard) (H : Point) : list Point :=
  filter (member b H) grid_points ≫= fun x => filter (vacant b) (neighbours x).

Lemma measure_liberties s b H : measure s (liberties b H) = total s b H.
Proof.
  unfold measure, liberties. rewrite sum_over_bind, sum_over_filter. done.
Qed.

Lemma elem_of_liberties b H m :
  Base b ->
  m ∈ liberties b H <-> exists x, member b H x /\ m ∈ neighbours x /\ vacant b m.
Proof.
  intros HB. unfold liberties. rewrite list_elem_of_bind. split.
  - intros (x & (Hv & Hm)%list_elem_of_filter & (Hx & _)%list_elem_of_filter).
    by exists x.
  - intros (x & Hx & Hm & Hv). exists x. split; apply list_elem_of_filter; [done|].
    split; [done|]. by apply (member_grid b H).
Qed.

Lemma Exact_aggregates b H :
  Exact b -> stone b H -> hd b H = H -> Chain.aggregates (chn b H) (liberties b H).
Proof.
  intros Hex Hs Hfix. apply aggregates_stat. intros s.
  rewrite measure_liberties. by apply Hex.
Qed.

(** A chain in atari has one liberty, however often it is counted. *)
Lemma atari_all b H q :
  Base b -> Exact b -> stone b H -> hd b H = H ->
  q ∈ liberties b H -> Chain.in_atari (chn b H) = true ->
  forall m, m ∈ liberties b H -> m = q.
Proof.
  intros HB Hex Hs Hfix Hq Hat m Hm.
  pose proof (Exact_aggregates b H Hex Hs Hfix) as Hagg.
  destruct (liberties b H) as [|a l] eqn:El; [by apply elem_of_nil in Hq|].
  apply (ChainFacts.in_atari_defect _ _ Hagg), ChainFacts.defect_zero in Hat.
  rewrite (Hat m Hm). symmetry. by apply Hat.
Qed.

(** A chain that is not in atari has two liberties at least. *)
Lemma not_atari_other b H q :
  Base b -> Exact b -> stone b H -> hd b H = H ->
  q ∈ liberties b H -> Chain.in_atari (chn b H) = false ->
  exists m, m ∈ liberties b H /\ m <> q.
Proof.
  intros HB Hex Hs Hfix Hq Hat.
  pose proof (Exact_aggregates b H Hex Hs Hfix) as Hagg.
  destruct (decide (Forall (fun m => m = q) (liberties b H))) as [Hall|Hsome].
  - exfalso. destruct (liberties b H) as [|a l] eqn:El; [by apply elem_of_nil in Hq|].
    assert (Chain.in_atari (chn b H) = true) as Hat'; [|congruence].
    apply (ChainFacts.in_atari_defect _ _ Hagg), ChainFacts.defect_zero.
    rewrite Forall_forall in Hall. intros y Hy.
    rewrite (Hall y Hy). symmetry. apply Hall, list_elem_of_here.
  - apply not_Forall_Exists in Hsome; [|apply _].
    apply Exists_exists in Hsome as (m & Hm & Hne). by exists m.
Qed.

(** Every chain on the board has a liberty. *)
Definition Alive (b : GoBoard) : Prop :=
  forall H, stone b H -> hd b H = H -> 0 < Chain.num_pseudo_liberties (chn b H).

Lemma Exact_count b H :
  Exact b -> stone b H -> hd b H = H ->
  Chain.num_pseudo_liberties (chn b H) = tally (member b H) (vacant b) Count.
Proof. intros Hex Hs Hfix. apply (Hex Count H Hs Hfix). Qed.

Lemma stone_color c x : is_stone c = true -> is_stone x = true -> x <> c -> x = opponent c.
Proof. by destruct c, x. Qed.

Lemma opponent_ne c : is_stone c = true -> opponent c <> c.
Proof. by destruct c. Qed.

Section Life.
Variable ZOBRIST : list (list Z).
Hypothesis HZ : table_shaped ZOBRIST.

(** What [play_steps] says about the board after the captures. *)
Lemma after_captures b p c b3 b4 caps :
  Inv b -> is_stone c = true -> colr b p = EMPTY -> Inv b3 ->
  (forall q, colr b3 q = if decide (q = p) then c else colr b q) ->
  Captured ZOBRIST b3 c caps (Z.of_nat (length caps)) b4 ->
  (p ∉ caps) /\ (hd b3 p ∉ caps) /\ stone b4 p /\ hd b4 p = hd b3 p /\
  stone b4 (hd b4 p) /\ hd b4 (hd b4 p) = hd b4 p /\
  (forall x, x ∉ caps -> member b4 (hd b3 x) x <-> stone b3 x) /\
  (forall H x, H ∉ caps -> member b3 H x -> member b4 H x) /\
  (forall m, vacant b3 m -> vacant b4 m).
Proof.
  intros Hi Hc Hpe Hi3 Hc3 HC.
  assert (stone b3 p) as Hsp3 by (unfold stone; by rewrite Hc3, decide_True).
  assert (forall x, x ∈ caps -> colr b3 x = opponent c) as Hopp
    by (intros x Hx; by destruct (capt_in _ _ _ _ _ _ HC x Hx)).
  assert (p ∉ caps) as Hpc.
  { intros Hin. specialize (Hopp p Hin). rewrite Hc3, decide_True in Hopp by done.
    by apply (opponent_ne c). }
  assert (forall x, x ∉ caps -> colr b4 x = colr b3 x /\ hd b4 x = hd b3 x) as Hout.
  { intros x Hx. rewrite (capt_color _ _ _ _ _ _ HC), decide_False by done.
    by destruct (capt_out _ _ _ _ _ _ HC x Hx) as (-> & _). }
  destruct (Hout p Hpc) as (Hcp & Hhp).
  destruct (inv_head b3 Hi3 p Hsp3) as (HcL & HfL).
  assert (hd b3 p ∉ caps) as HLc.
  { intros Hin. specialize (Hopp _ Hin). rewrite HcL, Hc3, decide_True in Hopp by done.
    by apply (opponent_ne c). }
  destruct (Hout _ HLc) as (HcL4 & HhL4).
  split; [done|]. split; [done|]. split; [unfold stone; by rewrite Hcp|]. split; [done|].
  rewrite Hhp. split; [unfold stone; rewrite HcL4, HcL; apply Hsp3|].
  split; [congruence|]. split; [|split].
  - intros x Hx. destruct (Hout x Hx) as (Hcx & Hhx). unfold member, stone.
    rewrite Hcx, Hhx. tauto.
  - intros H x HH (Hs & Hh). assert (x ∉ caps) as Hx.
    { intros Hin. destruct (capt_in _ _ _ _ _ _ HC x Hin) as (_ & Hhc & _). congruence. }
    destruct (Hout x Hx) as (Hcx & Hhx). unfold member, stone. by rewrite Hcx, Hhx.
  - intros m Hm. unfold vacant in *. rewrite (capt_color _ _ _ _ _ _ HC).
    by destruct (decide (m ∈ caps)).
Qed.

Lemma play_Alive b p c b' :
  Inv b -> Exact b -> Alive b -> is_stone c = true ->
  p = PASS \/ in_board_area b p = true ->
  play ZOBRIST b p c = Ok b' -> Alive b'.
Proof.
  intros Hi Hex Hal Hc Hp E.
  destruct (decide (p = PASS)) as [->|Hpass].
  { rewrite play_PASS in E. by injection E as <-. }
  destruct Hp as [?|Hp]; [done|].
  destruct (decide (colr b p = EMPTY)) as [Hpe|Hpe];
    [|by rewrite (play_occupied ZOBRIST b p c Hi Hp Hpe) in E].
  destruct (play_steps ZOBRIST HZ b p c Hi Hex Hc Hpe)
    as (b3 & b4 & caps & ko & Hi3 & Hex3 & Hc3 & Hh3 & Hm3 & HC & Hcaps & Hex4 & Eplay).
  rewrite Eplay in E. destruct (0 <? _) eqn:Hpos; [|done]. injection E as <-.
  apply Z.ltb_lt in Hpos.
  destruct (after_captures b p c b3 b4 caps Hi Hc Hpe Hi3 Hc3 HC)
    as (Hpc & _ & Hsp4 & Hhp & HsL & HfL & _ & Hkeep & Hvac).
  pose proof (inv_base b Hi) as HB. pose proof (inv_base b3 Hi3) as HB3.
  pose proof (capt_inv _ _ _ _ _ _ HC) as Hi4.
  intros H HsH HfixH.
  change (chn (with_last_ko_point ko b4) H) with (chn b4 H).
  change (stone b4 H) in HsH. change (hd b4 H = H) in HfixH.
  destruct (decide (H = hd b4 p)) as [->|HHp]; [done|].
  rewrite (Exact_count b4 H Hex4 HsH HfixH). apply tally_pos.
  assert (H ∉ caps) as HHc.
  { intros Hin. unfold stone in HsH.
    by rewrite (capt_color _ _ _ _ _ _ HC), decide_True in HsH. }
  assert (stone b3 H /\ hd b3 H = H) as (HsH3 & HfH3).
  { unfold stone in *. rewrite (capt_color _ _ _ _ _ _ HC), decide_False in HsH by done.
    by destruct (capt_out _ _ _ _ _ _ HC H HHc) as (<- & _). }
  (* the chain was on the board before the move, and was not joined *)
  assert (~ (H = p \/ joins b c (neighbours p) H) /\ hd b H = H) as (Hnj & HfH0).
  { pose proof (Hh3 H) as HhH. rewrite HfH3 in HhH.
    destruct (decide (H = p \/ joins b c (neighbours p) H)); [|done]. congruence. }
  assert (H <> p) as HHp0 by (intros ->; apply Hnj; by left).
  assert (stone b H) as HsH0.
  { unfold stone in *. by rewrite Hc3, decide_False in HsH3. }
  assert (forall x, member b H x -> member b3 H x) as Hmem3.
  { intros x (Hsx & Hhx). assert (x <> p) as Hxp.
    { intros ->. by apply (stone_not_empty b) in Hsx. }
    split; [unfold stone; by rewrite Hc3, decide_False|].
    rewrite Hh3, decide_False; [done|]. intros [?|(_ & Hj)]; [done|].
    apply Hnj. right. split; [done|]. by rewrite HfH0, <- Hhx. }
  assert (exists x n, member b3 H x /\ n ∈ neighbours x /\ vacant b3 n)
    as (x & n & Hx & Hn & Hv).
  { pose proof (Hal H HsH0 HfH0) as Hpos0.
    rewrite (Exact_count b H Hex HsH0 HfH0) in Hpos0.
    apply tally_pos in Hpos0 as (x & n & _ & Hx & Hn & Hv).
    destruct (decide (n = p)) as [->|Hnp].
    2: { exists x, n. split; [by apply Hmem3|]. split; [done|].
         unfold vacant. by rewrite Hc3, decide_False. }
    (* the liberty just taken: the chain is an opposing one next to [p] *)
    destruct Hx as (Hsx & Hhx). apply neighbours_sym in Hn.
    assert (colr b x = opponent c) as Hox.
    { apply stone_color; [done|done|]. intros Hcx. apply Hnj. right. split; [done|].
      apply Exists_exists. exists x. split; [done|]. split; [done|]. congruence. }
    assert (x <> p) as Hxp by (intros ->; by apply (stone_not_empty b) in Hsx).
    assert (colr b3 x = opponent c) as Hox3 by (by rewrite Hc3, decide_False).
    assert (hd b3 x = H) as Hhx3 by (by apply (Hmem3 x)).
    assert (Chain.num_pseudo_liberties (chn b3 H) <> 0) as Hne.
    { intros Hz. apply HHc, Hcaps. split; [|split].
      - destruct (inv_head b3 Hi3 x) as (Hch & _);
          [unfold stone; rewrite Hox3; by apply opponent_stone|].
        by rewrite <- Hhx3, Hch.
      - by rewrite HfH3.
      - exists x. split; [done|]. split; [done|]. congruence. }
    rewrite (Exact_count b3 H Hex3 HsH3 HfH3) in Hne.
    pose proof (tally_nonneg (member b3 H) (vacant b3)) as Hnn.
    assert (0 < tally (member b3 H) (vacant b3) Count) as Hpos3 by lia.
    apply tally_pos in Hpos3 as (x' & n' & _ & Hx' & Hn' & Hv'). by exists x', n'. }
  exists x, n. split; [by apply (member_grid b3 H)|]. split; [by apply Hkeep|].
  split; [done|by apply Hvac].
Qed.

Lemma built_Alive b : built ZOBRIST b -> Alive b.
Proof.
  induction 1 as [size b Hsize E|b p c b' Hb IH Hc Hp E].
  - destruct (GoBoard__init__spec size Hsize) as (b0 & E0 & _ & Hno & _).
    rewrite E in E0. injection E0 as <-. intros H HsH. by destruct (Hno H).
  - apply (play_Alive b p c b'); try done.
    + by apply (built_Inv ZOBRIST HZ).
    + by apply (built_Exact ZOBRIST HZ).
Qed.
End Life.

(** ** The final assertion of [play] *)

(** The move is no suicide: [p] has an empty neighbour, a neighbour of
    color [c] whose chain is not in atari, or an opposing neighbour whose
    chain is. *)
Definition safe (b : GoBoard) (p : Point) (c : Color) : Prop :=
  (exists n, n ∈ neighbours p /\ colr b n = EMPTY) \/
  (exists n, n ∈ neighbours p /\ colr b n = c /\
             Chain.in_atari (chn b (hd b n)) = false) \/
  (exists n, n ∈ neighbours p /\ colr b n = opponent c /\
             Chain.in_atari (chn b (hd b n)) = true).

Lemma in_atari_Ok b n :
  Inv b -> stone b n -> in_atari b n = Ok (Chain.in_atari (chn b (hd b n))).
Proof.
  intros Hi Hn. pose proof (inv_base b Hi) as HB. unfold in_atari.
  rewrite _chain_Ok; [done|apply HB| |by apply Inv_head_on_grid].
  by apply on_board_grid, (stone_on_board b).
Qed.

Lemma not_suicide_safe b p c :
  Inv b -> 22 <= p <= 418 -> is_stone c = true -> not_suicide b p c <-> safe b p c.
Proof.
  intros Hi Hp Hc. pose proof (inv_base b Hi) as HB. pose proof (base_shaped b HB) as Hsh.
  assert (forall n, n ∈ neighbours p -> point_color b n = Ok (colr b n)) as Hpc.
  { intros n Hn. apply point_color_Ok; [done|]. by apply (neighbours_on_grid p). }
  assert (forall n col, n ∈ neighbours p -> is_stone col = true -> colr b n = col ->
            in_atari b n = Ok (Chain.in_atari (chn b (hd b n)))) as Hat.
  { intros n col Hn Hcol Hcn. apply in_atari_Ok; [done|]. unfold stone. by rewrite Hcn. }
  pose proof (opponent_stone c Hc) as Hoc.
  unfold not_suicide, safe. split.
  - intros [(n & Hn & Hcn)|[(n & Hn & Hcn & Ha)|(n & Hn & Hcn & Ha)]];
      rewrite (Hpc n Hn) in Hcn; injection Hcn as Hcn.
    + left. by exists n.
    + right. left. exists n. rewrite (Hat n c Hn Hc Hcn) in Ha. by injection Ha as ->.
    + right. right. exists n. rewrite (Hat n _ Hn Hoc Hcn) in Ha. by injection Ha as ->.
  - intros [(n & Hn & Hcn)|[(n & Hn & Hcn & Ha)|(n & Hn & Hcn & Ha)]].
    + left. exists n. by rewrite (Hpc n Hn), Hcn.
    + right. left. exists n. by rewrite (Hpc n Hn), (Hat n c Hn Hc Hcn), Hcn, Ha.
    + right. right. exists n. by rewrite (Hpc n Hn), (Hat n _ Hn Hoc Hcn), Hcn, Ha.
Qed.

Section Assertion.
Variable ZOBRIST : list (list Z).
Hypothesis HZ : table_shaped ZOBRIST.

(** The opposing chains are what they were when the stone is placed. *)
Lemma opposing_chain_placed b p c b3 H :
  Inv b -> is_stone c = true -> colr b p = EMPTY -> Inv b3 ->
  (forall q, colr b3 q = if decide (q = p) then c else colr b q) ->
  (forall q, hd b3 q =
     if decide (q = p \/ joins b c (neighbours p) q) then hd b3 p else hd b q) ->
  stone b H -> hd b H = H -> colr b H = opponent c ->
  stone b3 H /\ hd b3 H = H /\ forall x, member b3 H x <-> member b H x.
Proof.
  intros Hi Hc Hpe Hi3 Hc3 Hh3 HsH HfH HcH.
  assert (H <> p) as HHp by (intros ->; by apply (stone_not_empty b) in HsH).
  assert (stone b3 p) as Hsp3 by (unfold stone; by rewrite Hc3, decide_True).
  destruct (inv_head b3 Hi3 p Hsp3) as (HcL & _).
  rewrite (Hc3 p), decide_True in HcL by done.
  assert (colr b3 H = opponent c) as HcH3 by (by rewrite Hc3, decide_False).
  assert (hd b3 p <> H) as HLH.
  { intros Heq. rewrite Heq, HcH3 in HcL. by apply (opponent_ne c). }
  assert (forall x, hd b x = H -> ~ joins b c (neighbours p) x) as Hnj.
  { intros x Hx (Hsx & (m & Hm & Hcm & Hhm)%Exists_exists).
    destruct (inv_head b Hi m) as (Hch & _); [unfold stone; by rewrite Hcm|].
    rewrite Hhm, Hx, HcH, Hcm in Hch. by apply (opponent_ne c). }
  assert (forall x, member b3 H x <-> member b H x) as Hmem.
  { intros x. unfold member, stone. rewrite Hc3, Hh3.
    destruct (decide (x = p)) as [->|Hx].
    { rewrite decide_True by (by left). split; [by intros (_ & ?)|].
      intros (Hs & _). unfold stone in Hs. by rewrite Hpe in Hs. }
    destruct (decide (x = p \/ joins b c (neighbours p) x)) as [[?|Hj]|Hj]; [done| |done].
    split; [by intros (_ & ?)|]. intros (_ & Hh). by destruct (Hnj x Hh). }
  split; [unfold stone; rewrite HcH3; by apply opponent_stone|].
  split; [|done]. by apply (Hmem H).
Qed.

Lemma play_assertion b p c :
  Inv b -> Exact b -> is_stone c = true -> colr b p = EMPTY ->
  (safe b p c -> exists b', play ZOBRIST b p c = Ok b') /\
  (~ safe b p c -> play ZOBRIST b p c = Raise AssertionError).
Proof.
  intros Hi Hex Hc Hpe.
  pose proof (inv_base b Hi) as HB.
  pose proof (empty_on_board b HB p Hpe) as Hp.
  destruct (play_steps ZOBRIST HZ b p c Hi Hex Hc Hpe)
    as (b3 & b4 & caps & ko & Hi3 & Hex3 & Hc3 & Hh3 & Hm3 & HC & Hcaps & Hex4 & Eplay).
  destruct (after_captures ZOBRIST b p c b3 b4 caps Hi Hc Hpe Hi3 Hc3 HC)
    as (Hpc & HLc & Hsp4 & Hhp & HsL & HfL & Hmem4 & Hkeep & Hvac).
  pose proof (inv_base b3 Hi3) as HB3.
  rewrite Eplay, (Exact_count b4 _ Hex4 HsL HfL). clear Eplay.
  (* the liberties of a chain next to [p] before the move *)
  assert (forall n, n ∈ neighbours p -> stone b n ->
            stone b (hd b n) /\ hd b (hd b n) = hd b n /\ p ∈ liberties b (hd b n)) as Hnext.
  { intros n Hn Hsn. destruct (inv_head b Hi n Hsn) as (Hch & Hfix).
    split; [unfold stone; by rewrite Hch|]. split; [done|].
    apply elem_of_liberties; [done|]. exists n. split; [done|].
    split; [by apply neighbours_sym|done]. }
  assert (forall m, vacant b m -> m <> p -> vacant b3 m) as Hv3.
  { intros m Hm Hmp. unfold vacant. by rewrite Hc3, decide_False. }
  assert (forall m, vacant b3 m -> vacant b m /\ m <> p) as Hv3'.
  { intros m Hm. unfold vacant in *. rewrite Hc3 in Hm.
    destruct (decide (m = p)); [|done]. subst c. done. }
  assert (forall x, joins b c (neighbours p) x -> member b4 (hd b4 p) x) as Hj4.
  { intros x Hj. rewrite Hhp. apply Hkeep; [done|]. apply Hm3. by right. }
  assert (member b4 (hd b4 p) p) as Hp4 by done.
  assert (p ∈ grid_points) as Hpg by (apply elem_of_range; lia).
  (* an opposing chain next to [p] that is not in atari survives *)
  assert (forall n, n ∈ neighbours p -> colr b n = opponent c ->
            Chain.in_atari (chn b (hd b n)) = false ->
            stone b3 (hd b n) /\ hd b3 n = hd b n /\
            0 < Chain.num_pseudo_liberties (chn b3 (hd b n))) as Hsurvive.
  { intros n Hn Hcn Hat.
    assert (stone b n) as Hsn by (unfold stone; rewrite Hcn; by apply opponent_stone).
    destruct (Hnext n Hn Hsn) as (HsH & HfH & Hlib).
    destruct (inv_head b Hi n Hsn) as (Hch & _).
    destruct (opposing_chain_placed b p c b3 (hd b n) Hi Hc Hpe Hi3 Hc3 Hh3 HsH HfH
                ltac:(congruence)) as (HsH3 & HfH3 & Hmem3).
    split; [done|]. split; [by apply (Hmem3 n)|].
    destruct (not_atari_other b (hd b n) p HB Hex HsH HfH Hlib Hat) as (m & Hm & Hmp).
    apply elem_of_liberties in Hm as (x & Hx & Hmx & Hvm); [|done].
    rewrite (Exact_count b3 _ Hex3 HsH3 HfH3). apply tally_pos.
    exists x, m. split; [by apply (member_grid b (hd b n))|].
    split; [by apply Hmem3|]. split; [done|by apply Hv3]. }
  split.
  - intros Hsafe.
    assert (0 < tally (member b4 (hd b4 p)) (vacant b4) Count) as Hpos.
    { apply tally_pos.
      destruct Hsafe as [(n & Hn & Hcn)|[(n & Hn & Hcn & Hat)|(n & Hn & Hcn & Hat)]].
      - exists p, n. split; [done|]. split; [done|]. split; [done|].
        apply Hvac, Hv3; [done|]. intros ->. by apply (neighbours_irrefl p).
      - assert (stone b n) as Hsn by (unfold stone; by rewrite Hcn).
        destruct (Hnext n Hn Hsn) as (HsH & HfH & Hlib).
        destruct (not_atari_other b (hd b n) p HB Hex HsH HfH Hlib Hat) as (m & Hm & Hmp).
        apply elem_of_liberties in Hm as (x & (Hsx & Hhx) & Hmx & Hvm); [|done].
        exists x, m. split; [by apply (member_grid b (hd b n))|]. split.
        + apply Hj4. split; [done|]. apply Exists_exists. exists n. by rewrite Hhx.
        + split; [done|]. by apply Hvac, Hv3.
      - assert (stone b n) as Hsn by (unfold stone; rewrite Hcn; by apply opponent_stone).
        destruct (Hnext n Hn Hsn) as (HsH & HfH & Hlib).
        destruct (inv_head b Hi n Hsn) as (Hch & _).
        destruct (opposing_chain_placed b p c b3 (hd b n) Hi Hc Hpe Hi3 Hc3 Hh3 HsH HfH
                    ltac:(congruence)) as (HsH3 & HfH3 & Hmem3).
        assert (n <> p) as Hnp by (intros ->; by apply (neighbours_irrefl p)).
        assert (hd b3 n = hd b n) as Hhn3 by (by apply (Hmem3 n)).
        assert (n ∈ caps) as Hcap.
        { apply Hcaps. split; [by rewrite Hc3, decide_False|]. split.
          - rewrite Hhn3, (Exact_count b3 _ Hex3 HsH3 HfH3). apply tally_none.
            intros x m Hx%Hmem3 Hm (Hvm & Hmp)%Hv3'. apply Hmp.
            apply (atari_all b (hd b n) p HB Hex HsH HfH Hlib Hat).
            apply elem_of_liberties; [done|]. by exists x.
          - exists n. split; [done|]. split; [by rewrite Hc3, decide_False|done]. }
        exists p, n. split; [done|]. split; [done|]. split; [done|].
        unfold vacant. by rewrite (capt_color _ _ _ _ _ _ HC), decide_True. }
    apply Z.ltb_lt in Hpos. rewrite Hpos. by eexists.
  - intros Hunsafe.
    assert (forall y, y ∉ caps) as Hnocap.
    { intros y (Hcy & Hz & n & Hn & Hcn & Hhn)%Hcaps.
      assert (n <> p) as Hnp by (intros ->; by apply (neighbours_irrefl p)).
      rewrite Hc3, decide_False in Hcn by done.
      destruct (Chain.in_atari (chn b (hd b n))) eqn:Hat.
      { apply Hunsafe. right. right. by exists n. }
      destruct (Hsurvive n Hn Hcn Hat) as (_ & Hhn3 & Hpos). rewrite <- Hhn, Hhn3 in Hz. lia. }
    rewrite tally_none; [done|].
    intros x m (Hsx & Hhx) Hm Hvm.
    assert (member b3 (hd b3 p) x) as Hx3.
    { destruct (capt_out _ _ _ _ _ _ HC x (Hnocap x)) as (Hhx4 & _). split.
      - unfold stone in *. by rewrite (capt_color _ _ _ _ _ _ HC), decide_False in Hsx.
      - congruence. }
    assert (vacant b m /\ m <> p) as (Hvm0 & Hmp).
    { apply Hv3'. unfold vacant in *.
      by rewrite (capt_color _ _ _ _ _ _ HC), decide_False in Hvm. }
    apply Hm3 in Hx3 as [->|(Hsx0 & (n & Hn & Hcn & Hhn)%Exists_exists)].
    + apply Hunsafe. left. by exists m.
    + assert (stone b n) as Hsn by (unfold stone; by rewrite Hcn).
      destruct (Hnext n Hn Hsn) as (HsH & HfH & Hlib).
      destruct (Chain.in_atari (chn b (hd b n))) eqn:Hat.
      2: { apply Hunsafe. right. left. by exists n. }
      apply Hmp. apply (atari_all b (hd b n) p HB Hex HsH HfH Hlib Hat).
      apply elem_of_liberties; [done|]. by exists x.
Qed.
End Assertion.

(** * Liberties on the boards that play builds *)

Lemma chain_head_grid b q :
  shaped b -> 0 <= q < 441 -> chain_head b q = Ok (hd b q).
Proof.
  intros Hsh Hq. unfold chain_head, vertex.
  rewrite getitem_Ok by (destruct Hsh as (-> & _); unfold NPOINTS; lia). done.
Qed.

(** The stones of the chain of [p], read with the accessors of the class:
    the points of its color and its chain head. *)
Definition chain_points (b : GoBoard) (p : Point) : list Point :=
  filter (fun x => point_color b x = point_color b p /\ chain_head b x = chain_head b p)
    grid_points.

(** The pseudo-liberties of that chain: one for each pair of one of its
    stones and an empty point next to it. *)
Definition pseudo_liberties (b : GoBoard) (p : Point) : list Point :=
  chain_points b p ≫= fun x => filter (fun n => point_color b n = Ok EMPTY) (neighbours x).

(** [GoBoard.single_liberty]. *)
Definition single_liberty (b : GoBoard) (p : Point) : res Point :=
  head ← chain_head b p;
  ch ← _chain b p;
  liberty ← Chain.single_liberty ch;
  _ ← assert (in_board_area b liberty);
  e ← is_empty b liberty;
  _ ← assert e;
  found ← any_of (neighbours liberty) (fun n =>
    h ← chain_head b n; Ok (bool_decide (h = head)));
  if (found : bool) then Ok liberty else Raise ValueError.

Lemma chain_points_members b p :
  Inv b -> stone b p -> chain_points b p = filter (member b (hd b p)) grid_points.
Proof.
  intros Hi Hp. pose proof (inv_base b Hi) as HB. pose proof (base_shaped b HB) as Hsh.
  pose proof (stone_on_board b HB p Hp) as Hpb.
  unfold chain_points. apply filter_ext_in. intros x Hx%elem_of_range.
  rewrite !point_color_grid, !chain_head_grid by (done || lia).
  unfold member, stone. split.
  - intros ([= Hc] & [= Hh]). by rewrite Hc.
  - intros (Hs & Hh). split; [|by rewrite Hh].
    destruct (inv_head b Hi x Hs) as (<- & _). destruct (inv_head b Hi p Hp) as (<- & _).
    by rewrite Hh.
Qed.

Lemma pseudo_liberties_liberties b p :
  Inv b -> stone b p -> pseudo_liberties b p = liberties b (hd b p).
Proof.
  intros Hi Hp. pose proof (inv_base b Hi) as HB. pose proof (base_shaped b HB) as Hsh.
  unfold pseudo_liberties, liberties. rewrite (chain_points_members b p Hi Hp).
  apply bind_ext_in. intros x ((Hs & _) & _)%list_elem_of_filter.
  apply filter_ext_in. intros n Hn.
  rewrite point_color_Ok; [|done|].
  2: { apply (neighbours_on_grid x); [|done]. by apply (stone_on_board b). }
  unfold vacant. split; [by intros [= ->]|by intros ->].
Qed.

(** A chain with a liberty is in atari when all its pseudo-liberties are
    one point. *)
Lemma in_atari_one_liberty c (l : list Point) :
  l <> [] -> Chain.aggregates c l ->
  (Chain.in_atari c = true <-> length (remove_dups l) = 1%nat) /\
  (Chain.in_atari c = true ->
   exists q, Chain.single_liberty c = Ok q /\ remove_dups l = [q] /\ q ∈ l).
Proof.
  intros Hl Hagg. destruct l as [|x l]; [done|]. clear Hl.
  pose proof (ChainFacts.in_atari_defect c (x :: l) Hagg) as Hat.
  rewrite ChainFacts.defect_zero in Hat. split.
  - rewrite Hat. split.
    + intros Hall. by rewrite (ChainFacts.remove_dups_all_equal x l Hall).
    + intros Hlen. destruct (remove_dups (x :: l)) as [|y [|? ?]] eqn:E; try done.
      assert (x = y) as <-.
      { apply (ChainFacts.remove_dups_singleton y (x :: l)); [done|].
        apply list_elem_of_here. }
      intros z Hz. by apply (ChainFacts.remove_dups_singleton x (x :: l)).
  - intros Ha. pose proof (proj1 Hat Ha) as Hall.
    destruct Hagg as (Hn & Hs & _).
    rewrite (ChainFacts.coord_sum_all_equal x (x :: l) Hall) in Hs.
    assert (Chain.num_pseudo_liberties c <> 0) as Hn0 by (rewrite Hn; cbn [length]; lia).
    rewrite <- Hn in Hs.
    assert (Chain.liberty_vertex_sum c mod Chain.num_pseudo_liberties c = 0) as Hmod.
    { rewrite Hs, Z.mul_comm. by apply Z.mod_mul. }
    assert (Chain.liberty_vertex_sum c / Chain.num_pseudo_liberties c = x) as Hdiv.
    { rewrite Hs, Z.mul_comm. by apply Z.div_mul. }
    exists x. split; [|split].
    + unfold Chain.single_liberty. rewrite Ha. cbn.
      apply Z.eqb_neq in Hn0. rewrite Hn0, Hmod. cbn. by rewrite Hdiv.
    + by apply ChainFacts.remove_dups_all_equal.
    + apply list_elem_of_here.
Qed.

Lemma safe_or_not b p c : safe b p c \/ ~ safe b p c.
Proof.
  assert (forall P : Point -> Prop, (forall n, Decision (P n)) ->
            (exists n, n ∈ neighbours p /\ P n) \/ ~ (exists n, n ∈ neighbours p /\ P n))
    as Hd.
  { intros P HP. destruct (decide (Exists P (neighbours p))) as [H|H].
    - left. by apply Exists_exists.
    - right. intros H'. by apply H, Exists_exists. }
  unfold safe.
  destruct (Hd (fun n => colr b n = EMPTY) _) as [?|H1]; [left; by left|].
  destruct (Hd (fun n => colr b n = c /\ Chain.in_atari (chn b (hd b n)) = false) _)
    as [?|H2]; [left; right; by left|].
  destruct (Hd (fun n => colr b n = opponent c /\
                         Chain.in_atari (chn b (hd b n)) = true) _)
    as [?|H3]; [left; right; by right|].
  right. intros [?|[?|?]]; done.
Qed.

Section Liberties.
Variable ZOBRIST : list (list Z).
Hypothesis HZ : table_shaped ZOBRIST.

(** A stone on a board that play built, and the record of its chain. *)
Lemma built_stone b p :
  built ZOBRIST b -> in_board_area b p = true ->
  point_color b p = Ok BLACK \/ point_color b p = Ok WHITE ->
  Inv b /\ Exact b /\ Alive b /\ stone b p /\
  stone b (hd b p) /\ hd b (hd b p) = hd b p /\
  chain_head b p = Ok (hd b p) /\ _chain b p = Ok (chn b (hd b p)).
Proof.
  intros Hb Hp Hc. destruct (built_Inv ZOBRIST HZ b Hb) as (Hi & _).
  pose proof (inv_base b Hi) as HB. pose proof (base_shaped b HB) as Hsh.
  pose proof (in_board_area_range b p (base_size b HB) Hp) as Hpr.
  assert (on_grid p) as Hpg by (unfold on_grid; lia).
  rewrite (point_color_Ok b Hsh p Hpg) in Hc.
  assert (stone b p) as Hs by (unfold stone; by destruct Hc as [[= ->]|[= ->]]).
  destruct (inv_head b Hi p Hs) as (Hch & Hfix).
  split; [done|]. split; [by apply (built_Exact ZOBRIST HZ)|].
  split; [by apply (built_Alive ZOBRIST HZ)|]. split; [done|].
  split; [unfold stone; by rewrite Hch|]. split; [done|].
  split; [by apply chain_head_Ok|].
  apply _chain_Ok; [done|done|]. by apply Inv_head_on_grid.
Qed.

(** X10: on every board built by the constructor and [play] calls that
    returned, the record of the chain of a stone holds the count, the sum
    and the sum of squares of its pseudo-liberties (one for each pair of a
    stone of the chain and an empty point next to it), and the count is
    positive: no chain without a liberty stays on the board. *)
Theorem liberty_statistics_exact b p :
  built ZOBRIST b -> in_board_area b p = true ->
  point_color b p = Ok BLACK \/ point_color b p = Ok WHITE ->
  exists ch, _chain b p = Ok ch /\ Chain.aggregates ch (pseudo_liberties b p) /\
    0 < Chain.num_pseudo_liberties ch.
Proof.
  intros Hb Hp Hc.
  destruct (built_stone b p Hb Hp Hc) as (Hi & Hex & Hal & Hs & HsH & HfH & _ & Ech).
  exists (chn b (hd b p)). split; [done|]. split; [|by apply Hal].
  rewrite (pseudo_liberties_liberties b p Hi Hs). by apply Exact_aggregates.
Qed.

(** X11: a move that [is_legal_move] accepts on a board built by the
    constructor and [play] calls is carried out by [play]: none of its
    assertions fails, no index is out of range and its loops end. *)
Theorem legal_move_plays b p c :
  built ZOBRIST b -> c = BLACK \/ c = WHITE -> is_legal_move b p c = Ok true ->
  exists b', play ZOBRIST b p c = Ok b' /\ built ZOBRIST b'.
Proof.
  intros Hb Hc Hl. destruct (built_Inv ZOBRIST HZ b Hb) as (Hi & _).
  assert (is_stone c = true) as Hsc by (by destruct Hc as [-> | ->]).
  assert (exists b', play ZOBRIST b p c = Ok b') as (b' & E).
  { destruct (is_legal_move_Inv b p c Hi Hc) as (r & Er & Hr).
    rewrite Er in Hl. injection Hl as ->.
    destruct (proj1 Hr eq_refl) as [->|(Hp & Hpe & _ & Hns)].
    { rewrite play_PASS. by eexists. }
    pose proof (inv_base b Hi) as HB.
    pose proof (in_board_area_range b p (base_size b HB) Hp) as Hpr.
    rewrite point_color_Ok in Hpe by (apply HB || (unfold on_grid; lia)).
    injection Hpe as Hpe.
    apply (play_assertion ZOBRIST HZ b p c Hi (built_Exact ZOBRIST HZ b Hb) Hsc Hpe).
    by apply not_suicide_safe. }
  exists b'. split; [done|]. apply (built_play ZOBRIST b p c b'); try done.
  by apply is_legal_move_on_board in Hl.
Qed.

(** X12: on a point of the board, [play] returns exactly when the point is
    empty and the move is no suicide, whatever the ko point is; otherwise
    it raises [AssertionError]. *)
Theorem play_returns_iff b p c :
  built ZOBRIST b -> c = BLACK \/ c = WHITE -> in_board_area b p = true ->
  ((exists b', play ZOBRIST b p c = Ok b') <->
   point_color b p = Ok EMPTY /\ not_suicide b p c) /\
  ((forall b', play ZOBRIST b p c <> Ok b') -> play ZOBRIST b p c = Raise AssertionError).
Proof.
  intros Hb Hc Hp. destruct (built_Inv ZOBRIST HZ b Hb) as (Hi & _).
  assert (is_stone c = true) as Hsc by (by destruct Hc as [-> | ->]).
  pose proof (inv_base b Hi) as HB.
  pose proof (in_board_area_range b p (base_size b HB) Hp) as Hpr.
  assert (point_color b p = Ok (colr b p)) as Epc
    by (apply point_color_Ok; [apply HB|unfold on_grid; lia]).
  rewrite Epc.
  destruct (decide (colr b p = EMPTY)) as [Hpe|Hpe].
  - destruct (play_assertion ZOBRIST HZ b p c Hi (built_Exact ZOBRIST HZ b Hb) Hsc Hpe)
      as (Hyes & Hno).
    rewrite (not_suicide_safe b p c Hi Hpr Hsc).
    destruct (safe_or_not b p c) as [Hs|Hs].
    + destruct (Hyes Hs) as (b' & E). split.
      * split; [intros _; by rewrite Hpe|]. intros _. by exists b'.
      * intros Hnever. by destruct (Hnever b').
    + rewrite (Hno Hs). split; [|done]. split; [by intros (? & ?)|]. by intros (_ & ?).
  - rewrite (play_occupied ZOBRIST b p c Hi Hp Hpe). split; [|done].
    split; [by intros (? & ?)|]. intros ([= ?] & _). done.
Qed.

(** X13: for a stone on such a board, [in_atari] says whether all the
    pseudo-liberties of its chain are one point; [pseudo_liberty] is 1 then
    and their number otherwise; [single_liberty] returns that point, which
    is an empty point of the board next to a stone of the chain, and raises
    [AssertionError] when the chain has more than one liberty. *)
Theorem single_liberty_spec b p :
  built ZOBRIST b -> in_board_area b p = true ->
  point_color b p = Ok BLACK \/ point_color b p = Ok WHITE ->
  in_atari b p = Ok (bool_decide (length (remove_dups (pseudo_liberties b p)) = 1%nat)) /\
  pseudo_liberty b p =
    Ok (if decide (length (remove_dups (pseudo_liberties b p)) = 1%nat) then 1
        else Z.of_nat (length (pseudo_liberties b p))) /\
  (length (remove_dups (pseudo_liberties b p)) = 1%nat ->
     exists q, single_liberty b p = Ok q /\ remove_dups (pseudo_liberties b p) = [q] /\
       in_board_area b q = true /\ point_color b q = Ok EMPTY /\
       exists x, x ∈ chain_points b p /\ q ∈ neighbours x) /\
  (length (remove_dups (pseudo_liberties b p)) <> 1%nat ->
     single_liberty b p = Raise AssertionError).
Proof.
  intros Hb Hp Hc.
  destruct (built_stone b p Hb Hp Hc) as (Hi & Hex & Hal & Hs & HsH & HfH & Ehd & Ech).
  pose proof (inv_base b Hi) as HB. pose proof (base_shaped b HB) as Hsh.
  rewrite (pseudo_liberties_liberties b p Hi Hs).
  pose proof (Exact_aggregates b (hd b p) Hex HsH HfH) as Hagg.
  pose proof (Hal (hd b p) HsH HfH) as Hpos.
  assert (liberties b (hd b p) <> []) as Hne.
  { intros Hnil. destruct Hagg as (Hn & _). rewrite Hnil in Hn. simpl in Hn. lia. }
  destruct (in_atari_one_liberty _ _ Hne Hagg) as (Hat & Hone).
  set (l := liberties b (hd b p)) in *. set (ch := chn b (hd b p)) in *.
  assert (Chain.in_atari ch = bool_decide (length (remove_dups l) = 1%nat)) as Eat.
  { destruct (Chain.in_atari ch) eqn:Ea; symmetry.
    - by apply bool_decide_eq_true_2, Hat.
    - apply bool_decide_eq_false_2. intros Hl. apply Hat in Hl. congruence. }
  split; [unfold in_atari; rewrite Ech; ok; by rewrite Eat|]. split.
  { unfold pseudo_liberty. rewrite Ech. ok.
    assert ((Chain.num_pseudo_liberties ch =? 0) = false) as -> by (apply Z.eqb_neq; lia).
    rewrite Eat, bool_decide_decide. destruct (decide _); [done|].
    by destruct Hagg as (-> & _). }
  split.
  - intros Hl. apply Hat in Hl. destruct (Hone Hl) as (q & Eq & Hq & Hin).
    apply elem_of_liberties in Hin as (x & Hx & Hqx & Hv); [|done].
    pose proof (empty_on_board b HB q Hv) as Hqb.
    assert (in_board_area b q = true) as Hqa.
    { apply (base_area b HB). unfold vacant in Hv. by rewrite Hv. }
    exists q. split; [|split; [done|split; [done|split]]].
    + unfold single_liberty. rewrite Ehd, Ech. ok. rewrite Eq. ok. rewrite Hqa. ok.
      rewrite is_empty_Ok by (done || by apply on_board_grid). ok.
      rewrite bool_decide_eq_true_2 by done. ok.
      rewrite (any_of_pure _ _ (fun n => bool_decide (hd b n = hd b p))).
      2: { intros n Hn. rewrite chain_head_Ok; [done|done|].
           by apply (neighbours_on_grid q). }
      ok. assert (existsb (fun n => bool_decide (hd b n = hd b p)) (neighbours q) = true)
        as ->; [|done].
      apply existsb_exists. exists x. split; [by apply list_elem_of_In, neighbours_sym|].
      apply bool_decide_eq_true_2. apply Hx.
    + by rewrite point_color_Ok, Hv by (done || by apply on_board_grid).
    + exists x. split; [|done]. rewrite (chain_points_members b p Hi Hs).
      apply list_elem_of_filter. split; [done|]. by apply (member_grid b (hd b p)).
  - intros Hl. unfold single_liberty. rewrite Ehd, Ech. ok.
    unfold Chain.single_liberty. rewrite Eat, bool_decide_eq_false_2 by done. done.
Qed.
End Liberties.

(** Two black stones side by side on the 9x9 board: six pseudo-liberties. *)
Lemma liberty_statistics_exact_witness :
  exists b, sample_board 9 [(44, BLACK); (89, WHITE); (45, BLACK)] = Ok b /\
    in_board_area b 44 = true /\ point_color b 44 = Ok BLACK /\
    exists ch, _chain b 44 = Ok ch /\ Chain.aggregates ch (pseudo_liberties b 44).
Proof.
  assert (match sample_board 9 [(44, BLACK); (89, WHITE); (45, BLACK)] with
          | Ok b => in_board_area b 44 && bool_decide (point_color b 44 = Ok BLACK)
          | _ => false
          end = true) as Hc by (vm_compute; reflexivity).
  destruct (sample_board 9 [(44, BLACK); (89, WHITE); (45, BLACK)]) as [b| |] eqn:E;
    [|discriminate Hc..].
  apply andb_true_iff in Hc as (Ha & Hp). apply bool_decide_eq_true in Hp.
  exists b. split; [reflexivity|]. split; [exact Ha|]. split; [exact Hp|].
  destruct (liberty_statistics_exact sample_table sample_table_shaped b 44
              (reachable_built _ _ (sample_board_reachable 9 _ b ltac:(lia) E))
              Ha (or_introl Hp)) as (ch & H1 & H2 & _).
  exists ch. split; [exact H1|exact H2].
Defined.

(** The first move of a game. *)
Lemma legal_move_plays_witness :
  exists b, sample_board 9 [] = Ok b /\ (BLACK = BLACK \/ BLACK = WHITE) /\
    is_legal_move b 22 BLACK = Ok true /\
    exists b', play sample_table b 22 BLACK = Ok b'.
Proof.
  assert (match sample_board 9 [] with
          | Ok b => bool_decide (is_legal_move b 22 BLACK = Ok true)
          | _ => false
          end = true) as Hc by (vm_compute; reflexivity).
  destruct (sample_board 9 []) as [b| |] eqn:E; [|discriminate Hc..].
  apply bool_decide_eq_true in Hc.
  exists b. split; [reflexivity|]. split; [left; reflexivity|]. split; [exact Hc|].
  destruct (legal_move_plays sample_table sample_table_shaped b 22 BLACK
              (reachable_built _ _ (sample_board_reachable 9 _ b ltac:(lia) E))
              (or_introl eq_refl) Hc) as (b' & Ep & _).
  exists b'. exact Ep.
Defined.

(** White in the corner between two black stones: a suicide. *)
Lemma play_returns_iff_witness :
  exists b, sample_board 9 [(23, BLACK); (43, BLACK)] = Ok b /\
    (WHITE = BLACK \/ WHITE = WHITE) /\ in_board_area b 22 = true /\
    ((exists b', play sample_table b 22 WHITE = Ok b') <->
     point_color b 22 = Ok EMPTY /\ not_suicide b 22 WHITE).
Proof.
  assert (match sample_board 9 [(23, BLACK); (43, BLACK)] with
          | Ok b => in_board_area b 22
          | _ => false
          end = true) as Hc by (vm_compute; reflexivity).
  destruct (sample_board 9 [(23, BLACK); (43, BLACK)]) as [b| |] eqn:E;
    [|discriminate Hc..].
  exists b. split; [reflexivity|]. split; [right; reflexivity|]. split; [exact Hc|].
  exact (proj1 (play_returns_iff sample_table sample_table_shaped b 22 WHITE
                  (reachable_built _ _ (sample_board_reachable 9 _ b ltac:(lia) E))
                  (or_intror eq_refl) Hc)).
Defined.

(** A black stone in the corner has two liberties. *)
Lemma single_liberty_spec_witness :
  exists b, sample_board 9 [(22, BLACK)] = Ok b /\
    in_board_area b 22 = true /\ point_color b 22 = Ok BLACK /\
    pseudo_liberty b 22 =
      Ok (if decide (length (remove_dups (pseudo_liberties b 22)) = 1%nat) then 1
          else Z.of_nat (length (pseudo_liberties b 22))).
Proof.
  assert (match sample_board 9 [(22, BLACK)] with
          | Ok b => in_board_area b 22 && bool_decide (point_color b 22 = Ok BLACK)
          | _ => false
          end = true) as Hc by (vm_compute; reflexivity).
  destruct (sample_board 9 [(22, BLACK)]) as [b| |] eqn:E; [|discriminate Hc..].
  apply andb_true_iff in Hc as (Ha & Hp). apply bool_decide_eq_true in Hp.
  exists b. split; [reflexivity|]. split; [exact Ha|]. split; [exact Hp|].
  exact (proj1 (proj2 (single_liberty_spec sample_table sample_table_shaped b 22
                  (reachable_built _ _ (sample_board_reachable 9 _ b ltac:(lia) E))
                  Ha (or_introl Hp)))).
Defined.

(** * The constructor on sizes the grid has no room for *)

Lemma getitem_cases {A} (l : list A) (i : Z) :
  (exists x, getitem l i = Ok x) \/ getitem l i = Raise IndexError.
Proof.
  unfold getitem. destruct (py_index (length l) i) as [k|]; [|by right].
  destruct (l !! k); [left; by eexists|by right].
Qed.

Lemma setitem_cases {A} (l : list A) (i : Z) (x : A) :
  (exists l', setitem l i x = Ok l' /\ length l' = length l) \/
  setitem l i x = Raise IndexError.
Proof.
  unfold setitem. destruct (py_index (length l) i) as [k|]; [|by right].
  left. eexists. split; [done|]. apply length_insert.
Qed.

(** An assignment to the vertex or chain array keeps the lengths or raises
    [IndexError]. *)
Definition lengths (b : GoBoard) : nat * nat := (length (_board b), length (_chains b)).

Lemma update_vertex_cases b p f :
  (exists b', update_vertex b p f = Ok b' /\ lengths b' = lengths b) \/
  update_vertex b p f = Raise IndexError.
Proof.
  unfold update_vertex.
  destruct (getitem_cases (_board b) p) as [(v & ->) | -> ]; [|by right]. ok.
  destruct (setitem_cases (_board b) p (f v)) as [(l' & -> & Hl) | -> ]; [|by right]. ok.
  left. eexists. split; [done|]. unfold lengths. simpl. by rewrite Hl.
Qed.

Lemma update_chain_at_cases b p f :
  (exists b', update_chain_at b p f = Ok b' /\ lengths b' = lengths b) \/
  update_chain_at b p f = Raise IndexError.
Proof.
  unfold update_chain_at.
  destruct (getitem_cases (_chains b) p) as [(v & ->) | -> ]; [|by right]. ok.
  destruct (setitem_cases (_chains b) p (f v)) as [(l' & -> & Hl) | -> ]; [|by right]. ok.
  left. eexists. split; [done|]. unfold lengths. simpl. by rewrite Hl.
Qed.

(** A loop that raises at [x] at the latest. *)
Lemma for_each_raises {A S} (P : S -> Prop) (l1 : list A) (x : A) (l2 : list A)
    (body : S -> A -> res S) (s : S) (e : exn) :
  P s ->
  (forall s y, P s -> (exists s', body s y = Ok s' /\ P s') \/ body s y = Raise e) ->
  (forall s, P s -> body s x = Raise e) ->
  for_each (l1 ++ x :: l2) body s = Raise e.
Proof.
  intros Hs Hstep Hx. revert s Hs. induction l1 as [|y l1 IH]; intros s Hs.
  - simpl. by rewrite (Hx s Hs).
  - simpl. destruct (Hstep s y Hs) as [(s' & -> & Hs') | -> ]; [|done]. ok. by apply IH.
Qed.

Lemma update_vertex_out b p f :
  Z.of_nat (length (_board b)) < p -> update_vertex b p f = Raise IndexError.
Proof.
  intros Hp. unfold update_vertex, getitem, py_index.
  rewrite !bool_decide_eq_false_2 by lia. done.
Qed.

(** X14: the constructor returns a board for every size up to 19 (one
    without points for a size below 1), and raises [IndexError] for every
    larger size: the grid of 21 x 21 cells has room for 19 rows and the
    guards around them, and nothing checks the argument. *)
Theorem constructor_bounds (size : Z) :
  (size <= 19 -> exists b, GoBoard__init__ size = Ok b /\ _board_size b = size) /\
  (19 < size -> GoBoard__init__ size = Raise IndexError).
Proof.
  split.
  - intros Hs. destruct (GoBoard__init__spec size Hs) as (b & E & _ & _ & Hsz & _).
    by exists b.
  - intros Hs. destruct (decide (size = 20)) as [->|Hne]; [by vm_compute|].
    assert (442 ∈ board_points size) as Hin.
    { unfold board_points. apply list_elem_of_bind. exists 20.
      split; [|apply elem_of_range; lia].
      apply list_elem_of_bind. exists 0. split; [|apply elem_of_range; lia].
      apply list_elem_of_singleton. done. }
    apply list_elem_of_split in Hin as (l1 & l2 & Hl).
    unfold GoBoard__init__. rewrite Hl.
    rewrite (for_each_raises (fun b => lengths b = (441%nat, 441%nat)) l1 442 l2 _ _ IndexError).
    + done.
    + unfold lengths, fresh_board. cbn [_board _chains].
      by rewrite !length_fmap, !length_range.
    + intros b p Hb.
      destruct (update_vertex_cases b p (Vertex.with_color EMPTY)) as [(b1 & -> & H1) | -> ];
        [|by right]. ok.
      destruct (update_chain_at_cases b1 p Chain.reset) as [(b2 & -> & H2) | -> ];
        [|by right].
      left. exists b2. split; [done|]. congruence.
    + intros b Hb. rewrite update_vertex_out; [done|].
      unfold lengths in Hb. injection Hb as -> _. lia.
Qed.

(** * Boards from diagrams *)

(** What a loop leaves when every pass keeps [P] or raises within [E]. *)
Lemma for_each_outcome {A S} (P : S -> Prop) (E : exn -> Prop) (l : list A)
    (body : S -> A -> res S) (s : S) :
  P s ->
  (forall s x, P s -> match body s x with
                      | Ok s' => P s' | Raise e => E e | Timeout => False
                      end) ->
  match for_each l body s with Ok s' => P s' | Raise e => E e | Timeout => False end.
Proof.
  intros Hs Hstep. revert s Hs. induction l as [|x l IH]; intros s Hs; [done|].
  simpl. specialize (Hstep s x Hs). destruct (body s x) as [s'|e|]; [|done..].
  ok. by apply IH.
Qed.

Section DiagramBoards.
Variable ZOBRIST : list (list Z).
Hypothesis HZ : table_shaped ZOBRIST.

(** [play] on an index from 0 returns, for [PASS] and for points of the
    board, or raises: its loops end. *)
Lemma play_outcome b p c :
  built ZOBRIST b -> c = BLACK \/ c = WHITE -> 0 <= p ->
  match play ZOBRIST b p c with
  | Ok b' => built ZOBRIST b' /\ _board_size b' = _board_size b
  | Raise e => e = AssertionError \/ e = IndexError
  | Timeout => False
  end.
Proof.
  intros Hb Hc Hp. destruct (built_Inv ZOBRIST HZ b Hb) as (Hi & _).
  assert (is_stone c = true) as Hsc by (by destruct Hc as [-> | ->]).
  pose proof (inv_base b Hi) as HB. pose proof (base_shaped b HB) as Hsh.
  destruct (decide (p = PASS)) as [->|Hpass].
  { pose proof (play_PASS ZOBRIST b c) as E. rewrite E. split; [|done].
    apply (built_play ZOBRIST b PASS c); [done|done|by left|done]. }
  destruct (in_board_area b p) eqn:Ha.
  - destruct (decide (colr b p = EMPTY)) as [Hpe|Hpe].
    + destruct (play_spec ZOBRIST HZ b p c Hi Hsc Hpe)
        as (b3 & b4 & caps & ko & _ & _ & _ & _ & _ & _ & _ & _ & _ & Eplay).
      destruct (play ZOBRIST b p c) as [b'|e|] eqn:E.
      * split; [apply (built_play ZOBRIST b p c); [done|done|by right|done]|].
        by destruct (play_ko ZOBRIST HZ b p c b' Hi Hc Hpe E) as (_ & _ & _ & _ & _ & ? & _).
      * destruct (0 <? _); [done|]. injection Eplay as ->. by left.
      * by destruct (0 <? _).
    + rewrite (play_occupied ZOBRIST b p c Hi Ha Hpe). by left.
  - unfold play. apply Z.eqb_neq in Hpass. rewrite Hpass.
    destruct (decide (p < 441)) as [Hlt|Hge].
    + unfold vertex.
      rewrite getitem_Ok by (destruct Hsh as (-> & _); unfold NPOINTS; lia). ok.
      change (_board b !!! Z.to_nat p) with (vtx b p).
      assert (colr b p = GUARD) as Hg.
      { destruct (decide (colr b p = GUARD)) as [|Hng]; [done|].
        apply (base_area b HB) in Hng. congruence. }
      change (Vertex.color (vtx b p)) with (colr b p). rewrite Hg. by left.
    + unfold vertex, getitem, py_index. destruct Hsh as (-> & _).
      rewrite !bool_decide_eq_false_2 by (unfold NPOINTS; lia). by right.
Qed.

(** The boards of [create_board], and how it may fail. *)
Definition diagram_board (b : GoBoard) : Prop := built ZOBRIST b /\ _board_size b = 19.
Definition diagram_error (e : exn) : Prop := e = AssertionError \/ e = IndexError.

Lemma create_board_char_outcome row st a :
  0 <= row -> 0 <= st.1.1 /\ diagram_board st.2 ->
  match create_board_char ZOBRIST row st a with
  | Ok st' => 0 <= st'.1.1 /\ diagram_board st'.2
  | Raise e => diagram_error e
  | Timeout => False
  end.
Proof.
  destruct st as [[col started] b]. cbn [fst snd]. intros Hrow (Hcol & Hb & Hsz).
  unfold create_board_char.
  destruct (Ascii.eqb a " ") eqn:E1.
  { destruct started; cbn; [by left|]. by split. }
  assert (0 <= point_from_2d row col) as Hpt
    by (unfold point_from_2d, VIRTUAL_BOARD_SIZE; lia).
  destruct (Ascii.eqb a "X") eqn:E2.
  { pose proof (play_outcome b (point_from_2d row col) BLACK Hb (or_introl eq_refl) Hpt)
      as Hplay.
    destruct (play ZOBRIST b _ BLACK) as [bp|e|]; [|done..].
    cbn. split; [lia|]. destruct Hplay as (? & ?). split; [done|]. congruence. }
  destruct (Ascii.eqb a "O") eqn:E3.
  { pose proof (play_outcome b (point_from_2d row col) WHITE Hb (or_intror eq_refl) Hpt)
      as Hplay.
    destruct (play ZOBRIST b _ WHITE) as [bp|e|]; [|done..].
    cbn. split; [lia|]. destruct Hplay as (? & ?). split; [done|]. congruence. }
  cbn. split; [lia|]. by split.
Qed.

(** X15: [create_board] returns a 19x19 board that the constructor and
    [play] calls built, or raises [AssertionError] (a stone on a point
    without liberty, or a blank after the first stone of a line) or
    [IndexError] (a stone below the twentieth line); it always ends. *)
Theorem create_board_built (s : string) :
  match create_board ZOBRIST s with
  | Ok b => built ZOBRIST b /\ _board_size b = 19
  | Raise e => e = AssertionError \/ e = IndexError
  | Timeout => False
  end.
Proof.
  unfold create_board.
  destruct (GoBoard__init__spec 19 ltac:(lia)) as (b0 & E0 & _ & _ & Hsz0 & _).
  rewrite E0. ok.
  assert (built ZOBRIST b0) as Hb0 by (by apply (built_init ZOBRIST 19)).
  clear E0.
  assert (0 <= (0, b0).1 /\ diagram_board (0, b0).2) as Hstart.
  { split; [cbn; lia|]. split; [exact Hb0|exact Hsz0]. }
  pose proof (for_each_outcome
                (fun st : Z * GoBoard => 0 <= st.1 /\ diagram_board st.2) diagram_error
                (split_lines s)
                (fun '(row, b) line =>
                   '(_, _, b) ← for_each (list_ascii_of_string line)
                                  (create_board_char ZOBRIST row) (0, false, b);
                   Ok (row + 1, b))
                (0, b0)) as Hloop.
  cbn beta in Hloop.
  match type of Hloop with _ -> _ -> match ?x with _ => _ end =>
    destruct x as [[row b]|e|] end; ok; apply Hloop; try exact Hstart.
  all: intros [row' b'] line (Hrow & Hb'); cbn [fst snd] in *.
  all: pose proof (for_each_outcome
                  (fun st : Z * bool * GoBoard => 0 <= st.1.1 /\ diagram_board st.2)
                  diagram_error
                  (list_ascii_of_string line) (create_board_char ZOBRIST row')
                  (0, false, b') ltac:(by split)
                  (fun st a => create_board_char_outcome row' st a Hrow)) as Hline.
  all: destruct (for_each (list_ascii_of_string line) _ _) as [[[col st] b'']|e'|];
    [|done..].
  all: ok; cbn [fst snd] in *; split; [lia|apply Hline].
Qed.
End DiagramBoards.

(** A white stone between two black ones on the first line. *)
Lemma create_board_built_witness :
  exists b, create_board sample_table "XOX" = Ok b /\ built sample_table b /\
    _board_size b = 19.
Proof.
  pose proof (create_board_built sample_table sample_table_shaped "XOX") as H.
  assert (match create_board sample_table "XOX" with Ok _ => true | _ => false end = true)
    as Hc by (vm_compute; reflexivity).
  destruct (create_board sample_table "XOX") as [b| |]; [|discriminate Hc..].
  exists b. split; [reflexivity|]. exact H.
Defined.

(** * The ko rule is not [play]'s *)

(** A chain whose pseudo-liberties are all the point [q] is in atari. *)
Lemma all_equal_atari b H q :
  Exact b -> stone b H -> hd b H = H ->
  q ∈ liberties b H -> (forall m, m ∈ liberties b H -> m = q) ->
  Chain.in_atari (chn b H) = true.
Proof.
  intros Hex Hs Hfix Hq Hall.
  pose proof (Exact_aggregates b H Hex Hs Hfix) as Hagg.
  destruct (liberties b H) as [|a l] eqn:El; [by apply elem_of_nil in Hq|].
  apply (ChainFacts.in_atari_defect _ _ Hagg), ChainFacts.defect_zero.
  intros y Hy. rewrite (Hall y Hy). symmetry. apply Hall, list_elem_of_here.
Qed.

Lemma opponent_opponent c : is_stone c = true -> opponent (opponent c) = c.
Proof. by destruct c. Qed.

Section KoRetake.
Variable ZOBRIST : list (list Z).
Hypothesis HZ : table_shaped ZOBRIST.

(** X16: after a move into an enemy eye that captured one stone, the ko
    point is the place of that stone and [is_legal_move] refuses the
    opponent's move there, but [play] carries it out: the capturing stone
    stands alone with that one liberty, and [play] never looks at the ko
    point. *)
Theorem ko_retake_not_refused b p c b' x :
  built ZOBRIST b -> c = BLACK \/ c = WHITE -> in_board_area b p = true ->
  play ZOBRIST b p c = Ok b' -> captured_stones b b' = [x] -> enemy_eye b p c ->
  _last_ko_point b' = x /\ is_legal_move b' x (opponent c) = Ok false /\
  exists b'', play ZOBRIST b' x (opponent c) = Ok b''.
Proof.
  intros Hb Hc Hp E Hcap Heye. destruct (built_Inv ZOBRIST HZ b Hb) as (Hi & _).
  assert (is_stone c = true) as Hsc by (by destruct Hc as [-> | ->]).
  pose proof (built_Exact ZOBRIST HZ b Hb) as Hex.
  pose proof (inv_base b Hi) as HB. pose proof (base_shaped b HB) as Hsh.
  pose proof (in_board_area_range b p (base_size b HB) Hp) as Hpr.
  assert (built ZOBRIST b') as Hb'.
  { apply (built_play ZOBRIST b p c b'); [done|done|by right|done]. }
  destruct (built_Inv ZOBRIST HZ b' Hb') as (Hi' & _).
  pose proof (built_Exact ZOBRIST HZ b' Hb') as Hex'.
  pose proof (inv_base b' Hi') as HB'. pose proof (base_shaped b' HB') as Hsh'.
  destruct (decide (colr b p = EMPTY)) as [Hpe|Hpe];
    [|by rewrite (play_occupied ZOBRIST b p c Hi Hp Hpe) in E].
  (* no neighbour of [p] was of its color or empty *)
  assert (forall n, n ∈ neighbours p -> colr b n <> c /\ colr b n <> EMPTY) as Heye'.
  { intros n Hn. specialize (Heye n Hn).
    rewrite point_color_Ok in Heye by (done || by apply (neighbours_on_grid p)).
    destruct Heye as [[= ->]|[= ->]]; by destruct Hc as [-> | ->]. }
  destruct (play_ko ZOBRIST HZ b p c b' Hi Hc Hpe E)
    as (caps0 & Hperm & _ & Hcaps0 & _ & Hsz & Hko).
  rewrite Hcap in Hperm. apply Permutation_singleton_r in Hperm as ->.
  destruct (Hcaps0 x (list_elem_of_here _ _)) as (Hox & Hex0 & Hxp).
  assert (played_in_enemy_eye b p c = true) as Hpe'
    by (by apply played_in_enemy_eye_spec).
  rewrite Hpe' in Hko. simpl in Hko. injection Hko as Hko.
  assert (stone b x) as Hsx by (unfold stone; rewrite Hox; by apply opponent_stone).
  pose proof (stone_on_board b HB x Hsx) as Hxr.
  destruct (play_steps ZOBRIST HZ b p c Hi Hex Hsc Hpe)
    as (b3 & b4 & caps & ko & Hi3 & Hex3 & Hc3 & Hh3 & Hm3 & HC & Hcaps & Hex4 & Eplay).
  rewrite Eplay in E. destruct (0 <? _); [|done]. injection E as <-.
  destruct (after_captures ZOBRIST b p c b3 b4 caps Hi Hsc Hpe Hi3 Hc3 HC)
    as (Hpc & HLc & Hsp4 & Hhp & HsL & HfL & _ & Hkeep & Hvac).
  (* the stone at [x] is the only one captured, and it was next to [p] *)
  assert (forall y, y ∈ caps <-> y = x) as Hcx.
  { intros y. split.
    - intros Hy. destruct (capt_in _ _ _ _ _ _ HC y Hy) as (Hcy & _).
      assert (y <> p) as Hyp by (intros ->; done).
      rewrite Hc3, decide_False in Hcy by done.
      assert (stone b y) as Hsy by (unfold stone; rewrite Hcy; by apply opponent_stone).
      pose proof (stone_on_board b HB y Hsy) as Hyr.
      assert (y ∈ captured_stones b (with_last_ko_point ko b4)) as Hin.
      { apply list_elem_of_filter. split; [|apply elem_of_range; lia].
        rewrite !point_color_grid by (done || lia). split.
        - rewrite Hcy. by destruct Hc as [-> | ->]; [right|left].
        - change (colr (with_last_ko_point ko b4) y) with (colr b4 y).
          by rewrite (capt_color _ _ _ _ _ _ HC), decide_True. }
      rewrite Hcap in Hin. by apply list_elem_of_singleton in Hin.
    - intros ->. destruct (decide (x ∈ caps)) as [|Hout]; [done|]. exfalso.
      change (colr (with_last_ko_point ko b4) x) with (colr b4 x) in Hex0.
      rewrite (capt_color _ _ _ _ _ _ HC), decide_False, Hc3, decide_False in Hex0 by done.
      by apply (stone_not_empty b) in Hsx. }
  assert (x ∈ neighbours p) as Hxn.
  { destruct (proj1 (Hcaps x) (proj2 (Hcx x) eq_refl)) as (_ & _ & n & Hn & Hcn & Hhn).
    assert (n ∈ caps) as Hnc.
    { apply (capt_chain _ _ _ _ _ _ HC x n); [by apply Hcx| |done].
      unfold stone. rewrite Hcn. by apply opponent_stone. }
    apply Hcx in Hnc. by subst n. }
  change (_last_ko_point (with_last_ko_point ko b4)) with ko in *.
  split; [done|].
  assert (colr b4 x = EMPTY) as Hex4' by done.
  assert (x <> PASS) as HxP by (unfold PASS, VIRTUAL_BOARD_SIZE; lia).
  split.
  { destruct (is_legal_move_Inv (with_last_ko_point ko b4) x (opponent c) Hi')
      as (r & Er & Hr).
    { by destruct Hc as [-> | ->]; [right|left]. }
    rewrite Er. f_equal. destruct r; [|done]. exfalso.
    destruct (proj1 Hr eq_refl) as [?|(_ & _ & Hne & _)]; [done|].
    apply Hne. by rewrite <- Hko. }
  apply (play_assertion ZOBRIST HZ _ x (opponent c) Hi' Hex' (opponent_stone c Hsc) Hex0).
  right. right. exists p. split; [by apply neighbours_sym|].
  rewrite (opponent_opponent c Hsc).
  change (colr (with_last_ko_point ko b4) p) with (colr b4 p).
  change (chn (with_last_ko_point ko b4) ?k) with (chn b4 k).
  change (hd (with_last_ko_point ko b4) ?k) with (hd b4 k).
  assert (colr b4 p = c) as Hcp4.
  { by rewrite (capt_color _ _ _ _ _ _ HC), decide_False, Hc3, decide_True. }
  split; [done|].
  pose proof (capt_inv _ _ _ _ _ _ HC) as Hi4. pose proof (inv_base b4 Hi4) as HB4.
  assert (forall m, m ∈ liberties b4 (hd b4 p) <-> m = x) as Hlib.
  { intros m. rewrite (elem_of_liberties b4 (hd b4 p) m HB4). split.
    - intros (y & (Hsy & Hhy) & Hmy & Hvm).
      assert (y ∉ caps) as Hyc.
      { intros Hin. unfold stone in Hsy.
        by rewrite (capt_color _ _ _ _ _ _ HC), decide_True in Hsy. }
      destruct (capt_out _ _ _ _ _ _ HC y Hyc) as (Hhy4 & _).
      assert (member b3 (hd b3 p) y) as Hy3.
      { split; [|congruence]. unfold stone in *.
        by rewrite (capt_color _ _ _ _ _ _ HC), decide_False in Hsy. }
      apply Hm3 in Hy3 as [->|(_ & (n & Hn & Hcn & _)%Exists_exists)].
      2: { by destruct (Heye' n Hn). }
      unfold vacant in Hvm. rewrite (capt_color _ _ _ _ _ _ HC) in Hvm.
      destruct (decide (m ∈ caps)) as [Hin|Hout]; [by apply Hcx|]. exfalso.
      assert (m <> p) as Hmp by (intros ->; by apply (neighbours_irrefl p)).
      rewrite Hc3, decide_False in Hvm by done. by destruct (Heye' m Hmy).
    - intros ->. exists p. split; [done|]. split; [done|]. done. }
  apply (all_equal_atari b4 (hd b4 p) x Hex4 HsL HfL).
  - by apply Hlib.
  - intros m. apply Hlib.
Qed.
End KoRetake.

(** The ko of the repository's tests: White may retake at once as far as
    [play] goes. *)
Lemma ko_retake_not_refused_witness :
  exists b b',
    sample_board 9 [(45, BLACK); (65, BLACK); (87, BLACK);
                    (46, WHITE); (66, WHITE); (68, WHITE); (88, WHITE)] = Ok b /\
    (BLACK = BLACK \/ BLACK = WHITE) /\ in_board_area b 67 = true /\
    play sample_table b 67 BLACK = Ok b' /\
    captured_stones b b' = [66] /\ enemy_eye b 67 BLACK /\
    is_legal_move b' 66 WHITE = Ok false /\
    exists b'', play sample_table b' 66 WHITE = Ok b''.
Proof.
  assert (match sample_board 9 [(45, BLACK); (65, BLACK); (87, BLACK);
                                (46, WHITE); (66, WHITE); (68, WHITE); (88, WHITE)] with
          | Ok b => in_board_area b 67 &&
                    forallb (fun n => bool_decide (point_color b n = Ok WHITE))
                      (neighbours 67) &&
                    match play sample_table b 67 BLACK with
                    | Ok b' => bool_decide (captured_stones b b' = [66])
                    | _ => false
                    end
          | _ => false
          end = true) as Hc by (vm_compute; reflexivity).
  destruct (sample_board 9 _) as [b| |] eqn:E; [|discriminate Hc..].
  apply andb_true_iff in Hc as (Hc & Hp). apply andb_true_iff in Hc as (Ha & Hn).
  destruct (play sample_table b 67 BLACK) as [b'| |] eqn:Ep; [|discriminate Hp..].
  apply bool_decide_eq_true in Hp.
  assert (enemy_eye b 67 BLACK) as Heye.
  { intros n Hin. left. rewrite forallb_forall in Hn.
    eapply bool_decide_eq_true_1, Hn. apply list_elem_of_In, Hin. }
  destruct (ko_retake_not_refused sample_table sample_table_shaped b 67 BLACK b' 66
              (reachable_built _ _ (sample_board_reachable 9 _ b ltac:(lia) E))
              (or_introl eq_refl) Ha Ep Hp Heye) as (_ & Hill & Hplay).
  exists b, b'. split; [reflexivity|]. split; [left; reflexivity|]. split; [exact Ha|].
  split; [exact Ep|]. split; [exact Hp|]. split; [exact Heye|]. split; [exact Hill|].
  exact Hplay.
Defined.

(** * The benchmarks of [go_board_benchmark.py]

    A benchmark object holds a board ([self._board]) and, for [PlayUndo],
    a move ([self._move]) that [is_legal_move] accepted for Black; what is
    timed is its method [__call__], which works on a clone. *)

Lemma heap_point_color L h b p :
  repr L h b -> Heap.point_color (root L) p h = (h, point_color b p).
Proof.
  intros Hr. unfold Heap.point_color, point_color.
  rewrite hbind_unfold, (heap_vertex L h b p Hr). by destruct (vertex b p).
Qed.

Module Benchmark.
Section Calls.
Variable ZOBRIST : list (list Z).
(** The builtin [hash], which reduces what [__hash__] returns to the width
    of a machine word. *)
Variable builtin_hash : Z -> Z.

(** [hash(board)] *)
Definition hash (r : nat) : Heap.hm Z :=
  o ← Heap.self r; mret (builtin_hash (Heap.o_zobrist_hash o)).

(** [PlayUndo.__call__], for the attributes [_board] and [_move]. *)
Definition PlayUndo__call__ (board : nat) (move : Point) : Heap.hm unit :=
  scratch ← Heap.clone board;
  _ ← Heap.play ZOBRIST scratch move BLACK;
  c ← Heap.point_color scratch move;
  Heap.lift (assert (bool_decide (c = BLACK))).

(** [Copy.__call__] *)
Definition Copy__call__ (board : nat) : Heap.hm unit :=
  scratch ← Heap.clone board;
  hs ← hash scratch;
  hb ← hash board;
  Heap.lift (assert (bool_decide (hs = hb))).
End Calls.
End Benchmark.

Section Benchmarks.
Variable ZOBRIST : list (list Z).
Hypothesis HZ : table_shaped ZOBRIST.
Variable builtin_hash : Z -> Z.

(** The stone of a move that returned is on the board. *)
Lemma play_stone b p c b' :
  Inv b -> is_stone c = true -> in_board_area b p = true ->
  play ZOBRIST b p c = Ok b' -> colr b' p = c.
Proof.
  intros Hi Hc Hp E.
  destruct (decide (colr b p = EMPTY)) as [Hpe|Hpe];
    [|by rewrite (play_occupied ZOBRIST b p c Hi Hp Hpe) in E].
  destruct (play_spec ZOBRIST HZ b p c Hi Hc Hpe)
    as (b3 & b4 & caps & ko & _ & _ & Hi3 & Hc3 & _ & _ & HC & _ & _ & Eplay).
  rewrite Eplay in E. destruct (0 <? _); [|done]. injection E as <-.
  change (colr (with_last_ko_point ko b4) p) with (colr b4 p).
  assert (p ∉ caps) as Hpc.
  { intros Hin. destruct (capt_in _ _ _ _ _ _ HC p Hin) as (Hcp & _).
    rewrite Hc3, decide_True in Hcp by done. by apply (opponent_ne c). }
  rewrite (capt_color _ _ _ _ _ _ HC), decide_False by done.
  by rewrite Hc3, decide_True.
Qed.

(** X17: a call of the [PlayUndo] benchmark on a board built by the
    constructor and [play] calls, with a move on the board that
    [is_legal_move] accepted for Black, returns without raising (its
    assertion holds), and the benchmark's board holds the values it held:
    the move was played on a clone, so every call does the same work. *)
Theorem PlayUndo_call L h b move :
  NoDup (locs L) -> repr L h b -> built ZOBRIST b ->
  is_legal_move b move BLACK = Ok true -> move <> PASS ->
  exists h', Benchmark.PlayUndo__call__ ZOBRIST (root L) move h = (h', Ok tt) /\
    repr L h' b.
Proof.
  intros HL Hr Hb Hl Hm. destruct (built_Inv ZOBRIST HZ b Hb) as (Hi & _).
  pose proof (inv_base b Hi) as HB.
  assert (in_board_area b move = true) as Ha
    by (by destruct (is_legal_move_on_board b move BLACK Hl)).
  destruct (heap_clone L h b HL Hr (base_shaped b HB) (base_size b HB))
    as (h1 & L1 & Ec & HL1 & Hr0 & Hr1 & Hdisj).
  assert (exists b', play ZOBRIST b move BLACK = Ok b') as (b' & Ep).
  { destruct (is_legal_move_Inv b move BLACK Hi (or_introl eq_refl)) as (r & Er & Hr').
    rewrite Er in Hl. injection Hl as ->.
    destruct (proj1 Hr' eq_refl) as [?|(_ & Hpe & _ & Hns)]; [done|].
    pose proof (in_board_area_range b move (base_size b HB) Ha) as Hpr.
    rewrite point_color_Ok in Hpe by (apply HB || (unfold on_grid; lia)).
    injection Hpe as Hpe.
    apply (play_assertion ZOBRIST HZ b move BLACK Hi (built_Exact ZOBRIST HZ b Hb)
             eq_refl Hpe).
    by apply not_suicide_safe. }
  destruct (heap_play ZOBRIST L1 h1 b move BLACK b' HL1 Hr1 Ep) as (h2 & Eh & Hr2 & Hf).
  assert (Inv b') as Hi'.
  { apply (play_preserves ZOBRIST HZ b move BLACK b'); try done.
    - by apply (built_Inv ZOBRIST HZ).
    - by right. }
  assert (point_color b' move = Ok BLACK) as Epc.
  { pose proof (in_board_area_range b move (base_size b HB) Ha) as Hpr.
    rewrite point_color_Ok by (apply Hi' || (unfold on_grid; lia)).
    by rewrite (play_stone b move BLACK b' Hi eq_refl Ha Ep). }
  exists h2. split.
  - unfold Benchmark.PlayUndo__call__.
    rewrite (hbind_Ok _ _ h h1 (root L1) Ec), (hbind_Ok _ _ h1 h2 tt Eh).
    rewrite hbind_unfold, (heap_point_color L1 h2 b' move Hr2), Epc. done.
  - apply (repr_frame L1 L h1 h2 b Hf Hr0). done.
Qed.

(** X18: a call of the [Copy] benchmark returns without raising on every
    board whose arrays have their 441 entries and whose size is at most 19:
    the clone has the hash of the board, which holds the values it held. *)
Theorem Copy_call L h b :
  NoDup (locs L) -> repr L h b -> shaped b -> _board_size b <= 19 ->
  exists h', Benchmark.Copy__call__ builtin_hash (root L) h = (h', Ok tt) /\ repr L h' b.
Proof.
  intros HL Hr Hsh Hsz.
  destruct (heap_clone L h b HL Hr Hsh Hsz) as (h1 & L1 & Ec & HL1 & Hr0 & Hr1 & Hdisj).
  exists h1. split; [|done].
  unfold Benchmark.Copy__call__, Benchmark.hash.
  rewrite (hbind_Ok _ _ h h1 (root L1) Ec).
  rewrite !hbind_unfold, (heap_self L1 h1 b Hr1). cbn [mret Heap.hm_ret].
  rewrite !hbind_unfold, (heap_self L h1 b Hr0). cbn [mret Heap.hm_ret].
  unfold Heap.lift. by rewrite bool_decide_eq_true_2.
Qed.
End Benchmarks.

(** The first move of a game on the new 9x9 board, played on a clone. *)
Lemma PlayUndo_call_witness :
  exists h L b,
    NoDup (locs L) /\ repr L h b /\ built sample_table b /\
    is_legal_move b 22 BLACK = Ok true /\ 22 <> PASS /\
    exists h', Benchmark.PlayUndo__call__ sample_table (root L) 22 h = (h', Ok tt) /\
      repr L h' b.
Proof.
  assert (match GoBoard__init__ 9 with
          | Ok b => bool_decide (is_legal_move b 22 BLACK = Ok true)
          | _ => false
          end = true) as Hc by (vm_compute; reflexivity).
  destruct (heap_init 9 [] ltac:(lia)) as (h & L & b & _ & Eb & HL & Hr & _).
  rewrite Eb in Hc. apply bool_decide_eq_true in Hc.
  assert (built sample_table b) as Hb.
  { apply (built_init sample_table 9 b); [lia|exact Eb]. }
  clear Eb.
  assert (22 <> PASS) as Hne by (intros [=]).
  exists h, L, b. split; [exact HL|]. split; [exact Hr|]. split; [exact Hb|].
  split; [exact Hc|]. split; [exact Hne|].
  exact (PlayUndo_call sample_table sample_table_shaped L h b 22 HL Hr Hb Hc Hne).
Defined.

(** The new 9x9 board is copied. *)
Lemma Copy_call_witness :
  exists h L b,
    NoDup (locs L) /\ repr L h b /\ shaped b /\ _board_size b <= 19 /\
    exists h', Benchmark.Copy__call__ (fun z => z mod 2305843009213693951) (root L) h
               = (h', Ok tt) /\ repr L h' b.
Proof.
  destruct (heap_init 9 [] ltac:(lia)) as (h & L & b & _ & Eb & HL & Hr & _).
  destruct (GoBoard__init__spec 9 ltac:(lia)) as (b1 & Eb1 & Hi & _ & Hsz & _).
  rewrite Eb in Eb1. injection Eb1 as <-. clear Eb.
  pose proof (base_shaped b (inv_base b Hi)) as Hsh.
  assert (_board_size b <= 19) as Hle by (rewrite Hsz; lia).
  exists h, L, b. split; [exact HL|]. split; [exact Hr|]. split; [exact Hsh|].
  split; [exact Hle|].
  exact (Copy_call (fun z => z mod 2305843009213693951) L h b HL Hr Hsh Hle).
Defined.

(** * The capture rule *)

Section CaptureRule.
Variable ZOBRIST : list (list Z).
Hypothesis HZ : table_shaped ZOBRIST.

(** The opposing chains next to [p] that the stone at [p] leaves without
    a liberty are those that were in atari. *)
Lemma dead_iff_atari b p c b3 x :
  Inv b -> Exact b -> is_stone c = true -> colr b p = EMPTY ->
  Inv b3 -> Exact b3 ->
  (forall q, colr b3 q = if decide (q = p) then c else colr b q) ->
  (forall q, hd b3 q =
     if decide (q = p \/ joins b c (neighbours p) q) then hd b3 p else hd b q) ->
  dead_next_to b3 c (neighbours p) x <->
  colr b x = opponent c /\
  exists n, n ∈ neighbours p /\ colr b n = opponent c /\ hd b n = hd b x /\
            Chain.in_atari (chn b (hd b n)) = true.
Proof.
  intros Hi Hex Hc Hpe Hi3 Hex3 Hc3 Hh3.
  pose proof (inv_base b Hi) as HB.
  pose proof (opponent_stone c Hc) as Hoc.
  assert (forall y, colr b y = opponent c -> y <> p) as Hnp.
  { intros y Hy ->. rewrite Hpe in Hy. by destruct c. }
  assert (forall y, colr b3 y = opponent c <-> colr b y = opponent c) as Hopp.
  { intros y. rewrite Hc3. destruct (decide (y = p)) as [->|]; [|done].
    rewrite Hpe. split; [intros Hcc; by destruct (opponent_ne c Hc)|by destruct c]. }
  (* an opposing stone, its chain before and after the stone is placed *)
  assert (forall y, colr b y = opponent c ->
            stone b (hd b y) /\ hd b (hd b y) = hd b y /\ hd b3 y = hd b y /\
            stone b3 (hd b y) /\ hd b3 (hd b y) = hd b y /\
            (forall z, member b3 (hd b y) z <-> member b (hd b y) z)) as Hchain.
  { intros y Hy. assert (stone b y) as Hsy by (unfold stone; by rewrite Hy).
    destruct (inv_head b Hi y Hsy) as (Hch & Hfix).
    assert (stone b (hd b y)) as HsH by (unfold stone; by rewrite Hch).
    destruct (opposing_chain_placed b p c b3 (hd b y) Hi Hc Hpe Hi3 Hc3 Hh3 HsH Hfix
                ltac:(congruence)) as (HsH3 & HfH3 & Hmem3).
    split; [done|]. split; [done|]. split; [by apply (Hmem3 y)|]. done. }
  (* the count of its liberties afterwards *)
  assert (forall n, n ∈ neighbours p -> colr b n = opponent c ->
            Chain.num_pseudo_liberties (chn b3 (hd b n)) = 0 <->
            Chain.in_atari (chn b (hd b n)) = true) as Hcount.
  { intros n Hn Hcn. destruct (Hchain n Hcn) as (HsH & HfH & Hhn3 & HsH3 & HfH3 & Hmem3).
    assert (p ∈ liberties b (hd b n)) as Hlib.
    { apply elem_of_liberties; [done|]. exists n. split; [|split].
      - split; [unfold stone; by rewrite Hcn|done].
      - by apply neighbours_sym.
      - done. }
    rewrite (Exact_count b3 _ Hex3 HsH3 HfH3). split.
    - intros Hz. destruct (Chain.in_atari (chn b (hd b n))) eqn:Hat; [done|]. exfalso.
      destruct (not_atari_other b (hd b n) p HB Hex HsH HfH Hlib Hat) as (m & Hm & Hmp).
      apply elem_of_liberties in Hm as (z & Hz' & Hmz & Hvm); [|done].
      assert (0 < tally (member b3 (hd b n)) (vacant b3) Count); [|lia].
      apply tally_pos. exists z, m. split; [by apply (member_grid b (hd b n))|].
      split; [by apply Hmem3|]. split; [done|].
      unfold vacant. by rewrite Hc3, decide_False.
    - intros Hat. apply tally_none. intros z m Hz%Hmem3 Hm Hvm.
      unfold vacant in Hvm. rewrite Hc3 in Hvm.
      destruct (decide (m = p)) as [->|Hmp]; [subst c; done|]. apply Hmp.
      apply (atari_all b (hd b n) p HB Hex HsH HfH Hlib Hat).
      apply elem_of_liberties; [done|]. by exists z. }
  unfold dead_next_to. split.
  - intros (Hcx & Hz & n & Hn & Hcn & Hhn). apply Hopp in Hcx. apply Hopp in Hcn.
    destruct (Hchain x Hcx) as (_ & _ & Hhx3 & _).
    destruct (Hchain n Hcn) as (_ & _ & Hhn3 & _).
    assert (hd b n = hd b x) as Hsame by congruence.
    split; [done|]. exists n. split; [done|]. split; [done|]. split; [done|].
    apply (Hcount n Hn Hcn). by rewrite Hsame, <- Hhx3.
  - intros (Hcx & n & Hn & Hcn & Hsame & Hat).
    destruct (Hchain x Hcx) as (_ & _ & Hhx3 & _).
    destruct (Hchain n Hcn) as (_ & _ & Hhn3 & _).
    split; [by apply Hopp|]. split.
    + rewrite Hhx3, <- Hsame. by apply (Hcount n Hn Hcn).
    + exists n. split; [done|]. split; [by apply Hopp|]. congruence.
Qed.

(** X19: the stones that a move takes off the board are the stones of
    the opposing chains next to the point played that were in atari: a
    chain is captured exactly when the move takes its last liberty ([x] is
    an index from 0: a negative one would read the arrays from the end). *)
Theorem captures_are_atari_chains b p c b' x :
  built ZOBRIST b -> c = BLACK \/ c = WHITE -> in_board_area b p = true ->
  play ZOBRIST b p c = Ok b' -> 0 <= x < VIRTUAL_BOARD_POINTS ->
  x ∈ captured_stones b b' <->
  point_color b x = Ok (opponent c) /\
  exists n, n ∈ neighbours p /\ point_color b n = Ok (opponent c) /\
            chain_head b n = chain_head b x /\ in_atari b n = Ok true.
Proof.
  intros Hb Hc Hp E Hxr. destruct (built_Inv ZOBRIST HZ b Hb) as (Hi & _).
  change VIRTUAL_BOARD_POINTS with 441 in Hxr.
  assert (is_stone c = true) as Hsc by (by destruct Hc as [-> | ->]).
  pose proof (opponent_stone c Hsc) as Hoc.
  pose proof (built_Exact ZOBRIST HZ b Hb) as Hex.
  pose proof (inv_base b Hi) as HB. pose proof (base_shaped b HB) as Hsh.
  pose proof (in_board_area_range b p (base_size b HB) Hp) as Hpr.
  destruct (decide (colr b p = EMPTY)) as [Hpe|Hpe];
    [|by rewrite (play_occupied ZOBRIST b p c Hi Hp Hpe) in E].
  destruct (play_steps ZOBRIST HZ b p c Hi Hex Hsc Hpe)
    as (b3 & b4 & caps & ko & Hi3 & Hex3 & Hc3 & Hh3 & Hm3 & HC & Hcaps & Hex4 & Eplay).
  rewrite Eplay in E. destruct (0 <? _); [|done]. injection E as <-.
  pose proof (base_shaped b4 (inv_base b4 (capt_inv _ _ _ _ _ _ HC))) as Hsh4.
  (* the stones taken off are those of [caps] *)
  assert (x ∈ captured_stones b (with_last_ko_point ko b4) <-> x ∈ caps) as ->.
  { unfold captured_stones, grid_points. rewrite list_elem_of_filter, elem_of_range. split.
    - intros ((Hst & Hem) & Hx).
      rewrite point_color_grid in Hst, Hem by done.
      change (colr (with_last_ko_point ko b4) x) with (colr b4 x) in Hem.
      injection Hem as Hem. rewrite (capt_color _ _ _ _ _ _ HC) in Hem.
      destruct (decide (x ∈ caps)) as [|Hout]; [done|]. exfalso.
      rewrite Hc3 in Hem. destruct (decide (x = p)) as [->|]; [by subst c|].
      rewrite Hem in Hst. by destruct Hst.
    - intros Hx. destruct (capt_in _ _ _ _ _ _ HC x Hx) as (Hcx & _).
      assert (x <> p) as Hxp.
      { intros ->. rewrite Hc3, decide_True in Hcx by done. by apply (opponent_ne c). }
      rewrite Hc3, decide_False in Hcx by done.
      split; [|lia]. rewrite !point_color_grid by (done || lia). split.
      + rewrite Hcx. by destruct Hc as [-> | ->]; [right|left].
      + change (colr (with_last_ko_point ko b4) x) with (colr b4 x).
        by rewrite (capt_color _ _ _ _ _ _ HC), decide_True. }
  rewrite Hcaps, (dead_iff_atari b p c b3 x Hi Hex Hsc Hpe Hi3 Hex3 Hc3 Hh3).
  (* the same, read with the accessors of the class *)
  assert (forall y, colr b y = opponent c -> on_grid y /\ stone b y) as Hon.
  { intros y Hy. assert (stone b y) as Hsy by (unfold stone; by rewrite Hy).
    split; [|done]. by apply on_board_grid, (stone_on_board b). }
  split.
  - intros (Hcx & n & Hn & Hcn & Hsame & Hat).
    destruct (Hon x Hcx) as (Hgx & _). destruct (Hon n Hcn) as (Hgn & Hsn).
    split; [by rewrite point_color_Ok, Hcx|]. exists n. split; [done|].
    split; [by rewrite point_color_Ok, Hcn|].
    split; [by rewrite !chain_head_Ok, Hsame|].
    by rewrite (in_atari_Ok b n Hi Hsn), Hat.
  - intros (Hcx & n & Hn & Hcn & Hsame & Hat).
    assert (on_grid n) as Hgn by (by apply (neighbours_on_grid p)).
    rewrite point_color_Ok in Hcn by done. injection Hcn as Hcn.
    destruct (Hon n Hcn) as (_ & Hsn).
    rewrite (in_atari_Ok b n Hi Hsn) in Hat. injection Hat as Hat.
    rewrite (chain_head_Ok b Hsh n Hgn) in Hsame.
    rewrite point_color_grid in Hcx by done. injection Hcx as Hcx.
    rewrite chain_head_grid in Hsame by done. injection Hsame as Hsame.
    split; [done|]. by exists n.
Qed.
End CaptureRule.

(** Black takes the white stone in the corner, which was in atari. *)
Lemma captures_are_atari_chains_witness :
  exists b b',
    sample_board 9 [(22, WHITE); (23, BLACK)] = Ok b /\
    (BLACK = BLACK \/ BLACK = WHITE) /\ in_board_area b 43 = true /\
    play sample_table b 43 BLACK = Ok b' /\
    0 <= 22 < VIRTUAL_BOARD_POINTS /\
    (22 ∈ captured_stones b b' <->
     point_color b 22 = Ok (opponent BLACK) /\
     exists n, n ∈ neighbours 43 /\ point_color b n = Ok (opponent BLACK) /\
               chain_head b n = chain_head b 22 /\ in_atari b n = Ok true).
Proof.
  assert (0 <= 22 < VIRTUAL_BOARD_POINTS) as Hr
    by (unfold VIRTUAL_BOARD_POINTS, VIRTUAL_BOARD_SIZE; lia).
  assert (match sample_board 9 [(22, WHITE); (23, BLACK)] with
          | Ok b => in_board_area b 43 &&
                    match play sample_table b 43 BLACK with Ok _ => true | _ => false end
          | _ => false
          end = true) as Hc by (vm_compute; reflexivity).
  destruct (sample_board 9 [(22, WHITE); (23, BLACK)]) as [b| |] eqn:E;
    [|discriminate Hc..].
  apply andb_true_iff in Hc as (Ha & Hp).
  destruct (play sample_table b 43 BLACK) as [b'| |] eqn:Ep; [|discriminate Hp..].
  exists b, b'. split; [reflexivity|]. split; [left; reflexivity|]. split; [exact Ha|].
  split; [exact Ep|].
  split; [exact Hr|].
  exact (captures_are_atari_chains sample_table sample_table_shaped b 43 BLACK b' 22
           (reachable_built _ _ (sample_board_reachable 9 _ b ltac:(lia) E))
           (or_introl eq_refl) Ha Ep Hr).
Defined.
